(* ===== verification/_CoqProject ===== *)
-Q . S2P
Prelude.v
Defs.v
Types.v
Fifo.v
Mem.v
Log.v
Net.v
Sync.v
SyncRuns.v
SyncCopy.v
Barrier.v
Jobs.v
Calls.v
Area.v
AreaProofs.v
SyncInternal.v
Rpc.v
RpcProofs.v
SyncExternal.v
LogRotate.v
MemMsg.v
MemRecv.v
Stat.v
Init.v
Service.v
RpcReturn.v
Boot.v
KvMem.v
Alloc.v
Siphash.v
KvStrings.v
Dict.v
DictBits.v
DictSpec.v
DictProofs.v
DictUpdate.v
DictScan.v
AllocDict.v
AllocDictProofs.v
KvStore.v
KvStoreProofs.v
KvInit.v
KvRoundtrip.v
KvDemo.v
KvLog.v
KvMain.v
Cuckoo.v
CuckooSlots.v
CuckooSpace.v
CuckooProofs.v
CuckooOps.v
CuckooCreate.v
CuckooTable.v
CuckooFull.v
CuckooCount.v
CuckooIter.v
SpinLock.v
RouteDynamic.v
RouteDijkstra.v
Counter.v
Array.v
Monitor.v
MonitorProofs.v
XxHash.v
XxCanonical.v
LbLut.v
Lb.v
LbProofs.v
