(* ===== verification/Prelude.v ===== *)
(** * Tasvir: versioned shared memory, modelled and verified

    ** The program

    Tasvir lets processes on several machines share memory. Memory is divided
    into areas; each has one owner, which writes, and any number of readers.
    A node keeps two copies of every area: the writer changes its own copy and
    reports the lines it touches in a change log; from time to time all threads
    of the node meet at a barrier and copy the logged lines to the readers'
    copy (internal synchronization), and the daemon sends the lines that
    changed to the subscribed nodes (external synchronization). Calls to the
    owner of an area travel as remote procedure calls. The C sources are in
    src/src and src/include/tasvir. Of the applications, src/apps/kvstore is a
    key-value store whose hash table lives in an area, src/apps/cuckoo-map a
    cuckoo hash table for areas, src/apps/openflow a flow table on a copy of it
    with locks, src/apps/routing_dynamic and src/apps/routing_dijkstra compute
    forwarding tables from link costs in areas, src/apps/monitor counts packets
    per connection and host, src/apps/cuckoo-lb balances connections over
    backends, and src/apps/sample counts in step.

    ** Files

    The library:
    - [Prelude]: machine integers, the state-and-fault monad [cmd], tactics and
      the rewriting database [bits]; what the other files share (see below);
    - [Defs], [Types]: include/tasvir/defs.h, include/tasvir/types.h and
      src/tasvir.h: constants, address map, structures, the state [world] of a
      thread, and the class [Dpdk] of the DPDK operations with their documented
      behaviour [DpdkSpec]; [Fifo] is an instance for the examples;
    - [Mem], [Log]: the shared-memory object with its mappings, the vector
      copies of src/utils.h, and [tasvir_log] of include/tasvir/tasvir.h;
    - [Net]: network headers and the transmit loop (src/utils.h, src/service.c);
    - [Sync], with [SyncRuns] and [SyncCopy]: src/sync.c, the walk over a log
      and the copy of its lines; [MemMsg]: the messages it generates;
    - [Barrier], [Jobs], [SyncInternal]: src/sync_internal.c, the barrier and
      the shared jobs one atomic access at a time, and the routines as a whole;
    - [Calls], [Area], [AreaProofs]: src/area.c; [Rpc], [RpcProofs], [RpcReturn]:
      src/rpc.c; [Calls] is the class of operations that breaks the cycle of
      calls;
    - [SyncExternal], [LogRotate], [MemRecv]: src/sync_external.c;
    - [Stat], [Init], [Service]: src/stat.c, src/init.c and src/dpdk.c,
      src/service.c and src/daemon.c; [Service] closes the cycle of calls;
    - [Boot]: the linked library evaluated on the boot of a daemon;
    - [Array]: the C++ array of include/tasvir/array.hpp.

    The key-value store:
    - [KvMem], [KvStrings]: memory of 64-bit words, bytes and C strings in it;
    - [Alloc]: alloc.c; [Siphash]: siphash.c; [Dict]: dict.c and dict.h, with
      [DictBits], [DictSpec], [DictProofs], [DictUpdate], [DictScan];
    - [AllocDict], [AllocDictProofs]: alloc_dict.c; [KvStore], [KvStoreProofs],
      [KvInit], [KvRoundtrip], [KvMain]: main.c; [KvDemo], [KvLog]: a small store.

    The other applications:
    - [Cuckoo]: cuckoo-map/cuckoo_map.h, for the key and value types of the
      class [CuckooTypes]; [CuckooSlots]: the buckets as a table of slots;
      [CuckooSpace]: [MakeSpace]; [CuckooProofs], [CuckooOps], [CuckooCreate]:
      representation and operations; [CuckooTable]: the theorems; [CuckooFull]:
      sequences that may fill the table; [CuckooIter]: iterators;
      [CuckooCount]: cuckoo-map/main.cc and small tables;
    - [SpinLock]: the locks of openflow/cuckoo_map_lock.h, shm_spin_lock.cpp;
    - [RouteDynamic], [RouteDijkstra]: the controllers of routing_dynamic and
      routing_dijkstra and the links their switches write; the C++ priority
      queue is the class [PriorityQueue] with its documented behaviour;
    - [Counter]: sample/counter.cpp; [Monitor], [MonitorProofs]: the packet
      handler of monitor and the merge of its controller, on the cuckoo table;
    - [XxHash], [XxCanonical]: cuckoo-lb/xxhash.c; [LbLut]: generate_lut.h, on
      this hash; [Lb], [LbProofs]: cuckoo-lb/main.cc, on the look-up tables and
      on the cuckoo table with the changes of cuckoo-lb/cuckoo_map.h.

    A C function is a definition of the same name in the monad [cmd W A]: it
    takes the state [W] to a value and a new state or to a fault. Parts of a
    function that a theorem needs to name (a loop, a branch) are definitions of
    their own, called where the code has them. Structures in shared memory are
    words at their offsets; node-local and thread-local ones are records.

    ** Theorems

    - Logging and internal synchronization: [tasvir_log] marks exactly the
      lines of a range; the scan with lzcnt and tzcnt equals a bit-by-bit walk
      and never overflows its list; a scan with its copies moves exactly the
      marked lines. The barrier lets all threads of a round through or none,
      and can always end; across rounds it cannot promise this, nor if the
      numbers of two rounds differ by 1 modulo 2^32. Every chunk of a shared
      job is scanned once and the header updated once, as long as the threads
      have not wrapped the 64-bit offset; with a job_bytes so large that they
      do, a chunk is scanned again.
    - External synchronization: the difference logs cover the history of
      changes, whatever it is, and rotating them keeps this; the logs merged
      for a sync hold all a subscriber is missing; the messages of a run of
      lines, handled in order, reproduce the lines on the receiver. A message
      that follows a lost one is applied all the same.
    - Areas and calls: allocation keeps the children of a container apart and
      named apart; the sizes of an area leave room for its logs; arguments
      survive marshalling; a request is executed with its arguments, and its
      answer goes over the rings of owner, daemon and caller into the caller's
      slot. Queued network messages are sent in order.
    - The whole, as examples that evaluate the linked library: a root daemon
      boots, and its service loop performs both kinds of synchronization; a
      build with assertions does not boot. The barrier of
      the array is one if worker 0 knows the number of workers, which it does
      not; its allocation never returns, and its sum leaves out worker 0.
    - The key-value store: the allocator is a stack; the hash table is a finite
      map, proved against the class [DictHeap] of what its callbacks promise,
      which the store's callbacks implement; a store that is set up and updated
      no more often than its pools allow answers with the last value of a key. A full table, repeated overwrites
      of a key and missing reports to [tasvir_log] are shown to go wrong.
    - The cuckoo table: it refines a finite map and its memory stays
      well-formed although the stack of free entries overlaps entry 0; an
      insertion ends unless a key has second hash value 0 and no entry is free,
      also in a sequence that overfills the table; it reports what it changes
      but the count of entries; iteration visits every entry once; a removal
      reports the wrong bucket.
    - Locks: threads that use [SpinLock] exclude each other and cannot
      deadlock; those that use [SpinLockLazy] do not exclude anyone.
    - Routing: both controllers compute the costs of shortest routes and their
      first hops. Sample: the workers count in step and can always finish,
      however late their copies are. Monitor: every branch of the packet
      handler as an update of two finite maps, counter by counter, and the merge
      of such maps.
    - Load balancer: hashing in pieces equals hashing at once; the look-up
      tables are filled if a step is odd, and the loop may not end otherwise;
      the program waits for the tables of the other processes and serves to its
      end, and every connection keeps its backend.

    ** Bounds and fuel

    Loops that wait or walk pointers take fuel, and running out of it is the
    fault [NoFuel]; theorems state how much is enough (a chain is no longer
    than the number of keys, a scan takes one step per log group) and show that
    the routine returns. Loops bounded by the code use that bound: 64 steps per
    log unit, [len / 1344 + 2] messages for [len] bytes, as many vectors as
    fit. The loop of [AddEntry] needs 2 rounds, or 52 per bucket plus 2 when no
    entry is free; Dijkstra's loop takes 3 hops per switch off its queue; a
    look-up table of length n takes at most (n + 1)^2 passes. The readings of
    the clock and the events that reach a load balancer, calls and copies of
    tables, are lists of any length; its insertions have a bound of their own,
    any number of rounds from 2.
    Integers wrap at their width where the code computes with them. In
    [Barrier], [Jobs], [SpinLock], [Counter] and [Array] any number of threads
    interleave in any order.

    ** Not modelled

    Text output (logging, dumps, statistics lines), the command line and device
    set-up of DPDK, which are answers of the record [boot] or the class [Dpdk];
    caches and memory ordering weaker than sequential consistency; concurrent
    writers inside a routine other than the interleavings of [Barrier] and
    [Jobs] and the argument [env] of [SyncInternal]; the compiler pass and the
    areas of the C++ array; of the key-value store the start-up in main, the
    measurement variant main-putget.c and the text of dictGetStats; of the
    routing applications and the monitor start-up, packet generation and
    publishing; of the load balancer the command line and the naming and
    attaching of areas; of the flow table the lock file and the copy of the
    cuckoo table; the remaining applications, which are benchmarks and adapted
    code.

    ** This file

    What every component file shares:
    - machine integers as [Z] with explicit wrap-around ([u64], [u32], [i32],
      ...), the x86 bit-scan intrinsics the sources use ([lzcnt_u64],
      [tzcnt_u32], [pext_u64]) and a rewriting database [bits] that computes
      [Z.testbit] of every bit operation;
    - [cmd W A], the type of a C routine that works on the state [W]: it
      returns a value and a new state, or faults ([abort()], a failed
      [assert], an out-of-bounds or unmapped access, a division by zero, or more loop
      iterations than the given fuel);
    - [r <| f := v |>], update of one field of a record;
    - generic lemmas on loops, lists, sums over lists and aligned integers. *)
From stdpp Require Import base gmap list numbers.
From Stdlib Require Import ZArith Lia Btauto.

Declare Scope tasvir_scope.
Delimit Scope tasvir_scope with tasvir.
Open Scope tasvir_scope.
Open Scope Z_scope.

(** ** Record updates *)

(** [Eta R] names the fields of [R] once; from it a setter for each
    projection is computed by instance search. *)
Class Eta (R : Type) := eta : R -> R.
Class Setter {R T : Type} (p : R -> T) := mk_setter { set_field : T -> R -> R }.
Arguments mk_setter {R T} p set_field : rename.
Arguments set_field {R T} p {_} v r.

Ltac solve_setter :=
  lazymatch goal with
  | |- @Setter ?R ?T ?p =>
      let e := constr:(_ : Eta R) in
      let e := eval red in e in
      let f := constr:(fun (v : T) (r : R) => ltac:(
        let b := eval cbv beta in (e r) in
        lazymatch b with
        | context C [p r] => let t := context C [v] in exact t
        end)) in
      exact (mk_setter p f)
  end.
#[export] Hint Extern 1 (Setter _) => solve_setter : typeclass_instances.

Notation "r <| p := v |>" := (set_field p v r)
  (at level 1, left associativity, p at level 1, v at level 99) : tasvir_scope.

(** ** Routines: state passing with faults *)

Inductive fault :=
| Abort        (** [abort()] was called *)
| AssertFail   (** an [assert] failed *)
| OutOfBounds  (** an array was indexed out of its bounds *)
| Segv         (** an access outside the mapped regions (NULL included) or misaligned *)
| DivByZero    (** an integer was divided by zero *)
| NoFuel.      (** a loop ran longer than the fuel given to the model *)

Inductive outcome (A : Type) :=
| Done (a : A)
| Fault (f : fault).
Arguments Done {A} a.
Arguments Fault {A} f.

Definition cmd (W A : Type) : Type := W -> outcome (A * W).

#[export] Instance cmd_ret W : MRet (cmd W) := fun A a w => Done (a, w).
#[export] Instance cmd_bind W : MBind (cmd W) := fun A B k c w =>
  match c w with
  | Done (a, w') => k a w'
  | Fault f => Fault f
  end.

Definition fail {W A} (f : fault) : cmd W A := fun _ => Fault f.
Definition getw {W} : cmd W W := fun w => Done (w, w).
Definition gets {W A} (f : W -> A) : cmd W A := fun w => Done (f w, w).
Definition modify {W} (f : W -> W) : cmd W unit := fun w => Done (tt, f w).
Definition when {W} (b : bool) (c : cmd W unit) : cmd W unit :=
  if b then c else mret tt.

(** [for (x in l) body(x)] *)
Fixpoint for_each {W A} (l : list A) (body : A -> cmd W unit) : cmd W unit :=
  match l with
  | [] => mret tt
  | x :: l' => body x;; for_each l' body
  end.

(** [while (test) body], at most [n] iterations. *)
Fixpoint while_c {W} (n : nat) (test : cmd W bool) (body : cmd W unit) : cmd W unit :=
  match n with
  | O => fail NoFuel
  | S n' => b ← test; if (b : bool) then body;; while_c n' test body else mret tt
  end.

(** The big-step judgement used in statements: [c] run in [w] ends normally,
    returning [a] in state [w']. *)
Definition runs {W A} (c : cmd W A) (w : W) (a : A) (w' : W) : Prop :=
  c w = Done (a, w').

Section runs_lemmas.
Context {W : Type}.
Implicit Types w : W.

Lemma runs_bind {A B} (c : cmd W A) (k : A -> cmd W B) w b w2 :
  runs (c ≫= k) w b w2 <-> exists a w1, runs c w a w1 /\ runs (k a) w1 b w2.
Proof.
  unfold runs, mbind, cmd_bind. split.
  - destruct (c w) as [[a w1]|f] eqn:E; [|discriminate]. eauto.
  - intros (a & w1 & -> & ?). done.
Qed.

Lemma bind_runs {A B} (c : cmd W A) (f : A -> cmd W B) w a w' :
  runs c w a w' -> (c ≫= f) w = f a w'.
Proof. unfold runs, mbind, cmd_bind. by intros ->. Qed.

Lemma bind_assoc {A B C} (c : cmd W A) (f : A -> cmd W B) (g : B -> cmd W C) w :
  ((c ≫= f) ≫= g) w = (c ≫= (fun x => f x ≫= g)) w.
Proof. unfold mbind, cmd_bind. destruct (c w) as [[a w']|]; done. Qed.
Lemma bind_ret {A B} (x : A) (f : A -> cmd W B) w : (mret x ≫= f) w = f x w.
Proof. done. Qed.

Lemma runs_gets {A} (f : W -> A) w : runs (gets f) w (f w) w.
Proof. reflexivity. Qed.
Lemma runs_modify (f : W -> W) w : runs (modify f) w tt (f w).
Proof. reflexivity. Qed.
Lemma runs_getw w : runs getw w w w.
Proof. reflexivity. Qed.

Lemma runs_det {A} (c : cmd W A) w a a' w1 w2 :
  runs c w a w1 -> runs c w a' w2 -> a = a' /\ w1 = w2.
Proof. unfold runs. intros -> [= -> ->]. done. Qed.

Lemma for_each_app {A} (l1 l2 : list A) (body : A -> cmd W unit) w :
  for_each (l1 ++ l2) body w = (for_each l1 body;; for_each l2 body) w.
Proof.
  revert w. induction l1 as [|x l1 IH]; intros w; [done|].
  cbn. unfold mbind, cmd_bind. destruct (body x w) as [[a w1]|f]; [|done].
  rewrite IH. done.
Qed.

(** The loop rule: an invariant indexed by the list still to do. *)
Lemma for_each_inv {A} (I : list A -> W -> Prop) (body : A -> cmd W unit) l w :
  I l w ->
  (forall x l' w, I (x :: l') w -> exists w', runs (body x) w tt w' /\ I l' w') ->
  exists w', runs (for_each l body) w tt w' /\ I [] w'.
Proof.
  intros HI Hstep. revert w HI. induction l as [|x l IH]; intros w HI.
  - exists w. split; [done|done].
  - destruct (Hstep x l w HI) as (w1 & H1 & HI1).
    destruct (IH w1 HI1) as (w2 & H2 & HI2).
    exists w2. split; [|done]. apply runs_bind. eauto.
Qed.
End runs_lemmas.

(** ** Machine integers *)

Definition wrap (n z : Z) : Z := z mod 2 ^ n.
Definition u64 (z : Z) : Z := wrap 64 z.
Definition u32 (z : Z) : Z := wrap 32 z.
Definition u16 (z : Z) : Z := wrap 16 z.
Definition u8 (z : Z) : Z := wrap 8 z.
(** The two's complement reading of the low 32 (64) bits. *)
Definition i32 (z : Z) : Z :=
  if wrap 32 z <? 2 ^ 31 then wrap 32 z else wrap 32 z - 2 ^ 32.
Definition i64 (z : Z) : Z :=
  if wrap 64 z <? 2 ^ 63 then wrap 64 z else wrap 64 z - 2 ^ 64.

Definition not64 (z : Z) : Z := u64 (Z.lnot z).
Definition shl64 (z s : Z) : Z := u64 (Z.shiftl z s).
Definition shr64 (z s : Z) : Z := Z.shiftr z s.

(** [_lzcnt_u64], [_tzcnt_u32], [_pext_u64]. *)
Definition lzcnt_u64 (z : Z) : Z := if z =? 0 then 64 else 63 - Z.log2 z.

Fixpoint ctz_from (n : nat) (i z : Z) : Z :=
  match n with
  | O => i
  | S n' => if Z.testbit z i then i else ctz_from n' (i + 1) z
  end.
Definition tzcnt_u32 (z : Z) : Z := ctz_from 32 0 (u32 z).

Fixpoint pext_from (n : nat) (i k v mask : Z) : Z :=
  match n with
  | O => 0
  | S n' =>
      if Z.testbit mask i
      then Z.lor (if Z.testbit v i then Z.shiftl 1 k else 0) (pext_from n' (i + 1) (k + 1) v mask)
      else pext_from n' (i + 1) k v mask
  end.
Definition pext_u64 (v mask : Z) : Z := pext_from 64 0 0 v mask.

(** ** Bit arithmetic *)

Create HintDb tasvir.
Create Rewrite HintDb bits.

Lemma testbit_wrap n z i :
  0 <= n -> 0 <= i -> Z.testbit (wrap n z) i = (i <? n) && Z.testbit z i.
Proof.
  intros Hn Hi. unfold wrap. destruct (Z.ltb_spec i n); simpl.
  - apply Z.mod_pow2_bits_low. lia.
  - apply Z.mod_pow2_bits_high. lia.
Qed.

Lemma testbit_u64 z i : 0 <= i -> Z.testbit (u64 z) i = (i <? 64) && Z.testbit z i.
Proof. apply testbit_wrap. lia. Qed.

Lemma testbit_not64 z i :
  0 <= i -> Z.testbit (not64 z) i = (i <? 64) && negb (Z.testbit z i).
Proof. intros. unfold not64. rewrite testbit_u64, Z.lnot_spec by lia. done. Qed.

Lemma testbit_shl64 z s i :
  0 <= i -> Z.testbit (shl64 z s) i = (i <? 64) && Z.testbit z (i - s).
Proof. intros. unfold shl64. rewrite testbit_u64, Z.shiftl_spec by lia. done. Qed.

Lemma testbit_shr64 z s i : 0 <= i -> Z.testbit (shr64 z s) i = Z.testbit z (i + s).
Proof. intros. unfold shr64. apply Z.shiftr_spec. lia. Qed.

Lemma wrap_range n z : 0 <= n -> 0 <= wrap n z < 2 ^ n.
Proof. intros. apply Z.mod_pos_bound. apply Z.pow_pos_nonneg; lia. Qed.

Lemma wrap_small n z : 0 <= z < 2 ^ n -> wrap n z = z.
Proof. apply Z.mod_small. Qed.

Lemma u64_range z : 0 <= u64 z < 2 ^ 64.
Proof. apply wrap_range. lia. Qed.

Lemma u64_small z : 0 <= z < 2 ^ 64 -> u64 z = z.
Proof. apply wrap_small. Qed.

Lemma u32_range z : 0 <= u32 z < 2 ^ 32.
Proof. apply wrap_range. lia. Qed.

Lemma u8_small z : 0 <= z < 2 ^ 8 -> u8 z = z.
Proof. apply wrap_small. Qed.

Lemma u16_small z : 0 <= z < 2 ^ 16 -> u16 z = z.
Proof. apply wrap_small. Qed.

Lemma u32_small z : 0 <= z < 2 ^ 32 -> u32 z = z.
Proof. apply wrap_small. Qed.

Lemma i32_small z : 0 <= z < 2 ^ 31 -> i32 z = z.
Proof.
  intros H. unfold i32. rewrite wrap_small by lia.
  destruct (Z.ltb_spec z (2 ^ 31)); lia.
Qed.

(** A word of the log has only its low 64 bits. *)
Lemma testbit_high z i : 0 <= z < 2 ^ 64 -> 64 <= i -> Z.testbit z i = false.
Proof.
  intros Hz Hi. rewrite <- (u64_small z) by done.
  rewrite testbit_u64 by lia. destruct (Z.ltb_spec i 64); [lia|done].
Qed.

Lemma word_eq a b :
  0 <= a < 2 ^ 64 -> 0 <= b < 2 ^ 64 ->
  (forall i, 0 <= i < 64 -> Z.testbit a i = Z.testbit b i) -> a = b.
Proof.
  intros Ha Hb H. apply Z.bits_inj'. intros i Hi.
  destruct (Z.lt_ge_cases i 64); [apply H; lia|].
  rewrite !testbit_high by lia. done.
Qed.

Lemma testbit_ones64 n i : 0 <= i -> 0 <= n -> Z.testbit (Z.ones n) i = (i <? n).
Proof.
  intros. rewrite Z.testbit_ones_nonneg by lia. done.
Qed.

Lemma lor_range n a b : 0 <= n -> 0 <= a < 2 ^ n -> 0 <= b < 2 ^ n -> 0 <= Z.lor a b < 2 ^ n.
Proof.
  intros Hn Ha Hb.
  assert (Z.lor a b = wrap n (Z.lor a b)) as ->; [|apply wrap_range; lia].
  apply Z.bits_inj'. intros i Hi. rewrite testbit_wrap by lia.
  destruct (Z.ltb_spec i n); simpl; [done|].
  rewrite Z.lor_spec, <- (wrap_small n a), <- (wrap_small n b), !testbit_wrap by lia.
  destruct (Z.ltb_spec i n); [lia|done].
Qed.

Lemma land_range_r n a b : 0 <= n -> 0 <= b < 2 ^ n -> 0 <= Z.land a b < 2 ^ n.
Proof.
  intros Hn Hb.
  assert (Z.land a b = wrap n (Z.land a b)) as ->; [|apply wrap_range; lia].
  apply Z.bits_inj'. intros i Hi. rewrite testbit_wrap by lia.
  destruct (Z.ltb_spec i n); simpl; [done|].
  rewrite Z.land_spec, <- (wrap_small n b), !testbit_wrap by lia.
  destruct (Z.ltb_spec i n); [lia|]. apply andb_false_r.
Qed.

#[export] Hint Rewrite testbit_u64 testbit_not64 testbit_shl64 testbit_shr64
  Z.lor_spec Z.land_spec Z.lxor_spec Z.ldiff_spec Z.testbit_0_l testbit_ones64
  Z.shiftl_spec Z.shiftr_spec Z.lnot_spec Z.pow2_bits_eqb using lia : bits.

(** Case analysis on every boolean integer comparison of the goal. *)
Ltac cases_cmp :=
  repeat match goal with
  | |- context [?a <? ?b] => destruct (Z.ltb_spec a b); try lia
  | |- context [?a <=? ?b] => destruct (Z.leb_spec a b); try lia
  | |- context [?a =? ?b] => destruct (Z.eqb_spec a b); try lia
  end.

Ltac bits := autorewrite with bits; cases_cmp; simpl; try done; try lia.

(** Bit 0 of a log unit is its most significant bit. *)
Definition msb (w i : Z) : bool := Z.testbit w (63 - i).

Lemma lzcnt_u64_range z : 0 <= z < 2 ^ 64 -> 0 <= lzcnt_u64 z <= 64.
Proof.
  intros Hz. unfold lzcnt_u64. cases_cmp.
  assert (0 <= Z.log2 z < 64); [|lia].
  split; [apply Z.log2_nonneg|]. apply Z.log2_lt_pow2; lia.
Qed.

(** [lzcnt_u64 z] leading bits are clear ... *)
Lemma lzcnt_u64_zeros z i :
  0 <= z < 2 ^ 64 -> 0 <= i < lzcnt_u64 z -> msb z i = false.
Proof.
  intros Hz Hi. unfold msb, lzcnt_u64 in *.
  destruct (Z.eqb_spec z 0) as [->|]; [apply Z.testbit_0_l|].
  apply Z.bits_above_log2; lia.
Qed.

(** ... and the next one is set. *)
Lemma lzcnt_u64_one z :
  0 <= z < 2 ^ 64 -> lzcnt_u64 z < 64 -> msb z (lzcnt_u64 z) = true.
Proof.
  intros Hz Hi. unfold msb, lzcnt_u64 in *.
  destruct (Z.eqb_spec z 0) as [->|]; [lia|].
  replace (63 - (63 - Z.log2 z)) with (Z.log2 z) by lia.
  apply Z.bit_log2. lia.
Qed.

Lemma ctz_from_spec n i z :
  0 <= i ->
  let r := ctz_from n i z in
  i <= r <= i + Z.of_nat n /\
  (forall j, i <= j < r -> Z.testbit z j = false) /\
  (r < i + Z.of_nat n -> Z.testbit z r = true).
Proof.
  revert i. induction n as [|n IH]; intros i Hi; cbn [ctz_from].
  - repeat split; intros; lia.
  - destruct (Z.testbit z i) eqn:E.
    + repeat split; intros; try lia. done.
    + destruct (IH (i + 1) ltac:(lia)) as (H1 & H2 & H3).
      repeat split; try lia.
      * intros j Hj. destruct (Z.eq_dec j i) as [->|]; [done|]. apply H2. lia.
      * intros. apply H3. lia.
Qed.

Lemma tzcnt_u32_spec z :
  0 < z < 2 ^ 32 ->
  0 <= tzcnt_u32 z < 32 /\
  (forall j, 0 <= j < tzcnt_u32 z -> Z.testbit z j = false) /\
  Z.testbit z (tzcnt_u32 z) = true.
Proof.
  intros Hz. unfold tzcnt_u32. rewrite u32_small by lia.
  destruct (ctz_from_spec 32 0 z ltac:(lia)) as (H1 & H2 & H3).
  change (Z.of_nat 32) with 32 in *.
  set (r := ctz_from 32 0 z) in *.
  assert (r < 0 + 32) as Hr.
  { destruct (Z.lt_ge_cases r (0 + 32)); [done|exfalso].
    assert (z = 0); [|lia]. apply Z.bits_inj_0. intros j.
    destruct (Z.lt_ge_cases j 0); [apply Z.testbit_neg_r; lia|].
    destruct (Z.lt_ge_cases j 32); [apply H2; lia|].
    rewrite <- (u32_small z) by lia. unfold u32. rewrite testbit_wrap by lia.
    cases_cmp; done. }
  split; [lia|]. split; [exact H2|]. apply H3. done.
Qed.

(** ** [pext] with a contiguous mask is a bit-field extraction *)

Lemma pext_from_zeros n i k v mask :
  (forall j, i <= j < i + Z.of_nat n -> Z.testbit mask j = false) ->
  pext_from n i k v mask = 0.
Proof.
  revert i k. induction n as [|n IH]; intros i k H; cbn [pext_from]; [done|].
  rewrite H by lia. apply IH. intros. apply H. lia.
Qed.

Lemma pext_from_skip n1 n2 i k v mask :
  (forall j, i <= j < i + Z.of_nat n1 -> Z.testbit mask j = false) ->
  pext_from (n1 + n2) i k v mask = pext_from n2 (i + Z.of_nat n1) k v mask.
Proof.
  revert i k. induction n1 as [|n1 IH]; intros i k H.
  - f_equal. lia.
  - cbn [Nat.add pext_from]. rewrite H by lia.
    rewrite IH by (intros; apply H; lia). f_equal. lia.
Qed.

Lemma testbit_pext_from_ones n1 n2 i k v mask b :
  0 <= i -> 0 <= k -> 0 <= b ->
  (forall j, i <= j < i + Z.of_nat n1 -> Z.testbit mask j = true) ->
  (forall j, i + Z.of_nat n1 <= j < i + Z.of_nat (n1 + n2) -> Z.testbit mask j = false) ->
  Z.testbit (pext_from (n1 + n2) i k v mask) b
  = (k <=? b) && (b <? k + Z.of_nat n1) && Z.testbit v (b - k + i).
Proof.
  revert i k. induction n1 as [|n1 IH]; intros i k Hi Hk Hb H1 H0.
  - cbn [Nat.add]. rewrite pext_from_zeros by (intros; apply H0; lia).
    rewrite Z.testbit_0_l. cases_cmp; done.
  - cbn [Nat.add pext_from]. rewrite H1 by lia.
    rewrite Z.lor_spec, (IH (i + 1) (k + 1)) by
      (try lia; intros; first [apply H1 | apply H0]; lia).
    replace (b - (k + 1) + (i + 1)) with (b - k + i) by lia.
    destruct (Z.eq_dec b k) as [->|Hne].
    + replace (k - k + i) with i by lia.
      destruct (Z.testbit v i) eqn:E.
      * rewrite Z.shiftl_1_l, Z.pow2_bits_eqb by lia. cases_cmp; done.
      * rewrite Z.testbit_0_l. cases_cmp; done.
    + assert (Z.testbit (if Z.testbit v i then Z.shiftl 1 k else 0) b = false) as ->.
      { destruct (Z.testbit v i); [|apply Z.testbit_0_l].
        rewrite Z.shiftl_1_l, Z.pow2_bits_eqb by lia. cases_cmp; done. }
      cases_cmp; simpl; done.
Qed.

(** The mask [(2^hi - 1) & (~0 << lo)] selects bits [lo .. hi-1]. *)
Lemma pext_field v lo hi :
  0 <= lo <= hi -> hi <= 64 ->
  pext_u64 v (Z.land (2 ^ hi - 1) (shl64 (2 ^ 64 - 1) lo)) = Z.shiftr (v mod 2 ^ hi) lo.
Proof.
  intros Hlo Hhi. set (mask := Z.land _ _).
  assert (Hmask : forall j, 0 <= j < 64 -> Z.testbit mask j = (lo <=? j) && (j <? hi)).
  { intros j Hj. unfold mask.
    replace (2 ^ hi - 1) with (Z.ones hi) by (rewrite Z.ones_equiv; lia).
    replace (2 ^ 64 - 1) with (Z.ones 64) by reflexivity.
    rewrite Z.land_spec, testbit_shl64, testbit_ones64 by lia.
    destruct (Z.leb_spec lo j).
    - rewrite testbit_ones64 by lia. cases_cmp; done.
    - rewrite (Z.testbit_neg_r _ (j - lo)) by lia. cases_cmp; done. }
  unfold pext_u64.
  change 64%nat with (Z.to_nat 64).
  replace (Z.to_nat 64) with (Z.to_nat lo + (Z.to_nat (hi - lo) + Z.to_nat (64 - hi)))%nat by lia.
  rewrite pext_from_skip by (intros; rewrite Hmask by lia; cases_cmp; done).
  apply Z.bits_inj'. intros b Hb.
  rewrite testbit_pext_from_ones;
    [|lia..|intros; rewrite Hmask by lia; cases_cmp; done
     |intros; rewrite Hmask by lia; cases_cmp; done].
  rewrite Z.shiftr_spec by lia.
  destruct (Z.lt_ge_cases (b + lo) hi).
  - rewrite Z.mod_pow2_bits_low by lia. cases_cmp. simpl. f_equal. lia.
  - rewrite Z.mod_pow2_bits_high by lia. cases_cmp; done.
Qed.

(** ** Alignment *)

Definition aligned (a z : Z) : Prop := z mod a = 0.

Lemma aligned_mul a z : a <> 0 -> aligned a (a * z).
Proof. intros. unfold aligned. rewrite Z.mul_comm. by apply Z.mod_mul. Qed.

Lemma aligned_exists a z : 0 < a -> aligned a z -> exists q, z = a * q.
Proof.
  unfold aligned. intros Ha H. exists (z / a).
  pose proof (Z.div_mod z a). lia.
Qed.

Lemma aligned_add a x y : 0 < a -> aligned a x -> aligned a y -> aligned a (x + y).
Proof.
  intros Ha [p ->]%aligned_exists [q ->]%aligned_exists; [|done..].
  rewrite <- Z.mul_add_distr_l. apply aligned_mul. lia.
Qed.

Lemma aligned_sub a x y : 0 < a -> aligned a x -> aligned a y -> aligned a (x - y).
Proof.
  intros Ha [p ->]%aligned_exists [q ->]%aligned_exists; [|done..].
  rewrite <- Z.mul_sub_distr_l. apply aligned_mul. lia.
Qed.

Lemma aligned_weaken a b z : 0 < a -> 0 < b -> aligned (a * b) z -> aligned b z.
Proof.
  intros Ha Hb [p ->]%aligned_exists; [|lia].
  replace (a * b * p) with (b * (a * p)) by lia. apply aligned_mul. lia.
Qed.

Lemma aligned_shiftr_shiftl a z : 0 <= a -> aligned (2 ^ a) z -> Z.shiftl (Z.shiftr z a) a = z.
Proof.
  intros Ha Hz. rewrite Z.shiftl_mul_pow2, Z.shiftr_div_pow2 by lia.
  unfold aligned in Hz. pose proof (Z.div_mod z (2 ^ a)) as H.
  rewrite Hz in H. pose proof (Z.pow_pos_nonneg 2 a). lia.
Qed.

Lemma aligned_mul_l a b z : 0 < a -> aligned a b -> aligned a (b * z).
Proof.
  intros Ha [p ->]%aligned_exists; [|lia]. rewrite <- Z.mul_assoc. apply aligned_mul. lia.
Qed.

(** Closes goals [aligned a e] where [e] is built from aligned parts. *)
Ltac align :=
  lazymatch goal with
  | |- aligned _ (_ - _) => apply aligned_sub; [lia | align | align]
  | |- aligned _ (_ + _) => apply aligned_add; [lia | align | align]
  | |- aligned _ (_ * _) => first [assumption | reflexivity | apply aligned_mul_l; [lia | align]]
  | |- _ => first [assumption | reflexivity]
  end.

(** ** Lists of integers *)

Lemma seqZ_nil n m : m <= 0 -> seqZ n m = [].
Proof. intros. unfold seqZ. by replace (Z.to_nat m) with 0%nat by lia. Qed.

Lemma seqZ_split n m k : 0 <= k <= m -> seqZ n m = seqZ n k ++ seqZ (n + k) (m - k).
Proof. intros. replace m with (k + (m - k)) at 1 by lia. apply seqZ_app; lia. Qed.

(** The sum of [f] over a list. *)
Fixpoint sum_of {A} (f : A -> Z) (l : list A) : Z := match l with [] => 0 | x :: l' => f x + sum_of f l' end.

Lemma sum_of_ext {A} (f g : A -> Z) l : (forall y, y ∈ l -> g y = f y) -> sum_of g l = sum_of f l.
Proof.
  induction l as [|x l IH]; intros Heq; [done|]. cbn. rewrite (Heq x) by left. rewrite IH; [done|].
  intros y Hy. apply Heq. by right.
Qed.

Lemma sum_of_upd {A} (f g : A -> Z) l x :
  NoDup l -> x ∈ l -> (forall y, y ∈ l -> y <> x -> g y = f y) -> sum_of g l = sum_of f l - f x + g x.
Proof.
  induction 1 as [|y l Hy Hl IH]; [by intros ?%not_elem_of_nil|]. intros Hx Heq. cbn.
  apply elem_of_cons in Hx as [->|Hx].
  - rewrite (sum_of_ext f g); [lia|]. intros z Hz. apply Heq; [by right|]. by intros ->.
  - rewrite IH; [|done|intros z Hz; apply Heq; by right]. rewrite (Heq y); [lia|left|by intros ->].
Qed.

Lemma sum_of_range {A} (f : A -> Z) l m : (forall x, x ∈ l -> 0 <= f x <= m) -> 0 <= sum_of f l <= m * Z.of_nat (length l).
Proof.
  induction l as [|x l IH]; intros Hf; cbn; [lia|]. pose proof (Hf x ltac:(left)).
  specialize (IH ltac:(intros; apply Hf; by right)). lia.
Qed.

Lemma sum_of_insert {A} (f : A -> Z) (l : list A) i x y : l !! i = Some x -> sum_of f (<[i := y]> l) = sum_of f l - f x + f y.
Proof.
  revert i. induction l as [|z l IH]; intros [|i] H; [done..| |].
  - injection H as ->. cbn. lia.
  - change (<[Datatypes.S i := y]> (z :: l)) with (z :: <[i := y]> l). cbn [sum_of]. rewrite (IH _ H). lia.
Qed.

Lemma sum_of_nonneg {A} (f : A -> Z) l : (forall x, x ∈ l -> 0 <= f x) -> 0 <= sum_of f l.
Proof.
  induction l as [|x l IH]; intros Hf; [done|]. cbn. assert (0 <= f x) by (apply Hf; left).
  assert (0 <= sum_of f l) by (apply IH; intros y Hy; apply Hf; by right). lia.
Qed.
