(* ===== verification/Defs.v ===== *)
(** * Defs: the constants and the address map of include/tasvir/defs.h

    Every macro of defs.h that the library code computes with, with its
    value computed from the same expressions, and the facts the other
    components use: [TASVIR_ALIGNX] rounds up to the next multiple, and the
    regions of the address map (the default view of the data region, the
    change log, the node-local region, the reader and the writer copies)
    do not overlap. *)
From stdpp Require Import base numbers.
From Stdlib Require Import ZArith Lia.
From S2P Require Import Prelude.

(** ** Timing *)
Definition TASVIR_BARRIER_ENTER_US : Z := 50.
Definition TASVIR_STAT_US : Z := 1 * 1000 * 1000.
Definition TASVIR_SYNC_INTERNAL_US : Z := 100 * 1000.
Definition TASVIR_SYNC_EXTERNAL_US : Z := 250 * 1000.
Definition TASVIR_HEARTBEAT_US : Z := 1 * 1000 * 1000.
Definition MS2US : Z := 1000.
Definition S2US : Z := 1000 * MS2US.
Definition KB : Z := 1000.
Definition MB : Z := 1000 * KB.
Definition GB : Z := 1000 * MB.

(** ** Table sizes *)
Definition TASVIR_ETH_PROTO : Z := 0x88b6.
Definition TASVIR_PKT_BURST : Z := 32.
Definition TASVIR_RING_SIZE : Z := 256.
Definition TASVIR_RING_EXT_SIZE : Z := 4096.
Definition TASVIR_NR_AREAS : Z := 1024.
Definition TASVIR_NR_AREA_LOGS : Z := 4.
Definition TASVIR_NR_CACHELINES_PER_MSG : Z := 21.
Definition TASVIR_NR_FN : Z := 4096.
Definition TASVIR_NR_RPC_ARGS : Z := 8.
Definition TASVIR_NR_RPC_MSG : Z := 256 * 1024.
Definition TASVIR_NR_NODES : Z := 64.
Definition TASVIR_NR_SYNC_JOBS : Z := 2048.
Definition TASVIR_NR_THREADS_LOCAL : Z := 64.
Definition TASVIR_STRLEN_MAX : Z := 32.
Definition TASVIR_THREAD_DAEMON_IDX : Z := 0.
Definition TASVIR_SYNC_LIST_LEN : Z := 512.

(** ** Log granularity *)

(** [31 - __builtin_clz(x | 1)] on a 32-bit argument. *)
Definition TASVIR_LOG2 (x : Z) : Z := 31 - (lzcnt_u64 (Z.lor (u32 x) 1) - 32).

Definition TASVIR_CACHELINE_BYTES : Z := 64.
Definition TASVIR_LOG_GRANULARITY_BYTES : Z := 64.
Definition TASVIR_LOG_UNIT_BITS : Z := 64.
Definition CHAR_BIT : Z := 8.
Definition TASVIR_SHIFT_BIT : Z := TASVIR_LOG2 TASVIR_LOG_GRANULARITY_BYTES.
Definition TASVIR_SHIFT_BYTE : Z := TASVIR_SHIFT_BIT + TASVIR_LOG2 CHAR_BIT.
Definition TASVIR_SHIFT_UNIT : Z :=
  TASVIR_SHIFT_BYTE + TASVIR_LOG2 (TASVIR_LOG_UNIT_BITS / CHAR_BIT).

(** ** Alignment *)
Definition TASVIR_ALIGNMENT : Z := 8 * Z.shiftl 1 TASVIR_SHIFT_UNIT.
Definition TASVIR_ALIGNX (x a : Z) : Z := Z.land (u64 (u64 x + a - 1)) (not64 (a - 1)).
Definition TASVIR_ALIGN (x : Z) : Z := TASVIR_ALIGNX x TASVIR_ALIGNMENT.

(** ** The address map *)
Definition TASVIR_SIZE_DATA : Z := TASVIR_ALIGN (Z.shiftl 1 40).
Definition TASVIR_SIZE_LOG : Z := TASVIR_ALIGN (Z.shiftr TASVIR_SIZE_DATA TASVIR_SHIFT_BYTE).
Definition TASVIR_SIZE_LOCAL : Z := TASVIR_ALIGN (Z.shiftl 1 30).
Definition TASVIR_ALIGN_DATA (x : Z) : Z := TASVIR_ALIGNX x TASVIR_SIZE_DATA.
Definition TASVIR_ADDR_BASE : Z := TASVIR_ALIGN_DATA TASVIR_SIZE_DATA.
Definition TASVIR_ADDR_DATA : Z := TASVIR_ADDR_BASE.
Definition TASVIR_ADDR_LOG : Z := u64 (TASVIR_ADDR_DATA + 2 * TASVIR_SIZE_DATA).
Definition TASVIR_ADDR_LOCAL : Z := u64 (TASVIR_ADDR_LOG + TASVIR_SIZE_LOG).
Definition TASVIR_ADDR_END : Z := u64 (TASVIR_ADDR_LOCAL + TASVIR_SIZE_LOCAL).
Definition TASVIR_ADDR_DATA_RO : Z := TASVIR_ALIGN_DATA TASVIR_ADDR_END.
Definition TASVIR_ADDR_DATA_RW : Z := u64 (TASVIR_ADDR_DATA_RO + TASVIR_SIZE_DATA).
Definition TASVIR_ADDR_DPDK : Z :=
  u64 (TASVIR_ADDR_DATA_RW + TASVIR_SIZE_DATA + 4 * Z.shiftl 1 30).
Definition TASVIR_SIZE_MAP : Z := TASVIR_ADDR_END - TASVIR_ADDR_BASE.
Definition TASVIR_OFFSET_RO : Z := TASVIR_ADDR_DATA_RO - TASVIR_ADDR_DATA.
Definition TASVIR_OFFSET_RW : Z := TASVIR_ADDR_DATA_RW - TASVIR_ADDR_DATA.
Definition TASVIR_OFFSET_RO2RW : Z := TASVIR_ADDR_DATA_RW - TASVIR_ADDR_DATA_RO.
Definition TASVIR_OFFSET_LOG : Z := TASVIR_ADDR_LOG - TASVIR_ADDR_DATA.

(** Replace the address-map constants by their values (2^40 and its
    multiples), for [lia]. *)
Ltac defs :=
  change TASVIR_SIZE_DATA with 1099511627776 in *;
  change TASVIR_SIZE_LOG with 2147483648 in *;
  change TASVIR_SIZE_LOCAL with 1073741824 in *;
  change TASVIR_ADDR_BASE with 1099511627776 in *;
  change TASVIR_ADDR_DATA with 1099511627776 in *;
  change TASVIR_ADDR_LOG with 3298534883328 in *;
  change TASVIR_ADDR_LOCAL with 3300682366976 in *;
  change TASVIR_ADDR_END with 3301756108800 in *;
  change TASVIR_ADDR_DATA_RO with 4398046511104 in *;
  change TASVIR_ADDR_DATA_RW with 5497558138880 in *;
  change TASVIR_SIZE_MAP with 2202244481024 in *;
  change TASVIR_OFFSET_RO with 3298534883328 in *;
  change TASVIR_OFFSET_RW with 4398046511104 in *;
  change TASVIR_SHIFT_BIT with 6 in *;
  change TASVIR_SHIFT_BYTE with 9 in *;
  change TASVIR_SHIFT_UNIT with 12 in *;
  change TASVIR_ALIGNMENT with 32768 in *;
  change TASVIR_LOG_UNIT_BITS with 64 in *;
  change TASVIR_CACHELINE_BYTES with 64 in *;
  change TASVIR_SYNC_LIST_LEN with 512 in *.

(** ** Rounding up *)

(** Masking with [~(2^n - 1)] clears the low [n] bits. *)
Lemma land_not64_ones x n :
  0 <= n <= 64 -> 0 <= x < 2 ^ 64 -> Z.land x (not64 (2 ^ n - 1)) = x / 2 ^ n * 2 ^ n.
Proof.
  intros Hn Hx. rewrite <- Z.shiftr_div_pow2, <- Z.shiftl_mul_pow2 by lia.
  apply Z.bits_inj'. intros i Hi.
  replace (2 ^ n - 1) with (Z.ones n) by (rewrite Z.ones_equiv; lia).
  rewrite Z.land_spec, testbit_not64, testbit_ones64, Z.shiftl_spec by lia.
  destruct (Z.ltb_spec i n).
  - rewrite (Z.testbit_neg_r _ (i - n)) by lia. cases_cmp; apply andb_false_r.
  - rewrite Z.shiftr_spec by lia. replace (i - n + n) with i by lia.
    destruct (Z.ltb_spec i 64); simpl; [apply andb_true_r|].
    rewrite testbit_high by lia. done.
Qed.

(** [TASVIR_ALIGNX x (2^n)] as integer arithmetic, when nothing overflows. *)
Lemma ALIGNX_eq x n :
  0 <= n < 64 -> 0 <= x -> x + 2 ^ n - 1 < 2 ^ 64 ->
  TASVIR_ALIGNX x (2 ^ n) = (x + 2 ^ n - 1) / 2 ^ n * 2 ^ n.
Proof.
  intros Hn Hx Hov. assert (0 < 2 ^ n) by (apply Z.pow_pos_nonneg; lia).
  unfold TASVIR_ALIGNX. rewrite (u64_small x) by lia.
  rewrite u64_small by lia. apply land_not64_ones; lia.
Qed.

Lemma ALIGNX_spec x n :
  0 <= n < 64 -> 0 <= x -> x + 2 ^ n - 1 < 2 ^ 64 ->
  aligned (2 ^ n) (TASVIR_ALIGNX x (2 ^ n)) /\
  x <= TASVIR_ALIGNX x (2 ^ n) < x + 2 ^ n.
Proof.
  intros Hn Hx Hov. rewrite ALIGNX_eq by done.
  assert (0 < 2 ^ n) by (apply Z.pow_pos_nonneg; lia).
  split.
  - rewrite Z.mul_comm. apply aligned_mul. lia.
  - pose proof (Z.div_mod (x + 2 ^ n - 1) (2 ^ n)).
    pose proof (Z.mod_pos_bound (x + 2 ^ n - 1) (2 ^ n)). lia.
Qed.

Lemma ALIGN_spec x :
  0 <= x -> x + 32768 <= 2 ^ 64 ->
  aligned 32768 (TASVIR_ALIGN x) /\ x <= TASVIR_ALIGN x < x + 32768.
Proof.
  intros. unfold TASVIR_ALIGN. change TASVIR_ALIGNMENT with (2 ^ 15).
  change 32768 with (2 ^ 15). apply ALIGNX_spec; lia.
Qed.

(** An aligned value is its own rounding. *)
Lemma ALIGN_id x : 0 <= x -> x + 32768 <= 2 ^ 64 -> aligned 32768 x -> TASVIR_ALIGN x = x.
Proof.
  intros Hx Hov [q ->]%aligned_exists; [|lia].
  destruct (ALIGN_spec (32768 * q)) as [[p Hp]%aligned_exists H]; lia.
Qed.

Lemma ALIGN_mono x y : 0 <= x <= y -> y + 32768 <= 2 ^ 64 -> TASVIR_ALIGN x <= TASVIR_ALIGN y.
Proof.
  intros Hx Hov. unfold TASVIR_ALIGN. change TASVIR_ALIGNMENT with (2 ^ 15).
  rewrite !ALIGNX_eq by lia.
  apply Z.mul_le_mono_nonneg_r; [lia|]. apply Z.div_le_mono; lia.
Qed.

(** [TASVIR_ALIGNX] with a power-of-two alignment returns the least
    multiple of the alignment that is not below its argument, for every
    argument whose rounding fits in 64 bits. *)
Theorem ALIGNX_least_multiple x n :
  0 <= n < 64 -> 0 <= x -> x + 2 ^ n - 1 < 2 ^ 64 ->
  aligned (2 ^ n) (TASVIR_ALIGNX x (2 ^ n)) /\
  x <= TASVIR_ALIGNX x (2 ^ n) /\
  (forall y, aligned (2 ^ n) y -> x <= y -> TASVIR_ALIGNX x (2 ^ n) <= y).
Proof.
  intros Hn Hx Hov. destruct (ALIGNX_spec x n Hn Hx Hov) as [Ha Hb].
  split; [done|]. split; [lia|]. intros y Hy Hle.
  assert (0 < 2 ^ n) by (apply Z.pow_pos_nonneg; lia).
  apply aligned_exists in Ha as [p Hp]; [|lia].
  apply aligned_exists in Hy as [q ->]; [|lia].
  rewrite Hp in Hb |- *. destruct (Z.le_gt_cases p q); nia.
Qed.

Lemma ALIGNX_least_multiple_witness :
  TASVIR_ALIGNX 70000 (2 ^ 15) = 98304 /\
  (forall y, aligned (2 ^ 15) y -> 70000 <= y -> TASVIR_ALIGNX 70000 (2 ^ 15) <= y).
Proof.
  split; [reflexivity|].
  apply (ALIGNX_least_multiple 70000 15); lia.
Defined.
