(* ===== verification/Types.v ===== *)
(** * Types: the data of include/tasvir/types.h and src/tasvir.h

    - enumerations and flag bits, with the integer codes the code stores;
    - the layouts (field offsets and sizes, x86-64 ABI) of the structures
      that live in the synchronized areas and are copied line by line:
      [tasvir_area_desc], [tasvir_area_header], [tasvir_area_log],
      [tasvir_thread], [tasvir_node];
    - records for what is node-local ([tasvir_local_ndata],
      [tasvir_local_tdata], sync jobs, the sync list, statistics) or
      thread-local ([tasvir_tls_data]), and for messages;
    - the class [Dpdk] of the DPDK operations the library calls, with the
      documented behaviour it relies on in the class [DpdkSpec];
    - [world], the state one thread's code runs on. *)
From stdpp Require Import base gmap list numbers.
From Stdlib Require Import ZArith Lia.
From S2P Require Import Prelude Defs.

(** ** Enumerations *)

Inductive tasvir_area_type :=
| TASVIR_AREA_TYPE_INVALID | TASVIR_AREA_TYPE_CONTAINER
| TASVIR_AREA_TYPE_NODE | TASVIR_AREA_TYPE_APP.
#[export] Instance tasvir_area_type_eq_dec : EqDecision tasvir_area_type.
Proof. solve_decision. Defined.

Definition area_type_code (t : tasvir_area_type) : Z :=
  match t with
  | TASVIR_AREA_TYPE_INVALID => 0
  | TASVIR_AREA_TYPE_CONTAINER => 1
  | TASVIR_AREA_TYPE_NODE => 2
  | TASVIR_AREA_TYPE_APP => 3
  end.

Inductive tasvir_rpc_status_type :=
| TASVIR_RPC_STATUS_INVALID | TASVIR_RPC_STATUS_PENDING
| TASVIR_RPC_STATUS_FAILED | TASVIR_RPC_STATUS_DONE.
#[export] Instance tasvir_rpc_status_type_eq_dec : EqDecision tasvir_rpc_status_type.
Proof. solve_decision. Defined.

Definition TASVIR_FN_NOACK : Z := 1.
Definition TASVIR_FN_NOMODIFY : Z := 2.

Inductive tasvir_thread_state :=
| TASVIR_THREAD_STATE_INVALID | TASVIR_THREAD_STATE_DEAD
| TASVIR_THREAD_STATE_PREBOOT | TASVIR_THREAD_STATE_BOOTING
| TASVIR_THREAD_STATE_RUNNING | TASVIR_THREAD_STATE_SLEEPING.
#[export] Instance tasvir_thread_state_eq_dec : EqDecision tasvir_thread_state.
Proof. solve_decision. Defined.

Definition thread_state_code (s : tasvir_thread_state) : Z :=
  match s with
  | TASVIR_THREAD_STATE_INVALID => 0
  | TASVIR_THREAD_STATE_DEAD => 1
  | TASVIR_THREAD_STATE_PREBOOT => 2
  | TASVIR_THREAD_STATE_BOOTING => 3
  | TASVIR_THREAD_STATE_RUNNING => 4
  | TASVIR_THREAD_STATE_SLEEPING => 5
  end.

(** [tasvir_area_cache_flag] *)
Definition TASVIR_AREA_FLAG_ACTIVE : Z := Z.shiftl 1 0.
Definition TASVIR_AREA_FLAG_MAPPED_RW : Z := Z.shiftl 1 1.
Definition TASVIR_AREA_FLAG_LOCAL : Z := Z.shiftl 1 2.
Definition TASVIR_AREA_FLAG_SLEEPING : Z := Z.shiftl 1 3.
Definition TASVIR_AREA_FLAG_EXT_PENDING : Z := Z.shiftl 1 4.
Definition TASVIR_AREA_FLAG_EXT_IGNORE : Z := Z.shiftl 1 5.
Definition TASVIR_AREA_FLAG_EXT_ENQUEUE : Z := Z.shiftl 1 6.

(** [flags & mask] as a condition, [flags |= mask], [flags &= ~mask]. *)
Definition has_flag (flags mask : Z) : bool := negb (Z.land flags mask =? 0).
Definition set_flag (flags mask : Z) : Z := Z.lor flags mask.
Definition clear_flag (flags mask : Z) : Z := Z.land flags (not64 mask).

Inductive tasvir_msg_type :=
| TASVIR_MSG_TYPE_INVALID | TASVIR_MSG_TYPE_MEM
| TASVIR_MSG_TYPE_RPC_REQUEST | TASVIR_MSG_TYPE_RPC_RESPONSE.
#[export] Instance tasvir_msg_type_eq_dec : EqDecision tasvir_msg_type.
Proof. solve_decision. Defined.

Inductive tasvir_msg_src :=
| TASVIR_MSG_SRC_INVALID | TASVIR_MSG_SRC_ME
| TASVIR_MSG_SRC_LOCAL | TASVIR_MSG_SRC_NET.
#[export] Instance tasvir_msg_src_eq_dec : EqDecision tasvir_msg_src.
Proof. solve_decision. Defined.

(** ** Layout of the structures in synchronized memory *)

(** [struct tasvir_area_desc] *)
Definition desc_pd : Z := 0.
Definition desc_h : Z := 8.
Definition desc_owner : Z := 16.
Definition desc_len : Z := 24.
Definition desc_offset_log_end : Z := 32.
Definition desc_nr_areas_max : Z := 40.
Definition desc_name : Z := 48.
Definition desc_boot_us : Z := 80.
Definition desc_sync_int_us : Z := 88.
Definition desc_sync_ext_us : Z := 96.
Definition desc_type : Z := 104.
Definition sizeof_desc : Z := 112.

(** [struct tasvir_area_log] *)
Definition log_version_start : Z := 0.
Definition log_start_us : Z := 8.
Definition log_version_end : Z := 16.
Definition log_end_us : Z := 24.
Definition log_data : Z := 32.
Definition sizeof_log : Z := 40.

(** [struct tasvir_area_header]; the first cache line is local. *)
Definition hdr_flags : Z := 0.
Definition hdr_last_sync_ext_bytes : Z := 8.
Definition hdr_last_sync_ext_us : Z := 16.
Definition hdr_last_sync_ext_v : Z := 24.
Definition hdr_d : Z := 64.
Definition hdr_version : Z := 72.
Definition hdr_time_us : Z := 80.
Definition hdr_nr_areas : Z := 88.
Definition hdr_nr_users : Z := 96.
Definition hdr_diff_log (i : Z) : Z := 104 + i * sizeof_log.
Definition hdr_user_node (i : Z) : Z := 264 + i * 16.
Definition hdr_user_version (i : Z) : Z := 272 + i * 16.
Definition sizeof_header : Z := 1344.

(** [struct tasvir_thread]: [time_us]; the word [tid.nid] (48 bits) and
    [tid.idx]; the word [tid.pid] and [state]. *)
Definition thr_time_us : Z := 0.
Definition thr_nid_idx : Z := 8.
Definition thr_pid_state : Z := 16.
Definition sizeof_thread : Z := 24.

(** [struct tasvir_node] *)
Definition node_nid : Z := 0.
Definition node_heartbeat_us : Z := 8.
Definition node_thread (i : Z) : Z := 16 + i * sizeof_thread.
Definition node_nr_areas : Z := 1552.
Definition node_areas_d (i : Z) : Z := 1560 + i * 8.
Definition node_areas_v (i : Z) : Z := 9752 + i * 8.
Definition sizeof_node : Z := 17944.

(** ** Identifiers and messages *)

(** [tasvir_nid] is a MAC address, a 48-bit integer here. *)
Record tasvir_tid := mk_tid { tid_nid : Z; tid_idx : Z; tid_pid : Z }.
#[export] Instance tasvir_tid_eq_dec : EqDecision tasvir_tid.
Proof. solve_decision. Defined.

(** What follows the common header: [tasvir_msg_mem] carries whole cache
    lines (as 64-bit words), [tasvir_msg_rpc] a function id and its return
    value and arguments (64-bit words by offset in [data]). *)
Inductive tasvir_msg_body :=
| Msg_mem (addr len : Z) (last : bool) (prev_bytes : Z) (line : list Z)
| Msg_rpc (fid : Z) (data : gmap Z Z).

Record tasvir_msg := mk_msg {
  m_pkt_len : Z;
  m_ether_dhost : Z;
  m_ether_shost : Z;
  m_ether_type : Z;
  m_type : tasvir_msg_type;
  m_id : Z;
  m_src_tid : tasvir_tid;
  m_dst_tid : tasvir_tid;
  m_d : Z;
  m_version : Z;
  m_body : tasvir_msg_body;
}.
#[export] Instance eta_tasvir_msg : Eta tasvir_msg := fun r =>
  mk_msg (m_pkt_len r) (m_ether_dhost r) (m_ether_shost r) (m_ether_type r) (m_type r) (m_id r)
    (m_src_tid r) (m_dst_tid r) (m_d r) (m_version r) (m_body r).

(** Bytes from the Ethernet header to the cache lines of a memory message
    ([offsetof(tasvir_msg_mem, line) - offsetof(tasvir_msg, eh)]) and to the
    data of an RPC message: Ethernet 14, IP 20, type 4, id 2, two tids 24,
    [d] and [version] 16, then the fields of each kind of message. *)
Definition msg_hdr_bytes : Z := 80.
Definition msg_mem_hdr_bytes : Z := msg_hdr_bytes + 48.
Definition msg_rpc_hdr_bytes : Z := msg_hdr_bytes + 8.

(** ** The DPDK operations the library calls *)

Class Dpdk := {
  ring : Type;
  pool : Type;
  nic : Type;
  (** [rte_ring_create]: [None] is NULL. *)
  rte_ring_create : Z -> option ring;
  (** [None] is a negative return code: the ring is full. *)
  rte_ring_sp_enqueue : ring -> tasvir_msg -> option ring;
  (** All or nothing; [None] is the return value 0. *)
  rte_ring_sp_enqueue_bulk : ring -> list tasvir_msg -> option ring;
  (** At most the given number of messages. *)
  rte_ring_sc_dequeue_burst : ring -> nat -> list tasvir_msg * ring;
  rte_ring_empty : ring -> bool;
  (** [None] is a non-zero return code: the pool is exhausted. *)
  rte_mempool_get_bulk : pool -> nat -> option pool;
  rte_mempool_put_bulk : pool -> nat -> pool;
  (** How many of the messages were sent. *)
  rte_eth_tx_burst : nic -> list tasvir_msg -> nat * nic;
  rte_eth_rx_burst : nic -> nat -> list tasvir_msg * nic;
}.

(** What the DPDK documentation promises and the proofs rely on. *)
Class DpdkSpec (D : Dpdk) := {
  ring_items : ring -> list tasvir_msg;
  pool_avail : pool -> nat;
  nic_sent : nic -> list tasvir_msg;
  enqueue_items : forall r m r',
    rte_ring_sp_enqueue r m = Some r' -> ring_items r' = ring_items r ++ [m];
  enqueue_bulk_items : forall r ms r',
    rte_ring_sp_enqueue_bulk r ms = Some r' -> ring_items r' = ring_items r ++ ms;
  dequeue_burst_items : forall r n ms r',
    rte_ring_sc_dequeue_burst r n = (ms, r') ->
    ring_items r = ms ++ ring_items r' /\ length ms = (n `min` length (ring_items r))%nat;
  ring_empty_items : forall r, rte_ring_empty r = true <-> ring_items r = [];
  get_bulk_avail : forall p n p',
    rte_mempool_get_bulk p n = Some p' -> pool_avail p = (pool_avail p' + n)%nat;
  put_bulk_avail : forall p n, pool_avail (rte_mempool_put_bulk p n) = (pool_avail p + n)%nat;
  tx_burst_sent : forall p ms n p',
    rte_eth_tx_burst p ms = (n, p') ->
    (n <= length ms)%nat /\ nic_sent p' = nic_sent p ++ take n ms;
}.

(** ** Node-local data *)

(** [struct tasvir_stats] *)
Record tasvir_stats := mk_stats {
  isync_success : Z; isync_failure : Z; isync_barrier_us : Z; isync_us : Z;
  isync_changed_bytes : Z; isync_processed_bytes : Z;
  esync_cnt : Z; esync_us : Z; esync_changed_bytes : Z; esync_processed_bytes : Z;
  rx_bytes : Z; tx_bytes : Z; rx_pkts : Z; tx_pkts : Z;
}.
#[export] Instance eta_tasvir_stats : Eta tasvir_stats := fun r =>
  mk_stats (isync_success r) (isync_failure r) (isync_barrier_us r) (isync_us r)
    (isync_changed_bytes r) (isync_processed_bytes r) (esync_cnt r) (esync_us r)
    (esync_changed_bytes r) (esync_processed_bytes r) (rx_bytes r) (tx_bytes r)
    (rx_pkts r) (tx_pkts r).
Definition stats_zero : tasvir_stats := mk_stats 0 0 0 0 0 0 0 0 0 0 0 0 0 0.

(** [struct tasvir_sync_job] *)
Record tasvir_sync_job := mk_job {
  j_d : Z;
  j_self_sync : bool;
  j_done_stage1 : bool;
  j_done_stage2 : bool;
  j_done_stage3 : bool;
  j_offset : Z;
  j_bytes_seen : Z;
  j_bytes_updated : Z;
}.
#[export] Instance eta_tasvir_sync_job : Eta tasvir_sync_job := fun r =>
  mk_job (j_d r) (j_self_sync r) (j_done_stage1 r) (j_done_stage2 r) (j_done_stage3 r)
    (j_offset r) (j_bytes_seen r) (j_bytes_updated r).
Definition job_zero : tasvir_sync_job := mk_job 0 false false false false 0 0 0.

(** [tasvir_sync_item] and [tasvir_sync_list]; the array [l] is the map
    [sl_l] on the indices [0 .. TASVIR_SYNC_LIST_LEN - 1]. *)
Record tasvir_sync_item := mk_item { si_offset_scaled : Z; si_len_scaled : Z }.
#[export] Instance tasvir_sync_item_eq_dec : EqDecision tasvir_sync_item.
Proof. solve_decision. Defined.
Definition item_zero : tasvir_sync_item := mk_item 0 0.

Record tasvir_sync_list := mk_sync_list {
  sl_changed : Z;
  sl_cnt : Z;
  sl_l : gmap Z tasvir_sync_item;
}.
#[export] Instance eta_tasvir_sync_list : Eta tasvir_sync_list := fun r =>
  mk_sync_list (sl_changed r) (sl_cnt r) (sl_l r).
Definition sync_list_zero : tasvir_sync_list := mk_sync_list 0 0 ∅.

Section with_dpdk.
Context `{D : Dpdk}.

(** [struct tasvir_local_tdata] *)
Record tasvir_local_tdata := mk_tdata {
  td_time_us : Z;
  td_ring_tx : option ring;
  td_ring_rx : option ring;
  td_state : tasvir_thread_state;
  td_state_req : tasvir_thread_state;
  td_prev_sync_seq : Z;
  td_next_sync_seq : Z;
  td_sync_list : tasvir_sync_list;
}.
#[export] Instance eta_tasvir_local_tdata : Eta tasvir_local_tdata := fun r =>
  mk_tdata (td_time_us r) (td_ring_tx r) (td_ring_rx r) (td_state r) (td_state_req r)
    (td_prev_sync_seq r) (td_next_sync_seq r) (td_sync_list r).
Definition tdata_zero : tasvir_local_tdata :=
  mk_tdata 0 None None TASVIR_THREAD_STATE_INVALID TASVIR_THREAD_STATE_INVALID 0 0 sync_list_zero.

(** [struct tasvir_local_ndata]; the array [tdata] is a list of
    [TASVIR_NR_THREADS_LOCAL] entries, the array [jobs] a map. *)
Record tasvir_local_ndata := mk_ndata {
  nd_boot_us : Z; nd_time_us : Z; nd_sync_int_us : Z; nd_sync_ext_us : Z;
  nd_mp : pool;
  nd_barrier_end_tsc : Z; nd_barrier_cnt : Z; nd_barrier_seq : Z;
  nd_ring_ext_tx : ring; nd_ring_mem_pending : ring;
  nd_mac_addr : Z;
  nd_port : nic;
  nd_boot_tid : tasvir_tid; nd_memcast_tid : tasvir_tid; nd_rpccast_tid : tasvir_tid;
  nd_last_stat : Z; nd_last_sync_int_start : Z; nd_last_sync_int_end : Z;
  nd_last_sync_ext_start : Z; nd_last_sync_ext_end : Z;
  nd_stats_cur : tasvir_stats; nd_stats : tasvir_stats;
  nd_job_bytes : Z; nd_nr_jobs : Z; nd_jobs : gmap Z tasvir_sync_job;
  nd_node_init_req : bool; nd_sync_req : bool;
  nd_stat_reset_req : bool; nd_stat_update_req : bool;
  nd_tdata : list tasvir_local_tdata;
}.
#[export] Instance eta_tasvir_local_ndata : Eta tasvir_local_ndata := fun r =>
  mk_ndata (nd_boot_us r) (nd_time_us r) (nd_sync_int_us r) (nd_sync_ext_us r) (nd_mp r)
    (nd_barrier_end_tsc r) (nd_barrier_cnt r) (nd_barrier_seq r)
    (nd_ring_ext_tx r) (nd_ring_mem_pending r) (nd_mac_addr r) (nd_port r)
    (nd_boot_tid r) (nd_memcast_tid r) (nd_rpccast_tid r)
    (nd_last_stat r) (nd_last_sync_int_start r) (nd_last_sync_int_end r)
    (nd_last_sync_ext_start r) (nd_last_sync_ext_end r) (nd_stats_cur r) (nd_stats r)
    (nd_job_bytes r) (nd_nr_jobs r) (nd_jobs r) (nd_node_init_req r) (nd_sync_req r)
    (nd_stat_reset_req r) (nd_stat_update_req r) (nd_tdata r).

(** ** Thread-local data *)

(** [struct tasvir_fn_desc]; the two function pointers are the integer
    [fn_fnptr] that the hash table is keyed by. *)
Record tasvir_fn_desc := mk_fn_desc {
  fn_fnptr : Z;
  fn_fid : Z;
  fn_flags : Z;
  fn_argc : Z;
  fn_ret_len : Z;
  fn_arg_lens : list Z;
  fn_arg_offsets : list Z;
}.
#[export] Instance eta_tasvir_fn_desc : Eta tasvir_fn_desc := fun r =>
  mk_fn_desc (fn_fnptr r) (fn_fid r) (fn_flags r) (fn_argc r) (fn_ret_len r)
    (fn_arg_lens r) (fn_arg_offsets r).

(** [struct tasvir_rpc_status]; [fnd] is the index of the descriptor. *)
Record tasvir_rpc_status := mk_status {
  rs_do_free : bool;
  rs_id : Z;
  rs_fnd : Z;
  rs_status : tasvir_rpc_status_type;
  rs_response : option tasvir_msg;
}.
#[export] Instance eta_tasvir_rpc_status : Eta tasvir_rpc_status := fun r =>
  mk_status (rs_do_free r) (rs_id r) (rs_fnd r) (rs_status r) (rs_response r).
Definition status_zero : tasvir_rpc_status := mk_status false 0 0 TASVIR_RPC_STATUS_INVALID None.

(** [struct tasvir_tls_data]. Pointers are addresses (0 is NULL); [tdata] is
    an index into the node's thread table. [tl_daemon] is the compile-time
    macro TASVIR_DAEMON, [tl_debug] a build without NDEBUG (the default build
    defines it); [tl_pending] and [tl_v_prev] are the static locals
    of tasvir_sched_sync_internal and tasvir_service_nodes. *)
Record tasvir_tls_data := mk_tls {
  tl_daemon : bool;
  tl_debug : bool;
  tl_root_desc : Z;
  tl_node_desc : Z;
  tl_node : Z;
  tl_thread : Z;
  tl_tdata : Z;
  tl_nr_msgs : Z;
  tl_nr_fns : Z;
  tl_fn_descs : gmap Z tasvir_fn_desc;
  tl_ht_fnptr : gmap Z Z;
  tl_status_l : gmap Z tasvir_rpc_status;
  tl_is_root : bool;
  tl_pending : bool;
  tl_v_prev : Z;
}.
#[export] Instance eta_tasvir_tls_data : Eta tasvir_tls_data := fun r =>
  mk_tls (tl_daemon r) (tl_debug r) (tl_root_desc r) (tl_node_desc r) (tl_node r) (tl_thread r) (tl_tdata r)
    (tl_nr_msgs r) (tl_nr_fns r) (tl_fn_descs r) (tl_ht_fnptr r) (tl_status_l r) (tl_is_root r)
    (tl_pending r) (tl_v_prev r).

(** ** The world of one thread *)

(** One [mmap(..., MAP_FIXED, ...)] of a window of the data region: its
    address, its length, and whether it shows the writer copy. *)
Record vmap := mk_vmap { vm_start : Z; vm_len : Z; vm_rw : bool }.

(** [w_mem] is the shared-memory object "tasvir", one 64-bit word per
    8-aligned offset of the file (absent is zero, as after [ftruncate]);
    [w_maps] the windows this thread remapped, latest first; [w_clk] the
    successive readings of the time-stamp counter, [w_tick] how many were
    taken; [w_tsc2usec] and [w_usec2tsc] the conversions by
    [tsc2usec_mult]; [w_alive] the processes [kill(pid, 0)] finds and
    [w_killed] the ones sent SIGKILL; [w_mmap_ok] the addresses at which
    [mmap] with [MAP_FIXED] succeeds. *)
Record world := mk_world {
  w_mem : gmap Z Z;
  w_maps : list vmap;
  w_nd : tasvir_local_ndata;
  w_tl : tasvir_tls_data;
  w_clk : nat -> Z;
  w_tick : nat;
  w_tsc2usec : Z -> Z;
  w_usec2tsc : Z -> Z;
  w_alive : Z -> bool;
  w_killed : list Z;
  w_mmap_ok : Z -> bool;
}.
#[export] Instance eta_world : Eta world := fun r =>
  mk_world (w_mem r) (w_maps r) (w_nd r) (w_tl r) (w_clk r) (w_tick r) (w_tsc2usec r)
    (w_usec2tsc r) (w_alive r) (w_killed r) (w_mmap_ok r).

(** ** State access *)

Definition nd_td (nd : tasvir_local_ndata) (i : Z) : tasvir_local_tdata :=
  default tdata_zero (nd_tdata nd !! Z.to_nat i).
Definition nd_set_td (i : Z) (t : tasvir_local_tdata) (nd : tasvir_local_ndata) :
    tasvir_local_ndata :=
  nd <| nd_tdata := <[Z.to_nat i := t]> (nd_tdata nd) |>.
Definition nd_job (nd : tasvir_local_ndata) (i : Z) : tasvir_sync_job :=
  default job_zero (nd_jobs nd !! i).

(** [ttld.ndata->f], [ttld.tdata->f] and their assignments. *)
Definition ndata {A} (f : tasvir_local_ndata -> A) : cmd world A := gets (fun w => f (w_nd w)).
Definition ttld {A} (f : tasvir_tls_data -> A) : cmd world A := gets (fun w => f (w_tl w)).
Definition tdata {A} (f : tasvir_local_tdata -> A) : cmd world A :=
  gets (fun w => f (nd_td (w_nd w) (tl_tdata (w_tl w)))).
Definition mod_nd (f : tasvir_local_ndata -> tasvir_local_ndata) : cmd world unit :=
  modify (fun w => w <| w_nd := f (w_nd w) |>).
Definition mod_tl (f : tasvir_tls_data -> tasvir_tls_data) : cmd world unit :=
  modify (fun w => w <| w_tl := f (w_tl w) |>).
Definition mod_td_at (i : Z) (f : tasvir_local_tdata -> tasvir_local_tdata) : cmd world unit :=
  mod_nd (fun nd => nd_set_td i (f (nd_td nd i)) nd).
Definition mod_td (f : tasvir_local_tdata -> tasvir_local_tdata) : cmd world unit :=
  i ← ttld tl_tdata; mod_td_at i f.
Definition mod_job (i : Z) (f : tasvir_sync_job -> tasvir_sync_job) : cmd world unit :=
  mod_nd (fun nd => nd <| nd_jobs := <[i := f (nd_job nd i)]> (nd_jobs nd) |>).
Definition mod_stats (f : tasvir_stats -> tasvir_stats) : cmd world unit :=
  mod_nd (fun nd => nd <| nd_stats_cur := f (nd_stats_cur nd) |>).

(** [assert(b)] *)
Definition assert_w (b : bool) : cmd world unit :=
  debug ← ttld tl_debug; if (debug && negb b)%bool then fail AssertFail else mret tt.

(** ** Time *)

(** [__rdtsc()] *)
Definition rdtsc : cmd world Z := fun w =>
  Done (w_clk w (w_tick w), w <| w_tick := S (w_tick w) |>).
Definition tasvir_tsc2usec (tsc : Z) : cmd world Z := gets (fun w => w_tsc2usec w tsc).
Definition tasvir_usec2tsc (us : Z) : cmd world Z := gets (fun w => w_usec2tsc w us).
Definition tasvir_time_us : cmd world Z := t ← rdtsc; tasvir_tsc2usec t.
Definition tasvir_time_boot_us : cmd world Z :=
  t ← tasvir_time_us; b ← ndata nd_boot_us; mret (u64 (t - b)).

(** ** Thread status *)

Definition tasvir_is_booting : cmd world bool :=
  t ← ttld tl_thread; s ← tdata td_state;
  mret ((t =? 0) || bool_decide (s = TASVIR_THREAD_STATE_BOOTING)).
Definition tasvir_is_running : cmd world bool :=
  t ← ttld tl_thread; s ← tdata td_state;
  mret (negb (t =? 0) && bool_decide (s = TASVIR_THREAD_STATE_RUNNING)).

End with_dpdk.

#[global] Arguments nd_td {_} _ _ : simpl never.
#[global] Arguments nd_set_td {_} _ _ _ : simpl never.
#[global] Arguments nd_job {_} _ _ : simpl never.
