(* ===== verification/Fifo.v ===== *)
(** * Fifo: a concrete DPDK for the examples

    An instance of the interface [Dpdk] that satisfies [DpdkSpec]: rings are
    bounded queues, the packet pool is a counter and the network card records
    what it was given to send. With it the definitions of the development
    evaluate on concrete inputs; [world0] is the state of a freshly booted
    node: an empty shared-memory object, no remapped window, thread 0. *)
From stdpp Require Import base gmap list numbers.
From Stdlib Require Import ZArith Lia.
From S2P Require Import Prelude Defs Types.

(** A ring: its contents and its capacity. *)
Record fifo := mk_fifo { fifo_items : list tasvir_msg; fifo_cap : nat }.

Definition fifo_enqueue (r : fifo) (ms : list tasvir_msg) : option fifo :=
  if decide (length (fifo_items r) + length ms <= fifo_cap r)%nat
  then Some (mk_fifo (fifo_items r ++ ms) (fifo_cap r)) else None.

Definition fifo_dequeue (r : fifo) (n : nat) : list tasvir_msg * fifo :=
  (take n (fifo_items r), mk_fifo (drop n (fifo_items r)) (fifo_cap r)).

Definition pool_get (p n : nat) : option nat :=
  if decide (n <= p)%nat then Some (p - n)%nat else None.

(** The card: what it sent, what it will deliver. *)
Record card := mk_card { card_tx : list tasvir_msg; card_rx : list tasvir_msg }.

Definition fifo_dpdk : Dpdk := {|
  ring := fifo;
  pool := nat;
  nic := card;
  rte_ring_create size := Some (mk_fifo [] (Z.to_nat (size - 1)));
  rte_ring_sp_enqueue r m := fifo_enqueue r [m];
  rte_ring_sp_enqueue_bulk := fifo_enqueue;
  rte_ring_sc_dequeue_burst := fifo_dequeue;
  rte_ring_empty r := match fifo_items r with [] => true | _ => false end;
  rte_mempool_get_bulk := pool_get;
  rte_mempool_put_bulk p n := (p + n)%nat;
  rte_eth_tx_burst c ms := (length ms, mk_card (card_tx c ++ ms) (card_rx c));
  rte_eth_rx_burst c n := (take n (card_rx c), mk_card (card_tx c) (drop n (card_rx c)));
|}.

Lemma fifo_enqueue_items r ms r' :
  fifo_enqueue r ms = Some r' -> fifo_items r' = fifo_items r ++ ms.
Proof. unfold fifo_enqueue. case_decide; [|done]. by intros [= <-]. Qed.

#[export] Instance fifo_dpdk_spec : DpdkSpec fifo_dpdk.
Proof.
  refine {| ring_items := fifo_items : @ring fifo_dpdk -> _; pool_avail := (fun n => n) : @pool fifo_dpdk -> nat;
            nic_sent := card_tx : @nic fifo_dpdk -> _ |}; cbn.
  - intros. by apply fifo_enqueue_items.
  - intros. by apply fifo_enqueue_items.
  - intros r n ms r' [= <- <-]. cbn. rewrite take_drop, length_take. done.
  - intros r. by destruct (fifo_items r).
  - intros p n p'. unfold pool_get. case_decide; [|done]. intros [= <-]. lia.
  - done.
  - intros p ms n p' [= <- <-]. cbn. split; [done|]. by rewrite take_ge.
Defined.

(** ** A freshly booted node *)

Definition ring0 : fifo := mk_fifo [] 4095.
Definition tid0 : tasvir_tid := mk_tid 0 0 0.

Definition msg0 : tasvir_msg := {|
  m_pkt_len := 0; m_ether_dhost := 0; m_ether_shost := 0; m_ether_type := 0;
  m_type := TASVIR_MSG_TYPE_MEM; m_id := 0; m_src_tid := tid0; m_dst_tid := tid0;
  m_d := 0; m_version := 0; m_body := Msg_mem 0 0 false 0 [] |}.

Definition ndata0 : @tasvir_local_ndata fifo_dpdk := {|
  nd_boot_us := 0; nd_time_us := 0;
  nd_sync_int_us := TASVIR_SYNC_INTERNAL_US; nd_sync_ext_us := TASVIR_SYNC_EXTERNAL_US;
  nd_mp := 1000%nat : @pool fifo_dpdk;
  nd_barrier_end_tsc := 0; nd_barrier_cnt := 2 ^ 64 - 1; nd_barrier_seq := 1;
  nd_ring_ext_tx := ring0 : @ring fifo_dpdk; nd_ring_mem_pending := ring0 : @ring fifo_dpdk;
  nd_mac_addr := 0;
  nd_port := mk_card [] [] : @nic fifo_dpdk;
  nd_boot_tid := tid0; nd_memcast_tid := tid0; nd_rpccast_tid := tid0;
  nd_last_stat := 0; nd_last_sync_int_start := 0; nd_last_sync_int_end := 0;
  nd_last_sync_ext_start := 0; nd_last_sync_ext_end := 0;
  nd_stats_cur := stats_zero; nd_stats := stats_zero;
  nd_job_bytes := 0; nd_nr_jobs := 0; nd_jobs := ∅;
  nd_node_init_req := false; nd_sync_req := false;
  nd_stat_reset_req := false; nd_stat_update_req := false;
  nd_tdata := replicate 64 (@tdata_zero fifo_dpdk);
|}.

Definition tls0 : tasvir_tls_data := {|
  tl_daemon := true; tl_debug := false; tl_root_desc := 0; tl_node_desc := 0; tl_node := 0; tl_thread := 0;
  tl_tdata := 0; tl_nr_msgs := 0; tl_nr_fns := 0; tl_fn_descs := ∅; tl_ht_fnptr := ∅;
  tl_status_l := ∅; tl_is_root := false; tl_pending := false; tl_v_prev := 0;
|}.

Definition world0 : @world fifo_dpdk := {|
  w_mem := ∅; w_maps := []; w_nd := ndata0; w_tl := tls0;
  w_clk := fun n => 1000 * Z.of_nat n; w_tick := 0;
  w_tsc2usec := fun t => t; w_usec2tsc := fun t => t;
  w_alive := fun _ => true; w_killed := []; w_mmap_ok := fun _ => true;
|}.
