(* ===== verification/Mem.v ===== *)
(** * Mem: the shared memory object, its mappings and the copy routines

    Models what tasvir_init_local (src/init.c) maps and the memory helpers of
    src/utils.h. The shared-memory object "tasvir" of TASVIR_SIZE_MAP bytes
    holds, in this order, the reader copy of the data region, the writer copy,
    the change log and the node-local data. It is mapped at TASVIR_ADDR_BASE;
    its first two regions are mapped again at TASVIR_ADDR_DATA_RO (so that the
    reader copy is at TASVIR_ADDR_DATA_RO and the writer copy at
    TASVIR_ADDR_DATA_RW). A thread sees the reader copy at TASVIR_ADDR_DATA,
    except in the windows it has remapped to the writer copy. *)
From stdpp Require Import base gmap list numbers.
From Stdlib Require Import ZArith Lia.
From S2P Require Import Prelude Defs Types.

Definition in_range (a lo len : Z) : bool := (lo <=? a) && (a <? lo + len).

(** The latest window that holds [va] decides which copy is visible. *)
Fixpoint window_rw (maps : list vmap) (va : Z) : bool :=
  match maps with
  | [] => false
  | v :: maps' => if in_range va (vm_start v) (vm_len v) then vm_rw v else window_rw maps' va
  end.

(** The offset in the shared-memory object a virtual address stands for. *)
Definition va2off (maps : list vmap) (va : Z) : option Z :=
  if in_range va TASVIR_ADDR_BASE TASVIR_SIZE_DATA then
    Some (va - TASVIR_ADDR_BASE + (if window_rw maps va then TASVIR_SIZE_DATA else 0))
  else if in_range va TASVIR_ADDR_BASE TASVIR_SIZE_MAP then Some (va - TASVIR_ADDR_BASE)
  else if in_range va TASVIR_ADDR_DATA_RO (TASVIR_SIZE_DATA * 2) then Some (va - TASVIR_ADDR_DATA_RO)
  else None.

(** The word at a file offset; a page never written reads as zero. *)
Definition ld (m : gmap Z Z) (o : Z) : Z := default 0 (m !! o).

(** ** Address arithmetic (src/utils.h) *)

Definition tasvir_data2ro (data : Z) : Z := u64 (data + TASVIR_OFFSET_RO).
Definition tasvir_data2rw (data : Z) : Z := u64 (data + TASVIR_OFFSET_RW).
Definition tasvir_data2log (data : Z) : Z :=
  u64 (TASVIR_ADDR_LOG
       + 8 * pext_u64 data (Z.land (TASVIR_SIZE_DATA - 1) (shl64 (2 ^ 64 - 1) TASVIR_SHIFT_UNIT))).

(** AVX-512: src/sync.c uses the 512-bit intrinsics unconditionally. *)
Definition TASVIR_VEC_BYTES : Z := 64.

Section with_dpdk.
Context `{D : Dpdk}.

(** ** Loads and stores of 64-bit words *)

Definition load (va : Z) : cmd world Z := fun w =>
  match va2off (w_maps w) va with
  | Some o => if o mod 8 =? 0 then Done (ld (w_mem w) o, w) else Fault Segv
  | None => Fault Segv
  end.

Definition store (va v : Z) : cmd world unit := fun w =>
  match va2off (w_maps w) va with
  | Some o => if o mod 8 =? 0 then Done (tt, w <| w_mem := <[o := v]> (w_mem w) |>) else Fault Segv
  | None => Fault Segv
  end.

Fixpoint load_words (n : nat) (va : Z) : cmd world (list Z) :=
  match n with
  | O => mret []
  | S n' => v ← load va; vs ← load_words n' (va + 8); mret (v :: vs)
  end.

Fixpoint store_words (va : Z) (vs : list Z) : cmd world unit :=
  match vs with
  | [] => mret tt
  | v :: vs' => store va v;; store_words (va + 8) vs'
  end.

(** ** Vector copies (src/utils.h) *)

(** One 64-byte vector from [src] to [dst]. *)
Definition tasvir_store_vec (dst src : Z) : cmd world unit :=
  vs ← load_words 8 src; store_words dst vs.

(** The non-temporal variant stores the same bytes. *)
Definition tasvir_stream_vec (dst src : Z) : cmd world unit :=
  vs ← load_words 8 src; store_words dst vs.

(** [do { vec(dst, src); dst += 64; src += 64; } while (dst < dst_end)] *)
Fixpoint vec_loop (vec : Z -> Z -> cmd world unit) (n : nat) (dst src dst_end : Z) :
    cmd world unit :=
  match n with
  | O => fail NoFuel
  | S n' =>
      vec dst src;;
      let dst := dst + TASVIR_VEC_BYTES in
      let src := src + TASVIR_VEC_BYTES in
      if dst <? dst_end then vec_loop vec n' dst src dst_end else mret tt
  end.

(** At most [len / 64 + 1] vectors are copied. *)
Definition tasvir_store_vec_rep (dst src len : Z) : cmd world unit :=
  vec_loop tasvir_store_vec (Z.to_nat (len / TASVIR_VEC_BYTES + 1)) dst src (u64 (dst + len)).

Definition tasvir_stream_vec_rep (dst src len : Z) : cmd world unit :=
  vec_loop tasvir_stream_vec (Z.to_nat (len / TASVIR_VEC_BYTES + 1)) dst src (u64 (dst + len)).

(** ** Fields of the structures in memory *)

(** The 32-bit field in the low (high) half of a word, and its assignment. *)
Definition lo32 (w : Z) : Z := u32 w.
Definition hi32 (w : Z) : Z := Z.shiftr w 32.
Definition set_hi32 (w v : Z) : Z := Z.lor (u32 w) (Z.shiftl v 32).

(** [t->tid] and [t->state] of the thread at address [t]. *)
Definition load_tid (t : Z) : cmd world tasvir_tid :=
  a ← load (t + thr_nid_idx); b ← load (t + thr_pid_state);
  mret (mk_tid (Z.land a (2 ^ 48 - 1)) (Z.shiftr a 48) (i32 (lo32 b))).
Definition load_thread_state (t : Z) : cmd world Z :=
  b ← load (t + thr_pid_state); mret (hi32 b).

(** [d->h->diff_log[i].f] *)
Definition load_diff_log (h i f : Z) : cmd world Z := load (h + hdr_diff_log i + f).

(** [tasvir_data(d)] *)
Definition tasvir_data (d : Z) : cmd world Z :=
  h ← load (d + desc_h); mret (h + sizeof_header).

(** ** Lemmas: translation *)

(** The bytes [va .. va+n-1] are mapped to the file offsets [o .. o+n-1]. *)
Definition spans (maps : list vmap) (va o n : Z) : Prop :=
  forall i, 0 <= i < n -> va2off maps (va + i) = Some (o + i).

Lemma in_range_true a lo n : in_range a lo n = true <-> lo <= a < lo + n.
Proof. unfold in_range. rewrite andb_true_iff, Z.leb_le, Z.ltb_lt. done. Qed.

Lemma in_range_false a lo n : in_range a lo n = false <-> ~ (lo <= a < lo + n).
Proof. rewrite <- in_range_true. by destruct (in_range a lo n). Qed.

Lemma in_range_sub a lo n k : in_range (a - k) lo n = in_range a (lo + k) n.
Proof. unfold in_range. f_equal; cases_cmp; done. Qed.

(** Every thread reaches the reader copy, the writer copy and the log at
    fixed addresses, whatever windows it has remapped. *)
Lemma spans_ro maps a n :
  0 <= a -> a + n <= TASVIR_SIZE_DATA -> spans maps (TASVIR_ADDR_DATA_RO + a) a n.
Proof.
  intros Ha Hn i Hi. unfold va2off, in_range. defs.
  cases_cmp; simpl; f_equal; lia.
Qed.

Lemma spans_rw maps a n :
  0 <= a -> a + n <= TASVIR_SIZE_DATA ->
  spans maps (TASVIR_ADDR_DATA_RW + a) (TASVIR_SIZE_DATA + a) n.
Proof.
  intros Ha Hn i Hi. unfold va2off, in_range. defs.
  cases_cmp; simpl; f_equal; lia.
Qed.

Lemma spans_log maps a n :
  0 <= a -> a + n <= TASVIR_SIZE_LOG ->
  spans maps (TASVIR_ADDR_LOG + a) (2 * TASVIR_SIZE_DATA + a) n.
Proof.
  intros Ha Hn i Hi. unfold va2off, in_range. defs.
  cases_cmp; simpl; f_equal; lia.
Qed.

(** A part of the data region no window touches shows the reader copy. *)
Lemma spans_data maps a n (rw : bool) :
  0 <= a -> a + n <= TASVIR_SIZE_DATA ->
  (forall i, 0 <= i < n -> window_rw maps (TASVIR_ADDR_DATA + a + i) = rw) ->
  spans maps (TASVIR_ADDR_DATA + a) (a + (if rw then TASVIR_SIZE_DATA else 0)) n.
Proof.
  intros Ha Hn Hw i Hi. unfold va2off. rewrite Hw by lia. unfold in_range. defs.
  cases_cmp; simpl; f_equal; destruct rw; lia.
Qed.

Lemma spans_sub maps va o n k m :
  spans maps va o n -> 0 <= k -> k + m <= n -> spans maps (va + k) (o + k) m.
Proof.
  intros H Hk Hm i Hi. rewrite <- !Z.add_assoc. apply H. lia.
Qed.

(** ** Lemmas: words *)

Lemma load_runs w va o n i :
  spans (w_maps w) va o n -> aligned 8 o -> 0 <= i < n -> aligned 8 i ->
  load (va + i) w = Done (ld (w_mem w) (o + i), w).
Proof.
  intros Hs Ho Hi Hai. unfold load. rewrite (Hs i Hi).
  assert (aligned 8 (o + i)) as Ha by align.
  unfold aligned in Ha. rewrite Ha. done.
Qed.

Lemma store_runs w va o n i v :
  spans (w_maps w) va o n -> aligned 8 o -> 0 <= i < n -> aligned 8 i ->
  store (va + i) v w = Done (tt, w <| w_mem := <[o + i := v]> (w_mem w) |>).
Proof.
  intros Hs Ho Hi Hai. unfold store. rewrite (Hs i Hi).
  assert (aligned 8 (o + i)) as Ha by align.
  unfold aligned in Ha. rewrite Ha. done.
Qed.

Lemma bind_load {B} (f : Z -> cmd world B) w va o n i :
  spans (w_maps w) va o n -> aligned 8 o -> 0 <= i < n -> aligned 8 i ->
  (load (va + i) ≫= f) w = f (ld (w_mem w) (o + i)) w.
Proof. intros. by erewrite bind_runs by (by eapply load_runs). Qed.

Lemma bind_store {B} (f : unit -> cmd world B) w va o n i v :
  spans (w_maps w) va o n -> aligned 8 o -> 0 <= i < n -> aligned 8 i ->
  (store (va + i) v ≫= f) w = f tt (w <| w_mem := <[o + i := v]> (w_mem w) |>).
Proof. intros. by erewrite bind_runs by (by eapply store_runs). Qed.

(** The same at the first word of the span. *)
Lemma load_runs0 w va o n :
  spans (w_maps w) va o n -> aligned 8 o -> 0 < n -> load va w = Done (ld (w_mem w) o, w).
Proof.
  intros Hs Ho Hn. pose proof (load_runs w va o n 0 Hs Ho) as E.
  rewrite !Z.add_0_r in E. apply E; [lia|done].
Qed.

Lemma store_runs0 w va o n v :
  spans (w_maps w) va o n -> aligned 8 o -> 0 < n ->
  store va v w = Done (tt, w <| w_mem := <[o := v]> (w_mem w) |>).
Proof.
  intros Hs Ho Hn. pose proof (store_runs w va o n 0 v Hs Ho) as E.
  rewrite !Z.add_0_r in E. apply E; [lia|done].
Qed.

Lemma ld_insert m o v a : ld (<[o := v]> m) a = if o =? a then v else ld m a.
Proof.
  unfold ld. destruct (Z.eqb_spec o a) as [->|Hne].
  - by rewrite lookup_insert_eq.
  - by rewrite lookup_insert_ne.
Qed.

(** The words [m[o], m[o+8], ...]. *)
Definition words (m : gmap Z Z) (o : Z) (n : nat) : list Z :=
  (fun i => ld m (o + 8 * i)) <$> seqZ 0 (Z.of_nat n).

Lemma words_S m o n : words m o (S n) = ld m o :: words m (o + 8) n.
Proof.
  unfold words. rewrite seqZ_cons by lia. cbn [fmap list_fmap]. f_equal; [f_equal; lia|].
  replace (Z.pred (Z.of_nat (S n))) with (Z.of_nat n) by lia.
  change (Z.succ 0) with (1 + 0). rewrite <- fmap_add_seqZ, <- list_fmap_compose.
  apply list_fmap_ext. intros i x _. cbn. f_equal. lia.
Qed.

Lemma length_words m o n : length (words m o n) = n.
Proof. unfold words. rewrite length_fmap, length_seqZ. lia. Qed.

Lemma words_lookup m o n i :
  (i < n)%nat -> words m o n !! i = Some (ld m (o + 8 * Z.of_nat i)).
Proof.
  intros Hi. unfold words. rewrite list_lookup_fmap, lookup_seqZ_lt by lia.
  done.
Qed.

Lemma load_words_runs w va o n :
  spans (w_maps w) va o (8 * Z.of_nat n) -> aligned 8 o ->
  load_words n va w = Done (words (w_mem w) o n, w).
Proof.
  revert va o. induction n as [|n IH]; intros va o Hs Ho; [done|].
  cbn [load_words]. unfold mbind, cmd_bind.
  rewrite (load_runs0 w va o _ Hs Ho) by lia.
  rewrite (IH (va + 8) (o + 8));
    [| apply (spans_sub _ _ _ _ 8 _ Hs); lia | align ].
  rewrite words_S. done.
Qed.

(** Memory after [store_words]. *)
Fixpoint write_words (m : gmap Z Z) (o : Z) (vs : list Z) : gmap Z Z :=
  match vs with
  | [] => m
  | v :: vs' => write_words (<[o := v]> m) (o + 8) vs'
  end.

Lemma store_words_runs w va o vs :
  spans (w_maps w) va o (8 * Z.of_nat (length vs)) -> aligned 8 o ->
  store_words va vs w = Done (tt, w <| w_mem := write_words (w_mem w) o vs |>).
Proof.
  revert va o w. induction vs as [|v vs IH]; intros va o w Hs Ho; [by destruct w|].
  cbn [store_words write_words length] in *. unfold mbind, cmd_bind.
  rewrite (store_runs0 w va o _ v Hs Ho) by lia.
  rewrite (IH (va + 8) (o + 8)); [done | |align].
  cbn. apply (spans_sub _ _ _ _ 8 _ Hs); lia.
Qed.

Lemma ld_write_words m o vs a :
  aligned 8 o -> aligned 8 a ->
  ld (write_words m o vs) a =
  if in_range a o (8 * Z.of_nat (length vs)) then vs !!! Z.to_nat ((a - o) / 8) else ld m a.
Proof.
  revert m o. induction vs as [|v vs IH]; intros m o Ho Ha.
  - cbn [write_words length]. destruct (in_range _ _ _) eqn:E; [|done].
    apply in_range_true in E. lia.
  - cbn [write_words]. rewrite IH by align.
    rewrite ld_insert. unfold in_range. cbn [length].
    apply aligned_exists in Ho as [p ->]; [|lia].
    apply aligned_exists in Ha as [q ->]; [|lia].
    replace (8 * q - (8 * p + 8)) with ((q - p - 1) * 8) by lia.
    replace (8 * q - 8 * p) with ((q - p) * 8) by lia.
    rewrite !Z.div_mul by lia.
    destruct (Z.eqb_spec (8 * p) (8 * q)).
    + replace (q - p) with 0 by lia. cases_cmp; done.
    + cases_cmp; cbn [andb]; try done.
      replace (Z.to_nat (q - p)) with (S (Z.to_nat (q - p - 1))) by lia. done.
Qed.

(** ** Lemmas: copies *)

(** [m'] is [m] with [n] bytes copied from offset [os] to offset [od]. *)
Definition copies (m m' : gmap Z Z) (od os n : Z) : Prop :=
  forall a, aligned 8 a -> ld m' a = if in_range a od n then ld m (a - od + os) else ld m a.

Lemma copies_trans m m1 m2 od os n1 n2 :
  aligned 8 od -> aligned 8 os -> 0 <= n1 -> 0 <= n2 -> aligned 8 n1 ->
  (od + (n1 + n2) <= os \/ os + (n1 + n2) <= od) ->
  copies m m1 od os n1 -> copies m1 m2 (od + n1) (os + n1) n2 ->
  copies m m2 od os (n1 + n2).
Proof.
  intros Hod Hos Hn1 Hn2 Han Hdis H1 H2 a Ha. rewrite H2 by done.
  destruct (in_range a (od + n1) n2) eqn:E.
  - apply in_range_true in E. rewrite H1.
    + assert (in_range (a - (od + n1) + (os + n1)) od n1 = false) as ->
        by (apply in_range_false; lia).
      assert (in_range a od (n1 + n2) = true) as -> by (apply in_range_true; lia).
      f_equal. lia.
    + align.
  - rewrite H1 by done. apply in_range_false in E.
    destruct (in_range a od n1) eqn:E1, (in_range a od (n1 + n2)) eqn:E2; try done.
    + apply in_range_true in E1. apply in_range_false in E2. lia.
    + apply in_range_false in E1. apply in_range_true in E2. lia.
Qed.

Lemma store_vec_runs w dst src od os :
  spans (w_maps w) dst od 64 -> spans (w_maps w) src os 64 ->
  aligned 8 od -> aligned 8 os ->
  exists m', tasvir_store_vec dst src w = Done (tt, w <| w_mem := m' |>) /\
    copies (w_mem w) m' od os 64.
Proof.
  intros Hd Hs Ho Hso. exists (write_words (w_mem w) od (words (w_mem w) os 8)). split.
  - unfold tasvir_store_vec, mbind, cmd_bind.
    rewrite (load_words_runs w src os 8) by done.
    apply store_words_runs; [|done]. by rewrite length_words.
  - intros a Ha. rewrite ld_write_words by done. rewrite length_words.
    change (8 * Z.of_nat 8) with 64. destruct (in_range a od 64) eqn:E; [|done].
    apply in_range_true in E.
    apply aligned_exists in Ho as [p ->]; [|lia].
    apply aligned_exists in Ha as [q ->]; [|lia].
    replace (8 * q - 8 * p) with ((q - p) * 8) by lia. rewrite Z.div_mul by lia.
    erewrite list_lookup_total_correct; [|apply words_lookup; lia].
    f_equal. lia.
Qed.

Lemma set_mem_mem (w : world) m1 m2 : w <| w_mem := m1 |> <| w_mem := m2 |> = w <| w_mem := m2 |>.
Proof. done. Qed.

(** The copy loop moves exactly [64 * k] bytes, whichever vector primitive it
    uses (both have the same effect on memory). *)
Lemma vec_loop_runs vec w dst src od os k n :
  (forall w dst src, vec dst src w = tasvir_store_vec dst src w) ->
  1 <= k -> (Z.to_nat k <= n)%nat ->
  spans (w_maps w) dst od (64 * k) -> spans (w_maps w) src os (64 * k) ->
  aligned 8 od -> aligned 8 os ->
  (od + 64 * k <= os \/ os + 64 * k <= od) ->
  exists m', vec_loop vec n dst src (dst + 64 * k) w = Done (tt, w <| w_mem := m' |>) /\
    copies (w_mem w) m' od os (64 * k).
Proof.
  intros Hvec. revert w dst src od os k.
  induction n as [|n IH]; intros w dst src od os k Hk Hn Hd Hs Ho Hso Hdis; [lia|].
  cbn [vec_loop]. unfold mbind, cmd_bind. rewrite Hvec.
  destruct (store_vec_runs w dst src od os) as (m1 & E1 & C1);
    [intros i Hi; apply Hd; lia | intros i Hi; apply Hs; lia | done..|].
  rewrite E1. unfold TASVIR_VEC_BYTES.
  destruct (Z.ltb_spec (dst + 64) (dst + 64 * k)).
  - destruct (IH (w <| w_mem := m1 |>) (dst + 64) (src + 64) (od + 64) (os + 64) (k - 1))
      as (m2 & E2 & C2); try lia.
    + apply (spans_sub _ _ _ _ 64 _ Hd); lia.
    + apply (spans_sub _ _ _ _ 64 _ Hs); lia.
    + align.
    + align.
    + exists m2. replace (dst + 64 + 64 * (k - 1)) with (dst + 64 * k) in E2 by lia.
      rewrite E2, set_mem_mem. split; [done|].
      replace (64 * k) with (64 + 64 * (k - 1)) by lia.
      eapply copies_trans; eauto; lia || done.
  - exists m1. split; [done|]. by replace (64 * k) with 64 by lia.
Qed.

Lemma store_vec_rep_runs w dst src od os k :
  1 <= k -> 0 <= dst -> dst + 64 * k < 2 ^ 64 ->
  spans (w_maps w) dst od (64 * k) -> spans (w_maps w) src os (64 * k) ->
  aligned 8 od -> aligned 8 os ->
  (od + 64 * k <= os \/ os + 64 * k <= od) ->
  exists m', tasvir_store_vec_rep dst src (64 * k) w = Done (tt, w <| w_mem := m' |>) /\
    copies (w_mem w) m' od os (64 * k).
Proof.
  intros. unfold tasvir_store_vec_rep, TASVIR_VEC_BYTES. rewrite u64_small by lia.
  rewrite (Z.mul_comm 64 k), Z.div_mul, (Z.mul_comm k 64) by lia.
  apply vec_loop_runs; done || lia.
Qed.

End with_dpdk.
