(* ===== verification/Log.v ===== *)
(** * Log: the change log (tasvir_log, include/tasvir/tasvir.h)

    Every 64-byte line of the data region has one bit in the log region; bit
    0 of a 64-bit log unit is its most significant bit. An application calls
    [tasvir_log] on what it writes; the synchronization reads, and clears,
    the bits. The main result is the exact set of bits a call sets. *)
From stdpp Require Import base gmap list numbers.
From Stdlib Require Import ZArith Lia.
From S2P Require Import Prelude Defs Types Fifo Mem.

(** The mask both [_pext_u64] calls of [tasvir_log] use. *)
Definition log_mask : Z :=
  Z.land (TASVIR_SIZE_DATA - 1) (shl64 (2 ^ 64 - 1) TASVIR_SHIFT_BIT).

(** [~(tasvir_log_t)0 >> (i % 64)] and [(1L << 63) >> (i % 64)], the second
    an arithmetic shift converted to unsigned. *)
Definition log_mask0 (i : Z) : Z := shr64 (2 ^ 64 - 1) (i mod TASVIR_LOG_UNIT_BITS).
Definition log_mask1 (i : Z) : Z := u64 (Z.shiftr (- 2 ^ 63) (i mod TASVIR_LOG_UNIT_BITS)).

Section with_dpdk.
Context `{D : Dpdk}.

Definition tasvir_log (data len : Z) : cmd world unit :=
  let logbit_idx0 := pext_u64 data log_mask in
  let logbit_idx1 := pext_u64 (u64 (data + len - 1)) log_mask in
  let logunit_idx0 := Z.shiftr logbit_idx0 (TASVIR_SHIFT_UNIT - TASVIR_SHIFT_BIT) in
  let logunit_idx1 := Z.shiftr logbit_idx1 (TASVIR_SHIFT_UNIT - TASVIR_SHIFT_BIT) in
  let mask0 := log_mask0 logbit_idx0 in
  let mask1 := log_mask1 logbit_idx1 in
  let logdiff := u64 (logunit_idx1 - logunit_idx0) in
  let log := TASVIR_ADDR_LOG + 8 * logunit_idx0 in
  if logdiff =? 0 then
    v ← load log;
    let val_new := Z.lor v (Z.land mask0 mask1) in
    when (negb (v =? val_new)) (store log val_new)
  else
    v0 ← load log;
    store log (Z.lor v0 mask0);;
    for_each (seqZ 1 (logdiff - 1)) (fun i => store (log + 8 * i) (2 ^ 64 - 1));;
    v1 ← load (log + 8 * logdiff);
    store (log + 8 * logdiff) (Z.lor v1 mask1).

(** ** The log as a set of lines *)

(** The file offset of log unit [j]; the log bit of line [k]. *)
Definition log_off (j : Z) : Z := 2 * TASVIR_SIZE_DATA + 8 * j.
Definition logbit (m : gmap Z Z) (k : Z) : bool := msb (ld m (log_off (k / 64))) (k mod 64).

(** Number of lines of the data region. *)
Definition nr_lines : Z := TASVIR_SIZE_DATA / 64.

(** ** Lemmas *)

Lemma pext_log_mask v : pext_u64 v log_mask = (v mod TASVIR_SIZE_DATA) / 64.
Proof.
  unfold log_mask. change TASVIR_SIZE_DATA with (2 ^ 40). change TASVIR_SHIFT_BIT with 6.
  rewrite pext_field by lia. apply Z.shiftr_div_pow2. lia.
Qed.

Lemma msb_lor a b i : msb (Z.lor a b) i = msb a i || msb b i.
Proof. unfold msb. apply Z.lor_spec. Qed.

Lemma msb_land a b i : msb (Z.land a b) i = msb a i && msb b i.
Proof. unfold msb. apply Z.land_spec. Qed.

Lemma msb_ones i : 0 <= i < 64 -> msb (2 ^ 64 - 1) i = true.
Proof.
  intros. unfold msb. change (2 ^ 64 - 1) with (Z.ones 64).
  rewrite testbit_ones64 by lia. cases_cmp; done.
Qed.

Lemma msb_mask0 k i : 0 <= i < 64 -> msb (log_mask0 k) i = (k mod 64 <=? i).
Proof.
  intros Hi. unfold msb, log_mask0. change TASVIR_LOG_UNIT_BITS with 64.
  pose proof (Z.mod_pos_bound k 64 ltac:(lia)).
  rewrite testbit_shr64 by lia. change (2 ^ 64 - 1) with (Z.ones 64).
  rewrite testbit_ones64 by lia. cases_cmp; done.
Qed.

Lemma msb_mask1 k i : 0 <= i < 64 -> msb (log_mask1 k) i = (i <=? k mod 64).
Proof.
  intros Hi. unfold msb, log_mask1. change TASVIR_LOG_UNIT_BITS with 64.
  pose proof (Z.mod_pos_bound k 64 ltac:(lia)).
  rewrite testbit_u64, Z.shiftr_spec by lia.
  change (- 2 ^ 63) with (Z.lnot (Z.ones 63)).
  rewrite Z.lnot_spec, testbit_ones64 by lia. cases_cmp; done.
Qed.

(** A loop that stores the same word at consecutive addresses. *)
Lemma for_each_store va v i n w :
  for_each (seqZ i n) (fun i => store (va + 8 * i) v) w
  = store_words (va + 8 * i) (replicate (Z.to_nat n) v) w.
Proof.
  destruct (Z.lt_ge_cases n 0) as [Hn|Hn].
  { rewrite seqZ_nil by lia. by replace (Z.to_nat n) with 0%nat by lia. }
  revert i w. pattern n. apply natlike_ind; [done| |done].
  clear n Hn. intros n Hn IH i w.
  rewrite seqZ_cons by lia. rewrite Z2Nat.inj_succ by lia. cbn [for_each replicate store_words].
  unfold mbind, cmd_bind. destruct (store _ _ _) as [[[] w1]|]; [|done].
  rewrite Z.pred_succ, IH. by replace (va + 8 * Z.succ i) with (va + 8 * i + 8) by lia.
Qed.

(** The contents of log unit [j] after a call that logs lines [b0 .. b1]. *)
Definition logged_unit (b0 b1 j v : Z) : Z :=
  if (j <? b0 / 64) || (b1 / 64 <? j) then v
  else if b0 / 64 =? b1 / 64 then Z.lor v (Z.land (log_mask0 b0) (log_mask1 b1))
  else if j =? b0 / 64 then Z.lor v (log_mask0 b0)
  else if j =? b1 / 64 then Z.lor v (log_mask1 b1)
  else 2 ^ 64 - 1.

Lemma msb_logged_unit b0 b1 j v i :
  0 <= b0 <= b1 -> 0 <= i < 64 ->
  msb (logged_unit b0 b1 j v) i = msb v i || ((b0 <=? 64 * j + i) && (64 * j + i <=? b1)).
Proof.
  intros Hb Hi. unfold logged_unit.
  pose proof (Z.div_mod b0 64 ltac:(lia)). pose proof (Z.mod_pos_bound b0 64 ltac:(lia)).
  pose proof (Z.div_mod b1 64 ltac:(lia)). pose proof (Z.mod_pos_bound b1 64 ltac:(lia)).
  destruct (Z.ltb_spec j (b0 / 64)), (Z.ltb_spec (b1 / 64) j); simpl;
    try (destruct (msb v i); simpl; cases_cmp; done).
  destruct (Z.eqb_spec (b0 / 64) (b1 / 64)).
  { rewrite msb_lor, msb_land, msb_mask0, msb_mask1 by lia. f_equal. cases_cmp; done. }
  destruct (Z.eqb_spec j (b0 / 64)).
  { rewrite msb_lor, msb_mask0 by lia. f_equal. cases_cmp; done. }
  destruct (Z.eqb_spec j (b1 / 64)).
  { rewrite msb_lor, msb_mask1 by lia. f_equal. cases_cmp; done. }
  rewrite msb_ones by lia. destruct (msb v i); simpl; cases_cmp; done.
Qed.

(** A valid argument of [tasvir_log]: a non-empty range of the data region. *)
Definition loggable (data len : Z) : Prop :=
  TASVIR_ADDR_DATA <= data /\ 1 <= len /\ data + len <= TASVIR_ADDR_DATA + TASVIR_SIZE_DATA.

(** The first and last line of such a range. *)
Definition line_of (data : Z) : Z := (data - TASVIR_ADDR_DATA) / 64.

Lemma pext_line data :
  TASVIR_ADDR_DATA <= data < TASVIR_ADDR_DATA + TASVIR_SIZE_DATA ->
  pext_u64 data log_mask = line_of data.
Proof.
  intros H. rewrite pext_log_mask. unfold line_of. f_equal. defs.
  symmetry. apply (Z.mod_unique _ _ 1); lia.
Qed.

Lemma line_of_range data len :
  loggable data len -> 0 <= line_of data <= line_of (data + len - 1) /\
  line_of (data + len - 1) < nr_lines.
Proof.
  intros (H1 & H2 & H3). unfold line_of. change nr_lines with 17179869184. defs.
  split; [split|].
  - apply Z.div_pos; lia.
  - apply Z.div_le_mono; lia.
  - apply Z.div_lt_upper_bound; lia.
Qed.

Lemma ld_write_replicate m o n v a :
  aligned 8 o -> aligned 8 a ->
  ld (write_words m o (replicate n v)) a
  = if in_range a o (8 * Z.of_nat n) then v else ld m a.
Proof.
  intros Ho Ha. rewrite ld_write_words by done. rewrite length_replicate.
  destruct (in_range _ _ _) eqn:E; [|done]. apply in_range_true in E.
  erewrite list_lookup_total_correct; [done|].
  apply lookup_replicate_2.
  pose proof (Z.div_pos (a - o) 8). pose proof (Z.div_lt_upper_bound (a - o) 8 (Z.of_nat n)). lia.
Qed.

(** Memory after a call: the units of the range are updated, nothing else. *)
Definition logged (m m' : gmap Z Z) (b0 b1 : Z) : Prop :=
  forall o, aligned 8 o ->
    ld m' o = if in_range o (log_off (b0 / 64)) (8 * (b1 / 64 - b0 / 64 + 1))
              then logged_unit b0 b1 ((o - log_off 0) / 8) (ld m o) else ld m o.

Lemma log_off_unit j : (log_off j - log_off 0) / 8 = j.
Proof.
  unfold log_off. replace (_ - _) with (j * 8) by lia. apply Z.div_mul. lia.
Qed.

Lemma aligned_log_off j : aligned 8 (log_off j).
Proof. unfold log_off. defs. align. Qed.
#[local] Hint Resolve aligned_log_off : tasvir.

(** An aligned offset in the log region is the offset of a unit. *)
Lemma log_off_inv o a b :
  aligned 8 o -> log_off a <= o < log_off a + 8 * b ->
  exists j, o = log_off j /\ a <= j < a + b.
Proof.
  intros [q ->]%aligned_exists H; [|lia]. unfold log_off in *. defs.
  exists (q - 274877906944). lia.
Qed.

Lemma unit_range b : 0 <= b < nr_lines -> 0 <= b / 64 < 268435456.
Proof.
  change nr_lines with 17179869184. intros. split; [apply Z.div_pos; lia|].
  apply Z.div_lt_upper_bound; lia.
Qed.

(** The memory after a call within one unit, and after one over several. *)
Lemma logged_one m b0 b1 :
  b1 / 64 = b0 / 64 ->
  let v := ld m (log_off (b0 / 64)) in
  let v' := Z.lor v (Z.land (log_mask0 b0) (log_mask1 b1)) in
  logged m (if v =? v' then m else <[log_off (b0 / 64) := v']> m) b0 b1.
Proof.
  intros E v v' o Hao. set (u := b0 / 64) in *. rewrite E. replace (8 * (u - u + 1)) with 8 by lia.
  destruct (in_range o (log_off u) 8) eqn:Ei.
  - apply in_range_true in Ei. destruct (log_off_inv o u 1 Hao ltac:(lia)) as (j & -> & Hj).
    replace j with u by lia. rewrite log_off_unit. unfold logged_unit. fold u. rewrite E, Z.ltb_irrefl, Z.eqb_refl. cbn [orb]. fold v v'.
    destruct (Z.eqb_spec v v'); [done|]. by rewrite ld_insert, Z.eqb_refl.
  - apply in_range_false in Ei. destruct (v =? v'); [done|]. rewrite ld_insert. cases_cmp; done.
Qed.

Lemma logged_many m b0 b1 :
  b0 / 64 < b1 / 64 ->
  let u0 := b0 / 64 in let u1 := b1 / 64 in
  let m1 := <[log_off u0 := Z.lor (ld m (log_off u0)) (log_mask0 b0)]> m in
  let m2 := write_words m1 (log_off u0 + 8 * 1) (replicate (Z.to_nat (u1 - u0 - 1)) (2 ^ 64 - 1)) in
  logged m (<[log_off u1 := Z.lor (ld m2 (log_off u1)) (log_mask1 b1)]> m2) b0 b1.
Proof.
  intros Hlt u0 u1 m1 m2 o Hao. fold u0 u1. subst m1 m2. pose proof (aligned_log_off u0).
  rewrite !ld_insert, !ld_write_replicate by (align || auto with tasvir).
  rewrite !ld_insert. unfold in_range. destruct (Z.leb_spec (log_off u0) o); cbn [andb].
  2: { cases_cmp; cbn [andb]; unfold log_off in *; try lia; done. }
  destruct (Z.ltb_spec o (log_off u0 + 8 * (u1 - u0 + 1))).
  2: { cases_cmp; cbn [andb]; unfold log_off in *; try lia; done. }
  destruct (log_off_inv o u0 (u1 - u0 + 1) Hao ltac:(lia)) as (j & -> & Hj).
  rewrite log_off_unit. unfold logged_unit. fold u0 u1. unfold log_off in *.
  cases_cmp; cbn [orb andb]; try lia; repeat f_equal; lia.
Qed.

Lemma tasvir_log_runs w data len :
  loggable data len ->
  exists m', tasvir_log data len w = Done (tt, w <| w_mem := m' |>) /\
    logged (w_mem w) m' (line_of data) (line_of (data + len - 1)).
Proof.
  intros Hl. pose proof (line_of_range _ _ Hl) as [Hb Hb1].
  destruct Hl as (H1 & H2 & H3). unfold tasvir_log. rewrite (u64_small (data + len - 1)) by (defs; lia).
  rewrite !pext_line by (defs; lia). set (b0 := line_of data) in *. set (b1 := line_of (data + len - 1)) in *.
  change (TASVIR_SHIFT_UNIT - TASVIR_SHIFT_BIT) with 6. rewrite !Z.shiftr_div_pow2 by lia. change (2 ^ 6) with 64.
  assert (b0 / 64 <= b1 / 64) by (apply Z.div_le_mono; lia).
  pose proof (unit_range b0 ltac:(lia)). pose proof (unit_range b1 ltac:(lia)).
  rewrite (u64_small (b1 / 64 - b0 / 64)) by lia.
  pose proof (logged_one (w_mem w) b0 b1) as Hone. pose proof (logged_many (w_mem w) b0 b1) as Hmany.
  set (u0 := b0 / 64) in *. set (u1 := b1 / 64) in *.
  assert (Hs : spans (w_maps w) (TASVIR_ADDR_LOG + 8 * u0) (log_off u0) (8 * (u1 - u0 + 1))) by (apply spans_log; defs; lia).
  assert (Ho : aligned 8 (log_off u0)) by auto with tasvir.
  unfold mbind, cmd_bind. destruct (Z.eqb_spec (u1 - u0) 0) as [E|E].
  - eexists. split; [|apply Hone; lia]. rewrite (load_runs0 w _ _ _ Hs Ho) by lia.
    destruct (Z.eqb_spec (ld (w_mem w) (log_off u0)) (Z.lor (ld (w_mem w) (log_off u0)) (Z.land (log_mask0 b0) (log_mask1 b1)))); simpl; [by destruct w|].
    by rewrite (store_runs0 w _ _ _ _ Hs Ho) by lia.
  - eexists. split; [|apply Hmany; lia]. rewrite (load_runs0 w _ _ _ Hs Ho), (store_runs0 w _ _ _ _ Hs Ho) by lia. rewrite for_each_store.
    set (w1 := w <| w_mem := _ |>). change (w_maps w) with (w_maps w1) in Hs.
    rewrite (store_words_runs w1 _ (log_off u0 + 8 * 1)) by (try align; apply (spans_sub _ _ _ _ (8 * 1) _ Hs); rewrite ?length_replicate; lia).
    set (w2 := w1 <| w_mem := _ |>). change (w_maps w1) with (w_maps w2) in Hs.
    rewrite (load_runs w2 _ _ _ (8 * (u1 - u0)) Hs Ho), (store_runs w2 _ _ _ (8 * (u1 - u0)) _ Hs Ho) by (lia || align).
    by replace (log_off u0 + 8 * (u1 - u0)) with (log_off u1) by (unfold log_off; lia).
Qed.

(** The effect of a call on the log bits and on the rest of memory. *)
Lemma tasvir_log_lines w data len :
  loggable data len ->
  exists m', tasvir_log data len w = Done (tt, w <| w_mem := m' |>) /\
    (forall k, 0 <= k ->
       logbit m' k = logbit (w_mem w) k
                     || ((line_of data <=? k) && (k <=? line_of (data + len - 1)))) /\
    (forall o, aligned 8 o -> o < log_off 0 \/ log_off (nr_lines / 64) <= o ->
       ld m' o = ld (w_mem w) o).
Proof.
  intros Hl. destruct (tasvir_log_runs w data len Hl) as (m' & Hrun & Hm).
  pose proof (line_of_range _ _ Hl) as [Hb Hb1].
  exists m'. split; [done|].
  set (b0 := line_of data) in *. set (b1 := line_of (data + len - 1)) in *.
  pose proof (unit_range b0 ltac:(lia)). pose proof (unit_range b1 ltac:(lia)).
  assert (b0 / 64 <= b1 / 64) by (apply Z.div_le_mono; lia).
  split.
  - intros k Hk. unfold logbit. rewrite Hm by auto with tasvir.
    pose proof (Z.div_mod k 64 ltac:(lia)) as Ek. pose proof (Z.mod_pos_bound k 64 ltac:(lia)).
    destruct (in_range (log_off (k / 64)) _ _) eqn:Ei.
    + rewrite log_off_unit, msb_logged_unit by lia.
      replace (64 * (k / 64) + k mod 64) with k by lia. done.
    + apply in_range_false in Ei. unfold log_off in Ei.
      assert (k < b0 \/ b1 < k).
      { destruct (Z.lt_ge_cases k b0); [by left|right].
        destruct (Z.lt_ge_cases b1 k); [done|exfalso]. apply Ei.
        pose proof (Z.div_le_mono b0 k 64). pose proof (Z.div_le_mono k b1 64). lia. }
      cases_cmp; simpl; by rewrite ?orb_false_r.
  - intros o Ho Hout. rewrite Hm by done.
    assert (in_range o (log_off (b0 / 64)) (8 * (b1 / 64 - b0 / 64 + 1)) = false) as ->; [|done].
    apply in_range_false. unfold log_off in *.
    change (nr_lines / 64) with 268435456 in *. lia.
Qed.

(** C2: [tasvir_log(data, len)] on a non-empty range of the data region ends
    normally, sets exactly the log bits of the lines the range touches, keeps
    every other log bit, and writes no memory outside the log units of the
    range. *)
Theorem tasvir_log_sets_lines w data len :
  loggable data len ->
  exists m', tasvir_log data len w = Done (tt, w <| w_mem := m' |>) /\
    (forall k, 0 <= k ->
       logbit m' k = logbit (w_mem w) k
                     || ((line_of data <=? k) && (k <=? line_of (data + len - 1)))) /\
    (forall o, aligned 8 o -> o < log_off 0 \/ log_off (nr_lines / 64) <= o ->
       ld m' o = ld (w_mem w) o).
Proof. apply tasvir_log_lines. Qed.

End with_dpdk.

(** A range that spans three log units of an otherwise empty log. *)
Lemma tasvir_log_sets_lines_witness :
  exists m', tasvir_log (TASVIR_ADDR_DATA + 4000) 8000 world0
             = Done (tt, world0 <| w_mem := m' |>) /\
    logbit m' 61 = false /\ logbit m' 62 = true /\ logbit m' 187 = true /\ logbit m' 188 = false.
Proof.
  destruct (tasvir_log_sets_lines world0 (TASVIR_ADDR_DATA + 4000) 8000) as (m' & E & H & _).
  { unfold loggable. defs. lia. }
  exists m'. split; [done|]. rewrite !H by lia. clear E. vm_compute. repeat split.
Defined.
