(* ===== verification/Net.v ===== *)
(** * Net: sending messages (src/utils.h, src/service.c)

    The Ethernet header of an outgoing message and the loop that drains the
    daemon's external ring into the network card. DPDK's rings, packet pool
    and card are the interface [Dpdk]; loops that wait for them take fuel. *)
From stdpp Require Import base gmap list numbers.
From Stdlib Require Import ZArith Lia.
From S2P Require Import Prelude Defs Types Fifo.

Section with_dpdk.
Context `{D : Dpdk}.

(** [tasvir_populate_msg_nethdr] *)
Definition tasvir_populate_msg_nethdr (m : tasvir_msg) : cmd world tasvir_msg :=
  mac ← ndata nd_mac_addr;
  mod_stats (fun s => s <| tx_bytes := u64 (tx_bytes s + m_pkt_len m) |>
                        <| tx_pkts := u64 (tx_pkts s + 1) |>);;
  mret (m <| m_ether_dhost := tid_nid (m_dst_tid m) |>
          <| m_ether_shost := mac |>
          <| m_ether_type := TASVIR_ETH_PROTO |>).

(** [do { retval = rte_eth_tx_burst(..., &m[i], count - i); ... } while (i < count)] *)
Fixpoint tx_burst_all (fuel : nat) (ms : list tasvir_msg) : cmd world unit :=
  match fuel with
  | O => fail NoFuel
  | S fuel' =>
      p ← ndata nd_port;
      let '(retval, p') := rte_eth_tx_burst p ms in
      mod_nd (fun nd => nd <| nd_port := p' |>);;
      match drop retval ms with
      | [] => mret tt
      | rest => tx_burst_all fuel' rest
      end
  end.

(** [while (!rte_ring_empty(r) && !tx_fail) ...]; [tx_fail] is never set. *)
Fixpoint port_tx_loop (fuel txfuel : nat) : cmd world unit :=
  match fuel with
  | O => fail NoFuel
  | S fuel' =>
      r ← ndata nd_ring_ext_tx;
      if rte_ring_empty r then mret tt
      else
        let '(m, r') := rte_ring_sc_dequeue_burst r (Z.to_nat TASVIR_PKT_BURST) in
        mod_nd (fun nd => nd <| nd_ring_ext_tx := r' |>);;
        tx_burst_all txfuel m;;
        port_tx_loop fuel' txfuel
  end.

(** [tasvir_service_port_tx] *)
Definition tasvir_service_port_tx (fuel : nat) : cmd world unit := port_tx_loop fuel fuel.

(** ** Draining the ring *)

(** A card that takes at least one message of a non-empty burst. *)
Definition nic_live : Prop :=
  forall p ms n p', ms <> [] -> rte_eth_tx_burst p ms = (n, p') -> (0 < n)%nat.

Definition set_port (w : world) (r : ring) (p : nic) : world :=
  w <| w_nd := (w_nd w) <| nd_ring_ext_tx := r |> <| nd_port := p |> |>.

Context `{S : !DpdkSpec D}.

Lemma tx_burst_all_runs fuel ms (w : world) :
  nic_live -> (length ms < fuel)%nat ->
  exists p', tx_burst_all fuel ms w
             = Done (tt, w <| w_nd := (w_nd w) <| nd_port := p' |> |>) /\
    nic_sent p' = nic_sent (nd_port (w_nd w)) ++ ms.
Proof.
  intros Hlive. revert ms w. induction fuel as [|fuel IH]; intros ms w Hf; [lia|].
  cbn [tx_burst_all]. unfold mbind, cmd_bind, ndata, gets.
  destruct (rte_eth_tx_burst (nd_port (w_nd w)) ms) as [n p'] eqn:E.
  destruct (tx_burst_sent _ _ _ _ E) as [Hn Hsent].
  destruct (drop n ms) as [|m0 rest] eqn:Ed.
  - exists p'. split; [done|]. rewrite Hsent, take_ge; [done|].
    apply (f_equal length) in Ed. rewrite length_drop in Ed. cbn in Ed. lia.
  - assert (0 < n)%nat as Hpos.
    { refine (Hlive _ _ _ _ _ E). intros Hms. by rewrite Hms, drop_nil in Ed. }
    destruct (IH (m0 :: rest) (w <| w_nd := (w_nd w) <| nd_port := p' |> |>)) as (p2 & E2 & H2).
    { rewrite <- Ed, length_drop. lia. }
    exists p2. split; [exact E2|]. rewrite H2. cbn. rewrite Hsent, <- app_assoc, <- Ed.
    by rewrite take_drop.
Qed.

Lemma port_tx_loop_runs fuel txfuel (w : world) :
  nic_live -> (32 < txfuel)%nat -> (length (ring_items (nd_ring_ext_tx (w_nd w))) < fuel)%nat ->
  exists r' p', port_tx_loop fuel txfuel w = Done (tt, set_port w r' p') /\
    ring_items r' = [] /\
    nic_sent p' = nic_sent (nd_port (w_nd w)) ++ ring_items (nd_ring_ext_tx (w_nd w)).
Proof.
  intros Hlive Htx. revert w. induction fuel as [|fuel IH]; intros w Hf; [lia|].
  cbn [port_tx_loop]. unfold mbind, cmd_bind, ndata, gets.
  set (r := nd_ring_ext_tx (w_nd w)) in *.
  destruct (rte_ring_empty r) eqn:Ee.
  - apply ring_empty_items in Ee. exists r, (nd_port (w_nd w)).
    split; [|by rewrite Ee, app_nil_r]. unfold set_port. by destruct w as [? ? [] ? ? ? ? ? ? ?].
  - destruct (rte_ring_sc_dequeue_burst r _) as [m r'] eqn:Ed.
    destruct (dequeue_burst_items _ _ _ _ Ed) as [Hitems Hlen].
    change (Z.to_nat TASVIR_PKT_BURST) with 32%nat in Hlen.
    assert (ring_items r <> []) as Hne by (rewrite <- ring_empty_items, Ee; done).
    destruct (ring_items r) as [|m0 items] eqn:Er; [done|]. cbn [length] in *.
    unfold mod_nd, modify.
    destruct (tx_burst_all_runs txfuel m
                (w <| w_nd := (w_nd w) <| nd_ring_ext_tx := r' |> |>) Hlive) as (p' & Ep & Hp);
      [lia|].
    rewrite Ep.
    destruct (IH (set_port w r' p')) as (r2 & p2 & E2 & H2 & Hs2).
    { cbn. apply (f_equal length) in Hitems. rewrite length_app in Hitems. cbn in Hitems. lia. }
    exists r2, p2. split; [exact E2|]. split; [done|].
    rewrite Hs2. cbn. rewrite Hp. cbn. rewrite <- app_assoc, <- Hitems. done.
Qed.


End with_dpdk.

Lemma fifo_nic_live : nic_live (D := fifo_dpdk).
Proof. intros p ms n p' Hne [= <- _]. destruct ms; [done|cbn; lia]. Qed.

