(* ===== verification/Sync.v ===== *)
(** * Sync: walking the change log (src/sync.c)

    [tasvir_sync_parse_log] turns the bits of a stretch of a log into a list
    of runs of changed lines (the thread's [sync_list]) and clears them;
    [tasvir_sync_process_changes] consumes that list: the internal
    synchronization copies each run from the writer to the reader copy, the
    external one packs it into memory messages
    ([tasvir_msg_mem_generate]). This file holds the definitions; SyncRuns
    and SyncCopy hold their properties. *)
From stdpp Require Import base gmap list numbers.
From Stdlib Require Import ZArith Lia.
From S2P Require Import Prelude Defs Types Mem Log Net.

(** ** The walk over the bits of a log unit *)

(** The local variables [lbits], [offset_scaled] and [lbits1_total]. *)
Record walker := mk_walker {
  wk_lbits0 : Z;
  wk_lbits1 : Z;
  wk_offset_scaled : Z;
  wk_total : Z;
}.
#[export] Instance eta_walker : Eta walker := fun r =>
  mk_walker (wk_lbits0 r) (wk_lbits1 r) (wk_offset_scaled r) (wk_total r).

(** [sync_l->l[sync_l->cnt].offset_scaled = o; ....len_scaled = n;
    sync_l->cnt += adv] *)
Definition sync_list_put (o n : Z) (adv : bool) : cmd tasvir_sync_list unit := fun l =>
  if (0 <=? sl_cnt l) && (sl_cnt l <? TASVIR_SYNC_LIST_LEN) then
    Done (tt, l <| sl_l := <[sl_cnt l := mk_item o (u32 n)]> (sl_l l) |>
                <| sl_cnt := i32 (sl_cnt l + (if adv then 1 else 0)) |>)
  else Fault OutOfBounds.

(** At the first set bit after clear ones: hand over the previous batch of
    ones (nothing when there was none) and move to the head of this one. *)
Definition walker_flush (k : walker) : cmd tasvir_sync_list walker :=
  sync_list_put (wk_offset_scaled k) (wk_lbits1 k) (negb (wk_lbits1 k =? 0));;
  mret (mk_walker 0 0 (u64 (wk_offset_scaled k + (wk_lbits0 k + wk_lbits1 k)))
          (u64 (wk_total k + wk_lbits1 k))).

(** [lbits[is_leading_bit_set] += n] *)
Definition walker_add (b : bool) (n : Z) (k : walker) : walker :=
  if b then k <| wk_lbits1 := u64 (wk_lbits1 k + n) |>
  else k <| wk_lbits0 := u64 (wk_lbits0 k + n) |>.

(** The [do ... while (lbits_unit_left > 0)] loop over one log unit. *)
Fixpoint parse_unit (fuel : nat) (val left : Z) (lead : bool) (k : walker) :
    cmd tasvir_sync_list walker :=
  match fuel with
  | O => fail NoFuel
  | S fuel' =>
      k ← (if lead && negb (wk_lbits0 k =? 0) then walker_flush k else mret k);
      let lbits_same := u8 (lzcnt_u64 (if lead then not64 val else val)) in
      let lbits_same := Z.min left lbits_same in
      let k := walker_add lead lbits_same k in
      let left := u8 (left - lbits_same) in
      let val := shl64 val lbits_same in
      if 0 <? left then parse_unit fuel' val left (negb lead) k else mret k
  end.

(** [_mm512_test_epi64_mask(v, v)]: bit [i] is set iff lane [i] is not zero. *)
Fixpoint test_mask (i : Z) (vals : list Z) : Z :=
  match vals with
  | [] => 0
  | v :: vals' => Z.lor (if v =? 0 then 0 else Z.shiftl 1 i) (test_mask (i + 1) vals')
  end.

(** [for (int i = 0; i < 8; i++)] over the units of a group, skipping the
    zero ones [zcnt] at a time. At most 64 iterations of [parse_unit] are
    needed, one per bit. *)
Fixpoint parse_units (fuel : nat) (i : Z) (one_mask : Z) (vals : list Z) (k : walker) :
    cmd tasvir_sync_list walker :=
  match fuel with
  | O => fail NoFuel
  | S fuel' =>
      if i <? 8 then
        let zcnt := u8 (tzcnt_u32 (Z.shiftr one_mask i)) in
        if negb (zcnt =? 0) then
          parse_units fuel' (i + (zcnt - 1) + 1) one_mask vals
            (walker_add false (zcnt * TASVIR_LOG_UNIT_BITS) k)
        else
          let v := vals !!! Z.to_nat i in
          k ← parse_unit 64 v TASVIR_LOG_UNIT_BITS (Z.testbit v 63) k;
          parse_units fuel' (i + 1) one_mask vals k
      else mret k
  end.

Section with_dpdk.
Context `{D : Dpdk}.

(** A routine that works on [ttld.tdata->sync_list] only. *)
Definition on_sync_list {A} (c : cmd tasvir_sync_list A) : cmd world A := fun w =>
  let i := tl_tdata (w_tl w) in
  let t := nd_td (w_nd w) i in
  match c (td_sync_list t) with
  | Done (a, l) => Done (a, w <| w_nd := nd_set_td i (t <| td_sync_list := l |>) (w_nd w) |>)
  | Fault f => Fault f
  end.

(** [tasvir_area_is_local] (src/area.c) *)
Definition tasvir_area_is_local (d : Z) : cmd world bool :=
  h ← load (d + desc_h);
  if h =? 0 then mret false
  else f ← load (h + hdr_flags); mret (has_flag f TASVIR_AREA_FLAG_LOCAL).

(** ** Memory messages (daemon) *)

(** [while (op fails) tasvir_service_port_tx()] *)
Fixpoint retry_tx (fuel : nat) (op : cmd world bool) : cmd world unit :=
  match fuel with
  | O => fail NoFuel
  | S fuel' =>
      ok ← op;
      if (ok : bool) then mret tt else tasvir_service_port_tx fuel;; retry_tx fuel' op
  end.

Definition pool_get_burst : cmd world bool :=
  mp ← ndata nd_mp;
  match rte_mempool_get_bulk mp (Z.to_nat TASVIR_PKT_BURST) with
  | Some mp' => mod_nd (fun nd => nd <| nd_mp := mp' |>);; mret true
  | None => mret false
  end.

Definition ring_ext_enqueue (ms : list tasvir_msg) : cmd world bool :=
  r ← ndata nd_ring_ext_tx;
  match rte_ring_sp_enqueue_bulk r ms with
  | Some r' => mod_nd (fun nd => nd <| nd_ring_ext_tx := r' |>);; mret true
  | None => mret false
  end.

(** [ttld.nr_msgs++ % TASVIR_NR_RPC_MSG] on the 16-bit counter *)
Definition next_msg_id : cmd world Z :=
  n ← ttld tl_nr_msgs;
  mod_tl (fun t => t <| tl_nr_msgs := u16 (n + 1) |>);;
  mret (n mod TASVIR_NR_RPC_MSG).

(** One iteration's message: at most [TASVIR_NR_CACHELINES_PER_MSG] lines of
    the reader copy at [addr]. *)
Definition msg_mem_make (d addr len prev_bytes v : Z) (last : bool) : cmd world tasvir_msg :=
  dst ← ndata nd_memcast_tid;
  t ← ttld tl_thread;
  src ← load_tid t;
  id ← next_msg_id;
  let mlen := Z.min (TASVIR_CACHELINE_BYTES * TASVIR_NR_CACHELINES_PER_MSG) len in
  line ← load_words (Z.to_nat (8 * Z.max 1 ((mlen + 63) / 64))) (tasvir_data2ro addr);
  tasvir_populate_msg_nethdr
    (mk_msg (mlen + msg_mem_hdr_bytes) 0 0 0 TASVIR_MSG_TYPE_MEM id src dst d v
       (Msg_mem addr mlen (last && (len - mlen =? 0)) prev_bytes line)).

(** The loop [while (len > 0)]; [batch] is [m[0 .. i-1]]. Returns
    [prev_bytes] and the batch still to be sent. *)
Fixpoint msg_mem_loop (n fuel : nat) (d addr len prev_bytes v : Z) (last : bool)
    (batch : list tasvir_msg) : cmd world (Z * list tasvir_msg) :=
  match n with
  | O => fail NoFuel
  | S n' =>
      if 0 <? len then
        m ← msg_mem_make d addr len prev_bytes v last;
        let mlen := Z.min (TASVIR_CACHELINE_BYTES * TASVIR_NR_CACHELINES_PER_MSG) len in
        let batch := batch ++ [m] in
        let prev_bytes := u64 (prev_bytes + mlen) in
        if TASVIR_PKT_BURST <=? Z.of_nat (length batch) then
          retry_tx fuel (ring_ext_enqueue batch);;
          retry_tx fuel pool_get_burst;;
          msg_mem_loop n' fuel d (addr + mlen) (len - mlen) prev_bytes v last []
        else msg_mem_loop n' fuel d (addr + mlen) (len - mlen) prev_bytes v last batch
      else mret (prev_bytes, batch)
  end.

(** [tasvir_msg_mem_generate]; [fuel] bounds the waits for the pool and the
    ring, [len / (64 * 21) + 2] iterations pack [len] bytes. *)
Definition tasvir_msg_mem_generate (fuel : nat) (d addr len : Z) (last : bool) : cmd world unit :=
  retry_tx fuel pool_get_burst;;
  h ← load (d + desc_h);
  let h_ro := tasvir_data2ro h in
  prev_bytes ← load (h_ro + hdr_last_sync_ext_bytes);
  v ← load (h_ro + hdr_version);
  '(prev_bytes, batch) ← msg_mem_loop (Z.to_nat (len / 1344 + 2)) fuel d addr len prev_bytes v last [];
  store (h_ro + hdr_last_sync_ext_bytes) prev_bytes;;
  when (negb (bool_decide (batch = []))) (retry_tx fuel (ring_ext_enqueue batch));;
  mod_nd (fun nd => nd <| nd_mp := rte_mempool_put_bulk (nd_mp nd)
                                      (Z.to_nat TASVIR_PKT_BURST - length batch) |>).

(** ** Consuming the list *)

(** The body of the loop of [tasvir_sync_process_changes] for entry [i]. The
    shift of the 32-bit [len_scaled] stays 32-bit, and [changed] is an
    [int]. *)
Definition process_change (fuel : nat) (d : Z) (reset_changed external : bool) (cnt i : Z) :
    cmd world unit :=
  l ← tdata td_sync_list;
  let it := default item_zero (sl_l l !! i) in
  let offset := shl64 (si_offset_scaled it) TASVIR_SHIFT_BIT in
  let len := u32 (Z.shiftl (si_len_scaled it) TASVIR_SHIFT_BIT) in
  daemon ← ttld tl_daemon;
  (if (daemon && external)%bool then
     tasvir_msg_mem_generate fuel d (TASVIR_ADDR_DATA + offset) len
       (reset_changed && (i =? cnt - 1))
   else
     tasvir_store_vec_rep (TASVIR_ADDR_DATA_RO + offset) (TASVIR_ADDR_DATA_RW + offset) len);;
  on_sync_list (modify (fun l => l <| sl_changed := i32 (sl_changed l + len) |>)).

(** [tasvir_sync_process_changes] *)
Definition tasvir_sync_process_changes (fuel : nat) (d : Z) (reset_changed external : bool) :
    cmd world Z :=
  cnt ← tdata (fun t => sl_cnt (td_sync_list t));
  for_each (seqZ 0 cnt) (process_change fuel d reset_changed external cnt);;
  on_sync_list (modify (fun l => l <| sl_cnt := 0 |>));;
  changed ← tdata (fun t => sl_changed (td_sync_list t));
  when reset_changed (on_sync_list (modify (fun l => l <| sl_changed := 0 |>)));;
  mret (u64 changed).

(** ** Walking a stretch of the log *)

(** [for (int p = 1; p < pivot; p++)]: add the older logs to the loaded group
    and, for [p = 1], keep the union in the internal log. *)
Definition parse_pivot (h log_internal li : Z) (vals : list Z) (ps : list Z) : cmd world (list Z) :=
  foldl (fun (c : cmd world (list Z)) p =>
    vals ← c;
    data ← load_diff_log h p log_data;
    vs ← load_words 8 (data + 8 * li);
    let vals := zip_with Z.lor vals vs in
    when (p =? 1) (store_words (log_internal + 8 * li) vals);;
    mret vals) (mret vals) ps.

(** The body of the loop for the group of eight units at [li]. *)
Definition parse_group (fuel : nat) (d h log log_internal pivot : Z) (external : bool)
    (k : walker) (li : Z) : cmd world walker :=
  vals ← load_words 8 (log + 8 * li);
  vals ← parse_pivot h log_internal li vals (seqZ 1 (pivot - 1));
  let one_mask := test_mask 0 vals in
  if one_mask =? 0 then mret (walker_add false (8 * TASVIR_LOG_UNIT_BITS) k)
  else
    when (negb (log_internal =? 0) && (pivot <? 2))
      (vs ← load_words 8 (log_internal + 8 * li);
       store_words (log_internal + 8 * li) (zip_with Z.lor vals vs));;
    store_words (log + 8 * li) (replicate 8 0);;
    k ← on_sync_list (parse_units 9 0 (Z.lor one_mask (Z.shiftl 1 8)) vals k);
    cnt ← tdata (fun t => sl_cnt (td_sync_list t));
    when (TASVIR_SYNC_LIST_LEN / 2 <=? cnt)
      (tasvir_sync_process_changes fuel d false external;; mret tt);;
    mret k.

Fixpoint parse_groups (fuel : nat) (d h log log_internal pivot : Z) (external : bool)
    (k : walker) (lis : list Z) : cmd world walker :=
  match lis with
  | [] => mret k
  | li :: lis' =>
      k ← parse_group fuel d h log log_internal pivot external k li;
      parse_groups fuel d h log log_internal pivot external k lis'
  end.

(** The last batch of ones. *)
Definition parse_last (k : walker) : cmd world walker :=
  if negb (wk_lbits1 k =? 0) then
    on_sync_list (sync_list_put (wk_offset_scaled k) (wk_lbits1 k) true);;
    mret (k <| wk_total := u64 (wk_total k + wk_lbits1 k) |>)
  else mret k.

(** [tasvir_sync_parse_log]. The [n] groups are at
    [log_unit_start, log_unit_start + 8, ...]. *)
Definition tasvir_sync_parse_log (fuel : nat) (d offset len pivot : Z) : cmd world Z :=
  assert_w (offset mod Z.shiftl 1 TASVIR_SHIFT_UNIT =? 0);;
  daemon ← ttld tl_daemon;
  root ← ttld tl_root_desc;
  let external := (daemon && negb (pivot =? 0))%bool in
  when (external && (d =? root))
    (on_sync_list (sync_list_put
       (Z.shiftr (d - TASVIR_ADDR_DATA) TASVIR_SHIFT_BIT)
       (Z.shiftr (TASVIR_ALIGNX sizeof_desc (Z.shiftl 1 TASVIR_SHIFT_BIT)) TASVIR_SHIFT_BIT)
       true));;
  let pivot := if (daemon : bool) then pivot else 0 in
  h ← load (d + desc_h);
  let offset_scaled := Z.shiftr (u64 (h + offset - TASVIR_ADDR_DATA)) TASVIR_SHIFT_BIT in
  let log_unit_start := Z.shiftr offset TASVIR_SHIFT_UNIT in
  let log_units := Z.shiftr len TASVIR_SHIFT_UNIT in
  log ← (if external then load_diff_log h 0 log_data else mret (tasvir_data2log h));
  loc ← tasvir_area_is_local d;
  log_internal ← (if (loc : bool) then load_diff_log h (if external then 1 else 0) log_data
                  else mret 0);
  k ← parse_groups fuel d h log log_internal pivot external (mk_walker 0 0 offset_scaled 0)
        ((fun g => log_unit_start + 8 * g) <$> seqZ 0 ((log_units + 7) / 8));
  k ← parse_last k;
  when (external && negb (wk_total k =? 0))
    (tasvir_sync_process_changes fuel d true external;;
     ve ← load_diff_log h 0 log_version_end;
     store (h + hdr_diff_log 0 + log_version_start) ve;;
     store (h + hdr_diff_log 1 + log_version_end) ve;;
     eu ← load_diff_log h 0 log_end_us;
     store (h + hdr_diff_log 0 + log_start_us) eu;;
     store (h + hdr_diff_log 1 + log_end_us) eu);;
  mret (shl64 (wk_total k) TASVIR_SHIFT_BIT).

End with_dpdk.
