(* ===== verification/SyncRuns.v ===== *)
(** * SyncRuns: the log walk emits the runs of set bits

    [parse_unit] and [parse_units] (Sync) consume a log unit in chunks of
    equal bits, found with [lzcnt]/[tzcnt]. Here they are shown equal to
    [walk_bits], which looks at one bit at a time, and what that walk emits
    is characterized: the items, together with the run in progress, cover
    exactly the lines whose bit is set, and there are few enough of them
    that the 512-entry list never overflows. *)
From stdpp Require Import base gmap list numbers.
From Stdlib Require Import ZArith Lia.
From S2P Require Import Prelude Defs Types Mem Log Net Sync.

(** ** The reference walk: one bit at a time *)

Definition walk_bit (b : bool) (k : walker) : cmd tasvir_sync_list walker :=
  k ← (if b && negb (wk_lbits0 k =? 0) then walker_flush k else mret k);
  mret (walker_add b 1 k).

Fixpoint walk_bits (bs : list bool) (k : walker) : cmd tasvir_sync_list walker :=
  match bs with
  | [] => mret k
  | b :: bs' => k ← walk_bit b k; walk_bits bs' k
  end.

(** The bits of a log unit, in line order. *)
Definition unit_bits (v : Z) : list bool := msb v <$> seqZ 0 64.

(** Counters far from the 64-bit limit. *)
Definition walker_ok (n : Z) (k : walker) : Prop :=
  0 <= wk_lbits0 k /\ 0 <= wk_lbits1 k /\ 0 <= wk_offset_scaled k /\ 0 <= wk_total k /\
  wk_offset_scaled k + wk_lbits0 k + wk_lbits1 k + n < 2 ^ 62 /\
  wk_total k + wk_lbits1 k + n < 2 ^ 62.

(** ** What the walk emits, as a pure function *)

Definition walk1 (b : bool) (k : walker) : walker * list tasvir_sync_item :=
  if b && negb (wk_lbits0 k =? 0) then
    (mk_walker 0 1 (wk_offset_scaled k + wk_lbits0 k + wk_lbits1 k) (wk_total k + wk_lbits1 k),
     if wk_lbits1 k =? 0 then [] else [mk_item (wk_offset_scaled k) (u32 (wk_lbits1 k))])
  else if b then (k <| wk_lbits1 := wk_lbits1 k + 1 |>, [])
  else (k <| wk_lbits0 := wk_lbits0 k + 1 |>, []).

Fixpoint walks (bs : list bool) (k : walker) : walker * list tasvir_sync_item :=
  match bs with
  | [] => (k, [])
  | b :: bs' =>
      let '(k1, e1) := walk1 b k in
      let '(k2, e2) := walks bs' k1 in
      (k2, e1 ++ e2)
  end.

(** The first [cnt] entries of a sync list. *)
Definition items (l : tasvir_sync_list) : list tasvir_sync_item :=
  (fun i => default item_zero (sl_l l !! i)) <$> seqZ 0 (sl_cnt l).

(** The lines an item stands for. *)
Definition item_has (it : tasvir_sync_item) (x : Z) : Prop :=
  si_offset_scaled it <= x < si_offset_scaled it + si_len_scaled it.
Definition covers (e : list tasvir_sync_item) (x : Z) : Prop := Exists (fun it => item_has it x) e.

(** ** Lemmas: lists *)

Lemma items_put l o n (adv : bool) :
  0 <= sl_cnt l < 512 ->
  exists l', sync_list_put o n adv l = Done (tt, l') /\
    sl_changed l' = sl_changed l /\ sl_cnt l' = sl_cnt l + (if adv then 1 else 0) /\
    items l' = items l ++ (if adv then [mk_item o (u32 n)] else []).
Proof.
  intros Hc. unfold sync_list_put. defs.
  assert ((0 <=? sl_cnt l) && (sl_cnt l <? 512) = true) as -> by (cases_cmp; done).
  eexists. split; [done|]. cbn. rewrite i32_small by (destruct adv; lia).
  split; [done|]. split; [done|]. unfold items. cbn.
  assert (Hkeep : forall n', n' <= sl_cnt l ->
    (fun i => default item_zero (<[sl_cnt l:=mk_item o (u32 n)]> (sl_l l) !! i)) <$> seqZ 0 n'
    = (fun i => default item_zero (sl_l l !! i)) <$> seqZ 0 n').
  { intros n' Hn. apply list_fmap_ext. intros i x [-> Hi]%lookup_seqZ.
    by rewrite lookup_insert_ne by lia. }
  destruct adv.
  - rewrite seqZ_app, fmap_app by lia. rewrite Hkeep by lia. f_equal.
    assert (seqZ (0 + sl_cnt l) 1 = [sl_cnt l]) as -> by (unfold seqZ; cbn; f_equal; lia).
    cbn. by rewrite lookup_insert_eq.
  - rewrite Z.add_0_r, Hkeep, app_nil_r by lia. done.
Qed.

Lemma walk_bits_app bs1 bs2 k l :
  walk_bits (bs1 ++ bs2) k l = (k ← walk_bits bs1 k; walk_bits bs2 k) l.
Proof.
  revert k l. induction bs1 as [|b bs1 IH]; intros k l; [done|].
  cbn. unfold mbind, cmd_bind. destruct (walk_bit b k l) as [[k1 l1]|]; [|done].
  rewrite IH. done.
Qed.

Lemma walks_app bs1 bs2 k :
  walks (bs1 ++ bs2) k =
  let '(k1, e1) := walks bs1 k in let '(k2, e2) := walks bs2 k1 in (k2, e1 ++ e2).
Proof.
  revert k. induction bs1 as [|b bs1 IH]; intros k.
  - cbn. by destruct (walks bs2 k).
  - cbn. destruct (walk1 b k) as [k1 e1]. rewrite IH.
    destruct (walks bs1 k1) as [k2 e2]. destruct (walks bs2 k2) as [k3 e3].
    by rewrite app_assoc.
Qed.

(** ** Lemmas: the reference walk and its pure form *)

Lemma walk1_ok n b k : 0 <= n -> walker_ok (n + 1) k -> walker_ok n (walk1 b k).1.
Proof.
  intros Hn (H1 & H2 & H3 & H4 & H5 & H6). unfold walk1, walker_ok.
  destruct b; cbn; [destruct (Z.eqb_spec (wk_lbits0 k) 0); cbn|]; lia.
Qed.

Lemma walk_bit_walk1 b k l :
  walker_ok 1 k -> 0 <= sl_cnt l < 512 ->
  exists l', walk_bit b k l = Done ((walk1 b k).1, l') /\
    sl_changed l' = sl_changed l /\
    sl_cnt l' = sl_cnt l + Z.of_nat (length (walk1 b k).2) /\
    items l' = items l ++ (walk1 b k).2.
Proof.
  intros (H1 & H2 & H3 & H4 & H5 & H6) Hc. unfold walk_bit, walk1, mbind, cmd_bind.
  destruct (b && negb (wk_lbits0 k =? 0)) eqn:E.
  - apply andb_true_iff in E as [-> E].
    unfold walker_flush, mbind, cmd_bind.
    destruct (items_put l (wk_offset_scaled k) (wk_lbits1 k) (negb (wk_lbits1 k =? 0)) Hc)
      as (l' & -> & ? & Hcnt & ?).
    exists l'. unfold walker_add. cbn. rewrite !u64_small by lia.
    repeat split; try done.
    + rewrite Z.add_assoc. done.
    + rewrite Hcnt. destruct (wk_lbits1 k =? 0); done.
    + destruct (wk_lbits1 k =? 0); done.
  - exists l. unfold walker_add. cbn.
    destruct b; cbn; rewrite u64_small by lia; rewrite app_nil_r, Z.add_0_r; done.
Qed.

Lemma walk_bits_walks bs k l :
  walker_ok (Z.of_nat (length bs)) k -> 0 <= sl_cnt l ->
  sl_cnt l + Z.of_nat (length (walks bs k).2) < 512 ->
  exists l', walk_bits bs k l = Done ((walks bs k).1, l') /\
    sl_changed l' = sl_changed l /\
    sl_cnt l' = sl_cnt l + Z.of_nat (length (walks bs k).2) /\
    items l' = items l ++ (walks bs k).2.
Proof.
  revert k l. induction bs as [|b bs IH]; intros k l Hk Hc Hmax.
  - exists l. cbn. rewrite app_nil_r, Z.add_0_r. done.
  - cbn [walk_bits walks length] in *. unfold mbind, cmd_bind.
    pose proof (walk1_ok (Z.of_nat (length bs)) b k ltac:(lia)) as Hk1.
    destruct (walk_bit_walk1 b k l) as (l1 & E1 & C1 & N1 & I1).
    { unfold walker_ok in *. lia. }
    { destruct (walk1 b k) as [k1 e1], (walks bs k1) as [k2 e2]. cbn in Hmax.
      rewrite length_app in Hmax. lia. }
    rewrite E1. destruct (walk1 b k) as [k1 e1] eqn:Ew. cbn [fst snd] in *.
    destruct (walks bs k1) as [k2 e2] eqn:Ews. cbn [fst snd] in *.
    rewrite length_app in *.
    destruct (IH k1 l1) as (l2 & E2 & C2 & N2 & I2).
    { apply Hk1. unfold walker_ok in *. lia. }
    { lia. }
    { rewrite Ews. cbn. lia. }
    rewrite Ews in *. cbn [fst snd] in *.
    exists l2. split; [done|]. split; [congruence|]. split; [lia|].
    by rewrite I2, I1, app_assoc.
Qed.

Lemma walks_ok n bs k :
  0 <= n -> walker_ok (n + Z.of_nat (length bs)) k -> walker_ok n (walks bs k).1.
Proof.
  intros Hn. revert k. induction bs as [|b bs IH]; intros k Hk.
  - cbn in *. by rewrite Z.add_0_r in Hk.
  - cbn [walks length] in *.
    pose proof (walk1_ok (n + Z.of_nat (length bs)) b k ltac:(lia)) as Hk1.
    destruct (walk1 b k) as [k1 e1]. cbn [fst] in Hk1.
    specialize (IH k1). destruct (walks bs k1) as [k2 e2]. apply IH, Hk1.
    unfold walker_ok in *. lia.
Qed.

(** ** The emitted items cover exactly the set bits *)

(** The line the next bit stands for. *)
Definition walk_pos (k : walker) : Z := wk_offset_scaled k + wk_lbits1 k + wk_lbits0 k.
(** The run in progress. *)
Definition in_run (k : walker) (x : Z) : Prop :=
  wk_offset_scaled k <= x < wk_offset_scaled k + wk_lbits1 k.

Lemma walk1_cover b k x :
  walker_ok 1 k -> wk_lbits1 k < 2 ^ 32 ->
  (covers (walk1 b k).2 x \/ in_run (walk1 b k).1 x) <-> (in_run k x \/ (b = true /\ x = walk_pos k)).
Proof.
  intros (H1 & H2 & H3 & H4 & H5 & H6) H32. unfold walk1, in_run, walk_pos, covers.
  destruct b; cbn [andb].
  2: { cbn. rewrite Exists_nil. split; [intros [?|?]; [done|by left]|]. intros [?|[? _]]; [by right|done]. }
  destruct (Z.eqb_spec (wk_lbits0 k) 0); cbn [negb fst snd].
  - cbn. rewrite Exists_nil. split.
    + intros [?|?]; [done|]. destruct (Z.eq_dec x (wk_offset_scaled k + wk_lbits1 k)); [right; lia|left; lia].
    + intros [?|[_ ?]]; right; lia.
  - cbn. destruct (Z.eqb_spec (wk_lbits1 k) 0).
    + rewrite Exists_nil. split; [intros [?|?]; [done|right; lia]|]. intros [?|[_ ?]]; [lia|right; lia].
    + rewrite Exists_cons, Exists_nil. unfold item_has. cbn. rewrite u32_small by lia. split.
      * intros [[?|?]|?]; [left; lia|done|right; lia].
      * intros [?|[_ ?]]; [left; left; lia|right; lia].
Qed.

Lemma walk1_pos b k : walk_pos (walk1 b k).1 = walk_pos k + 1.
Proof.
  unfold walk1, walk_pos. destruct b; cbn; [|lia].
  destruct (Z.eqb_spec (wk_lbits0 k) 0); cbn; lia.
Qed.

Lemma walk1_lbits1 b k n : 0 <= n -> 0 <= wk_lbits1 k < n -> 0 <= wk_lbits1 (walk1 b k).1 < n + 1.
Proof.
  intros Hn Hk. unfold walk1. destruct b; cbn; [|lia].
  destruct (Z.eqb_spec (wk_lbits0 k) 0); cbn; lia.
Qed.

Lemma walks_pos bs k : walk_pos (walks bs k).1 = walk_pos k + Z.of_nat (length bs).
Proof.
  revert k. induction bs as [|b bs IH]; intros k; cbn [walks length].
  - cbn. lia.
  - pose proof (walk1_pos b k) as E. destruct (walk1 b k) as [k1 e1].
    specialize (IH k1). destruct (walks bs k1) as [k2 e2]. cbn [fst] in *. lia.
Qed.

Lemma covers_app e1 e2 x : covers (e1 ++ e2) x <-> covers e1 x \/ covers e2 x.
Proof. apply Exists_app. Qed.

Lemma walks_cover bs k x :
  walker_ok (Z.of_nat (length bs)) k -> wk_lbits1 k + Z.of_nat (length bs) < 2 ^ 32 ->
  (covers (walks bs k).2 x \/ in_run (walks bs k).1 x) <->
  (in_run k x \/ (walk_pos k <= x /\ bs !! Z.to_nat (x - walk_pos k) = Some true)).
Proof.
  revert k. induction bs as [|b bs IH]; intros k Hk H32; cbn [walks length] in *.
  - cbn. unfold covers. rewrite Exists_nil, lookup_nil.
    split; [intros [?|?]; [done|by left]|intros [?|[_ ?]]; [by right|done]].
  - pose proof (walk1_ok (Z.of_nat (length bs)) b k ltac:(lia)) as Hk1.
    pose proof (walk1_cover b k x) as Hc.
    pose proof (walk1_pos b k) as Hp.
    pose proof (walk1_lbits1 b k (wk_lbits1 k + 1)) as Hl.
    destruct (walk1 b k) as [k1 e1]. cbn [fst snd] in *.
    specialize (IH k1). destruct (walks bs k1) as [k2 e2]. cbn [fst snd] in *.
    rewrite covers_app.
    assert (walker_ok 1 k) as Hk' by (unfold walker_ok in *; lia).
    assert (0 <= wk_lbits1 k) by (unfold walker_ok in *; lia).
    specialize (Hk1 ltac:(unfold walker_ok in *; lia)).
    specialize (Hl ltac:(lia) ltac:(lia)).
    specialize (IH Hk1 ltac:(lia)).
    specialize (Hc Hk' ltac:(lia)).
    assert (Hhd : (b = true /\ x = walk_pos k) \/
                  (walk_pos k1 <= x /\ bs !! Z.to_nat (x - walk_pos k1) = Some true) <->
                  walk_pos k <= x /\ (b :: bs) !! Z.to_nat (x - walk_pos k) = Some true).
    { destruct (Z.eq_dec x (walk_pos k)) as [->|Hne].
      - rewrite Z.sub_diag. cbn. split; [intros [[-> _]|?]; [done|lia]|]. intros [_ [= ->]]. by left.
      - destruct (Z.lt_ge_cases x (walk_pos k)); [split; [intros [[_ ?]|?]; lia|lia]|].
        replace (Z.to_nat (x - walk_pos k)) with (S (Z.to_nat (x - walk_pos k1))) by lia.
        cbn. split; [intros [[_ ?]|[_ ?]]; [lia|split; [lia|done]]|]. intros [_ ?]. right. split; [lia|done]. }
    tauto.
Qed.

(** ** How many items a walk emits *)

(** 1 when the next set bit ends a run, 0 inside a run, -1 before any. *)
Definition walk_phase (k : walker) : Z :=
  if wk_lbits1 k =? 0 then -1 else if wk_lbits0 k =? 0 then 0 else 1.

Lemma walk1_count b k :
  walker_ok 1 k ->
  2 * Z.of_nat (length (walk1 b k).2) + walk_phase (walk1 b k).1 <= 1 + walk_phase k.
Proof.
  intros (H1 & H2 & H3 & H4 & H5 & H6). unfold walk1, walk_phase.
  destruct b; cbn.
  - destruct (Z.eqb_spec (wk_lbits0 k) 0); cbn; cases_cmp; cbn; lia.
  - cases_cmp; cbn; lia.
Qed.

Lemma walks_count bs k :
  walker_ok (Z.of_nat (length bs)) k ->
  2 * Z.of_nat (length (walks bs k).2) + walk_phase (walks bs k).1
  <= Z.of_nat (length bs) + walk_phase k.
Proof.
  revert k. induction bs as [|b bs IH]; intros k Hk; cbn [walks length] in *.
  - cbn. lia.
  - pose proof (walk1_ok (Z.of_nat (length bs)) b k ltac:(lia)) as Hk1.
    pose proof (walk1_count b k ltac:(unfold walker_ok in *; lia)) as Hc.
    destruct (walk1 b k) as [k1 e1]. cbn [fst snd] in *.
    specialize (IH k1). destruct (walks bs k1) as [k2 e2]. cbn [fst snd] in *.
    rewrite length_app. specialize (Hk1 ltac:(unfold walker_ok in *; lia)). specialize (IH Hk1). lia.
Qed.

Lemma walk1_lbits1_pos b k :
  walker_ok 1 k -> 0 < wk_lbits1 k \/ b = true -> 0 < wk_lbits1 (walk1 b k).1.
Proof.
  intros (H1 & H2 & _) H. unfold walk1. destruct b; cbn; [|lia || (destruct H; [lia|done])].
  destruct (Z.eqb_spec (wk_lbits0 k) 0); cbn; lia.
Qed.

(** ** Chunks of equal bits *)

(** [n] equal bits that end no run only grow a counter. *)
Lemma walk_same n b k l :
  (b = true -> wk_lbits0 k = 0) -> walker_ok (Z.of_nat n) k ->
  walk_bits (replicate n b) k l = Done (walker_add b (Z.of_nat n) k, l).
Proof.
  revert k. induction n as [|n IH]; intros k Hb (H1 & H2 & H3 & H4 & H5 & H6).
  - cbn. unfold walker_add. rewrite !Z.add_0_r, !u64_small by lia.
    by destruct k, b.
  - cbn [replicate walk_bits]. unfold mbind, cmd_bind, walk_bit.
    assert (b && negb (wk_lbits0 k =? 0) = false) as ->.
    { destruct b; [|done]. by rewrite Hb. }
    unfold mbind, cmd_bind, mret, cmd_ret. rewrite IH.
    + unfold walker_add. rewrite Nat2Z.inj_succ, <- Z.add_1_l.
      destruct b; cbn -[u64]; rewrite (u64_small (_ + 1)) by lia; rewrite Z.add_assoc; done.
    + intros ->. unfold walker_add. cbn. auto.
    + unfold walker_add, walker_ok. destruct b; cbn; rewrite u64_small by lia; lia.
Qed.

(** [n] equal bits: flush if a run starts, then grow the counter. *)
Lemma walk_chunk n b k l :
  (0 < n)%nat -> walker_ok (Z.of_nat n) k ->
  walk_bits (replicate n b) k l =
  (k ← (if b && negb (wk_lbits0 k =? 0) then walker_flush k else mret k);
   mret (walker_add b (Z.of_nat n) k)) l.
Proof.
  intros Hn (H1 & H2 & H3 & H4 & H5 & H6). unfold mbind, cmd_bind.
  destruct (b && negb (wk_lbits0 k =? 0)) eqn:E.
  - apply andb_true_iff in E as [-> E].
    destruct n as [|n]; [lia|]. cbn [replicate walk_bits]. unfold mbind, cmd_bind, walk_bit.
    rewrite E. cbn [andb]. unfold mbind, cmd_bind, walker_flush, mbind, cmd_bind, mret, cmd_ret.
    destruct (sync_list_put _ _ _ l) as [[[] l']|]; [|done].
    rewrite !u64_small by lia. rewrite walk_same.
    + unfold walker_add. cbn. rewrite Nat2Z.inj_succ, <- Z.add_1_l. done.
    + done.
    + unfold walker_ok, walker_add. cbn. rewrite !u64_small by lia. lia.
  - unfold mret, cmd_ret. apply walk_same; [|repeat split; done || lia].
    intros ->. cbn in E. by destruct (Z.eqb_spec (wk_lbits0 k) 0).
Qed.

(** After a successful step the counters have moved by the bits walked. *)
Lemma walk_bit_ok n b k l k' l' :
  0 <= n -> walker_ok (n + 1) k -> walk_bit b k l = Done (k', l') -> walker_ok n k'.
Proof.
  intros Hn (H1 & H2 & H3 & H4 & H5 & H6). unfold walk_bit, mbind, cmd_bind.
  destruct (b && negb (wk_lbits0 k =? 0)) eqn:E.
  - apply andb_true_iff in E as [-> E].
    unfold walker_flush, mbind, cmd_bind, mret, cmd_ret.
    destruct (sync_list_put _ _ _ l) as [[[] l1]|]; [|done].
    unfold walker_add. cbn -[u64]. rewrite !u64_small by lia. intros [= <- <-].
    unfold walker_ok. cbn. lia.
  - unfold mret, cmd_ret, walker_add. intros [= <- <-].
    destruct b; rewrite u64_small by lia; unfold walker_ok; cbn; lia.
Qed.

Lemma walk_bits_ok n bs k l k' l' :
  0 <= n -> walker_ok (n + Z.of_nat (length bs)) k ->
  walk_bits bs k l = Done (k', l') -> walker_ok n k'.
Proof.
  intros Hn. revert k l. induction bs as [|b bs IH]; intros k l Hk.
  - cbn in *. unfold mret, cmd_ret. rewrite Z.add_0_r in Hk. by intros [= <- <-].
  - cbn [walk_bits length] in *. unfold mbind, cmd_bind.
    destruct (walk_bit b k l) as [[k1 l1]|] eqn:E; [|done].
    apply IH. eapply walk_bit_ok; [|..|exact E]; [lia|]. unfold walker_ok in *. lia.
Qed.

(** ** [parse_unit] is the walk over the bits of the unit *)

Lemma msb_shl64 v n i : 0 <= n -> 0 <= i -> i + n < 64 -> msb (shl64 v n) i = msb v (i + n).
Proof.
  intros. unfold msb. rewrite testbit_shl64 by lia.
  rewrite (proj2 (Z.ltb_lt _ _)) by lia. cbn. f_equal. lia.
Qed.

(** The chunk [parse_unit] takes: at least one bit, all equal to the leading
    one, and stopped only by the end or by a bit that differs. *)
Lemma lead_chunk v left :
  0 <= v < 2 ^ 64 -> 0 < left <= 64 ->
  let n := Z.min left (u8 (lzcnt_u64 (if msb v 0 then not64 v else v))) in
  0 < n <= left /\
  msb v <$> seqZ 0 n = replicate (Z.to_nat n) (msb v 0) /\
  (n < left -> msb v n = negb (msb v 0)).
Proof.
  intros Hv Hleft n.
  set (x := if msb v 0 then not64 v else v) in n.
  assert (Hx : 0 <= x < 2 ^ 64).
  { unfold x. destruct (msb v 0); [|done]. unfold not64. pose proof (wrap_range 64 (Z.lnot v)). auto with lia. }
  assert (Hbit : forall i, 0 <= i < 64 -> msb x i = xorb (msb v 0) (msb v i)).
  { intros i Hi. unfold x. destruct (msb v 0); [|by destruct (msb v i)].
    unfold msb. rewrite testbit_not64 by lia. rewrite (proj2 (Z.ltb_lt _ _)) by lia. done. }
  pose proof (lzcnt_u64_range x Hx) as Hr.
  assert (Hn : n = Z.min left (lzcnt_u64 x)) by (unfold n; rewrite u8_small; lia).
  assert (0 < lzcnt_u64 x).
  { destruct (Z.lt_ge_cases 0 (lzcnt_u64 x)); [done|exfalso].
    assert (lzcnt_u64 x = 0) as E by lia.
    pose proof (lzcnt_u64_one x Hx ltac:(lia)) as H1. rewrite E, Hbit, xorb_nilpotent in H1 by lia. done. }
  split; [lia|]. split.
  - apply list_eq. intros i. rewrite list_lookup_fmap.
    destruct (decide (Z.of_nat i < n)) as [Hi|Hi].
    + rewrite lookup_seqZ_lt, lookup_replicate_2 by lia. cbn. f_equal.
      pose proof (lzcnt_u64_zeros x (0 + Z.of_nat i) Hx ltac:(lia)) as H1.
      rewrite Hbit in H1 by lia. by destruct (msb v 0), (msb v (0 + Z.of_nat i)).
    + rewrite lookup_seqZ_ge by lia. symmetry. apply lookup_replicate_None. lia.
  - intros Hlt. assert (n = lzcnt_u64 x) as -> by lia.
    pose proof (lzcnt_u64_one x Hx ltac:(lia)) as H1. rewrite Hbit in H1 by lia.
    by destruct (msb v 0), (msb v (lzcnt_u64 x)).
Qed.

Lemma parse_unit_walk fuel v left k l :
  0 <= v < 2 ^ 64 -> 0 < left <= 64 -> left <= Z.of_nat fuel -> walker_ok left k ->
  parse_unit fuel v left (msb v 0) k l = walk_bits (msb v <$> seqZ 0 left) k l.
Proof.
  revert v left k l. induction fuel as [|fuel IH]; intros v left k l Hv Hleft Hf Hk; [lia|].
  destruct (lead_chunk v left Hv Hleft) as (Hn & Hbits & Hnext).
  cbn [parse_unit]. set (n := Z.min left _) in *. clearbody n.
  rewrite (seqZ_split 0 left n), fmap_app, Hbits, walk_bits_app by lia. unfold mbind, cmd_bind.
  assert (Hkn : walker_ok (left - n + Z.of_nat (length (replicate (Z.to_nat n) (msb v 0)))) k).
  { rewrite length_replicate. unfold walker_ok in *. lia. }
  pose proof (walk_bits_ok (left - n) (replicate (Z.to_nat n) (msb v 0)) k l) as Hok.
  rewrite walk_chunk in Hok |- * by (unfold walker_ok in *; lia).
  unfold mbind, cmd_bind in Hok |- *.
  destruct ((if msb v 0 && negb (wk_lbits0 k =? 0) then walker_flush k else mret k) l)
    as [[k1 l1]|]; [|done].
  unfold mret, cmd_ret in *. rewrite Z2Nat.id in * by lia.
  specialize (Hok _ _ ltac:(lia) Hkn eq_refl).
  rewrite u8_small by lia. destruct (Z.ltb_spec 0 (left - n)).
  - rewrite <- Hnext by lia.
    assert (msb v n = msb (shl64 v n) 0) as ->.
    { by rewrite msb_shl64 by lia. }
    rewrite IH; [|apply wrap_range; lia|lia|lia|done].
    f_equal. rewrite Z.add_0_l.
    apply list_eq. intros i. rewrite !list_lookup_fmap.
    destruct (decide (Z.of_nat i < left - n)).
    + rewrite !lookup_seqZ_lt by lia. cbn. f_equal. rewrite msb_shl64 by lia. f_equal. lia.
    + by rewrite !lookup_seqZ_ge by lia.
  - rewrite seqZ_nil by lia. done.
Qed.

Lemma unit_bits_length v : length (unit_bits v) = 64%nat.
Proof. unfold unit_bits. by rewrite length_fmap, length_seqZ. Qed.

Lemma unit_bits_zero : unit_bits 0 = replicate 64 false.
Proof. reflexivity. Qed.

Lemma unit_bits_lookup v i : 0 <= i < 64 -> unit_bits v !! Z.to_nat i = Some (msb v i).
Proof.
  intros. unfold unit_bits. rewrite list_lookup_fmap, lookup_seqZ_lt by lia.
  cbn. do 2 f_equal. lia.
Qed.

(** ** [parse_units] is the walk over the bits of the eight units *)

Definition lane_set (vals : list Z) (j : nat) : bool :=
  match vals !! j with Some v => negb (v =? 0) | None => false end.

Lemma testbit_test_mask vals i j :
  0 <= i -> 0 <= j ->
  Z.testbit (test_mask i vals) j = (i <=? j) && lane_set vals (Z.to_nat (j - i)).
Proof.
  intros Hi Hj. revert i Hi. induction vals as [|v vals IH]; intros i Hi.
  - unfold lane_set. cbn [test_mask]. by rewrite Z.testbit_0_l, lookup_nil, andb_false_r.
  - cbn [test_mask]. rewrite Z.lor_spec, IH by lia.
    assert (Z.testbit (if v =? 0 then 0 else Z.shiftl 1 i) j = (j =? i) && negb (v =? 0)) as ->.
    { destruct (v =? 0); [by rewrite Z.testbit_0_l, andb_false_r|].
      rewrite Z.shiftl_1_l, Z.pow2_bits_eqb, Z.eqb_sym, andb_true_r by lia. done. }
    unfold lane_set. destruct (Z.eqb_spec j i) as [->|Hne].
    + rewrite Z.sub_diag, Z.leb_refl. rewrite (proj2 (Z.leb_gt _ _)) by lia.
      cbn. by rewrite orb_false_r.
    + cbn. destruct (Z.leb_spec (i + 1) j).
      * rewrite (proj2 (Z.leb_le i j)) by lia.
        by replace (Z.to_nat (j - i)) with (S (Z.to_nat (j - (i + 1)))) by lia.
      * by rewrite (proj2 (Z.leb_gt i j)) by lia.
Qed.

Lemma test_mask_range vals i :
  0 <= i -> 0 <= test_mask i vals < 2 ^ (i + Z.of_nat (length vals)).
Proof.
  revert i. induction vals as [|v vals IH]; intros i Hi.
  - cbn. split; [lia|]. apply Z.pow_pos_nonneg; lia.
  - cbn [test_mask length]. specialize (IH (i + 1) ltac:(lia)).
    replace (i + 1 + Z.of_nat (length vals)) with (i + Z.of_nat (S (length vals))) in IH by lia.
    apply lor_range; [lia| |done]. rewrite Z.shiftl_1_l.
    assert (0 < 2 ^ i) by (apply Z.pow_pos_nonneg; lia).
    assert (2 ^ i < 2 ^ (i + Z.of_nat (S (length vals)))) by (apply Z.pow_lt_mono_r; lia).
    destruct (v =? 0); lia.
Qed.

Lemma test_mask_zero vals : test_mask 0 vals = 0 -> Forall (fun v => v = 0) vals.
Proof.
  intros H. apply Forall_lookup. intros j v Hj.
  pose proof (testbit_test_mask vals 0 (Z.of_nat j) ltac:(lia) ltac:(lia)) as Hb.
  rewrite H, Z.testbit_0_l, Z.sub_0_r, Nat2Z.id in Hb.
  rewrite (proj2 (Z.leb_le _ _)) in Hb by lia. unfold lane_set in Hb. rewrite Hj in Hb.
  by destruct (Z.eqb_spec v 0).
Qed.

(** The mask of a group with its sentinel bit. *)
Lemma testbit_one_mask vals j :
  length vals = 8%nat -> 0 <= j <= 8 ->
  Z.testbit (Z.lor (test_mask 0 vals) (Z.shiftl 1 8)) j = (j =? 8) || lane_set vals (Z.to_nat j).
Proof.
  intros Hl Hj. rewrite Z.lor_spec, testbit_test_mask, Z.shiftl_1_l, Z.pow2_bits_eqb, Z.sub_0_r by lia.
  rewrite (proj2 (Z.leb_le _ _)) by lia. rewrite Z.eqb_sym. cbn. apply orb_comm.
Qed.

Lemma one_mask_range vals :
  length vals = 8%nat -> 0 <= Z.lor (test_mask 0 vals) (Z.shiftl 1 8) < 2 ^ 9.
Proof.
  intros Hl. pose proof (test_mask_range vals 0 ltac:(lia)) as H. rewrite Hl in H.
  apply lor_range; [lia| |split; [done|reflexivity]].
  change (0 + Z.of_nat 8) with 8 in H. lia.
Qed.

(** The jump over zero units: [z] units of zeros, and then the end of the
    group or a unit that is not zero. *)
Lemma zero_units vals i :
  length vals = 8%nat -> 0 <= i < 8 ->
  let z := u8 (tzcnt_u32 (Z.shiftr (Z.lor (test_mask 0 vals) (Z.shiftl 1 8)) i)) in
  0 <= z /\ i + z <= 8 /\
  drop (Z.to_nat i) vals = replicate (Z.to_nat z) 0 ++ drop (Z.to_nat (i + z)) vals.
Proof.
  intros Hl Hi z. pose proof (one_mask_range vals Hl) as Hm.
  pose proof (testbit_one_mask vals) as Hb. set (m := Z.lor _ _) in *.
  assert (Hs : 0 < Z.shiftr m i < 2 ^ 32).
  { rewrite Z.shiftr_div_pow2 by lia. assert (0 < 2 ^ i) by (apply Z.pow_pos_nonneg; lia).
    split; [|apply Z.div_lt_upper_bound; nia].
    apply Z.div_str_pos. split; [lia|].
    destruct (Z.le_gt_cases (2 ^ i) m) as [|Hlt]; [done|exfalso].
    specialize (Hb 8 Hl ltac:(lia)). rewrite Z.eqb_refl in Hb. cbn [orb] in Hb.
    rewrite (Z.bits_above_log2 m 8) in Hb; [done|lia|].
    destruct (Z.eq_dec m 0) as [->|]; [done|]. apply Z.log2_lt_pow2; [lia|].
    assert (2 ^ i < 2 ^ 8) by (apply Z.pow_lt_mono_r; lia). lia. }
  destruct (tzcnt_u32_spec _ Hs) as (Hr & Hz & Ho).
  assert (Hzv : z = tzcnt_u32 (Z.shiftr m i)) by (unfold z; apply u8_small; lia).
  rewrite <- Hzv in *. clearbody z.
  assert (i + z <= 8).
  { destruct (Z.le_gt_cases (i + z) 8); [done|exfalso].
    specialize (Hz (8 - i) ltac:(lia)). rewrite Z.shiftr_spec in Hz by lia.
    rewrite Hb in Hz by (done || lia). rewrite (proj2 (Z.eqb_eq _ _)) in Hz by lia. done. }
  split; [lia|]. split; [done|].
  rewrite <- (take_drop (Z.to_nat z) (drop (Z.to_nat i) vals)) at 1.
  rewrite drop_drop. f_equal; [|f_equal; lia].
  apply list_eq. intros j. destruct (decide (Z.of_nat j < z)).
  - rewrite lookup_take_lt, lookup_drop, lookup_replicate_2 by lia.
    specialize (Hz (Z.of_nat j) ltac:(lia)). rewrite Z.shiftr_spec in Hz by lia.
    rewrite Hb in Hz by (done || lia). apply orb_false_iff in Hz as [_ Hz].
    replace (Z.to_nat (Z.of_nat j + i)) with (Z.to_nat i + j)%nat in Hz by lia.
    unfold lane_set in Hz.
    destruct (lookup_lt_is_Some_2 vals (Z.to_nat i + j)) as [v Hv]; [lia|].
    rewrite Hv in *. destruct (Z.eqb_spec v 0); [by subst|done].
  - rewrite (proj2 (lookup_ge_None _ _)) by (rewrite length_take; lia).
    symmetry. apply lookup_replicate_None. lia.
Qed.

Definition group_bits (vals : list Z) : list bool := mjoin (unit_bits <$> vals).

Lemma group_bits_cons v vals : group_bits (v :: vals) = unit_bits v ++ group_bits vals.
Proof. reflexivity. Qed.

Lemma group_bits_length vals : length (group_bits vals) = (64 * length vals)%nat.
Proof.
  induction vals as [|v vals IH]; [done|].
  rewrite group_bits_cons, length_app, IH, unit_bits_length. cbn. lia.
Qed.

Lemma group_bits_zeros n vals :
  group_bits (replicate n 0 ++ vals) = replicate (64 * n) false ++ group_bits vals.
Proof.
  induction n as [|n IH]; [done|]. cbn [replicate app].
  rewrite group_bits_cons, IH, unit_bits_zero, app_assoc, <- replicate_add. do 2 f_equal. lia.
Qed.

(** Line [x] of a group is bit [x mod 64] of unit [x / 64]. *)
Lemma group_bits_lookup vals x :
  0 <= x < 64 * Z.of_nat (length vals) ->
  group_bits vals !! Z.to_nat x = Some (msb (vals !!! Z.to_nat (x / 64)) (x mod 64)).
Proof.
  revert x. induction vals as [|v vals IH]; intros x Hx; [cbn in Hx; lia|].
  rewrite group_bits_cons. cbn [length] in Hx. destruct (Z.lt_ge_cases x 64).
  - rewrite lookup_app_l by (rewrite unit_bits_length; lia).
    rewrite unit_bits_lookup, Z.mod_small, Z.div_small by lia. done.
  - rewrite lookup_app_r by (rewrite unit_bits_length; lia). rewrite unit_bits_length.
    replace (Z.to_nat x - 64)%nat with (Z.to_nat (x - 64)) by lia. rewrite IH by lia.
    replace (x - 64) with (x + (-1) * 64) by lia. rewrite Z.mod_add, Z.div_add by lia.
    assert (1 <= x / 64) by (apply Z.div_le_lower_bound; lia).
    by replace (Z.to_nat (x / 64)) with (S (Z.to_nat (x / 64 + -1))) by lia.
Qed.

Lemma parse_units_walk fuel i vals k l :
  length vals = 8%nat -> Forall (fun v => 0 <= v < 2 ^ 64) vals ->
  0 <= i <= 8 -> 9 - i <= Z.of_nat fuel -> walker_ok (64 * (8 - i)) k ->
  parse_units fuel i (Z.lor (test_mask 0 vals) (Z.shiftl 1 8)) vals k l =
  walk_bits (group_bits (drop (Z.to_nat i) vals)) k l.
Proof.
  intros Hl Hv. revert i k l. induction fuel as [|fuel IH]; intros i k l Hi Hf Hk; [lia|].
  cbn [parse_units]. destruct (Z.ltb_spec i 8).
  2: { rewrite drop_ge by lia. done. }
  destruct (zero_units vals i Hl ltac:(lia)) as (Hz & Hiz & Hd).
  set (z := u8 _) in *. clearbody z. defs. destruct (Z.eqb_spec z 0) as [->|Hnz]; cbn [negb].
  - destruct (lookup_lt_is_Some_2 vals (Z.to_nat i)) as [v Hlk]; [lia|].
    rewrite (drop_S vals v (Z.to_nat i) Hlk).
    assert (0 <= v < 2 ^ 64) by (eapply Forall_lookup_1 in Hv; eauto).
    rewrite (list_lookup_total_correct _ _ _ Hlk). unfold mbind, cmd_bind.
    change (Z.testbit v 63) with (msb v 0).
    rewrite parse_unit_walk by (done || lia || (unfold walker_ok in *; lia)).
    fold (unit_bits v).
    rewrite group_bits_cons, walk_bits_app. unfold mbind, cmd_bind.
    destruct (walk_bits (unit_bits v) k l) as [[k1 l1]|] eqn:E; [|done].
    rewrite IH; [by replace (Z.to_nat (i + 1)) with (S (Z.to_nat i)) by lia|lia|lia|].
    eapply walk_bits_ok; [| |exact E]; [lia|]. rewrite unit_bits_length. unfold walker_ok in *. lia.
  - rewrite Hd, group_bits_zeros, walk_bits_app. unfold mbind, cmd_bind.
    rewrite walk_same; [|done|unfold walker_ok in *; lia].
    replace (i + (z - 1) + 1) with (i + z) by lia.
    replace (Z.of_nat (64 * Z.to_nat z)) with (z * 64) by lia.
    apply IH; [lia|lia|]. unfold walker_ok, walker_add in *. cbn -[u64].
    rewrite u64_small by lia. lia.
Qed.

(** ** How many lines the items stand for *)

Definition item_sum (e : list tasvir_sync_item) : Z := foldr (fun it s => si_len_scaled it + s) 0 e.
Definition popcount (bs : list bool) : Z := foldr (fun b n => Z.b2z b + n) 0 bs.

Lemma item_sum_cons it e : item_sum (it :: e) = si_len_scaled it + item_sum e.
Proof. reflexivity. Qed.

Lemma item_sum_app e1 e2 : item_sum (e1 ++ e2) = item_sum e1 + item_sum e2.
Proof. unfold item_sum in *. induction e1 as [|it e1 IH]; [done|]. cbn. lia. Qed.

Lemma popcount_app bs1 bs2 : popcount (bs1 ++ bs2) = popcount bs1 + popcount bs2.
Proof. unfold popcount in *. induction bs1 as [|b bs1 IH]; [done|]. cbn. lia. Qed.

Lemma popcount_range bs : 0 <= popcount bs <= Z.of_nat (length bs).
Proof. unfold popcount in *. induction bs as [|b bs IH]; [done|]. cbn [foldr length]. destruct b; cbn [Z.b2z]; lia. Qed.

Lemma walks_sum bs k :
  walker_ok (Z.of_nat (length bs)) k -> wk_lbits1 k + Z.of_nat (length bs) < 2 ^ 32 ->
  item_sum (walks bs k).2 + wk_lbits1 (walks bs k).1 = wk_lbits1 k + popcount bs /\
  wk_total (walks bs k).1 + wk_lbits1 (walks bs k).1 = wk_total k + wk_lbits1 k + popcount bs.
Proof.
  revert k. induction bs as [|b bs IH]; intros k Hk H32; cbn [walks length popcount foldr] in *.
  - cbn. lia.
  - pose proof (walk1_ok (Z.of_nat (length bs)) b k ltac:(lia)) as Hk1.
    assert (0 <= wk_lbits1 k) by (unfold walker_ok in *; lia).
    pose proof (walk1_lbits1 b k (wk_lbits1 k + 1) ltac:(lia) ltac:(lia)) as Hl.
    assert (Hs : item_sum (walk1 b k).2 + wk_lbits1 (walk1 b k).1 = wk_lbits1 k + Z.b2z b /\
      wk_total (walk1 b k).1 + wk_lbits1 (walk1 b k).1 = wk_total k + wk_lbits1 k + Z.b2z b).
    { unfold walk1. destruct b; cbn [andb]; [|cbn; lia].
      destruct (Z.eqb_spec (wk_lbits0 k) 0); cbn; [lia|].
      destruct (Z.eqb_spec (wk_lbits1 k) 0); cbn; rewrite ?u32_small by lia; lia. }
    destruct (walk1 b k) as [k1 e1]. cbn [fst snd] in *.
    specialize (IH k1). destruct (walks bs k1) as [k2 e2]. cbn [fst snd] in *.
    rewrite item_sum_app. fold (popcount bs).
    specialize (Hk1 ltac:(unfold walker_ok in *; lia)). specialize (IH Hk1 ltac:(lia)). lia.
Qed.

(** Once a run has started there is always a run in progress. *)
Lemma walks_lbits1_pos bs k :
  walker_ok (Z.of_nat (length bs)) k -> 0 < wk_lbits1 k -> 0 < wk_lbits1 (walks bs k).1.
Proof.
  revert k. induction bs as [|b bs IH]; intros k Hk Hp; cbn [walks length] in *; [done|].
  pose proof (walk1_ok (Z.of_nat (length bs)) b k ltac:(lia)) as Hk1.
  pose proof (walk1_lbits1_pos b k ltac:(unfold walker_ok in *; lia) ltac:(by left)) as Hp1.
  destruct (walk1 b k) as [k1 e1]. cbn [fst] in *. specialize (IH k1).
  destruct (walks bs k1) as [k2 e2]. cbn [fst] in *. apply IH; [|done].
  apply Hk1. unfold walker_ok in *. lia.
Qed.

(** A group adds at most 256 items. *)
Lemma walks_group_count bs k :
  length bs = 512%nat -> walker_ok 512 k -> Z.of_nat (length (walks bs k).2) <= 256.
Proof.
  intros Hl Hk. pose proof (walks_count bs k) as Hc. rewrite Hl in Hc. specialize (Hc Hk).
  pose proof (walks_lbits1_pos bs k) as Hp. rewrite Hl in Hp. specialize (Hp Hk).
  pose proof (walks_ok 0 bs k ltac:(lia)) as Hok. rewrite Hl in Hok. specialize (Hok Hk).
  change (Z.of_nat 512) with 512 in Hc.
  assert (0 <= wk_lbits1 k) by apply Hk. assert (0 <= wk_lbits1 (walks bs k).1) by apply Hok.
  unfold walk_phase in Hc.
  destruct (Z.eqb_spec (wk_lbits1 k) 0), (Z.eqb_spec (wk_lbits1 (walks bs k).1) 0);
    [..|lia|]; destruct (wk_lbits0 k =? 0), (wk_lbits0 (walks bs k).1 =? 0); lia.
Qed.

(** ** Properties *)

(** A loaded group of the log: eight 64-bit words. *)
Definition group_ok (vals : list Z) : Prop :=
  length vals = 8%nat /\ Forall (fun v => 0 <= v < 2 ^ 64) vals.

(** Line [x] of the group that starts at line [p]. *)
Definition group_line (vals : list Z) (p x : Z) : bool :=
  in_range x p 512 && msb (vals !!! Z.to_nat ((x - p) / 64)) ((x - p) mod 64).

Lemma group_line_lookup vals p x :
  length vals = 8%nat ->
  group_line vals p x = true <-> p <= x /\ group_bits vals !! Z.to_nat (x - p) = Some true.
Proof.
  intros Hl. unfold group_line. rewrite andb_true_iff, in_range_true. split.
  - intros [Hx Hb]. split; [lia|]. rewrite group_bits_lookup by (rewrite Hl; lia). by rewrite Hb.
  - intros [Hx Hb]. pose proof (lookup_lt_Some _ _ _ Hb) as Hlt.
    rewrite group_bits_length, Hl in Hlt. split; [lia|].
    rewrite group_bits_lookup in Hb by (rewrite Hl; lia). by injection Hb.
Qed.

(** The effect of the scan of one group on the list, for every list that is
    at most half full. *)
Lemma parse_units_runs vals k l :
  group_ok vals -> walker_ok 512 k -> wk_lbits1 k + 512 < 2 ^ 32 -> 0 <= sl_cnt l < 256 ->
  exists l',
    parse_units 9 0 (Z.lor (test_mask 0 vals) (Z.shiftl 1 8)) vals k l
      = Done ((walks (group_bits vals) k).1, l') /\
    sl_changed l' = sl_changed l /\ 0 <= sl_cnt l' < 512 /\
    items l' = items l ++ (walks (group_bits vals) k).2.
Proof.
  intros [Hl Hv] Hk H32 Hc. rewrite parse_units_walk by (done || lia).
  change (Z.to_nat 0) with 0%nat. rewrite drop_0.
  pose proof (group_bits_length vals) as Hg. rewrite Hl in Hg. change (64 * 8)%nat with 512%nat in Hg.
  pose proof (walks_group_count (group_bits vals) k Hg Hk) as Hn.
  destruct (walk_bits_walks (group_bits vals) k l) as (l' & E & Hch & Hcnt & Hit);
    [rewrite Hg; done|lia|lia|].
  exists l'. split; [done|]. split; [done|]. split; [lia|done].
Qed.

(** C3: The scan of a group of eight log units with [lzcnt]/[tzcnt], which
    skips zero units and consumes runs of equal bits at once, is the walk
    that looks at the group's 512 bits one at a time, on every list and
    walker state: the same items are emitted, the same counters reached, the
    same faults hit. *)
Theorem parse_units_bitwise vals k l :
  group_ok vals -> walker_ok 512 k ->
  parse_units 9 0 (Z.lor (test_mask 0 vals) (Z.shiftl 1 8)) vals k l
  = walk_bits (group_bits vals) k l.
Proof.
  intros [Hl Hv] Hk. rewrite parse_units_walk by (done || lia). done.
Qed.

Lemma parse_units_bitwise_witness :
  let vals := [0; 0; 2 ^ 63; 2 ^ 64 - 1; 0; 5; 0; 1] in
  let k := mk_walker 3 1 1000 7 in
  parse_units 9 0 (Z.lor (test_mask 0 vals) (Z.shiftl 1 8)) vals k sync_list_zero
  = walk_bits (group_bits vals) k sync_list_zero.
Proof.
  apply parse_units_bitwise.
  - split; [done|]. repeat constructor; lia.
  - unfold walker_ok. cbn. lia.
Defined.

(** The scan of a group on a list that is less than half full never
    overruns the 512-entry list, appends items only, and what it appended
    together with the run in progress stands for exactly the lines that were
    in the run before plus the lines whose log bit is set. *)
Theorem parse_units_covers vals k l :
  group_ok vals -> walker_ok 512 k -> wk_lbits1 k + 512 < 2 ^ 32 -> 0 <= sl_cnt l < 256 ->
  exists k' l' e,
    parse_units 9 0 (Z.lor (test_mask 0 vals) (Z.shiftl 1 8)) vals k l = Done (k', l') /\
    items l' = items l ++ e /\ 0 <= sl_cnt l' < 512 /\
    walk_pos k' = walk_pos k + 512 /\
    (forall x, covers e x \/ in_run k' x <->
               in_run k x \/ group_line vals (walk_pos k) x = true) /\
    item_sum e + wk_lbits1 k' = wk_lbits1 k + popcount (group_bits vals).
Proof.
  intros Hg Hk H32 Hc. destruct (parse_units_runs vals k l Hg Hk H32 Hc) as (l' & E & _ & Hc' & Hi).
  destruct Hg as [Hl Hv]. pose proof (group_bits_length vals) as Hlen.
  rewrite Hl in Hlen. change (64 * 8)%nat with 512%nat in Hlen.
  eexists _, l', _. split; [exact E|]. split; [exact Hi|]. split; [done|].
  split; [rewrite walks_pos, Hlen; done|]. split.
  - intros x. rewrite walks_cover, group_line_lookup by (rewrite ?Hlen; done). done.
  - apply walks_sum; rewrite Hlen; done.
Qed.

Lemma parse_units_covers_witness :
  let vals := [0; 2 ^ 63; 0; 0; 0; 0; 0; 3] in
  exists k' l' e,
    parse_units 9 0 (Z.lor (test_mask 0 vals) (Z.shiftl 1 8)) vals (mk_walker 0 0 128 0) sync_list_zero
      = Done (k', l') /\
    items l' = items sync_list_zero ++ e /\ (covers e 192 \/ in_run k' 192).
Proof.
  destruct (parse_units_covers [0; 2 ^ 63; 0; 0; 0; 0; 0; 3] (mk_walker 0 0 128 0) sync_list_zero)
    as (k' & l' & e & E & Hi & _ & _ & Hx & _).
  - split; [done|]. repeat constructor; lia.
  - unfold walker_ok. cbn. lia.
  - cbn. lia.
  - cbn. lia.
  - exists k', l', e. split; [exact E|]. split; [exact Hi|]. apply Hx. right. reflexivity.
Defined.
