(* ===== verification/SyncCopy.v ===== *)
(** * SyncCopy: what an internal scan does to shared memory

    The effect on memory of the internal synchronization of a stretch of an
    area: [tasvir_sync_parse_log] with [pivot = 0] followed by
    [tasvir_sync_process_changes] (src/sync.c). Every line whose log bit was
    set is copied from the writer to the reader copy, the bits are cleared
    and, for an area owned by this node, added to its first difference log;
    nothing else changes, and both routines return 64 bytes per set bit. *)
From stdpp Require Import base gmap list numbers.
From Stdlib Require Import ZArith Lia.
From S2P Require Import Prelude Defs Types Fifo Mem Log Net Sync SyncRuns.

(** ** Items of a stretch of lines *)

(** A non-empty run inside the lines [x0 .. x1-1], short enough for the
    32-bit byte count of [tasvir_sync_process_changes]. *)
Definition item_in (x0 x1 : Z) (it : tasvir_sync_item) : Prop :=
  x0 <= si_offset_scaled it /\ 0 < si_len_scaled it < 2 ^ 26 /\
  si_offset_scaled it + si_len_scaled it <= x1.

Lemma walks_items bs k x0 x1 :
  walker_ok (Z.of_nat (length bs)) k -> wk_lbits1 k + Z.of_nat (length bs) < 2 ^ 26 ->
  x0 <= wk_offset_scaled k -> walk_pos (walks bs k).1 <= x1 ->
  Forall (item_in x0 x1) (walks bs k).2 /\ x0 <= wk_offset_scaled (walks bs k).1.
Proof.
  revert k. induction bs as [|b bs IH]; intros k Hk H26 Hx0 Hx1; cbn [walks length] in *.
  - by split; [constructor|].
  - pose proof (walk1_ok (Z.of_nat (length bs)) b k ltac:(lia)) as Hk1.
    assert (0 <= wk_lbits1 k) by (unfold walker_ok in *; lia).
    pose proof (walk1_lbits1 b k (wk_lbits1 k + 1) ltac:(lia) ltac:(lia)) as Hl.
    pose proof (walks_pos bs (walk1 b k).1) as Hp. rewrite walk1_pos in Hp.
    assert (H1 : Forall (item_in x0 (walk_pos k)) (walk1 b k).2 /\
                 x0 <= wk_offset_scaled (walk1 b k).1).
    { destruct Hk as (? & ? & ? & ? & ? & ?). unfold walk1.
      destruct b; cbn [andb]; [|split; [constructor|done]].
      destruct (Z.eqb_spec (wk_lbits0 k) 0); cbn; [split; [constructor|done]|].
      split; [|lia]. destruct (Z.eqb_spec (wk_lbits1 k) 0); [constructor|].
      constructor; [|constructor]. unfold item_in, walk_pos. cbn. rewrite u32_small by lia. lia. }
    destruct (walk1 b k) as [k1 e1]. cbn [fst snd] in *.
    specialize (IH k1). destruct (walks bs k1) as [k2 e2]. cbn [fst snd] in *.
    destruct H1 as [He1 Ho1].
    destruct IH as [He2 Ho2]; [apply Hk1; unfold walker_ok in *; lia|lia|done|done|].
    split; [|done]. apply Forall_app. split; [|done].
    eapply List.Forall_impl; [|exact He1]. unfold item_in. intros it ?. lia.
Qed.

Lemma item_sum_nonneg x0 x1 e : Forall (item_in x0 x1) e -> 0 <= item_sum e.
Proof.
  unfold item_sum. induction 1 as [|it e Hit _ IH]; cbn; [done|]. unfold item_in in Hit. lia.
Qed.

#[export] Instance item_has_dec it x : Decision (item_has it x).
Proof. unfold item_has. apply _. Defined.
#[export] Instance covers_dec e x : Decision (covers e x).
Proof. unfold covers. apply _. Defined.

Lemma covers_in x0 x1 e x : Forall (item_in x0 x1) e -> covers e x -> x0 <= x < x1.
Proof.
  intros He (it & Hit & Hx)%Exists_exists. rewrite Forall_forall in He.
  apply He in Hit. unfold item_in, item_has in *. lia.
Qed.

(** ** Copies of lines *)

(** Is [o] a byte of the reader copy in a line of [e]? *)
Definition in_lines (e : list tasvir_sync_item) (o : Z) : bool :=
  in_range o 0 TASVIR_SIZE_DATA && bool_decide (covers e (o / 64)).

(** [m'] is [m] with the lines of [e] copied from the writer copy. *)
Definition copied (m m' : gmap Z Z) (e : list tasvir_sync_item) : Prop :=
  forall o, aligned 8 o -> ld m' o = if in_lines e o then ld m (o + TASVIR_SIZE_DATA) else ld m o.

Lemma in_lines_app e1 e2 o : in_lines (e1 ++ e2) o = in_lines e1 o || in_lines e2 o.
Proof.
  unfold in_lines. destruct (in_range _ _ _); cbn; [|done].
  rewrite (bool_decide_ext _ _ (covers_app e1 e2 (o / 64))). by rewrite bool_decide_or.
Qed.

Lemma in_lines_high e o : TASVIR_SIZE_DATA <= o -> in_lines e o = false.
Proof.
  intros. unfold in_lines. assert (in_range o 0 TASVIR_SIZE_DATA = false) as ->; [|done].
  apply in_range_false. lia.
Qed.

Lemma copied_nil m : copied m m [].
Proof.
  intros o _. unfold in_lines. rewrite bool_decide_false by (by intros ?%Exists_nil).
  by rewrite andb_false_r.
Qed.

Lemma copied_app m m1 m2 e1 e2 : copied m m1 e1 -> copied m1 m2 e2 -> copied m m2 (e1 ++ e2).
Proof.
  intros H1 H2 o Ho. rewrite H2, in_lines_app by done.
  destruct (in_lines e2 o) eqn:E.
  - rewrite orb_true_r. unfold in_lines in E. apply andb_true_iff in E as [E _].
    apply in_range_true in E. rewrite H1 by (defs; align). rewrite in_lines_high by (defs; lia). done.
  - rewrite orb_false_r. by apply H1.
Qed.

(** ** Scanned stretches of the log *)

(** What [n] bytes of the first difference log at file offset [ol] become
    when the change log at [lo] is merged into them. *)
Definition merged (m : gmap Z Z) (lo : Z) (ol : option Z) (n o : Z) : option Z :=
  b ← ol; if in_range o b n then Some (Z.lor (ld m (lo + (o - b))) (ld m o)) else None.

(** [m'] is [m] after the scan of [n] bytes of log at [lo]: they are zero,
    the difference log at [ol] (if any) has their bits, and the lines of [e]
    are copied. *)
Definition scanned (m m' : gmap Z Z) (lo : Z) (ol : option Z) (n : Z)
    (e : list tasvir_sync_item) : Prop :=
  forall o, aligned 8 o ->
    ld m' o = if in_range o lo n then 0
              else match merged m lo ol n o with
                   | Some v => v
                   | None => if in_lines e o then ld m (o + TASVIR_SIZE_DATA) else ld m o
                   end.

(** [n] bytes of difference log that overlap neither the change log nor the
    lines [x0 .. x1-1] in either copy. *)
Definition apart (ol : option Z) (n x0 x1 : Z) : Prop :=
  forall b, ol = Some b -> aligned 8 b /\ 0 <= b /\ b + n <= 2 * TASVIR_SIZE_DATA /\
    (b + n <= 64 * x0 \/ 64 * x1 <= b) /\
    (b + n <= TASVIR_SIZE_DATA + 64 * x0 \/ TASVIR_SIZE_DATA + 64 * x1 <= b).

Lemma merged_none m lo ol n o :
  (forall b, ol = Some b -> ~ (b <= o < b + n)) -> merged m lo ol n o = None.
Proof.
  intros H. unfold merged. destruct ol as [b|]; [|done]. cbn.
  by rewrite (proj2 (in_range_false o b n)) by auto.
Qed.

Lemma merged_some m lo b n o :
  b <= o < b + n -> merged m lo (Some b) n o = Some (Z.lor (ld m (lo + (o - b))) (ld m o)).
Proof. intros H. unfold merged. cbn. by rewrite (proj2 (in_range_true o b n)). Qed.

Lemma in_lines_in x0 x1 e o :
  Forall (item_in x0 x1) e -> in_lines e o = true -> 64 * x0 <= o < 64 * x1 /\ 0 <= o < TASVIR_SIZE_DATA.
Proof.
  intros He [H1%in_range_true H2%bool_decide_eq_true]%andb_true_iff.
  pose proof (covers_in _ _ _ _ He H2).
  pose proof (Z.div_mod o 64 ltac:(lia)). pose proof (Z.mod_pos_bound o 64 ltac:(lia)). lia.
Qed.

Lemma in_lines_out x0 x1 e o :
  Forall (item_in x0 x1) e -> o < 64 * x0 \/ 64 * x1 <= o -> in_lines e o = false.
Proof.
  intros He Ho. destruct (in_lines e o) eqn:E; [|done].
  apply (in_lines_in _ _ _ _ He) in E. lia.
Qed.

Lemma copied_scanned m m' lo ol e : copied m m' e -> scanned m m' lo ol 0 e.
Proof.
  intros H o Ho. rewrite (proj2 (in_range_false o lo 0)) by lia.
  rewrite merged_none by (intros; lia). by apply H.
Qed.

Lemma scanned_app m m1 m2 lo ol n1 n2 e1 e2 x0 x1 :
  scanned m m1 lo ol n1 e1 ->
  scanned m1 m2 (lo + n1) ((fun b => b + n1) <$> ol) n2 e2 ->
  apart ol (n1 + n2) x0 x1 -> Forall (item_in x0 x1) e1 -> Forall (item_in x0 x1) e2 ->
  0 <= n1 -> 0 <= n2 -> aligned 8 lo -> 2 * TASVIR_SIZE_DATA <= lo ->
  0 <= x0 -> x1 <= nr_lines ->
  scanned m m2 lo ol (n1 + n2) (e1 ++ e2).
Proof.
  intros H1 H2 Ha He1 He2 Hn1 Hn2 Hal Hlo Hx0 Hx1 o Ho. change nr_lines with 17179869184 in Hx1.
  assert (Hsz : TASVIR_SIZE_DATA = 1099511627776) by done.
  (* what the first scan leaves alone *)
  assert (Hlog : forall a, aligned 8 a -> lo + n1 <= a -> ld m1 a = ld m a).
  { intros a Haa Hge. rewrite H1 by done. rewrite (proj2 (in_range_false a lo n1)) by lia.
    rewrite merged_none by (intros b Hb; apply Ha in Hb; lia).
    by rewrite in_lines_high by lia. }
  rewrite H2 by done.
  destruct (in_range o (lo + n1) n2) eqn:E2.
  { apply in_range_true in E2. by rewrite (proj2 (in_range_true o lo (n1 + n2))) by lia. }
  apply in_range_false in E2.
  destruct (in_range o lo (n1 + n2)) eqn:E.
  { apply in_range_true in E.
    rewrite merged_none by (intros b (b0 & Hb & ->)%fmap_Some; apply Ha in Hb; lia).
    rewrite in_lines_high, H1 by (done || lia).
    by rewrite (proj2 (in_range_true o lo n1)) by lia. }
  apply in_range_false in E.
  destruct (decide (is_Some (merged m lo ol (n1 + n2) o))) as [[v Hv]|Hnone].
  - rewrite Hv. unfold merged in Hv. destruct ol as [b|]; [|done]. cbn in Hv.
    destruct (in_range o b (n1 + n2)) eqn:Eb; [|done]. apply in_range_true in Eb.
    injection Hv as <-. specialize (Ha b eq_refl) as (Hba & Hb0 & Hb1 & Hb2 & Hb3).
    cbn [fmap option_fmap option_map].
    destruct (Z.lt_ge_cases o (b + n1)).
    + rewrite merged_none by (intros b' [= <-]; lia).
      rewrite (in_lines_out _ _ _ _ He2), H1 by (done || lia).
      rewrite (proj2 (in_range_false o lo n1)), merged_some by lia. done.
    + rewrite merged_some by lia. replace (lo + n1 + (o - (b + n1))) with (lo + (o - b)) by lia.
      rewrite Hlog by (lia || align). f_equal. rewrite H1 by done.
      rewrite (proj2 (in_range_false o lo n1)) by lia.
      rewrite merged_none by (intros b' [= <-]; lia).
      by rewrite (in_lines_out _ _ _ _ He1) by lia.
  - apply eq_None_not_Some in Hnone as Hn. rewrite Hn.
    assert (Hout : forall b, ol = Some b -> ~ (b <= o < b + (n1 + n2))).
    { intros b -> Hin. apply Hnone. rewrite merged_some by done. eauto. }
    rewrite merged_none by (intros b (b0 & Hb & ->)%fmap_Some; apply Hout in Hb; lia).
    rewrite in_lines_app. destruct (in_lines e2 o) eqn:El2.
    + rewrite orb_true_r. apply (in_lines_in _ _ _ _ He2) in El2.
      rewrite H1 by (rewrite Hsz; align). rewrite (proj2 (in_range_false _ lo n1)) by lia.
      rewrite merged_none by (intros b Hb; apply Ha in Hb; lia).
      by rewrite in_lines_high by lia.
    + rewrite orb_false_r, H1 by done. rewrite (proj2 (in_range_false o lo n1)) by lia.
      by rewrite merged_none by (intros b Hb; apply Hout in Hb; lia).
Qed.

(** ** The world during a scan *)

Section with_dpdk.
Context `{D : Dpdk}.

(** This thread's sync list, and the world with another memory and list. *)
Definition my_list (w : world) : tasvir_sync_list :=
  td_sync_list (nd_td (w_nd w) (tl_tdata (w_tl w))).
Definition with_sync (w : world) (m : gmap Z Z) (l : tasvir_sync_list) : world :=
  w <| w_mem := m |>
    <| w_nd := nd_set_td (tl_tdata (w_tl w))
                 ((nd_td (w_nd w) (tl_tdata (w_tl w))) <| td_sync_list := l |>) (w_nd w) |>.

(** The thread has a slot in the thread table. *)
Definition has_tdata (w : world) : Prop :=
  (Z.to_nat (tl_tdata (w_tl w)) < length (nd_tdata (w_nd w)))%nat.

Lemma nd_td_set nd i t :
  (Z.to_nat i < length (nd_tdata nd))%nat -> nd_td (nd_set_td i t nd) i = t.
Proof.
  intros Hi. unfold nd_td, nd_set_td. cbn. by rewrite list_lookup_insert_eq.
Qed.

Lemma my_list_with w m l : has_tdata w -> my_list (with_sync w m l) = l.
Proof. intros Hi. unfold my_list, with_sync. cbn. by rewrite nd_td_set. Qed.

Lemma with_with w m l m' l' :
  has_tdata w -> with_sync (with_sync w m l) m' l' = with_sync w m' l'.
Proof.
  intros Hi. unfold with_sync. cbn. rewrite nd_td_set by done. cbn.
  unfold nd_set_td. cbn. by rewrite list_insert_insert_eq.
Qed.

Lemma nd_set_td_id nd i :
  (Z.to_nat i < length (nd_tdata nd))%nat -> nd_set_td i (nd_td nd i) nd = nd.
Proof.
  intros Hi. unfold nd_set_td, nd_td. destruct (lookup_lt_is_Some_2 _ _ Hi) as [t Ht].
  rewrite Ht. cbn. rewrite list_insert_id by done. by destruct nd.
Qed.

Lemma with_self w : has_tdata w -> with_sync w (w_mem w) (my_list w) = w.
Proof.
  intros Hi. unfold with_sync, my_list.
  assert (forall t : tasvir_local_tdata, t <| td_sync_list := td_sync_list t |> = t) as ->
    by (by intros []).
  rewrite nd_set_td_id by done. by destruct w.
Qed.

Lemma with_has w m l : has_tdata w -> has_tdata (with_sync w m l).
Proof. unfold has_tdata, with_sync, nd_set_td. cbn. by rewrite length_insert. Qed.

Lemma on_list_with {A} (c : cmd tasvir_sync_list A) w m l :
  has_tdata w ->
  on_sync_list c (with_sync w m l) =
  match c l with Done (a, l') => Done (a, with_sync w m l') | Fault f => Fault f end.
Proof.
  intros Hi. unfold on_sync_list.
  change (td_sync_list (nd_td (w_nd (with_sync w m l)) (tl_tdata (w_tl (with_sync w m l)))))
    with (my_list (with_sync w m l)).
  rewrite my_list_with by done. destruct (c l) as [[a l']|]; [|done].
  do 2 f_equal. rewrite <- (with_with w m l m l') by done. done.
Qed.

Lemma tdata_with {A} (f : tasvir_local_tdata -> A) (g : tasvir_sync_list -> A) w m l :
  has_tdata w -> (forall t, f t = g (td_sync_list t)) ->
  tdata f (with_sync w m l) = Done (g l, with_sync w m l).
Proof.
  intros Hi Hf. unfold tdata, gets. rewrite Hf. do 2 f_equal. f_equal.
  by apply my_list_with.
Qed.

(** ** Consuming the list *)

Lemma process_change_runs fuel d reset cnt i w m l it :
  has_tdata w -> default item_zero (sl_l l !! i) = it -> item_in 0 nr_lines it ->
  0 <= sl_changed l -> sl_changed l + 64 * si_len_scaled it < 2 ^ 31 ->
  exists m',
    process_change fuel d reset false cnt i (with_sync w m l)
    = Done (tt, with_sync w m' (l <| sl_changed := sl_changed l + 64 * si_len_scaled it |>)) /\
    copied m m' [it].
Proof.
  intros Hi Hit (Ho & Hl & Hx) Hc Hb. change nr_lines with 17179869184 in Hx.
  unfold process_change, mbind, cmd_bind.
  rewrite (tdata_with _ (fun l => l)) by done. rewrite Hit.
  set (o := si_offset_scaled it) in *. set (n := si_len_scaled it) in *.
  assert (shl64 o TASVIR_SHIFT_BIT = 64 * o) as ->.
  { change TASVIR_SHIFT_BIT with 6. unfold shl64. rewrite Z.shiftl_mul_pow2 by lia.
    rewrite u64_small; lia. }
  assert (u32 (Z.shiftl n TASVIR_SHIFT_BIT) = 64 * n) as ->.
  { change TASVIR_SHIFT_BIT with 6. rewrite Z.shiftl_mul_pow2 by lia. rewrite u32_small; lia. }
  unfold ttld, gets. rewrite andb_false_r.
  destruct (store_vec_rep_runs (with_sync w m l) (TASVIR_ADDR_DATA_RO + 64 * o)
              (TASVIR_ADDR_DATA_RW + 64 * o) (64 * o) (TASVIR_SIZE_DATA + 64 * o) n)
    as (m' & E & C).
  { lia. }
  { defs. lia. }
  { defs. lia. }
  { apply spans_ro; defs; lia. }
  { apply spans_rw; defs; lia. }
  { align. }
  { defs. align. }
  { defs. lia. }
  rewrite E. exists m'.
  assert ((with_sync w m l) <| w_mem := m' |> = with_sync w m' l) as -> by done.
  rewrite on_list_with by done. cbn. rewrite i32_small by lia. split; [done|].
  intros a Ha. rewrite C by done. change (w_mem (with_sync w m l)) with m.
  assert (in_range a (64 * o) (64 * n) = in_lines [it] a) as ->; [|destruct (in_lines [it] a); [f_equal; lia|done]].
  apply eq_true_iff_eq. unfold in_lines. rewrite andb_true_iff, !in_range_true, bool_decide_eq_true.
  unfold covers. rewrite Exists_cons, Exists_nil. unfold item_has. fold o n.
  pose proof (Z.div_mod a 64 ltac:(lia)). pose proof (Z.mod_pos_bound a 64 ltac:(lia)).
  defs. split.
  - intros Hr. split; [lia|]. left. split; [apply Z.div_le_lower_bound; lia|apply Z.div_lt_upper_bound; lia].
  - intros [? [?|[]]]. lia.
Qed.

Lemma process_loop_runs fuel d reset cnt w s n m l :
  has_tdata w ->
  let its := (fun i => default item_zero (sl_l l !! i)) <$> seqZ s n in
  Forall (item_in 0 nr_lines) its ->
  0 <= sl_changed l -> sl_changed l + 64 * item_sum its < 2 ^ 31 ->
  exists m',
    for_each (seqZ s n) (process_change fuel d reset false cnt) (with_sync w m l)
    = Done (tt, with_sync w m' (l <| sl_changed := sl_changed l + 64 * item_sum its |>)) /\
    copied m m' its.
Proof.
  intros Hi. destruct (Z.lt_ge_cases n 0) as [Hn|Hn].
  { rewrite seqZ_nil by lia. intros its _ _ _. exists m. split; [|apply copied_nil].
    cbn. rewrite Z.add_0_r. by destruct l. }
  revert s m l. pattern n. apply natlike_ind; [| |done].
  - intros s m l its _ _ _. exists m. split; [|apply copied_nil].
    cbn. rewrite Z.add_0_r. by destruct l.
  - clear n Hn. intros n Hn IH s m l. rewrite seqZ_cons by lia. rewrite Z.pred_succ.
    cbn [fmap list_fmap for_each]. intros Hall Hc Hb.
    apply Forall_cons_1 in Hall as [Hit Hits]. rewrite item_sum_cons in Hb.
    set (it := default item_zero (sl_l l !! s)) in *.
    pose proof (item_sum_nonneg _ _ _ Hits) as Hnn.
    destruct (process_change_runs fuel d reset cnt s w m l it) as (m1 & E1 & C1); try done; [lia|].
    unfold mbind, cmd_bind. rewrite E1.
    set (l1 := l <| sl_changed := _ |>).
    assert (Hitem : 0 < si_len_scaled it) by (unfold item_in in Hit; lia).
    destruct (IH (Z.succ s) m1 l1) as (m2 & E2 & C2); [done|cbn; lia|cbn; lia|].
    exists m2. rewrite E2. split; [|exact (copied_app _ _ _ [it] _ C1 C2)].
    rewrite item_sum_cons, Z.mul_add_distr_l, Z.add_assoc. done.
Qed.

(** [tasvir_sync_process_changes] of an internal synchronization: every
    item's lines are copied, the list is emptied and the byte count grows by
    64 per line. *)
Lemma process_changes_runs fuel d (reset : bool) w m l :
  has_tdata w -> Forall (item_in 0 nr_lines) (items l) ->
  0 <= sl_changed l -> sl_changed l + 64 * item_sum (items l) < 2 ^ 31 ->
  let n := sl_changed l + 64 * item_sum (items l) in
  exists m',
    tasvir_sync_process_changes fuel d reset false (with_sync w m l)
    = Done (n, with_sync w m' (l <| sl_changed := if reset then 0 else n |> <| sl_cnt := 0 |>)) /\
    copied m m' (items l).
Proof.
  intros Hi Hits Hc Hb n. unfold tasvir_sync_process_changes, mbind, cmd_bind.
  rewrite (tdata_with _ sl_cnt) by done.
  destruct (process_loop_runs fuel d reset (sl_cnt l) w 0 (sl_cnt l) m l Hi Hits Hc Hb)
    as (m' & E & C).
  exists m'. split; [|exact C]. rewrite E. fold (items l). fold n.
  rewrite on_list_with by done. cbn [modify].
  pose proof (item_sum_nonneg _ _ _ Hits) as Hnn.
  rewrite (tdata_with _ sl_changed) by done.
  destruct reset; unfold when; [rewrite on_list_with by done|]; cbn;
    rewrite u64_small by (unfold n in *; lia); done.
Qed.

(** ** One group of the log *)

Lemma walks_false n k :
  walks (replicate n false) k = (k <| wk_lbits0 := wk_lbits0 k + Z.of_nat n |>, []).
Proof.
  revert k. induction n as [|n IH]; intros k.
  - cbn. rewrite Z.add_0_r. by destruct k.
  - cbn [replicate walks walk1 andb]. rewrite IH. cbn -[Z.of_nat].
    rewrite Nat2Z.inj_succ, <- Z.add_1_l, Z.add_assoc. done.
Qed.

Lemma group_bits_all_zero vals :
  length vals = 8%nat -> test_mask 0 vals = 0 -> group_bits vals = replicate 512 false.
Proof.
  intros Hl H%test_mask_zero.
  assert (vals = replicate 8 0 ++ []) as ->; [|by rewrite group_bits_zeros].
  rewrite app_nil_r. symmetry. apply replicate_as_Forall_2; [done|].
  eapply List.Forall_impl; [|exact H]. by intros v ->.
Qed.

(** The addresses of a group of log units and of its place in the first
    difference log ([log_internal], NULL when [ol] is [None]). *)
Definition group_at (maps : list vmap) (log log_internal li lo : Z) (ol : option Z) : Prop :=
  spans maps (log + 8 * li) lo 64 /\ aligned 8 lo /\ 2 * TASVIR_SIZE_DATA <= lo /\
  match ol with
  | None => log_internal = 0
  | Some b => log_internal <> 0 /\ spans maps (log_internal + 8 * li) b 64
  end.

(** A group without set bits is unchanged by a scan. *)
Lemma scanned_zero m lo ol :
  aligned 8 lo -> (forall b, ol = Some b -> aligned 8 b) ->
  test_mask 0 (words m lo 8) = 0 -> scanned m m lo ol 64 [].
Proof.
  intros Hlo Hb Hz o Ho. apply test_mask_zero in Hz.
  assert (Hw : forall a, aligned 8 a -> lo <= a < lo + 64 -> ld m a = 0).
  { intros a Ha Hr. apply aligned_exists in Ha as [q ->]; [|lia].
    apply aligned_exists in Hlo as [p ->]; [|lia].
    assert (Hlt : (Z.to_nat (q - p) < 8)%nat) by lia.
    pose proof (words_lookup m (8 * p) 8 _ Hlt) as Hlk.
    eapply Forall_lookup_1 in Hlk; [|exact Hz]. cbn in Hlk. rewrite <- Hlk. f_equal. lia. }
  destruct (in_range o lo 64) eqn:E; [apply in_range_true in E; auto|].
  apply in_range_false in E. unfold merged. destruct ol as [b|]; cbn.
  - destruct (in_range o b 64) eqn:Eb; [|by rewrite <- (copied_nil m o Ho)].
    apply in_range_true in Eb. specialize (Hb b eq_refl). rewrite (Hw (lo + (o - b))) by (lia || align).
    by rewrite Z.lor_0_l.
  - by rewrite <- (copied_nil m o Ho).
Qed.

(** The stores of a group with set bits: merge, then clear. *)
Lemma scanned_stores m lo ol x0 x1 :
  aligned 8 lo -> 2 * TASVIR_SIZE_DATA <= lo -> apart ol 64 x0 x1 ->
  scanned m (write_words
    (match ol with
     | Some b => write_words m b (zip_with Z.lor (words m lo 8) (words m b 8))
     | None => m end) lo (replicate 8 0)) lo ol 64 [].
Proof.
  intros Hlo Hge Ha o Ho. rewrite ld_write_replicate by done.
  change (8 * Z.of_nat 8) with 64. destruct (in_range o lo 64) eqn:E; [done|].
  apply in_range_false in E. destruct ol as [b|]; cbn [merged mbind option_bind].
  2: { by rewrite <- (copied_nil m o Ho). }
  specialize (Ha b eq_refl) as (Hba & _). rewrite ld_write_words by done.
  rewrite length_zip_with, !length_words. change (8 * Z.of_nat (8 `min` 8)) with 64.
  unfold merged. cbn.
  destruct (in_range o b 64) eqn:Eb; [|by rewrite <- (copied_nil m o Ho)].
  apply in_range_true in Eb. apply aligned_exists in Ho as [q ->]; [|lia].
  apply aligned_exists in Hba as [p ->]; [|lia].
  replace (8 * q - 8 * p) with ((q - p) * 8) by lia. rewrite Z.div_mul by lia.
  apply list_lookup_total_correct. rewrite lookup_zip_with.
  rewrite !words_lookup by lia. cbn. do 3 f_equal; lia.
Qed.

(** The group's units are merged into the difference log, if there is one. *)
Definition merge_units (m : gmap Z Z) (ol : option Z) (vals : list Z) : gmap Z Z :=
  match ol with Some b => write_words m b (zip_with Z.lor vals (words m b 8)) | None => m end.

Lemma merge_runs log log_internal li lo ol n x0 x1 w m l :
  group_at (w_maps w) log log_internal li lo ol -> apart ol n x0 x1 ->
  runs (when (negb (log_internal =? 0) && (0 <? 2))
      (vs ← load_words 8 (log_internal + 8 * li); store_words (log_internal + 8 * li) (zip_with Z.lor (words m lo 8) vs)))
    (with_sync w m l) tt (with_sync w (merge_units m ol (words m lo 8)) l).
Proof.
  intros (_ & _ & _ & Hol) Ha. unfold runs. destruct ol as [b|]; [|by rewrite Hol].
  destruct Hol as [Hn0 Hsb]. specialize (Ha b eq_refl) as (Hba & _). rewrite (proj2 (Z.eqb_neq _ _) Hn0). cbn [negb andb when].
  change (0 <? 2) with true. cbn [when]. unfold mbind, cmd_bind. rewrite (load_words_runs (with_sync w m l) _ b 8 Hsb Hba).
  by rewrite (store_words_runs (with_sync w m l) _ b) by (done || by rewrite length_zip_with, !length_words).
Qed.

(** The scan of one group: the walk over its bits, with the list consumed
    when it is half full. [e] is what was copied on the way. *)
Lemma parse_group_runs fuel d h log log_internal li lo ol x0 x1 w k m l :
  has_tdata w -> group_at (w_maps w) log log_internal li lo ol ->
  apart ol 64 x0 x1 -> 0 <= x0 -> x1 <= nr_lines ->
  group_ok (words m lo 8) ->
  walker_ok 512 k -> wk_lbits1 k + 512 < 2 ^ 26 ->
  x0 <= wk_offset_scaled k -> walk_pos k + 512 <= x1 ->
  0 <= sl_cnt l < 256 -> Forall (item_in x0 x1) (items l) ->
  0 <= sl_changed l -> sl_changed l + 64 * (item_sum (items l) + wk_lbits1 k + 512) < 2 ^ 31 ->
  let bs := group_bits (words m lo 8) in
  exists m' l' e,
    parse_group fuel d h log log_internal 0 false k li (with_sync w m l)
    = Done ((walks bs k).1, with_sync w m' l') /\
    scanned m m' lo ol 64 e /\ items l ++ (walks bs k).2 = e ++ items l' /\
    sl_changed l' = sl_changed l + 64 * item_sum e /\ 0 <= sl_cnt l' < 256 /\
    Forall (item_in x0 x1) e /\ Forall (item_in x0 x1) (items l') /\
    x0 <= wk_offset_scaled (walks bs k).1.
Proof.
  intros Hi (Hs & Hlo & Hge & Hol) Ha Hx0 Hx1 Hg Hk H26 Hko Hkp Hc Hits Hch Hchb bs.
  assert (Hbs : length bs = 512%nat).
  { unfold bs. rewrite group_bits_length, length_words. done. }
  destruct (walks_items bs k x0 x1) as [He Ho']; try (rewrite ?Hbs; done).
  { rewrite walks_pos, Hbs. lia. }
  unfold parse_group, mbind, cmd_bind.
  rewrite (load_words_runs (with_sync w m l) _ lo 8 Hs Hlo).
  change (w_mem (with_sync w m l)) with m. cbn [parse_pivot foldl seqZ Z.to_nat Z.sub Z.opp Z.add Z.pos_sub fmap].
  unfold parse_pivot. rewrite seqZ_nil by lia. cbn [foldl]. unfold mret at 1, cmd_ret at 1.
  set (vals := words m lo 8) in *.
  destruct (Z.eqb_spec (test_mask 0 vals) 0) as [Hz|Hnz].
  - (* nothing logged *)
    assert (Hw : walks bs k = (k <| wk_lbits0 := wk_lbits0 k + 512 |>, [])).
    { unfold bs. rewrite (group_bits_all_zero _ (proj1 Hg) Hz). apply (walks_false 512). }
    rewrite Hw in *. exists m, l, []. cbn [fst snd] in *.
    split. { unfold walker_add. defs. rewrite u64_small by (unfold walker_ok in *; lia). done. }
    split. { apply scanned_zero; [done| |done]. intros b Hb. by destruct (Ha b Hb). }
    rewrite app_nil_r. split_and!; try done; try (cbn; lia); constructor.
  - (* merge, clear, walk, consume *)
    pose proof (merge_runs log log_internal li lo ol 64 x0 x1 w m l ltac:(by split_and!) Ha) as Estore. fold vals in Estore.
    set (m1 := merge_units m ol vals) in *. set (m2 := write_words m1 lo (replicate 8 0)).
    assert (Hm2 : scanned m m2 lo ol 64 []) by (eapply scanned_stores; done).
    unfold runs, mbind, cmd_bind in Estore. rewrite Estore.
    rewrite (store_words_runs (with_sync w m1 l) _ lo) by done.
    assert ((with_sync w m1 l) <| w_mem := write_words (w_mem (with_sync w m1 l)) lo (replicate 8 0) |>
            = with_sync w m2 l) as -> by done.
    rewrite on_list_with by done.
    destruct (parse_units_runs vals k l Hg Hk ltac:(lia) Hc) as (l1 & E1 & Hch1 & Hc1 & Hi1).
    rewrite E1. fold bs in Hi1 |- *.
    assert (Hall : Forall (item_in x0 x1) (items l1)) by (rewrite Hi1; by apply Forall_app).
    rewrite (tdata_with _ sl_cnt) by done. defs. change (512 / 2) with 256.
    destruct (Z.leb_spec 256 (sl_cnt l1)); cbn [when].
    + destruct (walks_sum bs k) as [Hsum _]; [rewrite Hbs; done|rewrite Hbs; lia|].
      pose proof (popcount_range bs) as Hpop. rewrite Hbs in Hpop.
      assert (Hb1 : item_sum (items l1) <= item_sum (items l) + wk_lbits1 k + 512).
      { rewrite Hi1, item_sum_app.
        pose proof (walks_ok 0 bs k ltac:(lia) ltac:(rewrite Hbs; done)) as (_ & ? & _). lia. }
      destruct (process_changes_runs fuel d false w m2 l1) as (m3 & E3 & C3); [done| |lia|lia|].
      { eapply List.Forall_impl; [|exact Hall]. unfold item_in. intros it ?. lia. }
      unfold mbind, cmd_bind. rewrite E3. eexists m3, _, (items l1).
      split; [done|]. split.
      { change (items l1) with ([] ++ items l1). change 64 with (64 + 0).
        eapply scanned_app; [exact Hm2|apply copied_scanned; exact C3|exact Ha|constructor|done..]; lia. }
      cbn. rewrite <- Hi1, app_nil_r. split_and!; try done; try lia.
    + exists m2, l1, []. split; [done|]. split; [done|]. cbn [app]. rewrite <- Hi1.
      split_and!; try done; try (cbn; lia); constructor.
Qed.

(** ** All groups of a stretch *)

Lemma words_app m o n1 n2 :
  words m o (n1 + n2) = words m o n1 ++ words m (o + 8 * Z.of_nat n1) n2.
Proof.
  revert o. induction n1 as [|n1 IH]; intros o.
  - cbn [Nat.add app]. by rewrite Z.add_0_r.
  - cbn [Nat.add]. rewrite !words_S, IH. cbn [app]. do 3 f_equal. lia.
Qed.

Lemma group_bits_app vs1 vs2 : group_bits (vs1 ++ vs2) = group_bits vs1 ++ group_bits vs2.
Proof.
  induction vs1 as [|v vs1 IH]; [done|]. cbn [app]. by rewrite !group_bits_cons, IH, app_assoc.
Qed.

Lemma words_ext m m' o n :
  (forall i, 0 <= i < Z.of_nat n -> ld m' (o + 8 * i) = ld m (o + 8 * i)) ->
  words m' o n = words m o n.
Proof.
  intros H. unfold words. apply list_fmap_ext. intros i x [-> Hi]%lookup_seqZ. apply H. lia.
Qed.

(** A scan leaves the log behind it alone. *)
Lemma scanned_words m m' lo ol n e n' x0 x1 :
  scanned m m' lo ol n e -> apart ol n x0 x1 -> aligned 8 lo -> aligned 8 n ->
  2 * TASVIR_SIZE_DATA <= lo -> 0 <= n ->
  words m' (lo + n) n' = words m (lo + n) n'.
Proof.
  intros H Ha Hlo Hn Hge Hn0. apply words_ext. intros i Hi.
  assert (TASVIR_SIZE_DATA = 1099511627776) by done.
  rewrite H by align. rewrite (proj2 (in_range_false _ lo n)) by lia.
  rewrite merged_none by (intros b Hb; apply Ha in Hb; lia). by rewrite in_lines_high by lia.
Qed.

Lemma apart_le ol n n' x0 x1 : apart ol n x0 x1 -> n' <= n -> apart ol n' x0 x1.
Proof. intros Ha Hle b Hb. apply Ha in Hb as (? & ?). split; [done|lia]. Qed.

Lemma apart_sub ol n k n' x0 x1 :
  apart ol n x0 x1 -> 0 <= k -> 0 <= n' -> aligned 8 k -> k + n' <= n ->
  apart ((fun b => b + k) <$> ol) n' x0 x1.
Proof.
  intros Ha Hk Hn' Hak Hle b (b0 & Hb & ->)%fmap_Some.
  apply Ha in Hb as (? & ? & ? & ? & ?). split; [align|]. lia.
Qed.

(** The stretch of [n] groups from log unit [u] on. *)
Definition stretch_at (maps : list vmap) (log log_internal u lo : Z) (ol : option Z) (n : nat) : Prop :=
  spans maps (log + 8 * u) lo (64 * Z.of_nat n) /\ aligned 8 lo /\ 2 * TASVIR_SIZE_DATA <= lo /\
  match ol with
  | None => log_internal = 0
  | Some b => log_internal <> 0 /\ spans maps (log_internal + 8 * u) b (64 * Z.of_nat n)
  end.

Lemma stretch_at_S maps log log_internal u lo ol n :
  stretch_at maps log log_internal u lo ol (S n) ->
  group_at maps log log_internal u lo ol /\
  stretch_at maps log log_internal (u + 8) (lo + 64) ((fun b => b + 64) <$> ol) n.
Proof.
  intros (Hs & Hlo & Hge & Hol). split.
  - repeat split; try done.
    + intros i Hi. apply Hs. lia.
    + destruct ol as [b|]; [|done]. destruct Hol as [H0 Hsb]. split; [done|].
      intros i Hi. apply Hsb. lia.
  - assert (Hsh : forall a o, spans maps (a + 8 * u) o (64 * Z.of_nat (S n)) ->
      spans maps (a + 8 * (u + 8)) (o + 64) (64 * Z.of_nat n)).
    { intros a o H. replace (a + 8 * (u + 8)) with (a + 8 * u + 64) by lia.
      apply (spans_sub _ _ _ _ 64 _ H); lia. }
    split; [by apply Hsh|]. split; [align|]. split; [lia|].
    destruct ol as [b|]; [|done]. destruct Hol as [H0 Hsb]. split; [done|]. by apply Hsh.
Qed.

Lemma seqZ_groups u n :
  ((fun g => u + 8 * g) <$> seqZ 0 (Z.of_nat (S n)))
  = u :: ((fun g => u + 8 + 8 * g) <$> seqZ 0 (Z.of_nat n)).
Proof.
  rewrite seqZ_cons by lia. cbn [fmap list_fmap]. f_equal; [lia|].
  replace (Z.pred (Z.of_nat (S n))) with (Z.of_nat n) by lia.
  change (Z.succ 0) with (1 + 0). rewrite <- fmap_add_seqZ, <- list_fmap_compose.
  apply list_fmap_ext. intros i x _. cbn. lia.
Qed.

Lemma parse_groups_runs fuel d h log log_internal x0 x1 w :
  has_tdata w -> 0 <= x0 -> x1 <= nr_lines ->
  forall n u lo ol k m l,
  stretch_at (w_maps w) log log_internal u lo ol n ->
  apart ol (64 * Z.of_nat n) x0 x1 ->
  Forall (fun v => 0 <= v < 2 ^ 64) (words m lo (8 * n)) ->
  walker_ok (512 * Z.of_nat n) k -> wk_lbits1 k + 512 * Z.of_nat n < 2 ^ 26 ->
  x0 <= wk_offset_scaled k -> walk_pos k + 512 * Z.of_nat n <= x1 ->
  0 <= sl_cnt l < 256 -> Forall (item_in x0 x1) (items l) -> 0 <= sl_changed l ->
  sl_changed l + 64 * (item_sum (items l) + wk_lbits1 k + 512 * Z.of_nat n) < 2 ^ 31 ->
  let bs := group_bits (words m lo (8 * n)) in
  exists m' l' e,
    parse_groups fuel d h log log_internal 0 false k
      ((fun g => u + 8 * g) <$> seqZ 0 (Z.of_nat n)) (with_sync w m l)
    = Done ((walks bs k).1, with_sync w m' l') /\
    scanned m m' lo ol (64 * Z.of_nat n) e /\ items l ++ (walks bs k).2 = e ++ items l' /\
    sl_changed l' = sl_changed l + 64 * item_sum e /\ 0 <= sl_cnt l' < 256 /\
    Forall (item_in x0 x1) e /\ Forall (item_in x0 x1) (items l') /\
    x0 <= wk_offset_scaled (walks bs k).1.
Proof.
  intros Hi Hx0 Hx1 n. induction n as [|n IH];
    intros u lo ol k m l Hst Ha Hws Hk H26 Hko Hkp Hc Hits Hch Hchb bs.
  - exists m, l, []. cbn. rewrite app_nil_r.
    split_and!; try done; try lia; try constructor. apply copied_scanned, copied_nil.
  - pose proof Hst as (_ & Hlo & Hge & _). apply stretch_at_S in Hst as [Hgr Hst].
    unfold bs. clear bs. replace (8 * S n)%nat with (8 + 8 * n)%nat in * by lia.
    rewrite words_app in *. change (8 * Z.of_nat 8) with 64 in *.
    rewrite group_bits_app, walks_app. apply Forall_app in Hws as [Hws1 Hws2].
    set (bs1 := group_bits (words m lo 8)). set (bs2 := group_bits (words m (lo + 64) (8 * n))).
    assert (Hbs1 : length bs1 = 512%nat) by (unfold bs1; by rewrite group_bits_length, length_words).
    assert (Hg : group_ok (words m lo 8)) by (split; [apply length_words|done]).
    destruct (parse_group_runs fuel d h log log_internal u lo ol x0 x1 w k m l)
      as (m1 & l1 & e1 & E1 & S1 & I1 & C1 & N1 & F1 & G1 & O1); try done.
    { eapply apart_le; [exact Ha|lia]. }
    { unfold walker_ok in *. lia. }
    { lia. }
    { lia. }
    { lia. }
    fold bs1 in E1, I1, O1.
    rewrite seqZ_groups. cbn [parse_groups]. unfold mbind, cmd_bind. rewrite E1.
    pose proof (walks_pos bs1 k) as Hp1. rewrite Hbs1 in Hp1.
    pose proof (walks_ok (512 * Z.of_nat n) bs1 k ltac:(lia)) as Hk1. rewrite Hbs1 in Hk1.
    destruct (walks_sum bs1 k) as [Hsum _]; [rewrite Hbs1; unfold walker_ok in *; lia|rewrite Hbs1; lia|].
    pose proof (popcount_range bs1) as Hpop. rewrite Hbs1 in Hpop.
    pose proof (item_sum_nonneg _ _ _ G1) as Hnn1.
    destruct (walks bs1 k) as [k1 em1]. cbn [fst snd] in *.
    specialize (Hk1 ltac:(unfold walker_ok in *; lia)).
    assert (Hsum1 : item_sum e1 + item_sum (items l1) + wk_lbits1 k1
                    = item_sum (items l) + wk_lbits1 k + popcount bs1).
    { apply (f_equal item_sum) in I1. rewrite !item_sum_app in I1. lia. }
    pose proof (item_sum_nonneg _ _ _ F1) as Hnne. pose proof (item_sum_nonneg _ _ _ Hits) as Hnn0.
    assert (Hem1 : 0 <= item_sum em1).
    { assert (Forall (item_in x0 x1) (items l ++ em1)) as H by (rewrite I1; by apply Forall_app).
      apply Forall_app in H as [_ H]. by eapply item_sum_nonneg. }
    assert (Hw2 : words m1 (lo + 64) (8 * n) = words m (lo + 64) (8 * n)).
    { eapply scanned_words; [exact S1|eapply apart_le; [exact Ha|lia]|done|done|lia|lia]. }
    destruct (IH (u + 8) (lo + 64) ((fun b => b + 64) <$> ol) k1 m1 l1)
      as (m2 & l2 & e2 & E2 & S2 & I2 & C2 & N2 & F2 & G2 & O2); try eassumption; try lia.
    { eapply (apart_sub ol _ 64); [exact Ha|lia|lia|done|lia]. }
    { by rewrite Hw2. }
    rewrite Hw2 in E2, I2, O2. fold bs2 in E2, I2, O2. rewrite E2.
    destruct (walks bs2 k1) as [k2 em2]. cbn [fst snd] in *.
    exists m2, l2, (e1 ++ e2). split; [done|]. split.
    { replace (64 * Z.of_nat (S n)) with (64 + 64 * Z.of_nat n) in * by lia.
      eapply scanned_app; [exact S1|exact S2|exact Ha|done..| | | | | |]; done || lia. }
    split. { by rewrite app_assoc, I1, <- !app_assoc, I2. }
    rewrite item_sum_app. split_and!; try eassumption; try lia. by apply Forall_app.
Qed.

(** ** The whole routine *)

Lemma data2log_runs a :
  0 <= a < TASVIR_SIZE_DATA ->
  tasvir_data2log (TASVIR_ADDR_DATA + a) = TASVIR_ADDR_LOG + 8 * (a / 4096).
Proof.
  intros Ha. unfold tasvir_data2log.
  assert (pext_u64 (TASVIR_ADDR_DATA + a)
    (Z.land (TASVIR_SIZE_DATA - 1) (shl64 (2 ^ 64 - 1) TASVIR_SHIFT_UNIT)) = a / 4096) as ->.
  { change (TASVIR_SIZE_DATA - 1) with (2 ^ 40 - 1). change TASVIR_SHIFT_UNIT with 12.
    rewrite pext_field by lia. rewrite Z.shiftr_div_pow2 by lia. f_equal. defs.
    symmetry. apply (Z.mod_unique _ _ 1); lia. }
  assert (0 <= a / 4096 < 268435456).
  { defs. split; [apply Z.div_pos; lia|apply Z.div_lt_upper_bound; lia]. }
  apply u64_small. defs. lia.
Qed.

(** A stretch of the area of descriptor [d] that this thread can scan: [n]
    groups of log units from byte [offset] of the area on. [b] is the file
    offset of the matching stretch of the first difference log, [None] when
    the area is not owned by this node. *)
Record scannable (w : world) (d h offset : Z) (n : nat) (ol : option Z) : Prop := {
  sc_tdata : has_tdata w;
  sc_h : load (d + desc_h) w = Done (h, w);
  sc_base : TASVIR_ADDR_DATA <= h < TASVIR_ADDR_DATA + TASVIR_SIZE_DATA;
  sc_aligned : aligned 4096 (h - TASVIR_ADDR_DATA);
  sc_offset : 0 <= offset;
  sc_offset_aligned : aligned 4096 offset;
  sc_end : h - TASVIR_ADDR_DATA + offset + 32768 * Z.of_nat n <= TASVIR_SIZE_DATA;
  sc_short : 32768 * Z.of_nat n < 2 ^ 31;
  sc_local : exists flags, load (h + hdr_flags) w = Done (flags, w) /\
    match ol with
    | None => has_flag flags TASVIR_AREA_FLAG_LOCAL = false
    | Some b => has_flag flags TASVIR_AREA_FLAG_LOCAL = true /\
        exists p, load_diff_log h 0 log_data w = Done (p, w) /\ p <> 0 /\
          spans (w_maps w) (p + 8 * (offset / 4096)) b (64 * Z.of_nat n)
    end;
  sc_words : Forall (fun v => 0 <= v < 2 ^ 64)
    (words (w_mem w) (log_off ((h - TASVIR_ADDR_DATA + offset) / 4096)) (8 * n));
  sc_apart : let x0 := line_of (h + offset) in
    apart ol (64 * Z.of_nat n) x0 (x0 + 512 * Z.of_nat n);
  sc_cnt : sl_cnt (my_list w) = 0;
  sc_changed : sl_changed (my_list w) = 0;
}.

(** The log bits of the [512 n] lines from [x0] on. *)
Definition line_bits (m : gmap Z Z) (x0 : Z) (n : nat) : list bool :=
  logbit m <$> seqZ x0 (512 * Z.of_nat n).

Lemma line_bits_words m u n :
  line_bits m (64 * u) n = group_bits (words m (log_off u) (8 * n)).
Proof.
  apply list_eq. intros i. unfold line_bits. rewrite list_lookup_fmap.
  destruct (decide (Z.of_nat i < 512 * Z.of_nat n)) as [Hi|Hi].
  - rewrite lookup_seqZ_lt by lia. cbn [fmap option_fmap option_map].
    pose proof (group_bits_lookup (words m (log_off u) (8 * n)) (Z.of_nat i)) as H.
    rewrite length_words, Nat2Z.id in H. rewrite H by lia. f_equal. unfold logbit.
    replace (64 * u + Z.of_nat i) with (Z.of_nat i + u * 64) by lia.
    rewrite Z.div_add, Z.mod_add by lia. f_equal.
    pose proof (Z.div_pos (Z.of_nat i) 64). pose proof (Z.div_lt_upper_bound (Z.of_nat i) 64 (8 * Z.of_nat n)).
    symmetry. apply list_lookup_total_correct.
    rewrite words_lookup by lia. do 2 f_equal. unfold log_off. lia.
  - rewrite lookup_seqZ_ge by lia. cbn. symmetry. apply lookup_ge_None.
    rewrite group_bits_length, length_words. lia.
Qed.

(** The index arithmetic of a scannable stretch. *)
Lemma scannable_units w d h offset n ol :
  scannable w d h offset n ol ->
  let a := h - TASVIR_ADDR_DATA in
  let u := (a + offset) / 4096 in
  line_of (h + offset) = 64 * u /\ a / 4096 + offset / 4096 = u /\ 0 <= u /\
  64 * u + 512 * Z.of_nat n <= nr_lines.
Proof.
  intros [_ _ Hbase Hal Hoff Hoal Hend _ _ _ _ _ _] a u.
  apply aligned_exists in Hal as [qa Ea]; [|lia]. apply aligned_exists in Hoal as [qo Eo]; [|lia].
  assert (Hu : u = qa + qo).
  { unfold u, a. rewrite Ea, Eo, <- Z.mul_add_distr_l, Z.mul_comm. apply Z.div_mul. lia. }
  change nr_lines with 17179869184. unfold line_of.
  replace (h + offset - TASVIR_ADDR_DATA) with (64 * (qa + qo) * 64) by lia.
  rewrite Z.div_mul by lia. unfold a. rewrite Ea, Eo, !(Z.mul_comm 4096), !Z.div_mul by lia.
  defs. lia.
Qed.

(** [log_internal] of a scannable stretch. *)
Definition log_internal_of (w : world) (h : Z) (ol : option Z) : Z :=
  match ol with
  | None => 0
  | Some _ => match load_diff_log h 0 log_data w with Done (p, _) => p | Fault _ => 0 end
  end.

Lemma scannable_stretch w d h offset n ol :
  scannable w d h offset n ol ->
  let a := h - TASVIR_ADDR_DATA in
  stretch_at (w_maps w) (TASVIR_ADDR_LOG + 8 * (a / 4096)) (log_internal_of w h ol)
    (offset / 4096) (log_off ((a + offset) / 4096)) ol n.
Proof.
  intros Hsc a. destruct (scannable_units _ _ _ _ _ _ Hsc) as (_ & Hu & Hu0 & Hx1). fold a in Hu, Hu0, Hx1.
  destruct Hsc as [_ _ _ _ _ _ _ _ Hloc _ _ _ _].
  set (u := (a + offset) / 4096) in *. change nr_lines with 17179869184 in Hx1. split.
  - replace (TASVIR_ADDR_LOG + 8 * (a / 4096) + 8 * (offset / 4096))
      with (TASVIR_ADDR_LOG + 8 * u) by lia.
    apply spans_log; [lia|]. defs. lia.
  - split; [apply aligned_log_off|]. split; [unfold log_off; lia|].
    destruct ol as [b|]; [|done]. destruct Hloc as (f & _ & _ & p & Ep & Hp0 & Hsp).
    cbn. by rewrite Ep.
Qed.

(** The internal scan is the scan of its groups and the last run. *)
Lemma parse_log_unfold fuel w d h offset len n ol :
  scannable w d h offset n ol -> (len / 4096 + 7) / 8 = Z.of_nat n ->
  let a := h - TASVIR_ADDR_DATA in
  tasvir_sync_parse_log fuel d offset len 0 w =
  (k ← parse_groups fuel d h (TASVIR_ADDR_LOG + 8 * (a / 4096)) (log_internal_of w h ol) 0 false
         (mk_walker 0 0 (line_of (h + offset)) 0)
         ((fun g => offset / 4096 + 8 * g) <$> seqZ 0 (Z.of_nat n));
   k ← parse_last k; mret (shl64 (wk_total k) TASVIR_SHIFT_BIT)) w.
Proof.
  intros [_ Hh Hbase _ Hoff Hoal Hend _ Hloc _ _ _ _] Hn a.
  unfold tasvir_sync_parse_log, mbind, cmd_bind.
  assert ((offset mod Z.shiftl 1 TASVIR_SHIFT_UNIT =? 0) = true) as -> by (by apply Z.eqb_eq).
  unfold assert_w, ttld, gets, mbind, cmd_bind, mret, cmd_ret. cbv beta iota zeta.
  change (negb (0 =? 0)) with false. change (negb true) with false.
  rewrite !andb_false_r. cbn [andb when].
  assert ((if tl_daemon (w_tl w) then 0 else 0) = 0) as -> by (by destruct (tl_daemon (w_tl w))).
  unfold mret, cmd_ret. cbv beta iota. rewrite Hh.
  assert (tasvir_data2log h = TASVIR_ADDR_LOG + 8 * (a / 4096)) as ->.
  { replace h with (TASVIR_ADDR_DATA + a) at 1 by (unfold a; lia). apply data2log_runs.
    unfold a. defs. lia. }
  assert (Eloc : exists f, tasvir_area_is_local d w = Done (f, w) /\
    (if (f : bool) then load_diff_log h 0 log_data else fun w0 => Done (0, w0)) w
    = Done (log_internal_of w h ol, w)).
  { unfold tasvir_area_is_local, mbind, cmd_bind. rewrite Hh.
    assert ((h =? 0) = false) as -> by (apply Z.eqb_neq; defs; lia).
    destruct Hloc as (f & Ef & Hol). rewrite Ef. eexists. split; [reflexivity|].
    destruct ol as [b|]; cbn.
    - destruct Hol as (-> & p & Ep & _). by rewrite Ep.
    - by rewrite Hol. }
  destruct Eloc as (f & -> & ->).
  assert (Z.shiftr (u64 (h + offset - TASVIR_ADDR_DATA)) TASVIR_SHIFT_BIT = line_of (h + offset)) as ->.
  { rewrite u64_small by (defs; lia). change TASVIR_SHIFT_BIT with 6.
    by rewrite Z.shiftr_div_pow2 by lia. }
  change TASVIR_SHIFT_UNIT with 12. rewrite !Z.shiftr_div_pow2 by lia. change (2 ^ 12) with 4096.
  rewrite Hn. destruct (parse_groups _ _ _ _ _ _ _ _ _ _) as [[k w1]|]; [|done].
  by destruct (parse_last k w1) as [[k' w2]|].
Qed.

(** The lines of the runs found in the bits of a stretch. *)
Lemma walks_lines m x0 n :
  let bits := line_bits m x0 n in
  let r := walks bits (mk_walker 0 0 x0 0) in
  0 <= x0 -> x0 + 512 * Z.of_nat n < 2 ^ 62 -> 512 * Z.of_nat n < 2 ^ 32 ->
  (forall x, covers r.2 x \/ in_run r.1 x <->
             x0 <= x < x0 + 512 * Z.of_nat n /\ logbit m x = true) /\
  item_sum r.2 + wk_lbits1 r.1 = popcount bits /\ wk_total r.1 + wk_lbits1 r.1 = popcount bits.
Proof.
  intros bits r Hx0 H62 H32.
  assert (Hlen : Z.of_nat (length bits) = 512 * Z.of_nat n).
  { unfold bits, line_bits. rewrite length_fmap, length_seqZ. lia. }
  assert (Hk : walker_ok (Z.of_nat (length bits)) (mk_walker 0 0 x0 0)).
  { rewrite Hlen. unfold walker_ok. cbn. lia. }
  split.
  2: { destruct (walks_sum bits (mk_walker 0 0 x0 0) Hk); [cbn; lia|done]. }
  intros x. unfold r. rewrite walks_cover by (done || (cbn; lia)).
  unfold walk_pos, in_run. cbn [wk_offset_scaled wk_lbits0 wk_lbits1]. rewrite !Z.add_0_r.
  unfold bits, line_bits. rewrite list_lookup_fmap. split.
  - intros [?|[Hx Hb]]; [lia|]. destruct (decide (Z.to_nat (x - x0) < 512 * n)%nat) as [Hlt|Hge].
    + rewrite lookup_seqZ_lt in Hb by lia. cbn in Hb. injection Hb as Hb.
      replace (x0 + Z.of_nat (Z.to_nat (x - x0))) with x in Hb by lia. split; [lia|done].
    + rewrite lookup_seqZ_ge in Hb by lia. done.
  - intros [Hx Hb]. right. split; [lia|]. rewrite lookup_seqZ_lt by lia. cbn.
    replace (x0 + Z.of_nat (Z.to_nat (x - x0))) with x by lia. by rewrite Hb.
Qed.

(** Handing over the last run. *)
Lemma parse_last_runs w m l k x0 x1 :
  has_tdata w -> 0 <= sl_cnt l < 512 -> walker_ok 0 k -> wk_lbits1 k < 2 ^ 26 ->
  x0 <= wk_offset_scaled k -> walk_pos k <= x1 ->
  exists k' l' e,
    parse_last k (with_sync w m l) = Done (k', with_sync w m l') /\
    wk_total k' = wk_total k + wk_lbits1 k /\ items l' = items l ++ e /\
    Forall (item_in x0 x1) e /\ (forall x, covers e x <-> in_run k x) /\
    item_sum e = wk_lbits1 k /\ sl_changed l' = sl_changed l.
Proof.
  intros Hi Hc (? & ? & ? & ? & ? & ?) H26 Ho Hp. unfold parse_last, walk_pos, in_run in *.
  destruct (Z.eqb_spec (wk_lbits1 k) 0) as [Hz|Hnz]; cbn [negb].
  - exists k, l, []. rewrite app_nil_r. split_and!; try done; try lia; try apply Forall_nil_2.
    intros x. unfold covers. rewrite Exists_nil. split; [done|lia].
  - unfold mbind, cmd_bind. rewrite on_list_with by done.
    destruct (items_put l (wk_offset_scaled k) (wk_lbits1 k) true ltac:(lia))
      as (l2 & -> & Hc2 & Hn2 & Hi2).
    eexists _, l2, _. split; [done|]. split; [cbn; rewrite u64_small; lia|]. split; [exact Hi2|].
    rewrite u32_small by lia. split_and!; try done.
    + constructor; [|constructor]. unfold item_in. cbn. lia.
    + intros x. unfold covers. rewrite Exists_cons, Exists_nil. unfold item_has. cbn. tauto.
    + cbn. lia.
Qed.

Lemma parse_log_runs fuel w d h offset len n ol :
  scannable w d h offset n ol -> (len / 4096 + 7) / 8 = Z.of_nat n ->
  let x0 := line_of (h + offset) in
  let x1 := x0 + 512 * Z.of_nat n in
  let bits := line_bits (w_mem w) x0 n in
  exists m' l' e,
    tasvir_sync_parse_log fuel d offset len 0 w = Done (64 * popcount bits, with_sync w m' l') /\
    scanned (w_mem w) m' (log_off (x0 / 64)) ol (64 * Z.of_nat n) e /\
    Forall (item_in x0 x1) (e ++ items l') /\
    (forall x, covers (e ++ items l') x <-> x0 <= x < x1 /\ logbit (w_mem w) x = true) /\
    item_sum (e ++ items l') = popcount bits /\ sl_changed l' = 64 * item_sum e.
Proof.
  intros Hsc Hn x0 x1 bits.
  destruct (scannable_units _ _ _ _ _ _ Hsc) as (Hx0 & _ & Hu0 & Hx1). fold x0 in Hx0.
  pose proof (scannable_stretch _ _ _ _ _ _ Hsc) as Hst.
  rewrite (parse_log_unfold _ _ _ _ _ _ _ _ Hsc Hn). fold x0.
  destruct Hsc as [Hi _ _ _ _ _ _ Hshort _ Hws Hap Hcnt Hch].
  set (u := (h - TASVIR_ADDR_DATA + offset) / 4096) in *.
  set (k0 := mk_walker 0 0 x0 0). change nr_lines with 17179869184 in Hx1.
  assert (Hxu : x0 / 64 = u) by (rewrite Hx0, Z.mul_comm; apply Z.div_mul; lia).
  pose proof (line_bits_words (w_mem w) u n) as Hbits. rewrite <- Hx0 in Hbits. fold bits in Hbits.
  assert (Hlen : Z.of_nat (length bits) = 512 * Z.of_nat n).
  { unfold bits, line_bits. rewrite length_fmap, length_seqZ. lia. }
  assert (Hnil : items (my_list w) = []) by (unfold items; by rewrite Hcnt).
  assert (Hk0 : walker_ok (512 * Z.of_nat n) k0) by (unfold walker_ok, k0; cbn; lia).
  destruct (parse_groups_runs fuel d h (TASVIR_ADDR_LOG + 8 * ((h - TASVIR_ADDR_DATA) / 4096))
    (log_internal_of w h ol) x0 x1 w Hi ltac:(lia) ltac:(change nr_lines with 17179869184; lia)
    n (offset / 4096) (log_off u) ol k0 (w_mem w) (my_list w))
    as (m1 & l1 & e & E1 & S1 & I1 & C1 & N1 & F1 & G1 & O1);
    try done; try (unfold k0, walk_pos; cbn; lia); try (rewrite Hnil, ?Hch; cbn; constructor || lia).
  rewrite with_self in E1 by done. unfold mbind, cmd_bind. rewrite E1, <- Hbits. rewrite <- Hbits in I1, O1.
  rewrite Hnil in I1. cbn [app] in I1. rewrite Hch, Z.add_0_l in C1.
  destruct (walks_lines (w_mem w) x0 n) as (Hline & Hsum & Htot); [lia..|].
  fold bits k0 in Hline, Hsum, Htot.
  pose proof (walks_ok 0 bits k0 ltac:(lia) ltac:(by rewrite Hlen)) as Hk.
  pose proof (walks_pos bits k0) as Hpos. pose proof (popcount_range bits) as Hpop.
  assert (Hem : 0 <= item_sum (walks bits k0).2).
  { rewrite I1, item_sum_app. apply item_sum_nonneg in F1, G1. lia. }
  destruct (walks bits k0) as [k em]. cbn [fst snd] in *.
  destruct (parse_last_runs w m1 l1 k x0 x1) as (k' & l' & e' & E2 & T2 & I2 & F2 & V2 & S2 & C2);
    try done; [lia|lia|rewrite Hpos, Hlen; unfold k0, walk_pos; cbn; lia|].
  rewrite E2, T2, Htot. exists m1, l', e. rewrite I2, app_assoc, <- I1, Hxu.
  split_and!; try done; [| | |rewrite item_sum_app; lia|lia].
  - unfold mret, cmd_ret. change TASVIR_SHIFT_BIT with 6. unfold shl64.
    rewrite Z.shiftl_mul_pow2, u64_small, Z.mul_comm by lia. done.
  - rewrite I1, <- app_assoc. apply Forall_app. split; [done|]. by apply Forall_app.
  - intros x. by rewrite covers_app, V2.
Qed.

(** The scan of a stretch followed by the consumption of the list, as a job
    of the internal synchronization does it. *)
Definition sync_stretch (fuel : nat) (d offset len : Z) : cmd world (Z * Z) :=
  seen ← tasvir_sync_parse_log fuel d offset len 0;
  updated ← tasvir_sync_process_changes fuel d true false;
  mret (seen, updated).

Lemma sync_stretch_runs fuel w d h offset len n ol :
  scannable w d h offset n ol -> (len / 4096 + 7) / 8 = Z.of_nat n ->
  let x0 := line_of (h + offset) in
  let x1 := x0 + 512 * Z.of_nat n in
  let c := 64 * popcount (line_bits (w_mem w) x0 n) in
  exists m' l' e,
    sync_stretch fuel d offset len w = Done ((c, c), with_sync w m' l') /\
    sl_cnt l' = 0 /\ sl_changed l' = 0 /\
    scanned (w_mem w) m' (log_off (x0 / 64)) ol (64 * Z.of_nat n) e /\
    (forall x, covers e x <-> x0 <= x < x1 /\ logbit (w_mem w) x = true).
Proof.
  intros Hsc Hn x0 x1 c.
  destruct (parse_log_runs fuel w d h offset len n ol Hsc Hn)
    as (m1 & l1 & e & E1 & S1 & F1 & V1 & N1 & C1). fold x0 x1 in F1, V1, N1, E1, S1.
  destruct (scannable_units _ _ _ _ _ _ Hsc) as (Hx0 & _ & Hu0 & Hx1). fold x0 in Hx0.
  pose proof (sc_short _ _ _ _ _ _ Hsc) as Hshort. pose proof (sc_tdata _ _ _ _ _ _ Hsc) as Hi.
  pose proof (sc_apart _ _ _ _ _ _ Hsc) as Hap.
  set (bits := line_bits (w_mem w) x0 n) in *.
  pose proof (popcount_range bits) as Hpop.
  assert (Hlen : Z.of_nat (length bits) = 512 * Z.of_nat n).
  { unfold bits, line_bits. rewrite length_fmap, length_seqZ. lia. }
  apply Forall_app in F1 as F1'. destruct F1' as [Fe Fl]. rewrite item_sum_app in N1.
  pose proof (item_sum_nonneg _ _ _ Fe) as H0e. pose proof (item_sum_nonneg _ _ _ Fl) as H0l.
  destruct (process_changes_runs fuel d true w m1 l1) as (m2 & E2 & C2); [done| |lia|lia|].
  { eapply List.Forall_impl; [|exact Fl]. unfold item_in. intros it ?. lia. }
  eexists m2, _, (e ++ items l1). unfold sync_stretch, mbind, cmd_bind. rewrite E1, E2.
  unfold mret, cmd_ret. split.
  { replace (sl_changed l1 + 64 * item_sum (items l1)) with c by (unfold c; lia). done. }
  split; [done|]. split; [done|]. split; [|done].
  replace (64 * Z.of_nat n) with (64 * Z.of_nat n + 0) by lia.
  assert (Hxu : x0 / 64 * 64 = x0) by (rewrite Hx0, (Z.mul_comm 64), Z.div_mul by lia; done).
  eapply scanned_app; [exact S1|apply copied_scanned; exact C2|rewrite Z.add_0_r; exact Hap|done..| | | | | |];
    try lia; [apply aligned_log_off|unfold log_off; lia].
Qed.

(** C1: Internal synchronization of a stretch of an area (at most 2 GiB, all
    in one thread): both routines return, and return 64 bytes per logged line;
    every line whose log bit was set then has in the reader copy what the
    writer copy holds, every other line of the reader copy is as before; the
    log bits of the stretch are clear, and for an area of this node they have
    been added to its first difference log; no other word of shared memory
    (in particular nothing of the writer copy outside that difference log)
    has changed, and the thread's list is empty again. *)
Theorem sync_stretch_copies_logged_lines fuel w d h offset len n ol :
  scannable w d h offset n ol -> (len / 4096 + 7) / 8 = Z.of_nat n ->
  let m := w_mem w in
  let x0 := line_of (h + offset) in
  let x1 := x0 + 512 * Z.of_nat n in
  let c := 64 * popcount (line_bits m x0 n) in
  exists m' l',
    sync_stretch fuel d offset len w = Done ((c, c), with_sync w m' l') /\
    sl_cnt l' = 0 /\ sl_changed l' = 0 /\
    (forall x i, x0 <= x < x1 -> 0 <= i < 8 ->
       ld m' (64 * x + 8 * i) =
       if logbit m x then ld m (TASVIR_SIZE_DATA + 64 * x + 8 * i) else ld m (64 * x + 8 * i)) /\
    (forall x, x0 <= x < x1 -> logbit m' x = false) /\
    (forall b j, ol = Some b -> 0 <= j < 8 * Z.of_nat n ->
       ld m' (b + 8 * j) = Z.lor (ld m (log_off (x0 / 64 + j))) (ld m (b + 8 * j))) /\
    (forall o, aligned 8 o -> ~ (64 * x0 <= o < 64 * x1) ->
       ~ (log_off (x0 / 64) <= o < log_off (x0 / 64) + 64 * Z.of_nat n) ->
       (forall b, ol = Some b -> ~ (b <= o < b + 64 * Z.of_nat n)) -> ld m' o = ld m o).
Proof.
  intros Hsc Hn m x0 x1 c.
  destruct (sync_stretch_runs fuel w d h offset len n ol Hsc Hn)
    as (m' & l' & e & E & Hcnt & Hch & Hs & Hcov). fold x0 x1 in E, Hs, Hcov. fold m in E, Hs, Hcov.
  destruct (scannable_units _ _ _ _ _ _ Hsc) as (Hx0 & _ & Hu0 & Hx1). fold x0 in Hx0.
  pose proof (sc_apart _ _ _ _ _ _ Hsc) as Hap. fold x0 in Hap. fold x1 in Hap.
  set (u := (h - TASVIR_ADDR_DATA + offset) / 4096) in *. change nr_lines with 17179869184 in Hx1.
  assert (Hxu : x0 / 64 = u) by (rewrite Hx0, Z.mul_comm; apply Z.div_mul; lia).
  rewrite Hxu in *. assert (Hsz : TASVIR_SIZE_DATA = 1099511627776) by done.
  assert (Hlo : log_off u = 2 * TASVIR_SIZE_DATA + 8 * u) by done.
  exists m', l'. split; [done|]. split; [done|]. split; [done|].
  assert (Hlines : forall o, in_lines e o = true <-> 64 * x0 <= o < 64 * x1 /\ logbit m (o / 64) = true).
  { intros o. unfold in_lines. rewrite andb_true_iff, in_range_true, bool_decide_eq_true, Hcov.
    pose proof (Z.div_mod o 64 ltac:(lia)). pose proof (Z.mod_pos_bound o 64 ltac:(lia)).
    split; [intros (? & ? & ?); split; [lia|done]|].
    intros (? & ?). split; [lia|]. split; [split|done]; [apply Z.div_le_lower_bound|apply Z.div_lt_upper_bound]; lia. }
  split_and!.
  - intros x i Hx Hi. rewrite Hs by align.
    rewrite (proj2 (in_range_false _ _ _)) by lia.
    rewrite merged_none by (intros b Hb; apply Hap in Hb; lia).
    assert ((64 * x + 8 * i) / 64 = x) as Hdiv by (symmetry; apply (Z.div_unique _ _ _ (8 * i)); lia).
    assert (in_lines e (64 * x + 8 * i) = logbit m x) as ->.
    { apply eq_true_iff_eq. rewrite Hlines, Hdiv. intuition lia. }
    destruct (logbit m x); [f_equal; lia|done].
  - intros x Hx. unfold logbit. rewrite Hs by apply aligned_log_off.
    assert (u <= x / 64 < u + 8 * Z.of_nat n).
    { split; [apply Z.div_le_lower_bound; lia|apply Z.div_lt_upper_bound; lia]. }
    rewrite (proj2 (in_range_true _ _ _)) by (unfold log_off in *; lia). apply Z.testbit_0_l.
  - intros b j Hb Hj. pose proof (Hap b Hb) as (Hba & ? & ? & ? & ?).
    rewrite Hs by align. rewrite (proj2 (in_range_false _ _ _)) by lia.
    rewrite Hb, merged_some by lia. do 2 f_equal. unfold log_off. lia.
  - intros o Ho H1 H2 H3. rewrite Hs by done. rewrite (proj2 (in_range_false _ _ _)) by done.
    rewrite merged_none by done. destruct (in_lines e o) eqn:El; [|done].
    apply Hlines in El. tauto.
Qed.

(** The byte length of a run is computed by shifting its 32-bit line
    count, so a run of 2^26 lines (4 GiB) becomes length 0: only the first
    line of the run is copied to the reader copy and no byte is counted as
    changed. *)
Theorem process_change_truncates fuel d reset cnt i w l :
  has_tdata w -> my_list w = l ->
  let it := default item_zero (sl_l l !! i) in
  let o := si_offset_scaled it in
  0 <= o -> si_len_scaled it = 2 ^ 26 -> o + 2 ^ 26 <= nr_lines ->
  0 <= sl_changed l < 2 ^ 31 ->
  exists m',
    process_change fuel d reset false cnt i w = Done (tt, with_sync w m' l) /\
    copies (w_mem w) m' (64 * o) (TASVIR_SIZE_DATA + 64 * o) 64.
Proof.
  intros Hi Hl it o Ho Hn Hx Hc. change nr_lines with 17179869184 in Hx.
  rewrite <- (with_self w Hi), Hl. unfold process_change, mbind, cmd_bind.
  rewrite (tdata_with _ (fun l => l)) by done. fold it. fold o.
  assert (shl64 o TASVIR_SHIFT_BIT = 64 * o) as ->.
  { change TASVIR_SHIFT_BIT with 6. unfold shl64. rewrite Z.shiftl_mul_pow2 by lia.
    rewrite u64_small; lia. }
  rewrite Hn. change (u32 (Z.shiftl (2 ^ 26) TASVIR_SHIFT_BIT)) with 0.
  unfold ttld, gets. rewrite andb_false_r. unfold tasvir_store_vec_rep.
  change (Z.to_nat (0 / TASVIR_VEC_BYTES + 1)) with 1%nat. cbn [vec_loop]. unfold mbind, cmd_bind.
  destruct (store_vec_runs (with_sync w (w_mem w) l) (TASVIR_ADDR_DATA_RO + 64 * o)
    (TASVIR_ADDR_DATA_RW + 64 * o) (64 * o) (TASVIR_SIZE_DATA + 64 * o)) as (m' & E & C).
  { apply spans_ro; defs; lia. }
  { apply spans_rw; defs; lia. }
  { align. }
  { defs. align. }
  rewrite E. rewrite u64_small by (defs; lia). unfold TASVIR_VEC_BYTES.
  rewrite (proj2 (Z.ltb_ge _ _)) by lia. unfold mret, cmd_ret.
  change ((with_sync w (w_mem w) l) <| w_mem := m' |>) with (with_sync w m' l).
  rewrite on_list_with by done. exists m'. cbn [modify]. rewrite Z.add_0_r, i32_small by lia.
  assert (l <| sl_changed := sl_changed l |> = l) as -> by (by destruct l).
  split; [|exact C]. by rewrite with_with.
Qed.

End with_dpdk.

(** ** An area on a booted node *)

(** An area at byte 32768 of the data region, its descriptor at byte 0, owned
    by this node, with lines 512 and 575 logged and its first difference log
    at byte 327680. *)
Definition sync_mem : gmap Z Z :=
  <[8 := TASVIR_ADDR_DATA + 32768]> (<[32768 := 4]> (<[32904 := TASVIR_ADDR_DATA + 327680]>
  (<[log_off 8 := 2 ^ 63 + 1]> (<[TASVIR_SIZE_DATA + 32776 := 77]> ∅)))).
Definition sync_world : @world fifo_dpdk := world0 <| w_mem := sync_mem |>.

Lemma sync_world_scannable :
  scannable sync_world TASVIR_ADDR_DATA (TASVIR_ADDR_DATA + 32768) 0 1 (Some 327680).
Proof.
  split; try reflexivity.
  - unfold has_tdata. cbn. lia.
  - defs. lia.
  - defs. lia.
  - exists 4. split; [reflexivity|]. split; [reflexivity|].
    exists (TASVIR_ADDR_DATA + 327680). split; [reflexivity|]. split; [done|].
    rewrite Z.add_0_r. apply (spans_data _ 327680 _ false); [lia|defs; lia|done].
  - repeat (apply Forall_cons_2; [vm_compute; split; [discriminate|reflexivity]|]). apply Forall_nil_2.
  - change (line_of (TASVIR_ADDR_DATA + 32768 + 0)) with 512. intros x0 b Hb.
    injection Hb as <-. split; [done|]. unfold x0. cbn. defs. lia.
Qed.

Lemma sync_stretch_copies_logged_lines_witness :
  exists m' l',
    sync_stretch 1 TASVIR_ADDR_DATA 0 32768 sync_world = Done ((128, 128), with_sync sync_world m' l') /\
    ld m' 32776 = 77 /\ logbit m' 512 = false /\ ld m' 327680 = 2 ^ 63 + 1.
Proof.
  destruct (sync_stretch_copies_logged_lines 1 sync_world _ _ 0 32768 1 _ sync_world_scannable)
    as (m' & l' & E & _ & _ & H1 & H2 & H3 & _); [done|].
  exists m', l'. split; [exact E|]. split_and!.
  - apply (H1 512 1); split; done || reflexivity.
  - apply H2. split; done || reflexivity.
  - apply (H3 327680 0); [done|lia].
Defined.

Lemma process_change_truncates_witness :
  let l := mk_sync_list 0 1 {[0 := mk_item 0 (2 ^ 26)]} in
  exists m',
    process_change 1 0 true false 1 0 (with_sync world0 ∅ l)
    = Done (tt, with_sync (with_sync world0 ∅ l) m' l) /\
    copies ∅ m' 0 TASVIR_SIZE_DATA 64.
Proof.
  destruct (process_change_truncates 1 0 true 1 0
    (with_sync world0 ∅ (mk_sync_list 0 1 {[0 := mk_item 0 (2 ^ 26)]}))
    (mk_sync_list 0 1 {[0 := mk_item 0 (2 ^ 26)]})) as (m' & E & C).
  - apply with_has. unfold has_tdata. cbn. lia.
  - reflexivity.
  - done.
  - reflexivity.
  - done.
  - done.
  - exists m'. split; [exact E|exact C].
Defined.
