(* ===== verification/Barrier.v ===== *)
(** * Barrier: the synchronization barrier (tasvir_barrier_wait, src/sync_internal.c)

    Every running thread of the node calls [tasvir_barrier_wait] before it
    works on the sync jobs. The threads share two atomic words, the barrier
    sequence number and the count of threads still to come, and interleave
    at each access to them. A thread's program is the function
    [barrier_step], one atomic access at a time; [bstep] interleaves the
    threads of one round, and [mrun] executes a given schedule over several
    rounds.

    Within a round the threads agree: if one of them passes the barrier, all
    have arrived and none is told to give up; and the wait always can end.
    Across rounds they may not: a thread delayed between its check of the
    sequence number and its decrement counts as an arrival in the next
    round, and a difference of sequence numbers that an [int] truncates to 1
    is taken for success. *)
From stdpp Require Import base gmap list numbers relations.
From Stdlib Require Import ZArith Lia.
From S2P Require Import Prelude.

(** ** The program of one thread *)

(** [ndata->barrier_seq] and [ndata->barrier_cnt]. *)
Record bar := mk_bar { b_seq : Z; b_cnt : Z }.

(** Where a thread is in the routine: before the comparison of the sequence
    numbers, before [atomic_fetch_sub], before the compare-and-swap of the
    last thread (A), at the head of the wait loop, before the time check,
    before the compare-and-swap of the timeout (B), returned. *)
Inductive bpc := BStart | BSub | BCas1 | BWait | BTime | BCas2 | BRet (r : bool).
#[export] Instance bpc_eq_dec : EqDecision bpc.
Proof. solve_decision. Defined.

(** One access. [late]: the time-stamp counter is past [barrier_end_tsc];
    [spurious]: the weak compare-and-swap fails although the values agree.
    The difference of the sequence numbers is truncated to an [int]. *)
Definition barrier_step (seq : Z) (late spurious : bool) (p : bpc) (b : bar) : bpc * bar :=
  match p with
  | BStart => (if seq =? b_seq b then BSub else BRet false, b)
  | BSub => (if b_cnt b =? 1 then BCas1 else BWait, mk_bar (b_seq b) (u64 (b_cnt b - 1)))
  | BCas1 => if b_seq b =? seq then (BRet true, mk_bar (u64 (seq + 1)) (b_cnt b)) else (BRet false, b)
  | BWait =>
      let diff := i32 (u64 (b_seq b - seq)) in
      (if diff =? 0 then BTime else BRet (diff =? 1), b)
  | BTime => (if late then BCas2 else BWait, b)
  | BCas2 =>
      if (b_seq b =? seq) && negb spurious
      then (BRet false, mk_bar (u64 (seq + 2)) (b_cnt b)) else (BWait, b)
  | BRet r => (BRet r, b)
  end.

(** ** One round *)

(** The shared words and the threads of the round. *)
Definition bstate : Type := bar * list bpc.

(** A thread of the round moves, or the daemon (which was told to give up,
    so the round has failed) schedules a further round, whose sequence number
    is any larger one, however far away. The one case left out is a distance
    that [diff] truncates to 1, which a thread still waiting takes for
    success ([barrier_truncated_seq_unsafe] below). *)
Inductive bstep (seq : Z) : bstate -> bstate -> Prop :=
| bstep_thread b pcs i p late spurious p' b' :
    pcs !! i = Some p -> barrier_step seq late spurious p b = (p', b') ->
    bstep seq (b, pcs) (b', <[i := p']> pcs)
| bstep_next b pcs seq' cnt' :
    pcs !! 0%nat = Some (BRet false) -> seq < seq' < 2 ^ 64 -> i32 (u64 (seq' - seq)) <> 1 ->
    bstep seq (b, pcs) (mk_bar seq' cnt', pcs).

(** [tasvir_sched_sync_internal] with [n] running threads. *)
Definition bstart (seq : Z) (n : nat) : bstate := (mk_bar seq (Z.of_nat n), replicate n BStart).

(** ** Invariant *)

(** Threads that have not decremented the counter; threads about to release
    the barrier. *)
Definition pending (p : bpc) : Z := match p with BStart | BSub => 1 | _ => 0 end.
Definition releasing (p : bpc) : Z := match p with BCas1 => 1 | _ => 0 end.
Definition total (f : bpc -> Z) (pcs : list bpc) : Z := foldr (fun p s => f p + s) 0 pcs.

Lemma total_cons f p pcs : total f (p :: pcs) = f p + total f pcs.
Proof. reflexivity. Qed.

Lemma total_insert f pcs i p q :
  pcs !! i = Some p -> total f (<[i := q]> pcs) = total f pcs - f p + f q.
Proof.
  revert i. induction pcs as [|r pcs IH]; intros [|i] H; [done..| |].
  - injection H as ->. change (<[0%nat := q]> (p :: pcs)) with (q :: pcs). rewrite !total_cons. lia.
  - change (<[S i := q]> (r :: pcs)) with (r :: <[i := q]> pcs). rewrite !total_cons, (IH _ H). lia.
Qed.

Lemma total_nonneg f pcs : (forall p, 0 <= f p) -> 0 <= total f pcs.
Proof.
  intros Hf. induction pcs as [|p pcs IH]; [done|]. rewrite total_cons. specialize (Hf p). lia.
Qed.

Lemma total_lookup f pcs i p :
  (forall p, 0 <= f p) -> pcs !! i = Some p -> f p <= total f pcs.
Proof.
  intros Hf. revert i. induction pcs as [|r pcs IH]; intros [|i] H; [done..| |]; rewrite total_cons.
  - injection H as ->. pose proof (total_nonneg f pcs Hf). lia.
  - specialize (IH _ H). specialize (Hf r). lia.
Qed.

Lemma pending_nonneg p : 0 <= pending p.
Proof. by destruct p. Qed.
Lemma releasing_nonneg p : 0 <= releasing p.
Proof. by destruct p. Qed.
#[local] Hint Resolve pending_nonneg releasing_nonneg : tasvir.

(** The round is open, has succeeded, or has failed. After a failure the
    truncated difference is 0 only when the daemon, which has returned,
    scheduled a further round. *)
Inductive bphase (seq : Z) (b : bar) (pcs : list bpc) : Prop :=
| phase_open :
    b_seq b = seq -> b_cnt b = total pending pcs ->
    total releasing pcs <= 1 -> (total releasing pcs = 1 -> b_cnt b = 0) ->
    (forall i r, pcs !! i <> Some (BRet r)) -> bphase seq b pcs
| phase_success :
    b_seq b = seq + 1 -> total pending pcs = 0 -> total releasing pcs = 0 ->
    (forall i, pcs !! i <> Some (BRet false)) -> bphase seq b pcs
| phase_failure :
    seq < b_seq b < 2 ^ 64 -> i32 (u64 (b_seq b - seq)) <> 1 ->
    (i32 (u64 (b_seq b - seq)) = 0 -> pcs !! 0%nat = Some (BRet false)) ->
    (forall i, pcs !! i <> Some (BRet true)) -> bphase seq b pcs.

Lemma insert_not (pcs : list bpc) (i j : nat) (p q : bpc) :
  (forall k, pcs !! k <> Some q) -> p <> q -> <[i := p]> pcs !! j <> Some q.
Proof.
  intros H Hpq E. destruct (decide (i = j)) as [->|Hne].
  - apply list_lookup_insert_Some in E as [(_ & -> & _)|(_ & E)]; [done|by apply H in E].
  - rewrite list_lookup_insert_ne in E by done. by apply H in E.
Qed.

(** The signed difference of two sequence numbers. *)
Lemma diff_small s b : 0 <= b - s < 2 ^ 31 -> i32 (u64 (b - s)) = b - s.
Proof. intros H. rewrite u64_small by lia. apply i32_small. lia. Qed.

Lemma pending_bound pcs : total pending pcs <= Z.of_nat (length pcs).
Proof.
  induction pcs as [|q pcs IH]; [done|]. rewrite total_cons. cbn [length]. assert (pending q <= 1) by (by destruct q). lia.
Qed.

(** The sums over the threads when thread [i] moves from [p] to [p']. *)
Ltac barrier_facts pcs i p p' Hi :=
  pose proof (total_insert pending pcs i p p' Hi) as Hp; pose proof (total_insert releasing pcs i p p' Hi) as Hr;
  pose proof (total_lookup pending pcs i p pending_nonneg Hi) as Hpl; pose proof (total_lookup releasing pcs i p releasing_nonneg Hi) as Hrl;
  pose proof (total_nonneg releasing pcs releasing_nonneg) as Hr0; pose proof (pending_bound pcs) as Hpn.

(** A step while the round is open. *)
Lemma open_step seq late spurious b pcs i p p' b' :
  0 <= seq -> seq + 2 < 2 ^ 64 -> Z.of_nat (length pcs) < 2 ^ 64 ->
  b_seq b = seq -> b_cnt b = total pending pcs -> total releasing pcs <= 1 -> (total releasing pcs = 1 -> b_cnt b = 0) ->
  (forall i r, pcs !! i <> Some (BRet r)) ->
  pcs !! i = Some p -> barrier_step seq late spurious p b = (p', b') -> bphase seq b' (<[i := p']> pcs).
Proof.
  intros Hs Hs2 Hn E Ec H1 H2 H3 Hi Hst. barrier_facts pcs i p p' Hi.
  destruct p; cbn [barrier_step] in Hst; rewrite ?E, ?Z.eqb_refl in Hst; cbn [pending releasing] in *.
  - injection Hst as <- <-. apply phase_open; cbn [pending releasing] in *; try lia.
    intros j r. by apply insert_not.
  - injection Hst as <- <-. rewrite u64_small by lia.
    destruct (Z.eqb_spec (b_cnt b) 1); cbn [pending releasing] in *;
      (apply phase_open; cbn; [done|lia|lia|lia|]; intros j r; by apply insert_not).
  - injection Hst as <- <-. rewrite u64_small by lia. apply phase_success; cbn [b_seq pending releasing] in *; try lia.
    intros j. by apply insert_not.
  - rewrite diff_small, Z.sub_diag in Hst by lia. cbn in Hst. injection Hst as <- <-.
    apply phase_open; cbn [pending releasing] in *; try lia. intros j r. by apply insert_not.
  - injection Hst as <- <-. destruct late; apply phase_open; cbn [pending releasing] in *; try lia;
      intros j r; by apply insert_not.
  - destruct spurious; cbn [negb andb] in Hst; injection Hst as <- <-.
    + apply phase_open; cbn [pending releasing] in *; try lia. intros j r. by apply insert_not.
    + rewrite u64_small by lia. apply phase_failure; cbn [b_seq]; rewrite ?diff_small by lia; [lia..|].
      intros j. by apply insert_not.
  - by destruct (H3 i r).
Qed.

(** A step after the round has succeeded: everyone has arrived. *)
Lemma success_step seq late spurious b pcs i p p' b' :
  0 <= seq -> seq + 2 < 2 ^ 64 -> Z.of_nat (length pcs) < 2 ^ 64 ->
  b_seq b = seq + 1 -> total pending pcs = 0 -> total releasing pcs = 0 -> (forall i, pcs !! i <> Some (BRet false)) ->
  pcs !! i = Some p -> barrier_step seq late spurious p b = (p', b') -> bphase seq b' (<[i := p']> pcs).
Proof.
  intros Hs Hs2 Hn E H1 H2 H3 Hi Hst. barrier_facts pcs i p p' Hi.
  destruct p; cbn [barrier_step] in Hst; cbn [pending releasing] in *; try lia.
  - rewrite E, diff_small in Hst by lia. replace (seq + 1 - seq) with 1 in Hst by lia.
    injection Hst as <- <-. apply phase_success; cbn [pending releasing] in *; try lia.
    intros j. by apply insert_not.
  - injection Hst as <- <-. destruct late; apply phase_success; cbn [pending releasing] in *; try lia;
      intros j; by apply insert_not.
  - rewrite E in Hst. rewrite (proj2 (Z.eqb_neq _ _)) in Hst by lia. injection Hst as <- <-.
    apply phase_success; cbn [pending releasing] in *; try lia. intros j. by apply insert_not.
  - injection Hst as <- <-. apply phase_success; cbn [pending releasing] in *; try lia.
    intros j. destruct r; [by apply insert_not|by destruct (H3 i)].
Qed.

(** A thread that has returned stays there. *)
Lemma returned_stays seq late spurious b (pcs : list bpc) i j p p' b' r :
  pcs !! i = Some p -> barrier_step seq late spurious p b = (p', b') -> pcs !! j = Some (BRet r) -> <[i := p']> pcs !! j = Some (BRet r).
Proof.
  intros Hi Hst Hj. destruct (decide (i = j)) as [->|Hne]; [|by rewrite list_lookup_insert_ne].
  rewrite Hj in Hi. injection Hi as <-. injection Hst as <- <-.
  apply list_lookup_insert_eq. by eapply lookup_lt_Some.
Qed.

(** A step after the round has failed. *)
Lemma failure_step seq late spurious b pcs i p p' b' :
  seq < b_seq b < 2 ^ 64 -> i32 (u64 (b_seq b - seq)) <> 1 ->
  (i32 (u64 (b_seq b - seq)) = 0 -> pcs !! 0%nat = Some (BRet false)) -> (forall i, pcs !! i <> Some (BRet true)) ->
  pcs !! i = Some p -> barrier_step seq late spurious p b = (p', b') -> bphase seq b' (<[i := p']> pcs).
Proof.
  intros E E1 E0 H3 Hi Hst.
  assert (Hne : (b_seq b =? seq) = false) by (apply Z.eqb_neq; lia).
  assert (Hb : b_seq b' = b_seq b /\ p' <> BRet true).
  { assert (p <> BRet true) by (intros ->; by destruct (H3 i)).
    destruct p; cbn [barrier_step] in Hst; rewrite ?(Z.eqb_sym seq), ?Hne, ?(proj2 (Z.eqb_neq _ 1) E1) in Hst;
      injection Hst as <- <-; (split; [done|]); repeat case_match; congruence. }
  destruct Hb as [Eb Hp]. apply phase_failure; rewrite ?Eb; [done|done| |].
  - intros H. specialize (E0 H). by eapply returned_stays.
  - intros j. by apply insert_not.
Qed.

Lemma phase_step seq late spurious b pcs i p p' b' :
  0 <= seq -> seq + 2 < 2 ^ 64 -> Z.of_nat (length pcs) < 2 ^ 64 ->
  bphase seq b pcs -> pcs !! i = Some p -> barrier_step seq late spurious p b = (p', b') ->
  bphase seq b' (<[i := p']> pcs).
Proof.
  intros Hs Hs2 Hn Hph Hi Hst. destruct Hph; [by eapply open_step|by eapply success_step|by eapply failure_step].
Qed.

Lemma total_replicate f n p : total f (replicate n p) = Z.of_nat n * f p.
Proof.
  induction n as [|n IH]; [done|]. cbn [replicate]. rewrite total_cons, IH. lia.
Qed.

Lemma phase_start seq n : bphase seq (bstart seq n).1 (bstart seq n).2.
Proof.
  apply phase_open; cbn [bstart fst snd b_seq b_cnt]; rewrite ?total_replicate; cbn [pending releasing]; try lia.
  intros i r E. apply lookup_replicate_1 in E as [? _]. done.
Qed.

(** The states a round can reach. *)
Definition breachable (seq : Z) (n : nat) (st : bstate) : Prop := rtc (bstep seq) (bstart seq n) st.

Lemma breachable_trans seq n st st' :
  breachable seq n st -> rtc (bstep seq) st st' -> breachable seq n st'.
Proof. unfold breachable. intros. by etrans. Qed.

(** A round whose sequence number and size fit the machine words. *)
Definition round_ok (seq : Z) (n : nat) : Prop :=
  0 <= seq /\ seq + 2 < 2 ^ 64 /\ Z.of_nat n < 2 ^ 64.

Lemma breachable_phase seq n st :
  round_ok seq n -> breachable seq n st -> bphase seq st.1 st.2 /\ length st.2 = n.
Proof.
  intros (Hs & Hs2 & Hn). unfold breachable.
  assert (H0 : bphase seq (bstart seq n).1 (bstart seq n).2 /\ length (bstart seq n).2 = n).
  { split; [apply phase_start|]. cbn. apply length_replicate. }
  revert H0. generalize (bstart seq n). intros st0 H0 Hr.
  induction Hr as [|x y z Hxy _ IH]; [done|]. apply IH. clear IH.
  destruct H0 as [Hph Hlen]. inversion Hxy as [b pcs i p late sp p' b' Hi Hst|b pcs s' c' H0 Hs' H1]; subst; cbn in *.
  - split; [|by rewrite length_insert]. by eapply phase_step.
  - split; [|done]. destruct Hph as [E ? ? ? H|E ? ? H|? ? ? H].
    + by destruct (H 0%nat false).
    + by destruct (H 0%nat).
    + apply phase_failure; cbn; auto.
Qed.

(** ** Properties of a round *)

(** C4: In every interleaving of the threads of a round, if one thread passes
    the barrier then every thread of the round has arrived (decremented the
    counter) and no thread is told to give up. *)
Theorem barrier_agreement seq n b pcs i :
  round_ok seq n -> breachable seq n (b, pcs) -> pcs !! i = Some (BRet true) ->
  forall j p, pcs !! j = Some p -> p <> BStart /\ p <> BSub /\ p <> BRet false.
Proof.
  intros Hok Hr Hi j p Hj. destruct (breachable_phase seq n (b, pcs) Hok Hr) as [Hph _].
  cbn in Hph. destruct Hph as [_ _ _ _ H|_ Hp _ H|_ _ _ H].
  - by apply H in Hi.
  - pose proof (total_lookup pending pcs j p pending_nonneg Hj) as Hl.
    split_and!; intros ->; cbn in Hl; [lia|lia|by apply H in Hj].
  - by apply H in Hi.
Qed.

(** From the head of the wait loop a thread can always return: past the
    deadline, if the compare-and-swap does not fail spuriously, or once the
    daemon schedules another round. *)
Lemma wait_returns seq b pcs i :
  0 <= seq -> seq + 2 < 2 ^ 64 -> bphase seq b pcs -> pcs !! i = Some BWait ->
  exists b' r, rtc (bstep seq) (b, pcs) (b', <[i := BRet r]> pcs).
Proof.
  intros Hs Hs2 Hph Hi. pose proof (lookup_lt_Some _ _ _ Hi) as Hlt.
  destruct (Z.eq_dec (i32 (u64 (b_seq b - seq))) 0) as [Hd|Hd].
  - assert (E : b_seq b = seq \/ pcs !! 0%nat = Some (BRet false)).
    { destruct Hph as [?|?|? ? H0 _]; [by left|rewrite diff_small in Hd by lia; lia|right; auto]. }
    destruct E as [E|H0].
    2:{ exists (mk_bar (seq + 2) 0), false.
      eapply rtc_l. { apply (bstep_next _ _ _ (seq + 2) 0 H0); [lia|]. rewrite diff_small; lia. }
      eapply rtc_once. apply (bstep_thread _ _ _ i BWait true false _ _ Hi). cbn [barrier_step b_seq].
      by rewrite diff_small, Z.add_simpl_l by lia. }
    exists (mk_bar (u64 (seq + 2)) (b_cnt b)), false.
    eapply rtc_l. { apply (bstep_thread _ _ _ i BWait true false BTime b Hi). cbn. by rewrite Hd. }
    eapply rtc_l.
    { eapply (bstep_thread _ _ _ i BTime true false BCas2 b); [|done]. by rewrite list_lookup_insert_eq. }
    rewrite list_insert_insert_eq. eapply rtc_l; [|rewrite <- (list_insert_insert_eq pcs i _ BCas2); reflexivity].
    eapply (bstep_thread _ _ _ i BCas2 true false); [by rewrite list_lookup_insert_eq|].
    cbn. rewrite E, Z.eqb_refl. done.
  - eexists b, _. eapply rtc_once. apply (bstep_thread _ _ _ i BWait true false _ _ Hi). cbn.
    rewrite (proj2 (Z.eqb_neq _ _)) by done. done.
Qed.

Lemma thread_returns seq b pcs i p :
  0 <= seq -> seq + 2 < 2 ^ 64 -> Z.of_nat (length pcs) < 2 ^ 64 ->
  bphase seq b pcs -> pcs !! i = Some p ->
  exists b' r, rtc (bstep seq) (b, pcs) (b', <[i := BRet r]> pcs).
Proof.
  intros Hs Hs2 Hn. revert b pcs p Hn.
  (* one step, then the rest *)
  assert (Hstep : forall b pcs p p' b' late sp,
    pcs !! i = Some p -> barrier_step seq late sp p b = (p', b') ->
    (exists b'' r, rtc (bstep seq) (b', <[i := p']> pcs) (b'', <[i := BRet r]> (<[i := p']> pcs))) ->
    exists b'' r, rtc (bstep seq) (b, pcs) (b'', <[i := BRet r]> pcs)).
  { intros b pcs p p' b' late sp Hi Hst (b'' & r & Hr). exists b'', r.
    rewrite list_insert_insert_eq in Hr. eapply rtc_l; [|exact Hr]. by econstructor. }
  assert (Hget : forall (pcs : list bpc) p p', pcs !! i = Some p -> <[i := p']> pcs !! i = Some p').
  { intros pcs p p' Hi. apply list_lookup_insert_eq. by eapply lookup_lt_Some. }
  assert (Hwait : forall b pcs, Z.of_nat (length pcs) < 2 ^ 64 -> bphase seq b pcs ->
    pcs !! i = Some BWait -> exists b' r, rtc (bstep seq) (b, pcs) (b', <[i := BRet r]> pcs))
    by (intros; by apply wait_returns).
  assert (Hcas1 : forall b pcs, pcs !! i = Some BCas1 ->
    exists b' r, rtc (bstep seq) (b, pcs) (b', <[i := BRet r]> pcs)).
  { intros b pcs Hi. destruct (Z.eqb_spec (b_seq b) seq) as [E|E].
    - eexists _, true. eapply rtc_once. eapply (bstep_thread _ _ _ i BCas1 true true); [done|].
      cbn. rewrite E, Z.eqb_refl. done.
    - exists b, false. eapply rtc_once. eapply (bstep_thread _ _ _ i BCas1 true true); [done|].
      cbn. by rewrite (proj2 (Z.eqb_neq _ _)) by done. }
  assert (Hsub : forall b pcs, Z.of_nat (length pcs) < 2 ^ 64 -> bphase seq b pcs ->
    pcs !! i = Some BSub -> exists b' r, rtc (bstep seq) (b, pcs) (b', <[i := BRet r]> pcs)).
  { intros b pcs Hn Hph Hi.
    pose proof (phase_step seq true true b pcs i BSub _ _ Hs Hs2 Hn Hph Hi eq_refl) as Hph'.
    eapply (Hstep b pcs BSub _ _ true true); [done|reflexivity|]. destruct (b_cnt b =? 1).
    - apply Hcas1. by eapply Hget.
    - apply Hwait; [by rewrite length_insert|done|by eapply Hget]. }
  intros b pcs p Hn Hph Hi.
  destruct (barrier_step seq false true p b) as [p' b'] eqn:Hst.
  pose proof (phase_step seq false true b pcs i p p' b' Hs Hs2 Hn Hph Hi Hst) as Hph'.
  destruct p; auto; try (eapply Hstep; [exact Hi|exact Hst|]); cbn in Hst; rewrite ?andb_false_r in Hst;
    injection Hst as <- <-.
  - destruct (seq =? b_seq b).
    + apply Hsub; [by rewrite length_insert|done|by eapply Hget].
    + exists b, false. rewrite list_insert_insert_eq. reflexivity.
  - apply Hwait; [by rewrite length_insert|done|by eapply Hget].
  - apply Hwait; [by rewrite length_insert|done|by eapply Hget].
  - exists b, r. rewrite list_insert_insert_eq. reflexivity.
Qed.

(** C38: The barrier never gets stuck: from every state a round can reach,
    some continuation makes every thread return. *)
Theorem barrier_can_finish seq n b pcs :
  round_ok seq n -> breachable seq n (b, pcs) ->
  exists b' pcs', rtc (bstep seq) (b, pcs) (b', pcs') /\
    Forall (fun p => exists r, p = BRet r) pcs'.
Proof.
  intros Hok Hr.
  assert (Hk : forall k, (k <= n)%nat -> exists b' pcs', rtc (bstep seq) (b, pcs) (b', pcs') /\
    forall j p, (j < k)%nat -> pcs' !! j = Some p -> exists r, p = BRet r).
  { induction k as [|k IH]; intros Hk; [exists b, pcs; split; [done|lia]|].
    destruct IH as (b1 & pcs1 & Hr1 & Hret); [lia|].
    destruct (breachable_phase seq n (b1, pcs1) Hok (breachable_trans _ _ _ _ Hr Hr1)) as [Hph Hlen].
    cbn in Hph, Hlen. destruct (lookup_lt_is_Some_2 pcs1 k) as [p Hp]; [lia|].
    destruct Hok as (Hs & Hs2 & Hn).
    destruct (thread_returns seq b1 pcs1 k p) as (b2 & r & Hr2); [done|done|by rewrite Hlen|done|done|].
    exists b2, (<[k := BRet r]> pcs1). split; [by etrans|].
    intros j q Hj Hq. apply list_lookup_insert_Some in Hq as [(_ & <- & _)|(Hne & Hq)]; [eauto|].
    apply (Hret j q); [lia|done]. }
  destruct (Hk n (le_n n)) as (b' & pcs' & Hr' & Hret). exists b', pcs'. split; [done|].
  destruct (breachable_phase seq n (b', pcs') Hok (breachable_trans _ _ _ _ Hr Hr')) as [_ Hlen].
  apply Forall_lookup. intros j p Hj. apply (Hret j p); [|done].
  pose proof (lookup_lt_Some _ _ _ Hj). cbn in Hlen. lia.
Qed.

(** ** Several rounds *)

(** A thread over its life: where it is in the barrier (outside it when it
    has returned), the sequence number it read on entry, and its
    [next_sync_seq] and [prev_sync_seq]. *)
Record mthread := mk_mthread { t_pc : bpc; t_seq : Z; t_next : Z; t_prev : Z }.
Definition mstate : Type := bar * list mthread.

(** The daemon (thread 0) schedules a round; a thread whose [next_sync_seq]
    differs from [prev_sync_seq] enters the barrier (tasvir_service); a
    thread in the barrier makes an access. A thread that is told to give up
    ends with [prev_sync_seq = next_sync_seq] (tasvir_sync_internal). *)
Inductive mevent :=
| EvSched (seq : Z)
| EvEnter (i : nat)
| EvAccess (i : nat) (late spurious : bool).

Definition mevent_step (e : mevent) (st : mstate) : option mstate :=
  let '(b, ts) := st in
  match e with
  | EvSched seq =>
      t ← ts !! 0%nat;
      match t_pc t with
      | BRet _ =>
          if t_next t =? t_prev t then
            Some (mk_bar seq (Z.of_nat (length ts)),
                  (fun t => mk_mthread (t_pc t) (t_seq t) seq (t_prev t)) <$> ts)
          else None
      | _ => None
      end
  | EvEnter i =>
      t ← ts !! i;
      match t_pc t with
      | BRet _ =>
          if t_next t =? t_prev t then None
          else Some (b, <[i := mk_mthread BStart (t_next t) (t_next t) (t_prev t)]> ts)
      | _ => None
      end
  | EvAccess i late spurious =>
      t ← ts !! i;
      match t_pc t with
      | BRet _ => None
      | p =>
          let '(p', b') := barrier_step (t_seq t) late spurious p b in
          let prev := match p' with BRet false => t_next t | _ => t_prev t end in
          Some (b', <[i := mk_mthread p' (t_seq t) (t_next t) prev]> ts)
      end
  end.

Fixpoint mrun (evs : list mevent) (st : mstate) : option mstate :=
  match evs with
  | [] => Some st
  | e :: evs' => st' ← mevent_step e st; mrun evs' st'
  end.

(** [n] idle threads. *)
Definition mstart (n : nat) : mstate := (mk_bar 0 0, replicate n (mk_mthread (BRet false) 0 0 0)).

(** C39: Across rounds the barrier can let a thread through alone. With two
    threads there is a schedule after which the daemon has passed the
    barrier of round 2000 while the other thread never entered it: delayed
    in round 1000 between the comparison of the sequence numbers and its
    decrement, it decremented the counter of round 2000, gave up, and marked
    round 2000 as done. *)
Theorem barrier_overlapping_rounds_unsafe :
  exists evs b t0 t1,
    mrun (EvSched 1000 :: evs) (mstart 2) = Some (b, [t0; t1]) /\
    t_pc t0 = BRet true /\ t_seq t0 = 2000 /\
    t_pc t1 = BRet false /\ t_seq t1 = 1000 /\ t_prev t1 = 2000 /\ t_next t1 = 2000.
Proof.
  exists [EvEnter 1; EvAccess 1 false false; EvEnter 0; EvAccess 0 false false; EvAccess 0 false false;
    EvAccess 0 false false; EvAccess 0 true false; EvAccess 0 true false; EvSched 2000;
    EvAccess 1 false false; EvAccess 1 false false; EvEnter 0; EvAccess 0 false false;
    EvAccess 0 false false; EvAccess 0 false false].
  eexists _, _, _. split; [vm_compute; reflexivity|]. cbn. repeat split.
Qed.

(** ** The truncated difference *)

(** With three threads there is a schedule in which a thread that waits in
    round 1000 is told that the barrier succeeded, although the third thread
    never came and the daemon gave up: before the waiting thread looks again,
    the daemon schedules a round 2^32 + 1 later, little more than a second of
    a 4 GHz time-stamp counter. *)
Lemma barrier_truncated_seq_unsafe :
  exists evs b t0 t1 t2,
    mrun (EvSched 1000 :: evs) (mstart 3) = Some (b, [t0; t1; t2]) /\
    t_pc t0 = BRet false /\ t_seq t0 = 1000 /\ t_pc t1 = BRet true /\ t_seq t1 = 1000 /\
    t_pc t2 = BRet false /\ t_seq t2 = 0.
Proof.
  exists [EvEnter 1; EvAccess 1 false false; EvAccess 1 false false;
    EvEnter 0; EvAccess 0 false false; EvAccess 0 false false; EvAccess 0 false false;
    EvAccess 0 true false; EvAccess 0 true false; EvSched (1000 + 2 ^ 32 + 1); EvAccess 1 false false].
  eexists _, _, _, _. split; [vm_compute; reflexivity|]. cbn. repeat split.
Qed.

(** ** Examples *)

(** Three threads, the second of which waits while the others arrive. *)
Definition round3 : bstate :=
  (mk_bar 1001 0, [BRet true; BWait; BTime]).

Lemma round3_reachable : breachable 1000 3 round3.
Proof.
  unfold breachable, bstart, round3. cbn [replicate].
  repeat (eapply rtc_l;
    [first [ eapply (bstep_thread _ _ _ 2 BStart false false); reflexivity
           | eapply (bstep_thread _ _ _ 1 BStart false false); reflexivity
           | eapply (bstep_thread _ _ _ 1 BSub false false); reflexivity
           | eapply (bstep_thread _ _ _ 2 BSub false false); reflexivity ]|]; cbn).
  eapply rtc_l; [eapply (bstep_thread _ _ _ 2 BWait false false); reflexivity|]; cbn.
  eapply rtc_l; [eapply (bstep_thread _ _ _ 0 BStart false false); reflexivity|]; cbn.
  eapply rtc_l; [eapply (bstep_thread _ _ _ 0 BSub false false); reflexivity|]; cbn.
  eapply rtc_l; [eapply (bstep_thread _ _ _ 0 BCas1 false false); reflexivity|]; cbn.
  reflexivity.
Qed.

Lemma barrier_agreement_witness : BTime <> BStart /\ BTime <> BSub /\ BTime <> BRet false.
Proof.
  apply (barrier_agreement 1000 3 (mk_bar 1001 0) [BRet true; BWait; BTime] 0) with (j := 2%nat).
  - unfold round_ok. lia.
  - exact round3_reachable.
  - reflexivity.
  - reflexivity.
Defined.

Lemma barrier_can_finish_witness :
  exists b' pcs', rtc (bstep 1000) round3 (b', pcs') /\ Forall (fun p => exists r, p = BRet r) pcs'.
Proof.
  apply (barrier_can_finish 1000 3 (mk_bar 1001 0) [BRet true; BWait; BTime]).
  - unfold round_ok. lia.
  - exact round3_reachable.
Defined.
