(* ===== verification/Jobs.v ===== *)
(** * Jobs: threads that share one sync job (tasvir_sync_internal_job, src/sync_internal.c)

    During a round all threads work on the same job: each takes chunks of
    the log with an atomic fetch-and-add on [offset] until the end is reached,
    scans them, copies what it found and adds the bytes it saw to
    [bytes_seen]; the thread that completes the sum updates the header
    (stage 2). [job_step] is the routine one access at a time, [jstep]
    interleaves any number of threads, which may call the routine again and
    again. As long as [offset] has not wrapped around at 2^64, every chunk is
    scanned exactly once, and the header is updated exactly once, after all
    scanned chunks have been copied; [offset_wrap_rescans] is a run in which
    it wraps and a chunk is scanned twice. *)
From stdpp Require Import base gmap list numbers relations.
From Stdlib Require Import ZArith Lia.
From S2P Require Import Prelude.

(** ** The routine *)

(** The job's shared fields, and three histories: the chunks scanned, how
    often the header was updated, and how many fetch-and-adds there were on
    [offset]. *)
Record jshared := mk_jshared {
  s_offset : Z;
  s_seen : Z;
  s_done1 : bool;
  s_done2 : bool;
  s_scans : list Z;
  s_updates : Z;
  s_fetches : Z;
}.
#[export] Instance eta_jshared : Eta jshared := fun r =>
  mk_jshared (s_offset r) (s_seen r) (s_done1 r) (s_done2 r) (s_scans r) (s_updates r) (s_fetches r).

(** Where a thread is: outside; at the head of the loop; before the
    fetch-and-add; scanning a chunk; behind the loop; before
    [tasvir_sync_process_changes]; before the addition to [bytes_seen];
    before stage 2; before the final read of [done_stage2]. [seen] is the
    local variable. *)
Inductive jpc :=
| JOut
| JLoop (seen : Z)
| JFetch (seen : Z)
| JScan (seen off : Z)
| JExit (seen : Z)
| JProc (seen : Z)
| JSeen (seen : Z)
| JStage2
| JEnd.

Section job.
(** [offset_log_end] and [job_bytes]. *)
Context (L B : Z).

(** One access. [offset] and [bytes_seen] are [atomic_size_t], which wrap at
    2^64: a thread that finds no chunk has moved [offset] all the same, and
    it may call again. [skip]: the area is small and this thread is not its
    writer. *)
Definition job_step (skip : bool) (p : jpc) (s : jshared) : jpc * jshared :=
  match p with
  | JOut => (if s_done2 s then JOut else if skip then JOut else if s_done1 s then JOut else JLoop 0, s)
  | JLoop seen => (if s_done1 s then JExit seen else JFetch seen, s)
  | JFetch seen =>
      (if s_offset s <? L then JScan seen (s_offset s) else JExit seen,
       s <| s_offset := u64 (s_offset s + B) |> <| s_fetches := s_fetches s + 1 |>)
  | JScan seen off =>
      (JLoop (u64 (seen + Z.min B (L - off))), s <| s_scans := s_scans s ++ [off] |>)
  | JExit seen => if seen =? 0 then (JOut, s) else (JProc seen, s <| s_done1 := true |>)
  | JProc seen => (JSeen seen, s)
  | JSeen seen =>
      (if u64 (seen + s_seen s) =? L then JStage2 else JEnd, s <| s_seen := u64 (s_seen s + seen) |>)
  | JStage2 => (JEnd, s <| s_done2 := true |> <| s_updates := s_updates s + 1 |>)
  | JEnd => (JOut, s)
  end.

Definition jstate : Type := jshared * list jpc.

Inductive jstep : jstate -> jstate -> Prop :=
| jstep_thread s ps i p skip p' s' :
    ps !! i = Some p -> job_step skip p s = (p', s') -> jstep (s, ps) (s', <[i := p']> ps).

(** A fresh job and [n] threads. *)
Definition jstart (n : nat) : jstate := (mk_jshared 0 0 false false [] 0 0, replicate n JOut).
Definition jreachable (n : nat) (st : jstate) : Prop := rtc jstep (jstart n) st.

(** ** Invariant *)

(** The bytes a thread has taken and not yet added to [bytes_seen]. *)
Definition held (p : jpc) : Z :=
  match p with
  | JLoop seen | JFetch seen | JExit seen | JProc seen | JSeen seen => seen
  | JScan seen off => seen + Z.min B (L - off)
  | JOut | JStage2 | JEnd => 0
  end.
Definition updating (p : jpc) : Z := match p with JStage2 => 1 | _ => 0 end.
Definition scanning (p : jpc) : list Z := match p with JScan _ off => [off] | _ => [] end.

Definition jsum (f : jpc -> Z) (ps : list jpc) : Z := foldr (fun p a => f p + a) 0 ps.
Definition in_flight (ps : list jpc) : list Z := mjoin (scanning <$> ps).

(** The chunks taken after [k] fetch-and-adds. *)
Definition nr_chunks : Z := (L + B - 1) / B.
Definition taken (k : Z) : list Z := (fun i => B * i) <$> seqZ 0 (Z.min k nr_chunks).

(** What a thread's local variables promise. *)
Definition pc_ok (s : jshared) (p : jpc) : Prop :=
  match p with
  | JLoop seen | JFetch seen => 0 <= seen
  | JScan seen off => 0 <= seen /\ off < L
  | JExit seen => 0 <= seen /\ L <= s_offset s
  | JProc seen | JSeen seen => 0 < seen
  | _ => True
  end.

(** It holds as long as the [k] fetch-and-adds have not wrapped [offset]. *)
Record jinv (s : jshared) (ps : list jpc) (k : Z) : Prop := {
  ji_k : 0 <= k;
  ji_fetches : s_fetches s = k;
  ji_offset : s_offset s = B * k;
  ji_seen : s_seen s + jsum held ps = Z.min (s_offset s) L;
  ji_seen0 : 0 <= s_seen s;
  ji_done1 : s_done1 s = true -> L <= s_offset s;
  ji_scans : s_scans s ++ in_flight ps ≡ₚ taken k;
  ji_updates : s_updates s + jsum updating ps = if s_seen s =? L then 1 else 0;
  ji_updates0 : 0 <= s_updates s;
  ji_done2 : s_done2 s = true -> s_seen s = L;
  ji_pc : Forall (pc_ok s) ps;
}.

End job.

Lemma jsum_cons f p ps : jsum f (p :: ps) = f p + jsum f ps.
Proof. reflexivity. Qed.

Lemma jsum_insert f ps i p q : ps !! i = Some p -> jsum f (<[i := q]> ps) = jsum f ps - f p + f q.
Proof.
  revert i. induction ps as [|r ps IH]; intros [|i] H; [done..| |].
  - injection H as ->. change (<[0%nat := q]> (p :: ps)) with (q :: ps). rewrite !jsum_cons. lia.
  - change (<[S i := q]> (r :: ps)) with (r :: <[i := q]> ps). rewrite !jsum_cons, (IH _ H). lia.
Qed.

Lemma jsum_nonneg f ps : Forall (fun p => 0 <= f p) ps -> 0 <= jsum f ps.
Proof. induction 1 as [|p ps Hp _ IH]; [done|]. rewrite jsum_cons. lia. Qed.

Lemma jsum_lookup f ps i p :
  Forall (fun p => 0 <= f p) ps -> ps !! i = Some p -> f p <= jsum f ps.
Proof.
  intros H. revert i. induction H as [|r ps Hr Hps IH]; intros [|i] Hi; [done..| |]; rewrite jsum_cons.
  - injection Hi as ->. pose proof (jsum_nonneg f ps Hps). lia.
  - specialize (IH _ Hi). lia.
Qed.

Lemma in_flight_insert ps i p q :
  ps !! i = Some p -> scanning p ++ in_flight (<[i := q]> ps) ≡ₚ scanning q ++ in_flight ps.
Proof.
  unfold in_flight. revert i. induction ps as [|r ps IH]; intros [|i] H; [done..| |]; cbn.
  - injection H as ->. rewrite !app_assoc. by rewrite (Permutation_app_comm (scanning p)).
  - specialize (IH _ H). rewrite !app_assoc, !(Permutation_app_comm _ (scanning r)), <- !app_assoc.
    by rewrite IH.
Qed.

Section proofs.
Context (L B : Z) (HL : 0 < L < 2 ^ 64) (HB : 0 < B).

Lemma pc_ok_held s p : pc_ok L s p -> 0 <= held L B p.
Proof. destruct p; cbn; lia. Qed.

(** Conditions on local variables survive when the offset only grows. *)
Lemma pc_ok_mono s s' p : s_offset s <= s_offset s' -> pc_ok L s p -> pc_ok L s' p.
Proof. intros H. destruct p; cbn; lia. Qed.

Lemma taken_step k :
  0 <= k -> taken L B (k + 1) = taken L B k ++ (if B * k <? L then [B * k] else []).
Proof.
  intros Hk. unfold taken.
  assert (Hn : B * k < L <-> k < nr_chunks L B).
  { unfold nr_chunks. split; intros H.
    - apply Z.lt_le_trans with (k + 1); [lia|]. apply Z.div_le_lower_bound; nia.
    - pose proof (Z.mul_div_le (L + B - 1) B HB). nia. }
  destruct (Z.ltb_spec (B * k) L) as [Hlt|Hge].
  - rewrite !Z.min_l by lia. rewrite seqZ_app, fmap_app by lia. f_equal.

  - rewrite !Z.min_r by lia. by rewrite app_nil_r.
Qed.

Lemma jinv_start n : jinv L B (jstart n).1 (jstart n).2 0.
Proof.
  assert (Hs : forall f, f JOut = 0 -> jsum f (replicate n JOut) = 0).
  { intros f Hf. induction n as [|m IH]; [done|]. cbn [replicate]. rewrite jsum_cons, IH. lia. }
  split; cbn [jstart fst snd s_offset s_seen s_done1 s_done2 s_scans s_updates s_fetches]; try done; try lia.
  - rewrite Hs by done. lia.
  - assert (in_flight (replicate n JOut) = []) as -> by (clear; induction n as [|m IH]; [done|exact IH]).
    unfold taken. rewrite Z.min_l; [done|]. apply Z.div_pos; lia.
  - rewrite Hs by done. by rewrite (proj2 (Z.eqb_neq _ _)) by lia.
  - apply Forall_replicate. exact I.
Qed.

Section thread.
Context s ps k i p (Hj : jinv L B s ps k) (Hi : ps !! i = Some p).

Lemma pc_ok_here : pc_ok L s p.
Proof. eapply Forall_lookup_1; [apply (ji_pc _ _ _ _ _ Hj)|exact Hi]. Qed.

Lemma pc_ok_insert q s' : s_offset s <= s_offset s' -> pc_ok L s' q -> Forall (pc_ok L s') (<[i := q]> ps).
Proof.
  intros Hle Hq. apply Forall_insert; [|done]. eapply List.Forall_impl; [|apply (ji_pc _ _ _ _ _ Hj)]. intros r. by apply pc_ok_mono.
Qed.

Lemma held_bounds : 0 <= jsum (held L B) ps /\ held L B p <= jsum (held L B) ps /\ 0 <= jsum updating ps /\ updating p <= jsum updating ps.
Proof.
  assert (Forall (fun p => 0 <= held L B p) ps) as Hheld
    by (eapply List.Forall_impl; [|apply (ji_pc _ _ _ _ _ Hj)]; intros q; apply pc_ok_held).
  assert (Forall (fun p => 0 <= updating p) ps) as Hupd by (apply Forall_forall; intros q _; by destruct q).
  split; [by apply jsum_nonneg|]. split; [by eapply jsum_lookup|]. split; [by apply jsum_nonneg|by eapply jsum_lookup].
Qed.

(** A step that only moves the thread; the first stage may be declared done
    once the end of the log is reached. *)
Lemma jinv_move p' d :
  (d = true -> L <= s_offset s) -> held L B p' = held L B p -> updating p' = updating p -> scanning p' = scanning p -> pc_ok L s p' ->
  jinv L B (s <| s_done1 := d |>) (<[i := p']> ps) k.
Proof.
  intros Hd E1 E2 E3 Hp. pose proof (jsum_insert (held L B) ps i p p' Hi) as Hh. pose proof (jsum_insert updating ps i p p' Hi) as Hu.
  pose proof (in_flight_insert ps i p p' Hi) as Hf. rewrite E3 in Hf. apply Permutation_app_inv_l in Hf.
  destruct Hj. split; try done; cbn [s_offset s_seen s_done1 s_done2 s_scans s_updates s_fetches set_field]; try lia; [by rewrite Hf|].
  apply pc_ok_insert; [done|by destruct p'].
Qed.

End thread.

(** The sums over the threads and the chunks in flight when thread [i] moves
    to [p'], and the invariant taken apart. *)
Ltac thread_facts Hj Hi p' :=
  pose proof (pc_ok_here _ _ _ _ _ Hj Hi) as Hp; pose proof (held_bounds _ _ _ _ _ Hj Hi) as (Hb0 & Hhl & Hu0 & Hul);
  pose proof (jsum_insert (held L B) _ _ _ p' Hi) as Hh; pose proof (jsum_insert updating _ _ _ p' Hi) as Hu;
  pose proof (in_flight_insert _ _ _ p' Hi) as Hf; pose proof (fun i => pc_ok_insert _ _ _ i Hj) as Hins;
  destruct Hj as [Hk Hkf Ho Hseen H0 Hd1 Hsc Hup Hup0 Hd2 Hpc].

Lemma jinv_fetch s ps k i seen :
  B * (k + 1) < 2 ^ 64 -> jinv L B s ps k -> ps !! i = Some (JFetch seen) ->
  jinv L B (s <| s_offset := u64 (s_offset s + B) |> <| s_fetches := s_fetches s + 1 |>)
    (<[i := if s_offset s <? L then JScan seen (s_offset s) else JExit seen]> ps) (k + 1).
Proof.
  intros Hw Hj Hi. set (p' := if _ <? _ then _ else _). thread_facts Hj Hi p'.
  rewrite u64_small by nia.
  pose proof (taken_step k Hk) as Ht. rewrite <- Ho in Ht. subst p'. cbn [pc_ok] in Hp.
  destruct (Z.ltb_spec (s_offset s) L); cbn [held updating scanning app] in *.
  all: split; cbn [s_offset s_seen s_done1 s_done2 s_scans s_updates s_fetches set_field] in *; try done; try lia;
    try (intros Hd; specialize (Hd1 Hd); lia); try (apply Hins; cbn; lia).
  - rewrite Ht, Hf, <- Hsc, <- Permutation_cons_append. symmetry. apply Permutation_middle.
  - by rewrite Ht, Hf, app_nil_r.
Qed.

Lemma jinv_scan s ps k i seen off :
  jinv L B s ps k -> ps !! i = Some (JScan seen off) ->
  jinv L B (s <| s_scans := s_scans s ++ [off] |>) (<[i := JLoop (u64 (seen + Z.min B (L - off)))]> ps) k.
Proof.
  intros Hj Hi. thread_facts Hj Hi (JLoop (u64 (seen + Z.min B (L - off)))). cbn [held updating scanning app pc_ok] in *.
  rewrite u64_small in * by lia.
  split; cbn [s_offset s_seen s_done1 s_done2 s_scans s_updates s_fetches set_field] in *; try done; try lia; [|apply Hins; cbn; lia].
  rewrite <- app_assoc. cbn. by rewrite Hf.
Qed.

Lemma jinv_seen s ps k i seen :
  jinv L B s ps k -> ps !! i = Some (JSeen seen) ->
  jinv L B (s <| s_seen := u64 (s_seen s + seen) |>) (<[i := if u64 (seen + s_seen s) =? L then JStage2 else JEnd]> ps) k.
Proof.
  intros Hj Hi. set (p' := if _ =? _ then _ else _). thread_facts Hj Hi p'. subst p'. cbn [held pc_ok] in Hh, Hhl, Hp.
  assert (Hlt : s_seen s < L) by lia. rewrite !u64_small in * by lia. rewrite (proj2 (Z.eqb_neq (s_seen s) L)) in Hup by lia.
  destruct (Z.eqb_spec (seen + s_seen s) L); cbn [held updating scanning app] in *.
  all: split; cbn [s_offset s_seen s_done1 s_done2 s_scans s_updates s_fetches set_field] in *; try done; try lia;
    try (intros Hd; specialize (Hd2 Hd); lia); try (apply Hins; cbn; lia); try (by rewrite Hf).
  - rewrite (proj2 (Z.eqb_eq _ _)) by lia. lia.
  - rewrite (proj2 (Z.eqb_neq _ _)) by lia. lia.
Qed.

Lemma jinv_stage2 s ps k i :
  jinv L B s ps k -> ps !! i = Some JStage2 -> jinv L B (s <| s_done2 := true |> <| s_updates := s_updates s + 1 |>) (<[i := JEnd]> ps) k.
Proof.
  intros Hj Hi. thread_facts Hj Hi JEnd. cbn [held updating scanning app] in *.
  split; cbn [s_offset s_seen s_done1 s_done2 s_scans s_updates s_fetches set_field] in *; try done; try lia.
  - by rewrite Hf.
  - intros _. destruct (Z.eqb_spec (s_seen s) L); [done|lia].
  - apply Hins; cbn; lia.
Qed.

Lemma jinv_step s ps k i p skip p' s' :
  B * s_fetches s' < 2 ^ 64 -> jinv L B s ps k -> ps !! i = Some p -> job_step L B skip p s = (p', s') ->
  exists k', jinv L B s' (<[i := p']> ps) k'.
Proof.
  intros Hw Hj Hi Hst. pose proof (ji_fetches _ _ _ _ _ Hj) as Hkf. pose proof (pc_ok_here s ps k i p Hj Hi) as Hp. pose proof (ji_done1 _ _ _ _ _ Hj) as Hd1.
  assert (forall q, held L B q = held L B p -> updating q = updating p -> scanning q = scanning p -> pc_ok L s q -> jinv L B s (<[i := q]> ps) k) as Hmove.
  { intros q E1 E2 E3 Hq. pose proof (jinv_move s ps k i p Hj Hi q (s_done1 s) Hd1 E1 E2 E3 Hq) as H.
    by replace (s <| s_done1 := s_done1 s |>) with s in H by by destruct s. }
  destruct p as [|seen|seen|seen off|seen|seen|seen| |]; cbn [job_step] in Hst; cbn [pc_ok] in Hp.
  - exists k. destruct (s_done2 s), skip, (s_done1 s); injection Hst as <- <-; by apply Hmove.
  - exists k. destruct (s_done1 s); injection Hst as <- <-; apply Hmove; cbn; auto with lia.
  - exists (k + 1). injection Hst as <- <-. cbn in Hw. rewrite Hkf in Hw. by apply jinv_fetch.
  - exists k. injection Hst as <- <-. by apply jinv_scan.
  - exists k. destruct (Z.eqb_spec seen 0) as [->|]; injection Hst as <- <-; [by apply Hmove|].
    eapply jinv_move; [done|exact Hi|cbn; lia|done|done|done|cbn; lia].
  - exists k. injection Hst as <- <-. apply Hmove; cbn; auto with lia.
  - exists k. injection Hst as <- <-. by apply jinv_seen.
  - exists k. injection Hst as <- <-. by apply jinv_stage2.
  - exists k. injection Hst as <- <-. by apply Hmove.
Qed.

(** The count of fetch-and-adds only grows. *)
Lemma jstep_fetches st st' : jstep L B st st' -> s_fetches st.1 <= s_fetches st'.1.
Proof.
  destruct 1 as [s ps i p skip p' s' _ Hst]. cbn.
  destruct p; cbn in Hst; repeat case_match; injection Hst as <- <-; cbn; lia.
Qed.

Lemma jreachable_inv n st :
  jreachable L B n st -> B * s_fetches st.1 < 2 ^ 64 -> exists k, jinv L B st.1 st.2 k.
Proof.
  unfold jreachable. apply (rtc_ind_r (fun st => B * s_fetches st.1 < 2 ^ 64 -> exists k, jinv L B st.1 st.2 k)).
  { intros _. exists 0. apply jinv_start. }
  intros y z _ Hyz IH Hw. pose proof (jstep_fetches _ _ Hyz). destruct IH as [k Hk]; [nia|].
  destruct Hyz as [s ps i p skip p' s' Hi Hst]. by eapply jinv_step.
Qed.

(** When all bytes have been seen, no thread holds any. *)
Lemma all_seen s ps k :
  jinv L B s ps k -> s_seen s = L ->
  s_scans s ≡ₚ (fun i => B * i) <$> seqZ 0 (nr_chunks L B) /\ Forall (fun p => held L B p = 0) ps.
Proof.
  intros [Hk _ Ho Hseen _ _ Hsc _ _ _ Hpc] Hs.
  assert (Hheld : Forall (fun p => 0 <= held L B p) ps)
    by (eapply List.Forall_impl; [|exact Hpc]; intros q; apply pc_ok_held).
  pose proof (jsum_nonneg _ _ Hheld) as H0.
  assert (Hz : Forall (fun p => held L B p = 0) ps).
  { apply Forall_lookup. intros i p Hi. pose proof (jsum_lookup _ _ _ _ Hheld Hi).
    pose proof (Forall_lookup_1 _ _ _ _ Hheld Hi) as Hp. cbn in Hp. lia. }
  split; [|done].
  assert (in_flight ps = []) as E.
  { clear -HL HB Hz Hpc. induction ps as [|p ps IH]; [done|].
    change (in_flight (p :: ps)) with (scanning p ++ in_flight ps).
    apply Forall_cons_1 in Hz as [Hp Hz], Hpc as [Hok Hpc].
    rewrite (IH Hpc Hz), app_nil_r. destruct p; try done. cbn in *. lia. }
  rewrite E, app_nil_r in Hsc. rewrite Hsc. unfold taken. rewrite Z.min_r; [done|].
  unfold nr_chunks.
  assert (L + B - 1 < B * (k + 1)) by (rewrite Z.mul_add_distr_l; lia).
  enough ((L + B - 1) / B < k + 1) by lia. apply Z.div_lt_upper_bound; lia.
Qed.

End proofs.

(** C5: However many threads work on a job, in whatever order, as long as
    the fetch-and-adds on [offset] have not wrapped it around (their number
    times [job_bytes] is below 2^64): when a thread is about to update the
    area's header, or the job is marked done, the log of the area has been
    scanned chunk by chunk, every chunk by exactly one thread, and every
    thread that scanned chunks has copied the changes it found; the header is
    updated at most once, and exactly once when the job is marked done. *)
Theorem job_chunks_once L B n s ps :
  0 < L < 2 ^ 64 -> 0 < B -> jreachable L B n (s, ps) -> B * s_fetches s < 2 ^ 64 ->
  s_updates s <= 1 /\ (s_done2 s = true -> s_updates s + jsum updating ps = 1) /\
  (s_done2 s = true \/ (exists i, ps !! i = Some JStage2) ->
   s_seen s = L /\
   s_scans s ≡ₚ (fun i => B * i) <$> seqZ 0 (nr_chunks L B) /\
   (forall i p, ps !! i = Some p -> held L B p = 0)).
Proof.
  intros HL HB Hr Hw. destruct (jreachable_inv L B HL HB n (s, ps) Hr Hw) as [k Hinv].
  pose proof Hinv as [_ _ _ _ _ _ _ Hup Hup0 Hd2 Hpc]. cbn [fst snd] in Hup, Hup0, Hd2, Hpc.
  assert (Hupd : Forall (fun p => 0 <= updating p) ps)
    by (apply Forall_forall; intros q _; by destruct q).
  pose proof (jsum_nonneg _ _ Hupd) as Hu0.
  split; [destruct (s_seen s =? L); lia|]. split.
  { intros Hd. rewrite Hup. by rewrite (proj2 (Z.eqb_eq _ _) (Hd2 Hd)). }
  intros Hor. assert (Hs : s_seen s = L).
  { destruct Hor as [Hd|[i Hi]]; [auto|]. pose proof (jsum_lookup _ _ _ _ Hupd Hi) as H1. cbn in H1.
    destruct (Z.eqb_spec (s_seen s) L); [done|lia]. }
  destruct (all_seen L B HB s ps k Hinv Hs) as [Hsc Hz]. split; [done|]. split; [done|].
  intros i p Hi. by apply (Forall_lookup_1 _ _ _ _ Hz Hi).
Qed.

(** Two threads share a job of three chunks. *)
Definition done_job : jstate :=
  (mk_jshared 500 250 true true [0; 200; 100] 1 5, [JEnd; JOut]).

(** Thread [i], at [p], takes a step. *)
Ltac jgo i p := eapply rtc_l; [eapply (jstep_thread _ _ _ _ i p false); reflexivity|]; cbn.

Lemma done_job_reachable : jreachable 250 100 2 done_job.
Proof.
  unfold jreachable, jstart, done_job. cbn [replicate].
  jgo 0%nat JOut. jgo 1%nat JOut. jgo 0%nat (JLoop 0). jgo 0%nat (JFetch 0). jgo 1%nat (JLoop 0).
  jgo 0%nat (JScan 0 0). jgo 1%nat (JFetch 0). jgo 0%nat (JLoop 100). jgo 0%nat (JFetch 100).
  jgo 0%nat (JScan 100 200). jgo 0%nat (JLoop 150). jgo 0%nat (JFetch 150). jgo 1%nat (JScan 0 100).
  jgo 1%nat (JLoop 100). jgo 1%nat (JFetch 100). jgo 1%nat (JExit 100). jgo 1%nat (JProc 100).
  jgo 1%nat (JSeen 100). jgo 0%nat (JExit 150). jgo 0%nat (JProc 150). jgo 1%nat JEnd.
  jgo 0%nat (JSeen 150). jgo 0%nat JStage2. reflexivity.
Qed.

Lemma job_chunks_once_witness :
  s_scans done_job.1 ≡ₚ [0; 100; 200] /\ s_updates done_job.1 <= 1.
Proof.
  destruct (job_chunks_once 250 100 2 done_job.1 done_job.2) as (H1 & _ & H2).
  - lia.
  - lia.
  - exact done_job_reachable.
  - reflexivity.
  - split; [|exact H1]. apply H2. by left.
Defined.

(** The bound is needed: while thread 0 holds the only chunk, thread 1 polls
    the job. Here [job_bytes] is 2^63, so its second call finds [offset] at 0
    again and scans the same chunk; with the 128 KiB of the code the same takes
    2^47 calls. *)
Lemma offset_wrap_rescans :
  exists s ps, jreachable 100 (2 ^ 63) 2 (s, ps) /\ s_scans s = [0; 0] /\ s_fetches s = 3.
Proof.
  do 2 eexists. split; [|split]; cycle 1.
  - instantiate (1 := mk_jshared (2 ^ 63) 0 false false [0; 0] 0 3). reflexivity.
  - reflexivity.
  - unfold jreachable, jstart. cbn [replicate].
    jgo 0%nat JOut. jgo 0%nat (JLoop 0). jgo 0%nat (JFetch 0).
    jgo 1%nat JOut. jgo 1%nat (JLoop 0). jgo 1%nat (JFetch 0). jgo 1%nat (JExit 0).
    jgo 1%nat JOut. jgo 1%nat (JLoop 0). jgo 1%nat (JFetch 0). jgo 1%nat (JScan 0 0).
    jgo 0%nat (JScan 0 0). reflexivity.
Qed.
