(* ===== verification/Calls.v ===== *)
(** * Calls: the interface that breaks the cycle between the components

    The source files call each other in a cycle: tasvir_service
    (src/service.c) runs RPC handlers (src/rpc.c), which run area operations
    (src/area.c), which issue RPCs and wait for them by calling
    tasvir_service. [Calls] is the record of the operations a component
    needs from the ones that come after it; every component is defined
    against the class, and the file Service closes the cycle. This file also
    holds the loop forms and the C string functions the components share. *)
From stdpp Require Import base gmap list numbers.
From Stdlib Require Import ZArith Lia.
From S2P Require Import Prelude Defs Types Mem.

(** ** Functions that can be called remotely *)

(** The addresses of the functions registered by tasvir_init_rpc, numbered. *)
Definition fn_init_thread : Z := 1.
Definition fn_new_alloc_desc : Z := 2.
Definition fn_delete : Z := 3.
Definition fn_init_finish : Z := 4.
Definition fn_update_owner : Z := 5.
Definition fn_area_add_user : Z := 6.

Section with_dpdk.
Context `{D : Dpdk}.

(** An argument of an RPC is the list of its 64-bit words. *)
Class Calls := {
  (** [int tasvir_service()] *)
  tasvir_service : cmd world Z;
  (** [tasvir_rpc(d, fn, args...)]: the index of the status in [status_l],
      [None] for NULL. *)
  tasvir_rpc : Z -> Z -> list (list Z) -> cmd world (option Z);
  (** [tasvir_rpc_wait(timeout_us, &ret, d, fn, args...)]: the words copied
      to [ret], [None] for the return code -1. *)
  tasvir_rpc_wait : Z -> Z -> Z -> list (list Z) -> cmd world (option (list Z));
}.

(** ** Loops *)

(** [for (size_t i = i0; i < bound; i++) body(i)], the bound read again
    before every iteration. *)
Fixpoint for_upto (fuel : nat) (i : Z) (bound : cmd world Z) (body : Z -> cmd world unit) :
    cmd world unit :=
  match fuel with
  | O => fail NoFuel
  | S fuel' =>
      n ← bound;
      if i <? n then body i;; for_upto fuel' (i + 1) bound body else mret tt
  end.

(** The same, stopped by the first index at which [p] holds. *)
Fixpoint find_upto (fuel : nat) (i : Z) (bound : cmd world Z) (p : Z -> cmd world bool) :
    cmd world (option Z) :=
  match fuel with
  | O => fail NoFuel
  | S fuel' =>
      n ← bound;
      if i <? n then
        b ← p i;
        if (b : bool) then mret (Some i) else find_upto fuel' (i + 1) bound p
      else mret None
  end.

(** [end_tsc = __rdtsc() + tasvir_usec2tsc(us)] *)
Definition deadline (us : Z) : cmd world Z :=
  t ← rdtsc; dt ← tasvir_usec2tsc us; mret (u64 (t + dt)).

(** [while (__rdtsc() < end_tsc && !try()) { pause }]: the last result. *)
Fixpoint poll (fuel : nat) (end_tsc : Z) (retval : option Z) (try : cmd world Z)
    (ok : Z -> bool) (pause : cmd world unit) : cmd world (option Z) :=
  match fuel with
  | O => fail NoFuel
  | S fuel' =>
      t ← rdtsc;
      if t <? end_tsc then
        r ← try;
        if ok r then mret (Some r) else pause;; poll fuel' end_tsc (Some r) try ok pause
      else mret retval
  end.

End with_dpdk.
Arguments Calls {D}.

(** ** C strings *)

(** The bytes of little-endian words. *)
Definition bytes_of_words (ws : list Z) : list Z :=
  mjoin ((fun w => (fun i => u8 (Z.shiftr w (8 * i))) <$> seqZ 0 8) <$> ws).

(** The characters [strncmp(s, _, n)] looks at: up to the first NUL. *)
Fixpoint cstr (n : nat) (s : list Z) : list Z :=
  match n, s with
  | S n', c :: s' => if c =? 0 then [] else c :: cstr n' s'
  | _, _ => []
  end.

(** [strncmp(a, b, n) == 0] *)
Definition strneq (n : nat) (a b : list Z) : bool := bool_decide (cstr n a = cstr n b).

Definition slash : Z := 47.

(** The tokens [strtok(s, "/")] yields, [cur] the one being read. *)
Fixpoint strtok (s cur : list Z) : list (list Z) :=
  match s with
  | [] => if bool_decide (cur = []) then [] else [cur]
  | c :: s' =>
      if c =? slash
      then if bool_decide (cur = []) then strtok s' [] else cur :: strtok s' []
      else strtok s' (cur ++ [c])
  end.
