(* ===== verification/Area.v ===== *)
(** * Area: creation, lookup, subscription and ownership of areas (src/area.c)

    An area is a descriptor [tasvir_area_desc] in the data of its parent
    container, and a header followed by user data and four difference logs.
    The definitions follow src/area.c one by one; the operations that issue
    RPCs or wait are defined against the class [Calls]. AreaProofs holds the
    theorems. *)
From stdpp Require Import base gmap list numbers.
From Stdlib Require Import ZArith Lia.
From S2P Require Import Prelude Defs Types Mem Log Net Sync Calls.

(** A [tasvir_area_desc] passed by value; the name is its four words. *)
Record area_desc := mk_desc {
  ad_pd : Z;
  ad_h : Z;
  ad_owner : Z;
  ad_len : Z;
  ad_offset_log_end : Z;
  ad_nr_areas_max : Z;
  ad_name : list Z;
  ad_boot_us : Z;
  ad_sync_int_us : Z;
  ad_sync_ext_us : Z;
  ad_type : Z;
}.
#[export] Instance eta_area_desc : Eta area_desc := fun r =>
  mk_desc (ad_pd r) (ad_h r) (ad_owner r) (ad_len r) (ad_offset_log_end r) (ad_nr_areas_max r)
    (ad_name r) (ad_boot_us r) (ad_sync_int_us r) (ad_sync_ext_us r) (ad_type r).

(** Its words in memory, and back. *)
Definition desc_words (a : area_desc) : list Z :=
  [ad_pd a; ad_h a; ad_owner a; ad_len a; ad_offset_log_end a; ad_nr_areas_max a]
  ++ take 4 (ad_name a ++ replicate 4 0) ++ [ad_boot_us a; ad_sync_int_us a; ad_sync_ext_us a; ad_type a].
Definition desc_of_words (ws : list Z) : area_desc :=
  let f i := default 0 (ws !! i) in
  mk_desc (f 0%nat) (f 1%nat) (f 2%nat) (f 3%nat) (f 4%nat) (f 5%nat)
    [f 6%nat; f 7%nat; f 8%nat; f 9%nat] (f 10%nat) (f 11%nat) (f 12%nat) (f 13%nat).

Section with_dpdk.
Context `{D : Dpdk}.

(** ** Predicates *)

Definition area_type (d : Z) : cmd world Z := t ← load (d + desc_type); mret (lo32 t).
Definition flags_of (h : Z) : cmd world Z := load (h + hdr_flags).

Definition tasvir_area_is_active (d : Z) : cmd world bool :=
  if d =? 0 then mret false
  else
    owner ← load (d + desc_owner); h ← load (d + desc_h);
    if (owner =? 0) || (h =? 0) then mret false
    else f ← flags_of h; mret (has_flag f TASVIR_AREA_FLAG_ACTIVE).

(** [d->h] is read before [d] is compared with NULL. *)
Definition tasvir_area_is_active_local (d : Z) : cmd world bool :=
  h ← load (d + desc_h);
  let h_rw := tasvir_data2rw h in
  if d =? 0 then mret false
  else
    owner ← load (d + desc_owner);
    if (owner =? 0) || (h =? 0) then mret false
    else f ← flags_of h_rw; mret (has_flag f TASVIR_AREA_FLAG_ACTIVE).

Definition tasvir_area_is_mapped_rw (d : Z) : cmd world bool :=
  h ← load (d + desc_h);
  if h =? 0 then mret false
  else f ← flags_of h; mret (has_flag f TASVIR_AREA_FLAG_MAPPED_RW).

Definition tasvir_area_is_attached (fuel : nat) (d node : Z) : cmd world bool :=
  mynode ← ttld tl_node;
  root ← ttld tl_root_desc;
  if mynode =? 0 then
    assert_w (node =? 0);;
    t ← area_type d;
    assert_w ((d =? root) || (t =? area_type_code TASVIR_AREA_TYPE_NODE));;
    daemon ← ttld tl_daemon;
    if (daemon : bool) then
      owner ← load (d + desc_owner);
      mret (((d =? root) && negb (owner =? 0)) || (t =? area_type_code TASVIR_AREA_TYPE_NODE))
    else mret true
  else if node =? 0 then mret false
  else
    act ← tasvir_area_is_active d;
    if (act : bool) then
      h ← load (d + desc_h);
      r ← find_upto fuel 0 (load (h + hdr_nr_users))
            (fun i => n ← load (h + hdr_user_node i); mret (n =? node));
      mret (bool_decide (is_Some r))
    else mret false.

Definition tasvir_area_is_local_by_tid (d : Z) : cmd world bool :=
  owner ← load (d + desc_owner);
  tid ← load_tid owner;
  node ← ttld tl_node;
  n ← load (node + node_nid);
  mret (tid_nid tid =? Z.land n (2 ^ 48 - 1)).

Definition tasvir_area_is_owner (d t : Z) : cmd world bool :=
  root ← ttld tl_root_desc;
  let d := if d =? 0 then root else d in
  daemon ← ttld tl_daemon;
  booting ← tasvir_is_booting;
  node_desc ← ttld tl_node_desc;
  is_root ← ttld tl_is_root;
  if (daemon && booting && (d =? root))%bool then mret is_root
  else if (daemon && booting && (d =? node_desc))%bool then mret true
  else
    owner ← load (d + desc_owner);
    ty ← area_type d;
    assert_w (negb (owner =? 0) || (ty =? area_type_code TASVIR_AREA_TYPE_NODE));;
    mret (owner =? t).

(** ** Activation *)

Definition tasvir_area_activate (d : Z) (active : bool) : cmd world unit :=
  act ← tasvir_area_is_active d;
  if (act : bool) then
    rw ← tasvir_area_is_mapped_rw d;
    when rw
      (h ← load (d + desc_h);
       f ← flags_of h;
       let sleeping := has_flag f TASVIR_AREA_FLAG_SLEEPING in
       if (active && sleeping)%bool then store (h + hdr_flags) (clear_flag f TASVIR_AREA_FLAG_SLEEPING)
       else when (negb active && negb sleeping)
              (store (h + hdr_flags) (set_flag f TASVIR_AREA_FLAG_SLEEPING)))
  else mret tt.

(** ** Names *)

(** The [i]-th child of a container whose data is at [c]. *)
Definition child (c i : Z) : Z := c + i * sizeof_desc.

Definition load_name (d : Z) : cmd world (list Z) :=
  ws ← load_words 4 (d + desc_name); mret (bytes_of_words ws).

(** [strncmp(c[i].name, name, sizeof(tasvir_str)) == 0] *)
Definition name_is (c : Z) (name : list Z) (i : Z) : cmd world bool :=
  s ← load_name (child c i); mret (strneq 32 s name).

(** NULL is 0. *)
Definition tasvir_area_get_by_name (fuel : nat) (pd : Z) (name : list Z) : cmd world Z :=
  if pd =? 0 then
    root ← ttld tl_root_desc;
    mret (if default 0 (name !! 0%nat) =? slash then root else 0)
  else
    ty ← area_type pd;
    h ← load (pd + desc_h);
    if negb (ty =? area_type_code TASVIR_AREA_TYPE_CONTAINER) || (h =? 0) then mret 0
    else
      hd ← load (h + hdr_d);
      if hd =? 0 then mret 0
      else
        c ← tasvir_data pd;
        r ← find_upto fuel 0 (load (h + hdr_nr_areas)) (name_is c name);
        mret (match r with Some i => child c i | None => 0 end).

(** [buf_size - 1] characters follow the leading slash; [strncpy] pads with
    NULs and leaves no terminator when the name is longer. *)
Definition tasvir_area_normalize_name (name : list Z) (buf_size : nat) : list Z :=
  let name := cstr (length name) name in
  let rest := if default 0 (name !! 0%nat) =? slash then drop 1 name else name in
  slash :: take (buf_size - 1) (rest ++ replicate (buf_size - 1) 0).

(** ** Walking the tree of areas (daemon) *)

Fixpoint tasvir_area_walk (fuel : nat) (d : Z) (fnptr : Z -> cmd world Z) : cmd world Z :=
  match fuel with
  | O => fail NoFuel
  | S fuel' =>
      act ← tasvir_area_is_active_local d;
      if (act : bool) then
        r ← fnptr d;
        ty ← area_type d;
        if ty =? area_type_code TASVIR_AREA_TYPE_CONTAINER then
          c ← tasvir_data d;
          h ← load (d + desc_h);
          (fix children (n : nat) (i retval : Z) : cmd world Z :=
             match n with
             | O => fail NoFuel
             | S n' =>
                 nr ← load (h + hdr_nr_areas);
                 if i <? nr then
                   v ← tasvir_area_walk fuel' (child c i) fnptr;
                   children n' (i + 1) (u64 (retval + v))
                 else mret retval
             end) fuel 0 r
        else mret r
      else mret 0
  end.

(** ** Mapping *)

Definition tasvir_update_va (d : Z) (is_rw : bool) : cmd world unit :=
  rw ← tasvir_area_is_mapped_rw d;
  if bool_decide (rw = is_rw) then mret tt
  else
    len ← load (d + desc_offset_log_end);
    h ← load (d + desc_h);
    ok ← gets (fun w => w_mmap_ok w h);
    if (ok : bool) then
      modify (fun w => w <| w_maps := mk_vmap h len is_rw :: w_maps w |>);;
      when is_rw (f ← flags_of h; store (h + hdr_flags) (set_flag f TASVIR_AREA_FLAG_MAPPED_RW))
    else fail Abort.

Context `{!Calls}.

(** ** Ownership *)

(** [s->do_free = true]; a NULL status is dereferenced. *)
Definition set_do_free (s : option Z) : cmd world unit :=
  match s with
  | None => fail Segv
  | Some i => mod_tl (fun t => t <| tl_status_l :=
      <[i := (default status_zero (tl_status_l t !! i)) <| rs_do_free := true |>]> (tl_status_l t) |>)
  end.

Definition or_flags (h mask : Z) : cmd world unit :=
  f ← flags_of h; store (h + hdr_flags) (set_flag f mask).
Definition and_not_flags (h mask : Z) : cmd world unit :=
  f ← flags_of h; store (h + hdr_flags) (clear_flag f mask).

(** [while (__rdtsc() < end_tsc && d->owner != owner) tasvir_service()] *)
Fixpoint wait_owner (fuel : nat) (end_tsc d owner : Z) : cmd world unit :=
  match fuel with
  | O => fail NoFuel
  | S fuel' =>
      t ← rdtsc;
      if t <? end_tsc then
        o ← load (d + desc_owner);
        if o =? owner then mret tt else tasvir_service;; wait_owner fuel' end_tsc d owner
      else mret tt
  end.

(** The roles of this thread in a change of the owner of [d] to [owner]:
    new owner, old owner, owner of the parent. *)
Definition owner_roles (d owner : Z) : cmd world (bool * bool * bool) :=
  thread ← ttld tl_thread;
  booting ← tasvir_is_booting;
  if (booting : bool) then
    root ← ttld tl_root_desc; node_desc ← ttld tl_node_desc;
    assert_w ((d =? root) || negb (node_desc =? 0));;
    is_root ← ttld tl_is_root;
    mret (true, true, is_root)
  else
    o ← load (d + desc_owner);
    pd ← load (d + desc_pd);
    po ← (if pd =? 0 then mret o else load (pd + desc_owner));
    mret (thread =? owner, thread =? o, thread =? po).

Definition tasvir_update_owner (fuel : nat) (d owner : Z) : cmd world Z :=
  thread ← ttld tl_thread;
  assert_w (negb (d =? 0) && negb (thread =? 0) && negb (owner =? 0));;
  '(is_new_owner, is_old_owner, is_parent_owner) ← owner_roles d owner;
  h ← load (d + desc_h);
  let h_rw := tasvir_data2rw h in
  let h_ro := tasvir_data2ro h in
  (if (is_new_owner : bool) then
     tasvir_update_va d true;;
     or_flags h_rw TASVIR_AREA_FLAG_LOCAL;;
     or_flags h_ro TASVIR_AREA_FLAG_LOCAL;;
     o ← load (d + desc_owner);
     if negb is_old_owner then
       s ← tasvir_rpc d fn_update_owner [[d]; [owner]]; set_do_free s
     else when (negb (o =? owner) && negb is_parent_owner)
       (pd ← load (d + desc_pd);
        s ← tasvir_rpc pd fn_update_owner [[d]; [owner]]; set_do_free s)
   else when is_old_owner
     (tasvir_update_va d false;;
      t1 ← load_tid owner;
      o ← load (d + desc_owner);
      t2 ← load_tid o;
      when (negb (tid_nid t1 =? tid_nid t2))
        (and_not_flags h_rw TASVIR_AREA_FLAG_LOCAL;; and_not_flags h_ro TASVIR_AREA_FLAG_LOCAL)));;
  when is_parent_owner (tasvir_log (d + desc_owner) 8;; store (d + desc_owner) owner);;
  end_tsc ← deadline (100 * MS2US);
  wait_owner fuel end_tsc d owner;;
  o ← load (d + desc_owner);
  mret (if o =? owner then 0 else -1).

(** ** Creation *)

(** The header address for the next child of the container at [pd]. *)
Definition next_child_h (pd c nr : Z) : cmd world Z :=
  if 0 <? nr then
    h ← load (child c (nr - 1) + desc_h); len ← load (child c (nr - 1) + desc_len);
    mret (TASVIR_ALIGN (h + len))
  else
    m ← load (pd + desc_nr_areas_max);
    mret (TASVIR_ALIGN (c + m * sizeof_desc)).

(** Reserve a descriptor and space for a child: [None] is an error. *)
Definition alloc_child (fuel : nat) (desc : area_desc) : cmd world (option (Z * Z)) :=
  let pd := ad_pd desc in
  c ← tasvir_data pd;
  ph ← load (pd + desc_h);
  nr ← load (ph + hdr_nr_areas);
  m ← load (pd + desc_nr_areas_max);
  if m <=? nr then mret None
  else
    dup ← find_upto fuel 0 (load (ph + hdr_nr_areas)) (name_is c (bytes_of_words (ad_name desc)));
    match dup with
    | Some _ => mret None
    | None =>
        h ← next_child_h pd c nr;
        log0 ← load_diff_log ph 0 log_data;
        if log0 <=? u64 (h + ad_len desc) then mret None
        else
          tasvir_log (ph + hdr_nr_areas) 8;;
          store (ph + hdr_nr_areas) (u64 (nr + 1));;
          mret (Some (child c nr, h))
    end.

(** Fill the descriptor at [d]; the root's is also written to the writer
    copy. *)
Definition write_desc (d h : Z) (desc : area_desc) : cmd world unit :=
  root ← ttld tl_root_desc;
  node_desc ← ttld tl_node_desc;
  tasvir_log d sizeof_desc;;
  ext ← (if negb (node_desc =? 0) && (ad_type desc =? area_type_code TASVIR_AREA_TYPE_NODE)
         then load (node_desc + desc_sync_ext_us) else mret (ad_sync_ext_us desc));
  now ← tasvir_time_us;
  let desc := desc <| ad_h := h |> <| ad_sync_ext_us := ext |> <| ad_boot_us := now |> in
  store_words d (desc_words desc);;
  when (d =? root) (store_words (tasvir_data2rw d) (desc_words desc)).

Definition tasvir_new_alloc_desc (fuel : nat) (desc : area_desc) : cmd world Z :=
  thread ← ttld tl_thread;
  own ← tasvir_area_is_owner (ad_pd desc) thread;
  if negb own then
    r ← tasvir_rpc_wait S2US (ad_pd desc) fn_new_alloc_desc [desc_words desc];
    mret (match r with Some ws => default 0 (ws !! 0%nat) | None => 0 end)
  else
    root ← ttld tl_root_desc;
    slot ← (if ad_pd desc =? 0 then h ← load (root + desc_h); mret (Some (root, h))
            else alloc_child fuel desc);
    match slot with
    | None => mret 0
    | Some (d, h) => write_desc d h desc;; mret d
    end.

(** The sizes tasvir_new computes: metadata, end of the logged part, offset
    of the difference logs, size of one of them, total length. *)
Definition area_sizes (type nr_areas_max len : Z) : Z * Z * Z * Z * Z :=
  let size_metadata := u64 (sizeof_header + nr_areas_max * sizeof_desc) in
  let offset_log_end :=
    TASVIR_ALIGN (size_metadata + (if type =? area_type_code TASVIR_AREA_TYPE_CONTAINER then 0 else len)) in
  let offset_log := TASVIR_ALIGN (size_metadata + len) in
  let size_log := TASVIR_ALIGNX (Z.shiftr offset_log_end TASVIR_SHIFT_BYTE) 8 in
  (size_metadata, offset_log_end, offset_log, size_log,
   u64 (offset_log + TASVIR_ALIGN (TASVIR_NR_AREA_LOGS * size_log))).

(** The defaults of the descriptor. *)
Definition new_defaults (desc : area_desc) (thread node root : Z) : area_desc :=
  let desc := if ad_sync_int_us desc =? 0 then desc <| ad_sync_int_us := TASVIR_SYNC_INTERNAL_US |> else desc in
  let desc := if ad_sync_ext_us desc =? 0 then desc <| ad_sync_ext_us := TASVIR_SYNC_EXTERNAL_US |> else desc in
  let desc := if ad_type desc =? 0 then desc <| ad_type := area_type_code TASVIR_AREA_TYPE_APP |> else desc in
  let desc := desc <| ad_owner := thread |> in
  if (ad_pd desc =? 0) && negb (node =? 0) then desc <| ad_pd := root |> else desc.

(** [while (__rdtsc() < end_tsc)] until the descriptor has arrived. *)
Fixpoint wait_boot_desc (fuel : nat) (end_tsc d : Z) : cmd world unit :=
  match fuel with
  | O => fail NoFuel
  | S fuel' =>
      t ← rdtsc;
      if t <? end_tsc then
        h ← load (d + desc_h);
        owner ← load (d + desc_owner);
        run ← (if owner =? 0 then mret true
               else s ← load_thread_state owner; mret (s =? thread_state_code TASVIR_THREAD_STATE_RUNNING));
        if negb (h =? 0) && run then mret tt else tasvir_service;; wait_boot_desc fuel' end_tsc d
      else mret tt
  end.

(** [diff_log[i]] of a new area. *)
Definition init_diff_log (h time_us offset_log size_log i : Z) : cmd world unit :=
  store (h + hdr_diff_log i + log_version_start) 0;;
  store (h + hdr_diff_log i + log_version_end) 0;;
  store (h + hdr_diff_log i + log_start_us) time_us;;
  store (h + hdr_diff_log i + log_end_us) 0;;
  store (h + hdr_diff_log i + log_data) (u64 (h + offset_log + i * size_log)).

(** The header of a new area. *)
Definition init_header (d h offset_log size_log : Z) : cmd world unit :=
  tasvir_log (h + hdr_d) (sizeof_header - hdr_d);;
  or_flags h TASVIR_AREA_FLAG_ACTIVE;;
  store (h + hdr_last_sync_ext_us) 0;;
  store (h + hdr_d) d;;
  store (h + hdr_version) 1;;
  now ← tasvir_time_us;
  store (h + hdr_time_us) now;;
  store (h + hdr_nr_areas) 0;;
  store (h + hdr_nr_users) 0;;
  for_each (seqZ 0 TASVIR_NR_AREA_LOGS) (init_diff_log h now offset_log size_log).

(** ** Subscription *)

(** The slot of [d] in the node's list of areas, taken if it has none: -1
    when the list is full. *)
Definition node_slot (fuel : nat) (node d : Z) : cmd world Z :=
  nr ← load (node + node_nr_areas);
  tasvir_log (node + node_nr_areas) 8;;
  r ← find_upto fuel 0 (n ← load (node + node_nr_areas); mret (n + 1))
        (fun i => a ← load (node + node_areas_d i); mret ((a =? 0) || (a =? d)));
  match r with
  | None => mret (-1)
  | Some i =>
      a ← load (node + node_areas_d i);
      when (a =? 0)
        (store (node + node_nr_areas) (u64 (nr + 1));;
         tasvir_log (node + node_areas_d i) 8;;
         tasvir_log (node + node_areas_v i) 8;;
         store (node + node_areas_d i) d;;
         store (node + node_areas_v i) 0);;
      mret i
  end.

(** Add [node] to the users of [d], which this thread owns. *)
Definition add_to_users (fuel : nat) (d node idx : Z) : cmd world Z :=
  h ← load (d + desc_h);
  nr ← load (h + hdr_nr_users);
  if TASVIR_NR_NODES <? nr + 1 then mret (-1)
  else
    tasvir_log (h + hdr_nr_users) 8;;
    when (negb (node =? 0))
      (store (h + hdr_nr_users) (nr + 1);;
       r ← find_upto fuel 0 (load (h + hdr_nr_users))
             (fun i => n ← load (h + hdr_user_node i); mret (n =? 0));
       match r with
       | None => mret tt
       | Some i =>
           tasvir_log (h + hdr_user_node i) 16;;
           store (h + hdr_user_node i) node;;
           store (h + hdr_user_version i) (node + node_areas_v idx)
       end);;
    mret 0.

(** The part of tasvir_area_add_user that runs when this node asks for
    itself: the index to use, or the value to return. *)
Definition add_user_self (fuel : nat) (d node idx : Z) : cmd world (Z + Z) :=
  daemon ← ttld tl_daemon;
  if (daemon : bool) then
    nr ← load (node + node_nr_areas);
    if TASVIR_NR_AREAS <? nr + 1 then mret (inr (-1))
    else
      idx ← node_slot fuel node d;
      loc ← tasvir_area_is_local d;
      if (loc : bool) then mret (inl idx)
      else
        r ← tasvir_rpc_wait S2US d fn_area_add_user [[d]; [node]; [idx]];
        match r with
        | None => mret (inr (-1))
        | Some ws =>
            tasvir_log (node + node_nr_areas) 8;;
            mret (inr (i32 (default 0 (ws !! 0%nat))))
        end
  else
    node_desc ← ttld tl_node_desc;
    r ← tasvir_rpc_wait S2US node_desc fn_area_add_user [[d]; [node]; [-1]];
    mret (match r with
          | Some ws => if i32 (default 0 (ws !! 0%nat)) =? 0 then inl idx else inr (-1)
          | None => inr (-1)
          end).

(** A client finds the index its daemon chose. *)
Definition add_user_client_idx (fuel : nat) (d node idx : Z) : cmd world (option Z) :=
  mynode ← ttld tl_node;
  r ← find_upto fuel 0 (load (mynode + node_nr_areas))
        (fun i => a ← load (node + node_areas_d i); mret (a =? d));
  let idx := default idx r in
  mret (if idx =? -1 then None else Some idx).

Definition tasvir_area_add_user (fuel : nat) (d node idx : Z) : cmd world Z :=
  root ← ttld tl_root_desc;
  thread ← ttld tl_thread;
  mynode ← ttld tl_node;
  daemon ← ttld tl_daemon;
  assert_w (negb (node =? 0) || (d =? root));;
  early ← (if (daemon : bool) then mret false
           else loc ← tasvir_area_is_local d; act ← tasvir_area_is_active d;
                mret (loc && negb act)%bool);
  if (early : bool) then mret (-1)
  else
    att ← tasvir_area_is_attached fuel d node;
    if (att : bool) then mret 0
    else
      let is_req_local := negb (node =? 0) && (mynode =? node) in
      r ← (if is_req_local then add_user_self fuel d node idx else mret (inl idx));
      match r with
      | inr v => mret v
      | inl idx =>
          own ← tasvir_area_is_owner d thread;
          if (own : bool) then
            idx' ← (if (negb daemon && is_req_local)%bool then add_user_client_idx fuel d node idx
                    else mret (Some idx));
            match idx' with
            | None => mret (-1)
            | Some idx =>
                v ← add_to_users fuel d node idx;
                if v =? 0 then
                  when (daemon && (d =? root))%bool
                    (mod_nd (fun nd => nd <| nd_node_init_req := true |>));;
                  mret 0
                else mret v
            end
          else mret 0
      end.

Definition service_1000 : cmd world unit :=
  for_each (seqZ 0 1000) (fun _ => tasvir_service;; mret tt).

Definition tasvir_area_add_user_wait (fuel : nat) (timeout_us d node idx : Z) : cmd world Z :=
  end_tsc ← deadline timeout_us;
  r ← poll fuel end_tsc (Some (-1)) (tasvir_area_add_user fuel d node idx) (fun r => r =? 0) service_1000;
  mret (default (-1) r).

(** tasvir_new. [new_init] is the part after the descriptor is known. *)
Definition new_init (fuel : nat) (desc : area_desc) (size_metadata offset_log size_log d : Z) :
    cmd world Z :=
  h ← load (d + desc_h);
  let zeros := replicate (Z.to_nat (size_metadata / 8)) 0 in
  store_words (tasvir_data2rw h) zeros;;
  store_words (tasvir_data2ro h) zeros;;
  tasvir_update_owner fuel d (ad_owner desc);;
  h ← load (d + desc_h);
  init_header d h offset_log size_log;;
  node ← ttld tl_node;
  r ← (if node =? 0 then mret 0 else tasvir_area_add_user fuel d node (-1));
  mret (if r =? 0 then d else 0).

Definition tasvir_new (fuel : nat) (desc : area_desc) : cmd world Z :=
  thread ← ttld tl_thread;
  node ← ttld tl_node;
  root ← ttld tl_root_desc;
  daemon ← ttld tl_daemon;
  if (negb daemon && (node =? 0))%bool then mret 0
  else
    let desc := new_defaults desc thread node root in
    let '(size_metadata, offset_log_end, offset_log, size_log, len) :=
      area_sizes (ad_type desc) (ad_nr_areas_max desc) (ad_len desc) in
    let desc := desc <| ad_offset_log_end := offset_log_end |> <| ad_len := len |> in
    d ← tasvir_new_alloc_desc fuel desc;
    if d =? 0 then mret 0
    else
      booting ← tasvir_is_booting;
      h ← (if (daemon && booting)%bool then
             end_tsc ← deadline S2US;
             wait_boot_desc fuel end_tsc d;;
             load (d + desc_h)
           else mret 1);
      if h =? 0 then mret 0 else new_init fuel desc size_metadata offset_log size_log d.

(** [tasvir_delete] and [tasvir_detach] are not implemented: they abort. *)
Definition tasvir_delete (d : Z) : cmd world Z := fail Abort.
Definition tasvir_detach (d : Z) : cmd world Z := fail Abort.

(** ** Attaching by path *)

(** The [do ... while] over the tokens: 0 is NULL. *)
Fixpoint attach_path (fuel : nat) (pd : Z) (toks : list (list Z)) (d : Z) : cmd world Z :=
  match toks with
  | [] => mret d
  | tok :: toks' =>
      d ← tasvir_area_get_by_name fuel pd tok;
      if d =? 0 then mret 0
      else
        node ← ttld tl_node;
        r ← tasvir_area_add_user fuel d node (-1);
        if r =? 0 then attach_path fuel d toks' d else mret 0
  end.

Definition tasvir_attach (fuel : nat) (name : list Z) : cmd world Z :=
  root ← ttld tl_root_desc;
  let name_ := cstr 256 (tasvir_area_normalize_name name 256) in
  match strtok name_ [] with
  | [] => attach_path fuel 0 [[slash]] 0
  | toks => attach_path fuel root toks 0
  end.

(** [None]: the loop never ran, and the local variable is returned
    uninitialized. *)
Definition tasvir_attach_wait (fuel : nat) (timeout_us : Z) (name : list Z) : cmd world (option Z) :=
  end_tsc ← deadline timeout_us;
  poll fuel end_tsc None (tasvir_attach fuel name) (fun d => negb (d =? 0)) service_1000.

End with_dpdk.
