(* ===== verification/AreaProofs.v ===== *)
(** * AreaProofs: layout of areas

    The sizes [tasvir_new] computes leave room for the header, the children
    or user data and the four difference logs; and the descriptors and
    headers [tasvir_new_alloc_desc] hands out keep the children of a
    container apart, inside the container, and distinctly named. *)
From stdpp Require Import base gmap list numbers.
From Stdlib Require Import ZArith Lia.
From S2P Require Import Prelude Defs Types Fifo Mem Log Net Sync SyncRuns SyncCopy Calls Area.

(** ** Sizes *)

(** C10: for an area of fewer than 2^39 bytes the sizes computed by
    tasvir_new are consistent: everything is a multiple of the alignment; the
    logged part holds the metadata, and also the user data unless the area is
    a container; the difference logs start past the logged part and past the
    user data; each has exactly one bit per line of the logged part, in whole
    groups of eight units; and the four of them end inside the area. *)
Theorem area_sizes_consistent type nr len :
  0 <= nr < 2 ^ 30 -> 0 <= len < 2 ^ 39 ->
  let '(size_metadata, offset_log_end, offset_log, size_log, total) := area_sizes type nr len in
  size_metadata = sizeof_header + nr * sizeof_desc /\
  size_metadata <= offset_log_end <= offset_log /\ size_metadata + len <= offset_log /\
  (type <> area_type_code TASVIR_AREA_TYPE_CONTAINER -> size_metadata + len <= offset_log_end) /\
  aligned TASVIR_ALIGNMENT offset_log_end /\ aligned TASVIR_ALIGNMENT offset_log /\
  aligned TASVIR_ALIGNMENT total /\
  512 * size_log = offset_log_end /\ aligned 64 size_log /\
  (forall i, 0 <= i < TASVIR_NR_AREA_LOGS -> offset_log_end <= offset_log + i * size_log /\
     offset_log + i * size_log + size_log <= total).
Proof.
  intros Hnr Hlen. unfold area_sizes.
  set (md := sizeof_header + nr * sizeof_desc).
  assert (Hmd : 0 <= md < 2 ^ 38) by (unfold md, sizeof_header, sizeof_desc; lia).
  rewrite (u64_small md) by lia.
  set (used := if type =? area_type_code TASVIR_AREA_TYPE_CONTAINER then 0 else len).
  assert (Hused : 0 <= used <= len) by (unfold used; destruct (_ =? _); lia).
  destruct (ALIGN_spec (md + used)) as [Hea He]; [lia..|].
  destruct (ALIGN_spec (md + len)) as [Hoa Ho]; [lia..|].
  assert (Hmono : TASVIR_ALIGN (md + used) <= TASVIR_ALIGN (md + len)) by (apply ALIGN_mono; lia).
  set (oe := TASVIR_ALIGN (md + used)) in *. set (ol := TASVIR_ALIGN (md + len)) in *.
  apply aligned_exists in Hea as Hea'; [|lia]. destruct Hea' as [q Hq].
  assert (Hsl : TASVIR_ALIGNX (Z.shiftr oe TASVIR_SHIFT_BYTE) 8 = 64 * q).
  { change TASVIR_SHIFT_BYTE with 9. rewrite Z.shiftr_div_pow2 by lia.
    assert (oe / 2 ^ 9 = 64 * q) as ->.
    { rewrite Hq. change (2 ^ 9) with 512. replace (32768 * q) with (64 * q * 512) by lia.
      apply Z.div_mul. lia. }
    assert (0 <= 64 * q < 2 ^ 40) by lia.
    destruct (ALIGNX_spec (64 * q) 3) as [Ha8 H8]; [lia..|]. change (2 ^ 3) with 8 in *.
    apply aligned_exists in Ha8 as [p Hp]; lia. }
  rewrite Hsl. change TASVIR_NR_AREA_LOGS with 4.
  destruct (ALIGN_spec (4 * (64 * q))) as [Hta Ht]; [lia..|].
  rewrite u64_small by lia. change TASVIR_ALIGNMENT with 32768.
  split_and!; try done; try lia.
  - intros Hty. unfold used in *. rewrite (proj2 (Z.eqb_neq _ _)) in He by done. lia.
  - align.
  - apply aligned_mul_l; [lia|reflexivity].
  - intros i Hi. nia.
Qed.

Lemma area_sizes_consistent_witness :
  area_sizes 3 0 100000 = (1344, 131072, 131072, 256, 163840) /\
  (let '(_, offset_log_end, offset_log, size_log, total) := area_sizes 3 0 100000 in
   512 * size_log = offset_log_end /\ offset_log + 3 * size_log + size_log <= total).
Proof.
  split; [reflexivity|].
  pose proof (area_sizes_consistent 3 0 100000 ltac:(lia) ltac:(lia)) as H.
  destruct (area_sizes 3 0 100000) as [[[[a b] c] e] t].
  destruct H as (_ & _ & _ & _ & _ & _ & _ & H1 & _ & H2). split; [exact H1|].
  apply (H2 3). split; done || reflexivity.
Defined.

(** ** Loops over indices *)

(** The first index in [i .. i+n-1] at which [b] holds. *)
Fixpoint first_from (n : nat) (i : Z) (b : Z -> bool) : option Z :=
  match n with
  | O => None
  | S n' => if b i then Some i else first_from n' (i + 1) b
  end.

Lemma first_from_None n i b :
  first_from n i b = None <-> forall j, i <= j < i + Z.of_nat n -> b j = false.
Proof.
  revert i. induction n as [|n IH]; intros i; cbn [first_from].
  - split; [lia|done].
  - destruct (b i) eqn:E.
    + split; [done|]. intros H. rewrite H in E by lia. done.
    + rewrite IH. split; intros H j Hj; [|apply H; lia].
      destruct (Z.eq_dec j i) as [->|]; [done|apply H; lia].
Qed.

Lemma first_from_Some n i b j : first_from n i b = Some j -> i <= j < i + Z.of_nat n /\ b j = true.
Proof.
  revert i. induction n as [|n IH]; intros i; cbn [first_from]; [done|].
  destruct (b i) eqn:E.
  - intros [= <-]. split; [lia|done].
  - intros [H1 H2]%IH. split; [lia|done].
Qed.

Section with_dpdk.
Context `{D : Dpdk}.

Lemma find_upto_pure fuel i n bound p b w :
  bound w = Done (n, w) -> (forall j, i <= j < n -> p j w = Done (b j, w)) ->
  Z.max 0 (n - i) < Z.of_nat fuel ->
  find_upto fuel i bound p w = Done (first_from (Z.to_nat (n - i)) i b, w).
Proof.
  intros Hb Hp. revert i Hp. induction fuel as [|fuel IH]; intros i Hp Hf.
  - lia.
  - cbn [find_upto]. unfold mbind, cmd_bind. rewrite Hb.
    destruct (Z.ltb_spec i n).
    + rewrite Hp by lia. replace (Z.to_nat (n - i)) with (S (Z.to_nat (n - (i + 1)))) by lia.
      cbn [first_from]. destruct (b i); [done|]. apply IH; [|lia]. intros j Hj. apply Hp. lia.
    + by replace (Z.to_nat (n - i)) with 0%nat by lia.
Qed.

(** ** Containers *)

(** The words of a container's header and descriptor table, at file offset
    [o]: the descriptor of child [i] starts at [kid_off o i]. *)
Definition kid_off (o i : Z) : Z := o + sizeof_header + i * sizeof_desc.
Definition kid (m : gmap Z Z) (o i : Z) : Z * Z :=
  (ld m (kid_off o i + desc_h), ld m (kid_off o i + desc_len)).
Definition kid_name (m : gmap Z Z) (o i : Z) : list Z :=
  cstr 32 (bytes_of_words (words m (kid_off o i + desc_name) 4)).
Definition kids (m : gmap Z Z) (o nr : Z) : list (Z * Z) := kid m o <$> seqZ 0 nr.

(** The descriptor at [pd] is that of a container with [nr] of at most [max]
    children, whose header is visible to this thread at [ph] and lies at
    file offset [o] of the data copies. *)
Record container (w : world) (pd ph o nr max : Z) : Prop := {
  ct_h : load (pd + desc_h) w = Done (ph, w);
  ct_max : load (pd + desc_nr_areas_max) w = Done (max, w);
  ct_span : spans (w_maps w) ph o (sizeof_header + max * sizeof_desc);
  ct_aligned : aligned 8 o;
  ct_low : 0 <= o;
  ct_high : o + sizeof_header + max * sizeof_desc <= 2 * TASVIR_SIZE_DATA;
  ct_data : TASVIR_ADDR_DATA <= ph;
  ct_data_end : ph + sizeof_header + max * sizeof_desc <= TASVIR_ADDR_DATA + TASVIR_SIZE_DATA;
  ct_nr : ld (w_mem w) (o + hdr_nr_areas) = nr;
  ct_range : 0 <= nr <= max;
}.

(** Headers one after the other between [lo] and [hi], each aligned. *)
Fixpoint laid_out (lo hi : Z) (ks : list (Z * Z)) : Prop :=
  match ks with
  | [] => True
  | (h, len) :: ks' =>
      aligned TASVIR_ALIGNMENT h /\ lo <= h /\ 0 <= len /\ h + len < hi /\ laid_out (h + len) hi ks'
  end.

Definition last_end (lo : Z) (ks : list (Z * Z)) : Z := foldl (fun _ k => k.1 + k.2) lo ks.

Lemma laid_out_snoc lo hi ks h len :
  laid_out lo hi ks -> aligned TASVIR_ALIGNMENT h -> last_end lo ks <= h -> 0 <= len -> h + len < hi ->
  laid_out lo hi (ks ++ [(h, len)]).
Proof.
  revert lo. induction ks as [|[h0 l0] ks IH]; intros lo H Ha He Hl Hh; cbn in *; [done|].
  destruct H as (? & ? & ? & ? & ?). split_and!; try done. by apply IH.
Qed.

Lemma laid_out_last lo hi ks : laid_out lo hi ks -> lo <= last_end lo ks.
Proof.
  revert lo. induction ks as [|[h l] ks IH]; intros lo H; cbn in *; [lia|].
  destruct H as (_ & H1 & H2 & _ & H3). specialize (IH _ H3). unfold last_end in *. lia.
Qed.

Lemma laid_out_last_lt lo hi ks : laid_out lo hi ks -> ks = [] \/ last_end lo ks < hi.
Proof.
  revert lo. induction ks as [|[h l] ks IH]; intros lo H; [by left|right]. cbn in *.
  destruct H as (_ & _ & _ & H1 & H2). destruct (IH _ H2) as [-> |?]; [done|done].
Qed.

(** Children that are laid out do not overlap. *)
Lemma laid_out_apart lo hi ks i j ki kj :
  laid_out lo hi ks -> ks !! i = Some ki -> ks !! j = Some kj -> (i < j)%nat ->
  lo <= ki.1 /\ ki.1 + ki.2 <= kj.1 /\ kj.1 + kj.2 < hi.
Proof.
  revert lo i j. induction ks as [|[h l] ks IH]; intros lo i j H Hi Hj Hij; [done|].
  cbn in H. destruct H as (_ & H1 & H2 & H3 & H4). destruct j as [|j]; [lia|]. cbn in Hj.
  assert (Hge : forall (ks : list (Z * Z)) lo n k, laid_out lo hi ks -> ks !! n = Some k ->
    lo <= k.1 /\ k.1 + k.2 < hi).
  { clear. induction ks as [|[h l] ks IH]; intros lo [|n] k H Hk; [done..| |]; cbn in *.
    - injection Hk as <-. cbn. lia.
    - destruct H as (_ & ? & ? & _ & H). destruct (IH _ _ _ H Hk). lia. }
  destruct i as [|i]; cbn in Hi.
  - injection Hi as <-. cbn. destruct (Hge _ _ _ _ H4 Hj). lia.
  - destruct (IH _ i j H4 Hi Hj ltac:(lia)). lia.
Qed.

Lemma kids_snoc m o nr : 0 <= nr -> kids m o (nr + 1) = kids m o nr ++ [kid m o nr].
Proof. intros. unfold kids. rewrite seqZ_app by lia. rewrite fmap_app. done. Qed.

Lemma kids_last_end m o nr tab :
  0 <= nr -> last_end tab (kids m o nr)
  = if 0 <? nr then (kid m o (nr - 1)).1 + (kid m o (nr - 1)).2 else tab.
Proof.
  intros Hnr. destruct (Z.ltb_spec 0 nr).
  - replace nr with (nr - 1 + 1) at 1 by lia. rewrite kids_snoc by lia.
    unfold last_end. by rewrite foldl_app.
  - replace nr with 0 by lia. done.
Qed.

(** ** Allocation of a descriptor *)

(** Logging a range of the data region changes the log only. *)
Lemma tasvir_log_frame w data len :
  loggable data len ->
  exists m', tasvir_log data len w = Done (tt, w <| w_mem := m' |>) /\
    forall a, aligned 8 a -> a < 2 * TASVIR_SIZE_DATA -> ld m' a = ld (w_mem w) a.
Proof.
  intros Hl. destruct (tasvir_log_runs w data len Hl) as (m' & E & H).
  exists m'. split; [done|]. intros a Ha Hlt. rewrite H by done.
  pose proof (line_of_range _ _ Hl) as [Hb _].
  rewrite (proj2 (in_range_false _ _ _)); [done|]. unfold log_off.
  pose proof (Z.div_pos (line_of data) 64). lia.
Qed.

(** Is one of the children called [name]? *)
Definition find_name (m : gmap Z Z) (o nr : Z) (name : list Z) : option Z :=
  first_from (Z.to_nat nr) 0 (fun i => bool_decide (kid_name m o i = cstr 32 name)).

(** The outcome [alloc_child] must have: the header address of a new child,
    or [None]. *)
Definition slot_for (m : gmap Z Z) (ph o nr max : Z) (desc : area_desc) : option Z :=
  let h := TASVIR_ALIGN (last_end (ph + sizeof_header + max * sizeof_desc) (kids m o nr)) in
  if decide (max <= nr) then None
  else if decide (find_name m o nr (bytes_of_words (ad_name desc)) <> None) then None
  else if ld m (o + hdr_diff_log 0 + log_data) <=? u64 (h + ad_len desc) then None
  else Some h.

(** Why there is no slot. *)
Lemma slot_for_None m ph o nr max desc :
  let lo := ph + sizeof_header + max * sizeof_desc in
  0 <= last_end lo (kids m o nr) < 2 ^ 60 -> 0 <= ad_len desc < 2 ^ 40 ->
  slot_for m ph o nr max desc = None ->
  max <= nr \/ (exists i, 0 <= i < nr /\ kid_name m o i = cstr 32 (bytes_of_words (ad_name desc))) \/
  ld m (o + hdr_diff_log 0 + log_data) <= TASVIR_ALIGN (last_end lo (kids m o nr)) + ad_len desc.
Proof.
  intros lo Hle Hlen. unfold slot_for. fold lo. destruct (decide (max <= nr)); [by left|].
  destruct (decide _) as [Hf|_]; [right; left|].
  - unfold find_name in Hf. destruct (first_from _ _ _) as [i|] eqn:E; [|done].
    apply first_from_Some in E as [Hi Hb]. exists i. split; [lia|]. by apply bool_decide_eq_true in Hb.
  - destruct (ALIGN_spec (last_end lo (kids m o nr))) as [_ Ha]; [lia..|].
    rewrite u64_small by lia. destruct (Z.leb_spec (ld m (o + hdr_diff_log 0 + log_data))
      (TASVIR_ALIGN (last_end lo (kids m o nr)) + ad_len desc)); [auto|done].
Qed.

Lemma name_is_runs w pd ph o nr max name i :
  container w pd ph o nr max -> 0 <= i < max ->
  name_is (ph + sizeof_header) name i w
  = Done (bool_decide (kid_name (w_mem w) o i = cstr 32 name), w).
Proof.
  intros [Hh Hm Hs Ha Hl Hhi Hd Hde Hn Hr] Hi. unfold name_is, load_name, mbind, cmd_bind.
  unfold sizeof_header, sizeof_desc, desc_name, child in *.
  rewrite (load_words_runs w _ (kid_off o i + desc_name) 4).
  - unfold strneq, kid_name. done.
  - intros k Hk. unfold kid_off, sizeof_header, sizeof_desc, desc_name.
    replace (ph + 1344 + i * 112 + 48 + k) with (ph + (1344 + i * 112 + 48 + k)) by lia.
    rewrite Hs by lia. f_equal. lia.
  - unfold kid_off, sizeof_header, sizeof_desc, desc_name. rewrite Z.mul_comm. align.
Qed.

Lemma next_child_runs w pd ph o nr max :
  container w pd ph o nr max ->
  next_child_h pd (ph + sizeof_header) nr w
  = Done (TASVIR_ALIGN (last_end (ph + sizeof_header + max * sizeof_desc) (kids (w_mem w) o nr)), w).
Proof.
  intros [Hh Hm Hs Ha Hl Hhi Hd Hde Hn Hr]. unfold next_child_h, mbind, cmd_bind.
  rewrite kids_last_end by lia. destruct (Z.ltb_spec 0 nr).
  - unfold child, kid, kid_off, sizeof_header, sizeof_desc, desc_h, desc_len in *.
    replace (ph + 1344 + (nr - 1) * 112 + 8) with (ph + (1344 + 112 * (nr - 1) + 8)) by lia.
    rewrite (load_runs w ph o _ _ Hs Ha) by (lia || align).
    replace (ph + 1344 + (nr - 1) * 112 + 24) with (ph + (1344 + 112 * (nr - 1) + 24)) by lia.
    rewrite (load_runs w ph o _ _ Hs Ha) by (lia || align).
    cbn [fst snd].
    replace (o + (1344 + 112 * (nr - 1) + 8)) with (o + 1344 + (nr - 1) * 112 + 8) by lia.
    by replace (o + (1344 + 112 * (nr - 1) + 24)) with (o + 1344 + (nr - 1) * 112 + 24) by lia.
  - by rewrite Hm.
Qed.

(** [alloc_child] is [slot_for]: on an error nothing changes, otherwise the
    number of children is logged and incremented. *)
Lemma alloc_child_runs fuel w ph o nr max desc :
  container w (ad_pd desc) ph o nr max -> nr < Z.of_nat fuel ->
  match slot_for (w_mem w) ph o nr max desc with
  | None => alloc_child fuel desc w = Done (None, w)
  | Some h => exists m',
      alloc_child fuel desc w
        = Done (Some (child (ph + sizeof_header) nr, h), w <| w_mem := <[o + hdr_nr_areas := nr + 1]> m' |>) /\
      (forall a, aligned 8 a -> a < 2 * TASVIR_SIZE_DATA -> ld m' a = ld (w_mem w) a)
  end.
Proof.
  intros Hct Hfuel. pose proof (next_child_runs _ _ _ _ _ _ Hct) as Hnext.
  pose proof (fun i => name_is_runs _ _ _ _ _ _ (bytes_of_words (ad_name desc)) i Hct) as Hname.
  destruct Hct as [Hh Hm Hs Ha Hl Hhi Hd Hde Hn Hr].
  unfold sizeof_desc in *. change sizeof_header with 1344 in *.
  assert (Hld : forall i, 0 <= i < 1344 -> aligned 8 i -> load (ph + i) w = Done (ld (w_mem w) (o + i), w)).
  { intros i Hi Hal. apply (load_runs w ph o _ _ Hs Ha); [lia|done]. }
  assert (Hnrld : load (ph + hdr_nr_areas) w = Done (nr, w)).
  { rewrite <- Hn. apply Hld; [unfold hdr_nr_areas; lia|done]. }
  unfold alloc_child, tasvir_data, slot_for, mbind, cmd_bind. rewrite Hh.
  unfold mret, cmd_ret. cbv beta iota. rewrite Hh. change sizeof_header with 1344. rewrite Hnrld, Hm.
  destruct (decide (max <= nr)) as [Hle|Hgt].
  { by rewrite (proj2 (Z.leb_le max nr)). }
  rewrite (proj2 (Z.leb_gt max nr)) by lia.
  rewrite (find_upto_pure fuel 0 nr _ _ _ w Hnrld) by (lia || (intros j Hj; apply Hname; lia)).
  rewrite Z.sub_0_r. fold (find_name (w_mem w) o nr (bytes_of_words (ad_name desc))).
  destruct (find_name _ _ _ _); cbn [decide_rel]; [by rewrite decide_True|].
  rewrite decide_False by (intros H; by apply H). rewrite Hnext. unfold load_diff_log.
  replace (ph + hdr_diff_log 0 + log_data) with (ph + (hdr_diff_log 0 + log_data)) by lia.
  rewrite Hld by (done || (unfold hdr_diff_log, log_data, sizeof_log; lia)).
  replace (o + (hdr_diff_log 0 + log_data)) with (o + hdr_diff_log 0 + log_data) by lia.
  set (h := TASVIR_ALIGN _). destruct (_ <=? _) eqn:Efull; [done|].
  destruct (tasvir_log_frame w (ph + hdr_nr_areas) 8) as (m' & E & Hfr).
  { unfold loggable, hdr_nr_areas. lia. }
  rewrite E. exists m'. split; [|done]. cbv beta iota.
  rewrite u64_small by (defs; lia).
  pose proof (store_runs (w <| w_mem := m' |>) ph o _ hdr_nr_areas (nr + 1) Hs Ha) as Est.
  rewrite Est; [done|unfold hdr_nr_areas; lia|done].
Qed.

(** An address that can be read as a word, whatever memory holds. *)
Definition readable (maps : list vmap) (va : Z) : Prop :=
  exists o, va2off maps va = Some o /\ o mod 8 = 0.

Lemma readable_load w va : readable (w_maps w) va -> exists v, load va w = Done (v, w).
Proof. intros (o & E & Ho). unfold load. rewrite E, Ho. cbn. eauto. Qed.

Lemma length_desc_words a : length (desc_words a) = 14%nat.
Proof.
  unfold desc_words. rewrite !length_app, length_take, length_app, length_replicate. cbn [length]. lia.
Qed.

(** [write_desc] on a descriptor that is not the root's: the fourteen words
    are written, with the header address and the given length. *)
Lemma write_desc_runs w d o h desc :
  spans (w_maps w) d o sizeof_desc -> aligned 8 o -> 0 <= o -> o + sizeof_desc <= 2 * TASVIR_SIZE_DATA ->
  TASVIR_ADDR_DATA <= d -> d + sizeof_desc <= TASVIR_ADDR_DATA + TASVIR_SIZE_DATA ->
  d <> tl_root_desc (w_tl w) ->
  (tl_node_desc (w_tl w) = 0 \/ readable (w_maps w) (tl_node_desc (w_tl w) + desc_sync_ext_us)) ->
  exists m' ext now,
    write_desc d h desc w = Done (tt, w <| w_mem := m' |> <| w_tick := S (w_tick w) |>) /\
    (forall a, aligned 8 a -> a < 2 * TASVIR_SIZE_DATA ->
      ld m' a = if in_range a o sizeof_desc
                then desc_words (desc <| ad_h := h |> <| ad_sync_ext_us := ext |> <| ad_boot_us := now |>)
                       !!! Z.to_nat ((a - o) / 8)
                else ld (w_mem w) a).
Proof.
  intros Hs Ha Hl Hh Hd Hde Hroot Hread. change sizeof_desc with 112 in *.
  unfold write_desc, mbind, cmd_bind, ttld, gets. change sizeof_desc with 112.
  destruct (tasvir_log_frame w d 112) as (m1 & E & Hfr); [unfold loggable; lia|]. rewrite E.
  set (w1 := w <| w_mem := m1 |>).
  assert (Hext : exists ext,
    (if negb (tl_node_desc (w_tl w) =? 0) && (ad_type desc =? area_type_code TASVIR_AREA_TYPE_NODE)
     then load (tl_node_desc (w_tl w) + desc_sync_ext_us) else mret (ad_sync_ext_us desc)) w1
    = Done (ext, w1)).
  { destruct (negb _ && _) eqn:Ec; [|by eexists].
    apply andb_true_iff in Ec as [Ec _]. apply negb_true_iff, Z.eqb_neq in Ec.
    destruct Hread as [?|Hr]; [done|]. exact (readable_load w1 _ Hr). }
  destruct Hext as [ext ->].
  unfold tasvir_time_us, rdtsc, tasvir_tsc2usec, gets, mbind, cmd_bind. cbn [w_clk w_tick w_tsc2usec].
  set (now := w_tsc2usec _ _). set (w2 := w1 <| w_tick := _ |>).
  set (dd := desc <| ad_h := h |> <| ad_sync_ext_us := ext |> <| ad_boot_us := now |>).
  assert (Hs2 : spans (w_maps w2) d o (8 * Z.of_nat (length (desc_words dd))))
    by (rewrite length_desc_words; exact Hs).
  rewrite (store_words_runs w2 d o (desc_words dd) Hs2 Ha).
  rewrite (proj2 (Z.eqb_neq d _)) by done. cbn [when].
  exists (write_words m1 o (desc_words dd)), ext, now. split; [reflexivity|].
  intros a Haa Hlt. rewrite (ld_write_words _ _ _ _ Ha Haa), length_desc_words.
  change (8 * Z.of_nat 14) with 112. destruct (in_range a o 112); [done|]. by apply Hfr.
Qed.

(** Children after a new descriptor has been written behind them. *)
Lemma kids_new m m' o nr h len :
  0 <= nr -> aligned 8 o ->
  (forall a, aligned 8 a -> kid_off o 0 <= a < kid_off o nr -> ld m' a = ld m a) ->
  ld m' (kid_off o nr + desc_h) = h -> ld m' (kid_off o nr + desc_len) = len ->
  kids m' o (nr + 1) = kids m o nr ++ [(h, len)] /\
  (forall i, 0 <= i < nr -> kid_name m' o i = kid_name m o i).
Proof.
  intros Hnr Hal Hsame Hh Hlen.
  assert (Haa : forall i k, aligned 8 k -> aligned 8 (kid_off o i + k)).
  { intros i k Hk. unfold kid_off, sizeof_header, sizeof_desc. rewrite (Z.mul_comm i). align. }
  split.
  - rewrite kids_snoc by done. f_equal; [|unfold kid; by rewrite Hh, Hlen].
    unfold kids. apply list_fmap_ext. intros i x [-> Hi]%lookup_seqZ. unfold kid.
    rewrite !Hsame; [done|apply Haa; done|..|apply Haa; done|];
      unfold kid_off, sizeof_header, sizeof_desc, desc_h, desc_len; lia.
  - intros i Hi. unfold kid_name. f_equal. f_equal. apply words_ext. intros j Hj.
    rewrite <- Z.add_assoc. apply Hsame; [apply Haa; unfold desc_name; align|].
    unfold kid_off, sizeof_header, sizeof_desc, desc_name. lia.
Qed.

(** The name of a child whose descriptor has just been written. *)
Lemma new_name m o nr desc :
  length (ad_name desc) = 4%nat ->
  (forall k, 0 <= k < 14 -> ld m (kid_off o nr + 8 * k) = desc_words desc !!! Z.to_nat k) ->
  kid_name m o nr = cstr 32 (bytes_of_words (ad_name desc)).
Proof.
  intros Hl Hw. unfold kid_name. do 2 f_equal.
  destruct desc as [? ? ? ? ? ? name]. cbn in Hl |- *.
  destruct name as [|n0 [|n1 [|n2 [|n3 [|]]]]]; try done.
  rewrite !words_S. unfold desc_name.
  assert (H6 : ld m (kid_off o nr + 8 * 6) = n0) by apply (Hw 6 ltac:(lia)).
  assert (H7 : ld m (kid_off o nr + 8 * 7) = n1) by apply (Hw 7 ltac:(lia)).
  assert (H8 : ld m (kid_off o nr + 8 * 8) = n2) by apply (Hw 8 ltac:(lia)).
  assert (H9 : ld m (kid_off o nr + 8 * 9) = n3) by apply (Hw 9 ltac:(lia)).
  replace (kid_off o nr + 48 + 8 + 8 + 8) with (kid_off o nr + 8 * 9) by lia.
  replace (kid_off o nr + 48 + 8 + 8) with (kid_off o nr + 8 * 8) by lia.
  replace (kid_off o nr + 48 + 8) with (kid_off o nr + 8 * 7) by lia.
  replace (kid_off o nr + 48) with (kid_off o nr + 8 * 6) by lia.
  by rewrite H6, H7, H8, H9.
Qed.

Lemma names_new m m' o nr :
  0 <= nr -> NoDup (kid_name m o <$> seqZ 0 nr) ->
  (forall i, 0 <= i < nr -> kid_name m' o i = kid_name m o i) ->
  forall name, find_name m o nr name = None -> kid_name m' o nr = cstr 32 name ->
  NoDup (kid_name m' o <$> seqZ 0 (nr + 1)).
Proof.
  intros Hnr Hnd Hsame name Hf Hn. rewrite seqZ_app, fmap_app by lia.
  assert (kid_name m' o <$> seqZ 0 nr = kid_name m o <$> seqZ 0 nr) as ->.
  { apply list_fmap_ext. intros i x [-> Hi]%lookup_seqZ. apply Hsame. lia. }
  apply list.NoDup_app. split; [done|]. split; [|apply NoDup_singleton].
  intros x (i & -> & Hi%elem_of_seqZ)%list_elem_of_fmap Hx.
  assert (seqZ (0 + nr) 1 = [nr]) as E by (unfold seqZ; cbn; f_equal; lia). rewrite E in Hx.
  apply list_elem_of_singleton in Hx. rewrite Hn in Hx.
  unfold find_name in Hf. rewrite first_from_None in Hf.
  specialize (Hf i ltac:(lia)). by apply bool_decide_eq_false in Hf.
Qed.

(** The descriptor of a new child, written behind the others: its fourteen
    words, the new number of children, and nothing else below the log. *)
Lemma child_written w pd ph o nr max m1 h desc :
  let d := child (ph + sizeof_header) nr in
  let w1 := w <| w_mem := <[o + hdr_nr_areas := nr + 1]> m1 |> in
  container w pd ph o nr max -> nr < max ->
  (forall a, aligned 8 a -> a < 2 * TASVIR_SIZE_DATA -> ld m1 a = ld (w_mem w) a) ->
  d <> tl_root_desc (w_tl w) ->
  (tl_node_desc (w_tl w) = 0 \/ readable (w_maps w) (tl_node_desc (w_tl w) + desc_sync_ext_us)) ->
  exists m2 ext now, write_desc d h desc w1 = Done (tt, w1 <| w_mem := m2 |> <| w_tick := S (w_tick w1) |>) /\
    ld m2 (o + hdr_nr_areas) = nr + 1 /\
    (forall a, aligned 8 a -> kid_off o 0 <= a < kid_off o nr -> ld m2 a = ld (w_mem w) a) /\
    (forall k, 0 <= k < 14 -> ld m2 (kid_off o nr + 8 * k) =
       desc_words (desc <| ad_h := h |> <| ad_sync_ext_us := ext |> <| ad_boot_us := now |>) !!! Z.to_nat k).
Proof.
  intros d w1 [Hh Hm Hs Ha Hl Hhigh Hd Hde Hn Hr] Hmax Hfr1 Hroot Hread.
  change sizeof_header with 1344 in *. change sizeof_desc with 112 in *.
  assert (Hoff : kid_off o nr = o + 1344 + nr * 112) by done.
  destruct (write_desc_runs w1 d (kid_off o nr) h desc) as (m2 & ext & now & E2 & Hm2); try eassumption.
  { intros i Hi. change (w_maps w1) with (w_maps w). change sizeof_desc with 112 in *. unfold d, child. rewrite Hoff.
    change sizeof_header with 1344. change sizeof_desc with 112.
    replace (ph + 1344 + nr * 112 + i) with (ph + (1344 + nr * 112 + i)) by lia.
    rewrite (Hs (1344 + nr * 112 + i)) by lia. f_equal. lia. }
  { rewrite Hoff, (Z.mul_comm nr). align. }
  1-4: unfold d, child; rewrite ?Hoff; change sizeof_header with 1344; change sizeof_desc with 112; lia.
  change sizeof_desc with 112 in *. exists m2, ext, now. split; [exact E2|]. split; [|split].
  - rewrite Hm2; [|unfold hdr_nr_areas; align|unfold hdr_nr_areas; lia].
    rewrite (proj2 (in_range_false _ _ _)) by (unfold hdr_nr_areas; lia).
    change (w_mem w1) with (<[o + hdr_nr_areas := nr + 1]> m1). by rewrite ld_insert, Z.eqb_refl.
  - intros a Haa Hran. unfold kid_off in Hran. change sizeof_header with 1344 in Hran. change sizeof_desc with 112 in Hran.
    rewrite Hm2 by (assumption || lia). rewrite (proj2 (in_range_false _ _ _)) by lia.
    change (w_mem w1) with (<[o + hdr_nr_areas := nr + 1]> m1).
    rewrite ld_insert, (proj2 (Z.eqb_neq _ _)) by (unfold hdr_nr_areas; lia). apply Hfr1; [assumption|lia].
  - intros k Hk. rewrite Hm2.
    + rewrite (proj2 (in_range_true _ _ _)) by lia. f_equal. f_equal.
      replace (kid_off o nr + 8 * k - kid_off o nr) with (k * 8) by lia. apply Z.div_mul. lia.
    + rewrite Hoff, (Z.mul_comm nr). align.
    + rewrite Hoff. lia.
Qed.

(** C6: tasvir_new_alloc_desc on a container this thread owns fails, with
    nothing changed, only if the descriptor table is full, the name is taken
    or there is no room before the difference logs; otherwise it returns the next descriptor of the table; then
    the container has one more child, whose header address and length are the
    ones stored, the other children are as before, and, if the children's
    headers and data lay one after the other between the descriptor table and
    the container's difference logs, they still do (so no two overlap), and
    if their names were distinct they still are. *)
Theorem new_alloc_desc_keeps_layout `{!Calls} fuel w ph o nr max desc :
  let hi := ld (w_mem w) (o + hdr_diff_log 0 + log_data) in
  let lo := ph + sizeof_header + max * sizeof_desc in
  let d := child (ph + sizeof_header) nr in
  ad_pd desc <> 0 -> container w (ad_pd desc) ph o nr max -> nr < Z.of_nat fuel ->
  tasvir_area_is_owner (ad_pd desc) (tl_thread (w_tl w)) w = Done (true, w) ->
  d <> tl_root_desc (w_tl w) ->
  (tl_node_desc (w_tl w) = 0 \/ readable (w_maps w) (tl_node_desc (w_tl w) + desc_sync_ext_us)) ->
  0 <= ad_len desc < 2 ^ 40 -> length (ad_name desc) = 4%nat -> hi < 2 ^ 60 -> laid_out lo hi (kids (w_mem w) o nr) ->
  NoDup (kid_name (w_mem w) o <$> seqZ 0 nr) ->
  (tasvir_new_alloc_desc fuel desc w = Done (0, w) /\
   (max <= nr \/ (exists i, 0 <= i < nr /\ kid_name (w_mem w) o i = cstr 32 (bytes_of_words (ad_name desc))) \/
    hi <= TASVIR_ALIGN (last_end lo (kids (w_mem w) o nr)) + ad_len desc)) \/
  exists w' h, tasvir_new_alloc_desc fuel desc w = Done (d, w') /\
    let m' := w_mem w' in
    ld m' (o + hdr_nr_areas) = nr + 1 /\ nr < max /\
    kids m' o (nr + 1) = kids (w_mem w) o nr ++ [(h, ad_len desc)] /\
    laid_out lo hi (kids m' o (nr + 1)) /\
    (forall i j ki kj, kids m' o (nr + 1) !! i = Some ki -> kids m' o (nr + 1) !! j = Some kj ->
       (i < j)%nat -> ki.1 + ki.2 <= kj.1) /\
    NoDup (kid_name m' o <$> seqZ 0 (nr + 1)).
Proof.
  intros hi lo d Hpd Hct Hfuel Hown Hroot Hread Hlen Hname Hhi Hlay Hnd.
  unfold tasvir_new_alloc_desc, mbind, cmd_bind, ttld, gets. rewrite Hown. cbn [negb].
  rewrite (proj2 (Z.eqb_neq _ _)) by done.
  pose proof (alloc_child_runs fuel w ph o nr max desc Hct Hfuel) as Hal.
  assert (Hle0 : 0 <= last_end lo (kids (w_mem w) o nr) < 2 ^ 60).
  { pose proof (laid_out_last _ _ _ Hlay). destruct Hct. unfold lo, sizeof_header, sizeof_desc in *.
    destruct (laid_out_last_lt _ _ _ Hlay) as [-> |?]; [cbn|]; defs; lia. }
  destruct (slot_for (w_mem w) ph o nr max desc) as [h|] eqn:Hslot;
    [|left; split; [by rewrite Hal|by apply slot_for_None]].
  right. destruct Hal as (m1 & -> & Hfr1).
  pose proof Hct as [Hh Hm Hs Ha Hl Hhigh Hd Hde Hn Hr].
  unfold slot_for in Hslot. fold lo in Hslot. destruct (decide (max <= nr)) as [|Hmax]; [done|].
  destruct (decide _) as [|Hnone]; [done|]. fold hi in Hslot.
  destruct (Z.leb_spec hi (u64 (TASVIR_ALIGN (last_end lo (kids (w_mem w) o nr)) + ad_len desc))) as [|Hfit];
    [done|]. injection Hslot as Hhdef.
  destruct (ALIGN_spec (last_end lo (kids (w_mem w) o nr))) as [Hha Hhb]; [lia..|].
  rewrite Hhdef in *. rewrite u64_small in Hfit by lia.
  destruct (child_written w _ ph o nr max m1 h desc Hct ltac:(lia) Hfr1 Hroot Hread) as (m2 & ext & now & E2 & Hnr & Hlow & Hword).
  fold d in E2. change (child (ph + sizeof_header) nr) with d. set (w1 := w <| w_mem := _ |>) in *. rewrite E2.
  exists (w1 <| w_mem := m2 |> <| w_tick := S (w_tick w1) |>), h. split; [reflexivity|]. cbn [w_mem set_field].
  destruct (kids_new (w_mem w) m2 o nr h (ad_len desc)) as [Hkids Hnames];
    [lia|exact Ha|exact Hlow|apply (Hword 1); lia|apply (Hword 3); lia|].
  assert (Hlay' : laid_out lo hi (kids m2 o (nr + 1))).
  { rewrite Hkids. apply laid_out_snoc; [exact Hlay|exact Hha|lia..]. }
  split; [exact Hnr|split; [lia|split; [exact Hkids|split; [exact Hlay'|split]]]].
  - intros i j ki kj Hi Hj Hij. by destruct (laid_out_apart _ _ _ _ _ _ _ Hlay' Hi Hj Hij) as (_ & ? & _).
  - apply (names_new (w_mem w) m2 o nr ltac:(lia) Hnd Hnames (bytes_of_words (ad_name desc))).
    + by destruct (find_name _ _ _ _); [destruct Hnone|].
    + exact (new_name m2 o nr (desc <| ad_h := h |> <| ad_sync_ext_us := ext |> <| ad_boot_us := now |>)
        Hname Hword).
Qed.

End with_dpdk.

(** ** An empty container on a booted node *)

(** A node whose other threads never answer. *)
Definition idle_calls : @Calls fifo_dpdk := {|
  tasvir_service := mret (-1);
  tasvir_rpc _ _ _ := mret None;
  tasvir_rpc_wait _ _ _ _ := mret None;
|}.

(** The root container: descriptor at byte 0, header at byte 32768, room for
    four children below its difference logs at 1 GiB. *)
Definition root_mem : gmap Z Z :=
  <[8 := TASVIR_ADDR_DATA + 32768]> (<[16 := 4096]> (<[40 := 4]> (<[104 := 1]>
  (<[32768 + 136 := TASVIR_ADDR_DATA + 2 ^ 30]> ∅)))).
Definition root_world : @world fifo_dpdk :=
  world0 <| w_mem := root_mem |>
         <| w_tl := tls0 <| tl_thread := 4096 |> <| tl_root_desc := TASVIR_ADDR_DATA |> |>.
Definition child_desc : area_desc :=
  mk_desc TASVIR_ADDR_DATA 0 4096 65536 32768 0 [97; 0; 0; 0] 0 100 250 3.

Lemma root_world_container :
  container root_world TASVIR_ADDR_DATA (TASVIR_ADDR_DATA + 32768) 32768 0 4.
Proof.
  split; try reflexivity; try (unfold sizeof_header, sizeof_desc; defs; lia).
  apply (spans_data _ 32768 _ false); [lia|unfold sizeof_header, sizeof_desc; defs; lia|done].
Qed.

Lemma new_alloc_desc_keeps_layout_witness :
  exists w' h,
    @tasvir_new_alloc_desc fifo_dpdk idle_calls 5 child_desc root_world
      = Done (TASVIR_ADDR_DATA + 34112, w') /\
    kids (w_mem w') 32768 1 = [(h, 65536)] /\
    laid_out (TASVIR_ADDR_DATA + 34560) (TASVIR_ADDR_DATA + 2 ^ 30) (kids (w_mem w') 32768 1).
Proof.
  destruct (@new_alloc_desc_keeps_layout fifo_dpdk idle_calls 5 root_world (TASVIR_ADDR_DATA + 32768)
    32768 0 4 child_desc) as [(E & _)|(w' & h & E & _ & _ & H1 & H2 & _)].
  - done.
  - exact root_world_container.
  - lia.
  - reflexivity.
  - done.
  - by left.
  - cbn. lia.
  - done.
  - reflexivity.
  - exact I.
  - constructor.
  - exfalso. revert E. vm_compute. discriminate.
  - exists w', h. split; [exact E|]. split; [exact H1|exact H2].
Defined.
