(* ===== verification/SyncInternal.v ===== *)
(** * SyncInternal: internal synchronization (src/sync_internal.c)

    The daemon schedules a round ([tasvir_sched_sync_internal]): it declares
    dead threads dead, makes one job per active area and opens the barrier.
    Every running thread then works on the jobs ([tasvir_sync_internal]).
    Between two accesses of this thread to shared words the other threads
    run: what they do is the argument [env]. The interleavings themselves are
    in the files Barrier and Jobs. *)
From stdpp Require Import base gmap list numbers.
From Stdlib Require Import ZArith Lia.
From S2P Require Import Prelude Defs Types Mem Log Net Sync Barrier Calls Area.

Section with_dpdk.
Context `{D : Dpdk, !Calls}.

(** What the other threads do until this thread's next access. *)
Context (env : cmd world unit).

(** ** Activation of a thread *)

(** [while (tdata->state != tdata->state_req)] *)
Fixpoint wait_state (fuel : nat) : cmd world unit :=
  match fuel with
  | O => fail NoFuel
  | S fuel' =>
      env;;
      s ← tdata td_state; r ← tdata td_state_req;
      if bool_decide (s = r) then mret tt else wait_state fuel'
  end.

Definition tasvir_activate (fuel : nat) (active : bool) : cmd world unit :=
  if active then
    mod_td (fun t => t <| td_state_req := TASVIR_THREAD_STATE_RUNNING |>);;
    wait_state fuel
  else mod_td (fun t => t <| td_state_req := TASVIR_THREAD_STATE_SLEEPING |>).

(** ** Dead threads (daemon) *)

Fixpoint tasvir_kill_thread_ownership (fuel : nat) (t d : Z) : cmd world unit :=
  match fuel with
  | O => fail NoFuel
  | S fuel' =>
      ty ← area_type d;
      when (ty =? area_type_code TASVIR_AREA_TYPE_CONTAINER)
        (c ← tasvir_data d;
         for_upto fuel 0 (h ← load (d + desc_h); load (h + hdr_nr_areas))
           (fun i => tasvir_kill_thread_ownership fuel' t (child c i)));;
      owner ← load (d + desc_owner);
      when (owner =? t) (me ← ttld tl_thread; tasvir_update_owner fuel d me;; mret tt)
  end.

Definition tasvir_kill_thread (fuel : nat) (t : Z) : cmd world unit :=
  tid ← load_tid t;
  root ← ttld tl_root_desc;
  tasvir_kill_thread_ownership fuel t root;;
  tid' ← load_tid t;
  modify (fun w => w <| w_killed := tid_pid tid' :: w_killed w |>);;
  mod_td_at (tid_idx tid) (fun _ => tdata_zero <| td_state := TASVIR_THREAD_STATE_DEAD |>);;
  tasvir_log t sizeof_thread;;
  store_words t [0; 0; 0];;
  store (t + thr_pid_state) (set_hi32 0 (thread_state_code TASVIR_THREAD_STATE_DEAD)).

(** ** Scheduling (daemon) *)

Definition tasvir_sched_sync_internal_area (d : Z) : cmd world Z :=
  us ← load (d + desc_sync_int_us);
  cur ← ndata nd_sync_int_us;
  when (us <? cur) (mod_nd (fun nd => nd <| nd_sync_int_us := us |>));;
  h ← load (d + desc_h);
  f ← flags_of (tasvir_data2rw h);
  if has_flag f (Z.lor TASVIR_AREA_FLAG_EXT_PENDING TASVIR_AREA_FLAG_SLEEPING) then mret 0
  else
    n ← ndata nd_nr_jobs;
    if TASVIR_NR_SYNC_JOBS <=? n then fail Abort
    else
      le ← load (d + desc_offset_log_end);
      mod_job n (fun _ => mk_job d (le <? 500 * KB) false false false 0 0 0);;
      mod_nd (fun nd => nd <| nd_job_bytes := u64 (nd_job_bytes nd + le) |>
                           <| nd_nr_jobs := u64 (n + 1) |>);;
      ndata nd_job_bytes.

Definition set_pending (b : bool) : cmd world unit := mod_tl (fun t => t <| tl_pending := b |>).

(** One thread of the heartbeat loop: is it counted as running? *)
Definition sched_thread (fuel : nat) (tid : Z) : cmd world bool :=
  td ← ndata (fun nd => nd_td nd tid);
  when (negb (bool_decide (td_state_req td = TASVIR_THREAD_STATE_INVALID)) &&
        negb (bool_decide (td_state td = td_state_req td)))
    (mod_td_at tid (fun t => t <| td_state := td_state_req t |>));;
  td ← ndata (fun nd => nd_td nd tid);
  if bool_decide (td_state td = TASVIR_THREAD_STATE_RUNNING) then
    now ← ndata nd_time_us;
    node ← ttld tl_node;
    hb ← load (node + node_heartbeat_us);
    id ← load_tid (node + node_thread tid);
    alive ← gets (fun w => w_alive w (tid_pid id));
    if (lo32 hb <? u64 (now - td_time_us td)) && negb alive then
      set_pending true;; tasvir_kill_thread fuel (node + node_thread tid);; set_pending false;; mret false
    else
      t ← load (node + node_thread tid + thr_time_us);
      when (negb (t =? td_time_us td))
        (tasvir_log (node + node_thread tid + thr_time_us) 8;;
         store (node + node_thread tid + thr_time_us) (td_time_us td));;
      mret true
  else mret false.

Fixpoint sched_threads (fuel : nat) (tids : list Z) (n : Z) : cmd world Z :=
  match tids with
  | [] => mret n
  | tid :: tids' =>
      b ← sched_thread fuel tid;
      sched_threads fuel tids' (n + (if (b : bool) then 1 else 0))
  end.

(** One area of the version loop. *)
Definition sched_version (node i : Z) : cmd world unit :=
  d ← load (node + node_areas_d i);
  h ← load (d + desc_h);
  v ← load (tasvir_data2ro h + hdr_version);
  v0 ← load (node + node_areas_v i);
  when (negb (v0 =? v)) (tasvir_log (node + node_areas_v i) 8;; store (node + node_areas_v i) v).

(** The size of the chunks of the round. *)
Definition chunk_bytes (total nr_threads : Z) : Z :=
  Z.max (Z.land (total / (nr_threads * 8)) (not64 (TASVIR_ALIGNMENT - 1))) (TASVIR_ALIGNMENT * 4).

(** Give every running thread the sequence number of the round. *)
Definition sched_seq (seq tid : Z) : cmd world unit :=
  s ← ndata (fun nd => td_state (nd_td nd tid));
  when (bool_decide (s = TASVIR_THREAD_STATE_RUNNING))
    (mod_td_at tid (fun t => t <| td_next_sync_seq := seq |>)).

Definition tasvir_sched_sync_internal (fuel : nat) : cmd world unit :=
  pending ← ttld tl_pending;
  if (pending : bool) then mret tt
  else
    nr_threads ← sched_threads fuel (seqZ 0 TASVIR_NR_THREADS_LOCAL) 0;
    node ← ttld tl_node;
    for_upto fuel 0 (load (node + node_nr_areas)) (sched_version node);;
    mod_nd (fun nd => nd <| nd_nr_jobs := 0 |> <| nd_job_bytes := 0 |>);;
    root ← ttld tl_root_desc;
    tasvir_area_walk fuel root tasvir_sched_sync_internal_area;;
    if nr_threads * 8 =? 0 then fail DivByZero
    else
      mod_nd (fun nd => nd <| nd_job_bytes := chunk_bytes (nd_job_bytes nd) nr_threads |>);;
      seq ← deadline TASVIR_BARRIER_ENTER_US;
      mod_nd (fun nd => nd <| nd_barrier_end_tsc := seq |> <| nd_barrier_cnt := nr_threads |>
                           <| nd_barrier_seq := seq |>);;
      for_each (seqZ 0 TASVIR_NR_THREADS_LOCAL) (sched_seq seq).

(** ** The barrier, as one thread runs it *)

Definition get_bar : cmd world bar := ndata (fun nd => mk_bar (nd_barrier_seq nd) (nd_barrier_cnt nd)).
Definition set_bar (b : bar) : cmd world unit :=
  mod_nd (fun nd => nd <| nd_barrier_seq := b_seq b |> <| nd_barrier_cnt := b_cnt b |>).

(** The accesses of [barrier_step], with the other threads in between; the
    clock is read before the time check. *)
Fixpoint barrier_loop (fuel : nat) (seq : Z) (p : bpc) : cmd world bool :=
  match p, fuel with
  | BRet r, _ => mret r
  | _, O => fail NoFuel
  | _, S fuel' =>
      env;;
      b ← get_bar;
      late ← (if bool_decide (p = BTime)
              then t ← rdtsc; e ← ndata nd_barrier_end_tsc; mret (e <? t) else mret false);
      let '(p', b') := barrier_step seq late false p b in
      set_bar b';;
      barrier_loop fuel' seq p'
  end.

Definition tasvir_barrier_wait (fuel : nat) : cmd world bool :=
  seq ← tdata td_next_sync_seq; barrier_loop fuel seq BStart.

(** ** Jobs *)

Definition job (j : Z) : cmd world tasvir_sync_job := ndata (fun nd => nd_job nd j).

(** [atomic_fetch_add(&j->offset, n)] and [atomic_fetch_add(&j->bytes_seen, n)] *)
Definition fetch_add_offset (j n : Z) : cmd world Z :=
  env;; x ← job j; mod_job j (fun x => x <| j_offset := u64 (j_offset x + n) |>);; mret (j_offset x).
Definition fetch_add_seen (j n : Z) : cmd world Z :=
  env;; x ← job j; mod_job j (fun x => x <| j_bytes_seen := u64 (j_bytes_seen x + n) |>);;
  mret (j_bytes_seen x).

(** The loop that takes chunks of the log: the bytes this thread has seen. *)
Fixpoint job_chunks (fuel : nat) (j d job_bytes log_end seen : Z) : cmd world Z :=
  match fuel with
  | O => fail NoFuel
  | S fuel' =>
      x ← job j;
      if j_done_stage1 x then mret seen
      else
        offset ← fetch_add_offset j job_bytes;
        if offset <? log_end then
          let len := Z.min job_bytes (log_end - offset) in
          tasvir_sync_parse_log fuel d offset len 0;;
          job_chunks fuel' j d job_bytes log_end (u64 (seen + len))
        else mret seen
  end.

(** Stage 2, by the thread that saw the last bytes: the header. *)
Definition job_stage2 (j d : Z) (is_local : bool) (updated : Z) : cmd world unit :=
  h ← load (d + desc_h);
  let h_rw := tasvir_data2rw h in
  let h_ro := tasvir_data2ro h in
  f ← flags_of h_rw;
  when (has_flag f TASVIR_AREA_FLAG_EXT_ENQUEUE) (and_not_flags h_rw TASVIR_AREA_FLAG_EXT_ENQUEUE);;
  x ← job j;
  (if negb (updated =? 0) || negb (j_bytes_updated x =? 0) then
     f ← flags_of h_rw;
     store (h_ro + hdr_flags) (Z.land f (Z.lor TASVIR_AREA_FLAG_ACTIVE TASVIR_AREA_FLAG_LOCAL));;
     when is_local
       (now ← ndata nd_time_us;
        store (h_rw + hdr_diff_log 0 + log_end_us) now;;
        store (h_rw + hdr_time_us) now;;
        store (h_ro + hdr_diff_log 0 + log_end_us) now;;
        store (h_ro + hdr_time_us) now;;
        v ← load (h_rw + hdr_version);
        store (h_rw + hdr_diff_log 0 + log_version_end) v;;
        store (h_ro + hdr_diff_log 0 + log_version_end) v;;
        store (h_ro + hdr_version) v;;
        store (h_rw + hdr_version) (u64 (v + 1));;
        p ← load (h_rw + hdr_diff_log 0 + log_data);
        b ← load p;
        store p (Z.lor b (Z.shiftl 1 62)))
   else when (negb (j_done_stage3 x)) (mod_job j (fun x => x <| j_done_stage3 := true |>)));;
  mod_job j (fun x => x <| j_done_stage2 := true |>).

(** Is this thread the one that writes [d] on this node? *)
Definition local_writer (d : Z) (is_local : bool) : cmd world bool :=
  owner ← load (d + desc_owner);
  me ← ttld tl_thread;
  daemon ← ttld tl_daemon;
  mret ((owner =? me) || (daemon && negb is_local))%bool.

Definition tasvir_sync_internal_job (fuel : nat) (j : Z) : cmd world bool :=
  env;;
  x ← job j;
  let d := j_d x in
  is_local ← tasvir_area_is_local d;
  writer ← local_writer d is_local;
  if j_done_stage2 x then mret true
  else if (j_self_sync x && negb writer)%bool then mret false
  else if j_done_stage1 x then mret false
  else
    job_bytes ← ndata nd_job_bytes;
    log_end ← load (d + desc_offset_log_end);
    seen ← job_chunks fuel j d job_bytes log_end 0;
    if seen =? 0 then mret false
    else
      mod_job j (fun x => x <| j_done_stage1 := true |>);;
      updated ← tasvir_sync_process_changes fuel 0 true false;
      when (negb (updated =? 0))
        (mod_job j (fun x => x <| j_bytes_updated := u64 (j_bytes_updated x + updated) |>));;
      old ← fetch_add_seen j seen;
      when (u64 (seen + old) =? log_end) (job_stage2 j d is_local updated);;
      x ← job j;
      mret (j_done_stage2 x).

(** Prefetching has no effect on memory. *)
Definition tasvir_sync_internal_job_postprocess (j : Z) : cmd world bool :=
  x ← job j;
  if j_done_stage3 x then mret true
  else
    let d := j_d x in
    owner ← load (d + desc_owner);
    me ← ttld tl_thread;
    daemon ← ttld tl_daemon;
    if negb (owner =? me) && negb daemon then mret true
    else
      is_local ← tasvir_area_is_local d;
      when ((owner =? me) || negb is_local) (mod_job j (fun x => x <| j_done_stage3 := true |>));;
      x ← job j;
      mret (j_done_stage3 x).

(** One pass over the jobs that are not done. *)
Fixpoint jobs_pass (fuel : nat) (js : list Z) (fin : list Z) : cmd world (list Z) :=
  match js with
  | [] => mret fin
  | j :: js' =>
      b ← tasvir_sync_internal_job fuel j;
      b ← (if (b : bool) then tasvir_sync_internal_job_postprocess j else mret false);
      jobs_pass fuel js' (if (b : bool) then fin else fin ++ [j])
  end.

(** [while (!done_all)]: passes until no job is left. *)
Fixpoint jobs_loop (n fuel : nat) (js : list Z) : cmd world unit :=
  match n with
  | O => fail NoFuel
  | S n' =>
      left ← jobs_pass fuel js [];
      if bool_decide (left = []) then mret tt else jobs_loop n' fuel left
  end.

(** ** The end of a round (daemon): wait for the others, kill the late *)

Fixpoint wait_thread (fuel : nat) (tid end_tsc : Z) : cmd world bool :=
  match fuel with
  | O => fail NoFuel
  | S fuel' =>
      env;;
      td ← ndata (fun nd => nd_td nd tid);
      if td_next_sync_seq td =? td_prev_sync_seq td then mret false
      else t ← rdtsc; if end_tsc <? t then mret true else wait_thread fuel' tid end_tsc
  end.

Definition reap_thread (fuel : nat) (end_tsc tid : Z) : cmd world unit :=
  s ← ndata (fun nd => td_state (nd_td nd tid));
  when (bool_decide (s = TASVIR_THREAD_STATE_RUNNING))
    (failed ← wait_thread fuel tid end_tsc;
     when failed (node ← ttld tl_node; tasvir_kill_thread fuel (node + node_thread tid))).

(** The statistics of a successful round. *)
Definition round_stats (js : list Z) (time_us now : Z) : cmd world unit :=
  mod_nd (fun nd =>
    nd <| nd_time_us := now |> <| nd_last_sync_int_end := now |>
       <| nd_stats_cur := (nd_stats_cur nd)
            <| isync_success := u64 (isync_success (nd_stats_cur nd) + 1) |>
            <| isync_us := u64 (isync_us (nd_stats_cur nd) + u64 (now - time_us)) |>
            <| isync_changed_bytes := foldl (fun a j => u64 (a + j_bytes_updated (nd_job nd j)))
                 (isync_changed_bytes (nd_stats_cur nd)) js |>
            <| isync_processed_bytes := foldl (fun a j => u64 (a + j_bytes_seen (nd_job nd j)))
                 (isync_processed_bytes (nd_stats_cur nd)) js |> |>).

Definition tasvir_sync_internal (fuel : nat) : cmd world Z :=
  daemon ← ttld tl_daemon;
  when daemon (t ← tasvir_time_us; mod_nd (fun nd => nd <| nd_last_sync_int_start := t |>));;
  ok ← tasvir_barrier_wait fuel;
  if negb ok then
    when daemon
      (t ← tasvir_time_us;
       mod_nd (fun nd =>
         let dt := u64 (t - nd_last_sync_int_start nd) in
         nd <| nd_last_sync_int_end := t |>
            <| nd_stats_cur := (nd_stats_cur nd)
                 <| isync_failure := u64 (isync_failure (nd_stats_cur nd) + 1) |>
                 <| isync_barrier_us := u64 (isync_barrier_us (nd_stats_cur nd) + dt) |>
                 <| isync_us := u64 (isync_us (nd_stats_cur nd) + dt) |> |>));;
    mod_td (fun t => t <| td_prev_sync_seq := td_next_sync_seq t |>);;
    mret (-1)
  else
    time_us ← (if (daemon : bool) then tasvir_time_us else mret 0);
    when daemon
      (mod_nd (fun nd => nd <| nd_stats_cur := (nd_stats_cur nd)
         <| isync_barrier_us := u64 (isync_barrier_us (nd_stats_cur nd) + u64 (time_us - nd_last_sync_int_start nd)) |> |>
         <| nd_sync_req := false |>));;
    nr_jobs ← ndata nd_nr_jobs;
    jobs_loop fuel fuel (seqZ 0 nr_jobs);;
    now ← tasvir_time_us;
    mod_td (fun t => t <| td_time_us := now |> <| td_prev_sync_seq := td_next_sync_seq t |>);;
    when daemon
      (round_stats (seqZ 0 nr_jobs) time_us now;;
       node ← ttld tl_node;
       hb ← load (node + node_heartbeat_us);
       end_tsc ← deadline (lo32 hb);
       for_each (seqZ 0 TASVIR_NR_THREADS_LOCAL) (reap_thread fuel end_tsc));;
    mret 0.

End with_dpdk.
