(* ===== verification/Rpc.v ===== *)
(** * Rpc: remote procedure calls (src/rpc.c)

    A call is marshalled into a message buffer ([tasvir_vrpc]), routed to the
    thread that owns the area it is about ([tasvir_handle_msg_rpc]), executed
    there by the function's stub and turned into the response
    ([tasvir_handle_msg_rpc_request]), and routed back into the slot of the
    caller's status table ([tasvir_handle_msg_rpc_response]), which
    [tasvir_rpc_wait] polls. The functions themselves are the argument
    [exec] of the section: what the function at an address does with its
    arguments; the file Service supplies it for the functions of the library.
    The arguments of log messages are not evaluated. *)
From stdpp Require Import base gmap list numbers.
From Stdlib Require Import ZArith Lia.
From S2P Require Import Prelude Defs Types Mem Log Net Sync Calls.

(** ** Marshalling *)

(** [TASVIR_ALIGN_ARG(x)]: up to the next multiple of a promoted argument. *)
Definition TASVIR_ALIGN_ARG (x : Z) : Z := TASVIR_ALIGNX x 8.

(** [w] with its low [k] bits replaced by those of [v]. *)
Definition low_bits (k v w : Z) : Z := Z.lor (wrap k v) (Z.shiftl (Z.shiftr w k) k).

(** Store the first [len] bytes of [ws] at offset [off] of [m->data]. *)
Fixpoint put_bytes (len off : Z) (ws : list Z) (data : gmap Z Z) : gmap Z Z :=
  match ws with
  | [] => data
  | w :: ws' =>
      if len <=? 0 then data
      else if 8 <=? len then put_bytes (len - 8) (off + 8) ws' (<[off := w]> data)
      else <[off := low_bits (8 * len) w (ld data off)]> data
  end.

(** Read [n] words, [len] bytes in all, from offset [off]. *)
Fixpoint get_words (n : nat) (len off : Z) (data : gmap Z Z) : list Z :=
  match n with
  | O => []
  | S n' =>
      (if 8 <=? len then ld data off else wrap (8 * len) (ld data off))
      :: get_words n' (len - 8) (off + 8) data
  end.
Definition get_bytes (len off : Z) (data : gmap Z Z) : list Z :=
  get_words (Z.to_nat ((len + 7) / 8)) len off data.

(** The lengths the switch of tasvir_vrpc lists. *)
Definition arg_len_listed (len : Z) : bool :=
  bool_decide (len ∈ [8; 16; 12; 64; 320; 512; TASVIR_STRLEN_MAX; sizeof_desc]).

(** One argument: a listed length is copied, a shorter one is promoted to an
    [int] and stored as a word, anything else aborts. *)
Definition put_arg (len off : Z) (arg : list Z) (data : gmap Z Z) : option (gmap Z Z) :=
  if arg_len_listed len then Some (put_bytes len off arg data)
  else if len <=? 8 then Some (<[off := u64 (i32 (default 0 (arg !! 0%nat)))]> data)
  else None.

(** The loop over the arguments; a missing argument reads as nothing. *)
Fixpoint put_args (lens offs : list Z) (args : list (list Z)) (data : gmap Z Z) : option (gmap Z Z) :=
  match lens, offs with
  | len :: lens', off :: offs' =>
      data' ← put_arg len off (default [] (head args)) data;
      put_args lens' offs' (tail args) data'
  | _, _ => Some data
  end.

(** The arguments the stub [fn##_RPCFN] passes: the value of the argument's
    type at offset [o[i]] of the data. *)
Fixpoint get_args (lens offs : list Z) (data : gmap Z Z) : list (list Z) :=
  match lens, offs with
  | len :: lens', off :: offs' => get_bytes len off data :: get_args lens' offs' data
  | _, _ => []
  end.

(** The offsets tasvir_rpc_fn_register assigns, starting at [ptr]. *)
Fixpoint arg_offsets (ptr : Z) (lens : list Z) : list Z :=
  match lens with
  | [] => []
  | len :: lens' => ptr :: arg_offsets (ptr + TASVIR_ALIGN_ARG len) lens'
  end.

(** [data] of an RPC message. *)
Definition rpc_data (m : tasvir_msg) : gmap Z Z :=
  match m_body m with Msg_rpc _ data => data | Msg_mem _ _ _ _ _ => ∅ end.
Definition rpc_fid (m : tasvir_msg) : Z :=
  match m_body m with Msg_rpc fid _ => fid | Msg_mem _ _ _ _ _ => 0 end.

Section with_dpdk.
Context `{D : Dpdk}.

(** ** The packet pool *)

(** [rte_mempool_get] *)
Definition pool_get1 : cmd world bool :=
  mp ← ndata nd_mp;
  match rte_mempool_get_bulk mp 1 with
  | Some mp' => mod_nd (fun nd => nd <| nd_mp := mp' |>);; mret true
  | None => mret false
  end.
(** [rte_mempool_put] *)
Definition pool_put1 : cmd world unit :=
  mod_nd (fun nd => nd <| nd_mp := rte_mempool_put_bulk (nd_mp nd) 1 |>).

(** ** Registration *)

(** [fn_descs] has room for TASVIR_NR_FN functions; a function registered
    again hides the earlier entry. *)
Definition tasvir_rpc_fn_register (fnd : tasvir_fn_desc) : cmd world Z :=
  n ← ttld tl_nr_fns;
  if TASVIR_NR_FN <=? n then fail OutOfBounds
  else
    let fnd := fnd <| fn_fid := n |>
                   <| fn_arg_offsets := arg_offsets (TASVIR_ALIGN_ARG (fn_ret_len fnd))
                        (take (Z.to_nat (fn_argc fnd)) (fn_arg_lens fnd)) |> in
    mod_tl (fun t => t <| tl_fn_descs := <[n := fnd]> (tl_fn_descs t) |>
                       <| tl_ht_fnptr := <[fn_fnptr fnd := n]> (tl_ht_fnptr t) |>
                       <| tl_nr_fns := n + 1 |>);;
    mret 0.

(** TASVIR_RPCFN_DEFINE of the functions of the library: return type,
    argument types. *)
Definition lib_fn (fnptr ret_len : Z) (arg_lens : list Z) : tasvir_fn_desc :=
  mk_fn_desc fnptr 0 0 (Z.of_nat (length arg_lens)) ret_len arg_lens [].

Definition tasvir_init_rpc : cmd world unit :=
  for_each [lib_fn fn_init_thread 8 [4]; lib_fn fn_new_alloc_desc 8 [sizeof_desc];
            lib_fn fn_delete 4 [8]; lib_fn fn_init_finish 4 [8];
            lib_fn fn_update_owner 4 [8; 8]; lib_fn fn_area_add_user 4 [8; 8; 4]]
    (fun f => tasvir_rpc_fn_register f;; mret tt).

(** ** Status table *)

Definition status (i : Z) : cmd world tasvir_rpc_status :=
  ttld (fun t => default status_zero (tl_status_l t !! i)).
Definition mod_status (i : Z) (f : tasvir_rpc_status -> tasvir_rpc_status) : cmd world unit :=
  mod_tl (fun t => t <| tl_status_l := <[i := f (default status_zero (tl_status_l t !! i))]> (tl_status_l t) |>).

(** Give the response of slot [i] back to the pool. *)
Definition drop_response (i : Z) : cmd world unit :=
  s ← status i;
  match rs_response s with
  | Some _ => pool_put1;; mod_status i (fun s => s <| rs_response := None |>)
  | None => mret tt
  end.

(** This thread's identity on messages. *)
Definition my_tid : cmd world tasvir_tid :=
  t ← ttld tl_thread; if t =? 0 then ndata nd_boot_tid else load_tid t.

(** ** Routing *)

(** The ring a message that is not for this thread goes to. *)
Inductive rpc_ring := Ring_rx (idx : Z) | Ring_tx (idx : Z) | Ring_ext.

Definition route (m : tasvir_msg) (is_dst_local : bool) : cmd world (tasvir_msg * rpc_ring) :=
  daemon ← ttld tl_daemon;
  if (daemon : bool) then
    if is_dst_local then
      let idx := tid_idx (m_dst_tid m) in
      mret (m, Ring_rx (if idx =? 65535 then 0 else idx))
    else m ← tasvir_populate_msg_nethdr m; mret (m, Ring_ext)
  else
    t ← ttld tl_thread;
    if t =? 0 then mret (m, Ring_tx TASVIR_THREAD_DAEMON_IDX)
    else tid ← load_tid t; mret (m, Ring_tx (tid_idx tid)).

(** [if (r && rte_ring_sp_enqueue(r, m) != 0)]: [true] unless the ring
    exists and is full. A message for a ring that does not exist is lost. *)
Definition ring_send (r : rpc_ring) (m : tasvir_msg) : cmd world bool :=
  match r with
  | Ring_ext =>
      q ← ndata nd_ring_ext_tx;
      match rte_ring_sp_enqueue q m with
      | Some q' => mod_nd (fun nd => nd <| nd_ring_ext_tx := q' |>);; mret true
      | None => mret false
      end
  | Ring_rx i =>
      if (0 <=? i) && (i <? TASVIR_NR_THREADS_LOCAL) then
        q ← ndata (fun nd => td_ring_rx (nd_td nd i));
        match q with
        | None => mret true
        | Some q =>
            match rte_ring_sp_enqueue q m with
            | Some q' => mod_td_at i (fun t => t <| td_ring_rx := Some q' |>);; mret true
            | None => mret false
            end
        end
      else fail OutOfBounds
  | Ring_tx i =>
      if (0 <=? i) && (i <? TASVIR_NR_THREADS_LOCAL) then
        q ← ndata (fun nd => td_ring_tx (nd_td nd i));
        match q with
        | None => mret true
        | Some q =>
            match rte_ring_sp_enqueue q m with
            | Some q' => mod_td_at i (fun t => t <| td_ring_tx := Some q' |>);; mret true
            | None => mret false
            end
        end
      else fail OutOfBounds
  end.

(** Is the message for this node, and for this thread? *)
Definition rpc_dest (m : tasvir_msg) : cmd world (option (bool * bool)) :=
  match m_type m with
  | TASVIR_MSG_TYPE_RPC_REQUEST =>
      loc ← tasvir_area_is_local (m_d m);
      if (loc : bool) then
        owner ← load (m_d m + desc_owner); me ← ttld tl_thread;
        mret (Some (true, owner =? me))
      else mret (Some (false, false))
  | TASVIR_MSG_TYPE_RPC_RESPONSE =>
      boot ← ndata nd_boot_tid;
      if tid_nid (m_dst_tid m) =? tid_nid boot then
        me ← my_tid; mret (Some (true, bool_decide (m_dst_tid m = me)))
      else mret (Some (false, false))
  | _ => mret None
  end.

Definition tasvir_handle_msg_rpc_response (m : tasvir_msg) : cmd world unit :=
  mod_status (m_id m) (fun s => s <| rs_status := TASVIR_RPC_STATUS_DONE |>);;
  s ← status (m_id m);
  if rs_do_free s then pool_put1;; mod_status (m_id m) (fun s => s <| rs_response := None |>)
  else mod_status (m_id m) (fun s => s <| rs_response := Some m |>).

(** What the function at an address does with its arguments: the words of
    its result. *)
Context (exec : Z -> list (list Z) -> cmd world (list Z)).

(** The stub [fn##_RPCFN]: the data with the result stored. *)
Definition run_stub (fnd : tasvir_fn_desc) (data : gmap Z Z) : cmd world (gmap Z Z) :=
  r ← exec (fn_fnptr fnd)
        (get_args (take (Z.to_nat (fn_argc fnd)) (fn_arg_lens fnd)) (fn_arg_offsets fnd) data);
  mret (put_bytes (fn_ret_len fnd) 0 r data).

(** The parts of [tasvir_handle_msg_rpc_request] before the response is sent:
    [None] when no response is due. The entry of a function that was never
    registered is zero, so its stub is NULL. *)
Definition rpc_request_run (m : tasvir_msg) : cmd world (option tasvir_msg) :=
  booting ← tasvir_is_booting;
  if (booting : bool) then pool_put1;; mret None
  else
    fnd ← ttld (fun t => tl_fn_descs t !! rpc_fid m);
    match fnd with
    | None => fail Segv
    | Some fnd =>
        data ← run_stub fnd (rpc_data m);
        if has_flag (fn_flags fnd) TASVIR_FN_NOACK then pool_put1;; mret None
        else
          owner ← load (m_d m + desc_owner);
          me ← ttld tl_thread;
          if negb (owner =? me) then fail Abort
          else
            src ← my_tid;
            h ← load (m_d m + desc_h);
            v ← (if h =? 0 then mret 0 else load (h + hdr_version));
            if negb (h =? 0) && (m_version m =? v) then fail Abort
            else
              mret (Some (m <| m_dst_tid := m_src_tid m |> <| m_src_tid := src |>
                            <| m_type := TASVIR_MSG_TYPE_RPC_RESPONSE |> <| m_version := v |>
                            <| m_body := Msg_rpc (rpc_fid m) data |>))
    end.

(** The result of the routing step for [m]: the return value, or that the
    message is for this thread. *)
Definition rpc_route (m : tasvir_msg) (src : tasvir_msg_src) : cmd world (option Z) :=
  dest ← rpc_dest m;
  match dest with
  | None => pool_put1;; mret (Some (-1))
  | Some (is_dst_local, is_dst_me) =>
      if bool_decide (src = TASVIR_MSG_SRC_NET) && negb is_dst_local then pool_put1;; mret (Some (-1))
      else if (is_dst_me : bool) then mret None
      else
        '(m, r) ← route m is_dst_local;
        ok ← ring_send r m;
        if (ok : bool) then mret (Some 0) else pool_put1;; mret (Some (-1))
  end.

(** [tasvir_handle_msg_rpc] and [tasvir_handle_msg_rpc_request] call each
    other; a request is handled once, and the response it becomes is not a
    request, so two levels are enough. *)
Fixpoint handle_msg_rpc (n : nat) (m : tasvir_msg) (src : tasvir_msg_src) : cmd world Z :=
  match n with
  | O => fail NoFuel
  | S n' =>
      r ← rpc_route m src;
      match r with
      | Some v => mret v
      | None =>
          match m_type m with
          | TASVIR_MSG_TYPE_RPC_REQUEST =>
              m' ← rpc_request_run m;
              match m' with
              | None => mret 0
              | Some m' => handle_msg_rpc n' m' TASVIR_MSG_SRC_ME;; mret 0
              end
          | TASVIR_MSG_TYPE_RPC_RESPONSE => tasvir_handle_msg_rpc_response m;; mret 0
          | _ => mret 0
          end
      end
  end.
Definition tasvir_handle_msg_rpc : tasvir_msg -> tasvir_msg_src -> cmd world Z := handle_msg_rpc 2.

(** [tasvir_handle_msg_rpc_request] *)
Definition tasvir_handle_msg_rpc_request (m : tasvir_msg) : cmd world unit :=
  m' ← rpc_request_run m;
  match m' with
  | None => mret tt
  | Some m' => tasvir_handle_msg_rpc m' TASVIR_MSG_SRC_ME;; mret tt
  end.

(** ** Calling *)

(** The request message for a call of [fnd] on [d]. *)
Definition vrpc_msg (d : Z) (fnd : tasvir_fn_desc) (args : list (list Z)) : cmd world tasvir_msg :=
  owner ← load (d + desc_owner);
  run ← (if owner =? 0 then mret false
         else s ← load_thread_state owner; mret (s =? thread_state_code TASVIR_THREAD_STATE_RUNNING));
  dst ← (if (run : bool) then load_tid owner else ndata nd_rpccast_tid);
  src ← my_tid;
  id ← next_msg_id;
  h ← load (d + desc_h);
  v ← (if h =? 0 then mret 0 else load (h + hdr_version));
  let lens := take (Z.to_nat (fn_argc fnd)) (fn_arg_lens fnd) in
  match put_args lens (fn_arg_offsets fnd) args ∅ with
  | None => fail Abort
  | Some data =>
      let last_off := List.last (fn_arg_offsets fnd) (TASVIR_ALIGN_ARG (fn_ret_len fnd)) in
      let last_len := List.last lens 0 in
      mret (mk_msg (TASVIR_ALIGN_ARG (last_len + (msg_rpc_hdr_bytes + last_off))) 0 0 0
              TASVIR_MSG_TYPE_RPC_REQUEST id src dst d v (Msg_rpc (fn_fid fnd) data))
  end.

(** The index in [status_l] of the status returned, [None] for NULL. The data
    of the buffer that no argument covers is what an earlier message left
    there; it is zero here, and nothing reads it. *)
Definition tasvir_vrpc (d fnptr : Z) (args : list (list Z)) : cmd world (option Z) :=
  ok ← pool_get1;
  if negb ok then mret None
  else
    fnd ← ttld (fun t => i ← tl_ht_fnptr t !! fnptr; tl_fn_descs t !! i);
    match fnd with
    | None => debug ← ttld tl_debug; if (debug : bool) then fail AssertFail else fail Segv
    | Some fnd =>
        m ← vrpc_msg d fnd args;
        r ← tasvir_handle_msg_rpc m TASVIR_MSG_SRC_ME;
        if negb (r =? 0) then mret None
        else if has_flag (fn_flags fnd) TASVIR_FN_NOACK then mret None
        else
          drop_response (m_id m);;
          mod_status (m_id m) (fun _ => mk_status false (m_id m) (fn_fid fnd) TASVIR_RPC_STATUS_PENDING None);;
          mret (Some (m_id m))
    end.
Definition rpc (d fnptr : Z) (args : list (list Z)) : cmd world (option Z) := tasvir_vrpc d fnptr args.

(** ** Waiting *)

Inductive wait_end := Wait_done | Wait_failed | Wait_timeout | Wait_gone.

(** Has the area caught up with the response? *)
Definition response_visible (s : tasvir_rpc_status) (m : tasvir_msg) : cmd world bool :=
  if m_d m =? 0 then mret true
  else
    flags ← ttld (fun t => default 0 (fn_flags <$> tl_fn_descs t !! rs_fnd s));
    if has_flag flags TASVIR_FN_NOMODIFY then mret true
    else
      h ← load (m_d m + desc_h);
      if h =? 0 then mret false else v ← load (h + hdr_version); mret (m_version m <=? v).

(** While booting, the area must not be in the middle of an update. *)
Definition response_settled (m : tasvir_msg) : cmd world bool :=
  booting ← tasvir_is_booting;
  if (booting : bool) then
    h ← load (m_d m + desc_h);
    f ← load (tasvir_data2rw h + hdr_flags);
    mret (negb (has_flag f TASVIR_AREA_FLAG_EXT_PENDING))
  else mret true.

Context `{!Calls}.

(** The loop of tasvir_rpc_wait; [i] is the slot of [rs]. *)
Fixpoint rpc_wait_loop (fuel : nat) (d fnptr : Z) (args : list (list Z))
    (i attempts send_tsc end_tsc resend : Z) : cmd world (Z * wait_end) :=
  match fuel with
  | O => fail NoFuel
  | S fuel' =>
      now ← rdtsc;
      if end_tsc <=? now then mret (i, Wait_timeout)
      else
        s ← status i;
        match rs_status s with
        | TASVIR_RPC_STATUS_INVALID | TASVIR_RPC_STATUS_FAILED =>
            tasvir_service;; mret (i, Wait_failed)
        | TASVIR_RPC_STATUS_PENDING =>
            if resend <? u64 (now - send_tsc) then
              if attempts - 1 <=? 0 then tasvir_service;; mret (i, Wait_failed)
              else
                drop_response i;;
                rs ← tasvir_vrpc d fnptr args;
                match rs with
                | None => mret (i, Wait_gone)
                | Some i' =>
                    tasvir_service;;
                    rpc_wait_loop fuel' d fnptr args i' (attempts - 1) now end_tsc (u64 (resend * 2))
                end
            else tasvir_service;; rpc_wait_loop fuel' d fnptr args i attempts send_tsc end_tsc resend
        | TASVIR_RPC_STATUS_DONE =>
            match rs_response s with
            | None => tasvir_service;; mret (i, Wait_failed)
            | Some m =>
                if negb (m_d m =? d) then tasvir_service;; mret (i, Wait_failed)
                else
                  vis ← response_visible s m;
                  fin ← (if (vis : bool) then response_settled m else mret false);
                  tasvir_service;;
                  if (fin : bool) then mret (i, Wait_done)
                  else rpc_wait_loop fuel' d fnptr args i attempts send_tsc end_tsc resend
            end
        end
  end.

(** [None] is the return code -1. The response of a finished call that the
    last [tasvir_service] removed again would be dereferenced. *)
Definition rpc_wait (fuel : nat) (timeout_us d fnptr : Z) (args : list (list Z)) :
    cmd world (option (list Z)) :=
  start ← rdtsc;
  dt ← tasvir_usec2tsc timeout_us;
  resend ← tasvir_usec2tsc 10000;
  rs ← tasvir_vrpc d fnptr args;
  match rs with
  | None => mret None
  | Some i =>
      '(i, e) ← rpc_wait_loop fuel d fnptr args i 100 start (u64 (start + dt)) resend;
      match e with
      | Wait_gone => mret None
      | Wait_failed | Wait_timeout => drop_response i;; mret None
      | Wait_done =>
          s ← status i;
          match rs_response s with
          | None => fail Segv
          | Some m =>
              ret_len ← ttld (fun t => default 0 (fn_ret_len <$> tl_fn_descs t !! rs_fnd s));
              drop_response i;;
              mret (Some (get_bytes ret_len 0 (rpc_data m)))
          end
      end
  end.

End with_dpdk.
