(* ===== verification/RpcProofs.v ===== *)
(** * RpcProofs: calls arrive with their arguments, and answers come back

    Marshalling round trip, what [tasvir_vrpc] sends, what the owner of an
    area makes of a request, and what happens when a thread calls itself. The way
    of the answer through the rings is in [RpcReturn]. *)
From stdpp Require Import base gmap list numbers.
From Stdlib Require Import ZArith Lia.
From S2P Require Import Prelude Defs Types Fifo Mem Log Net Sync SyncCopy Calls Area AreaProofs Rpc.

(** ** Bytes *)

(** The first [len] bytes of [ws], as words. *)
Fixpoint bytes_value (len : Z) (ws : list Z) : list Z :=
  match ws with
  | [] => []
  | w :: ws' => (if 8 <=? len then w else wrap (8 * len) w) :: bytes_value (len - 8) ws'
  end.

Lemma wrap_low_bits k v w : 0 <= k -> wrap k (low_bits k v w) = wrap k v.
Proof.
  intros Hk. apply Z.bits_inj'. intros i Hi. unfold low_bits.
  rewrite !testbit_wrap, Z.lor_spec, testbit_wrap, Z.shiftl_spec by lia.
  destruct (Z.ltb_spec i k); cbn [andb]; [|done].
  rewrite (Z.testbit_neg_r _ (i - k)) by lia. by rewrite orb_false_r.
Qed.

(** [put_bytes] writes below [off + 8 * length ws] only. *)
Lemma put_bytes_frame len off ws data a :
  a < off \/ off + 8 * Z.of_nat (length ws) <= a -> ld (put_bytes len off ws data) a = ld data a.
Proof.
  revert len off data. induction ws as [|w ws IH]; intros len off data Ha; [done|].
  cbn [put_bytes length] in *. destruct (len <=? 0); [done|]. destruct (8 <=? len).
  - rewrite IH by lia. rewrite ld_insert. by rewrite (proj2 (Z.eqb_neq _ _)) by lia.
  - rewrite ld_insert. by rewrite (proj2 (Z.eqb_neq _ _)) by lia.
Qed.

Lemma get_words_ext n len off d1 d2 :
  (forall a, off <= a < off + 8 * Z.of_nat n -> ld d1 a = ld d2 a) ->
  get_words n len off d1 = get_words n len off d2.
Proof.
  revert len off. induction n as [|n IH]; intros len off H; [done|]. cbn [get_words].
  rewrite (H off) by lia. f_equal. apply IH. intros a Ha. apply H. lia.
Qed.

Lemma get_put_words len off ws data :
  8 * Z.of_nat (length ws) - 8 < len ->
  get_words (length ws) len off (put_bytes len off ws data) = bytes_value len ws.
Proof.
  revert len off data. induction ws as [|w ws IH]; intros len off data Hlen; [done|].
  cbn [length get_words put_bytes bytes_value] in *.
  rewrite (proj2 (Z.leb_gt len 0)) by lia. destruct (Z.leb_spec 8 len).
  - rewrite put_bytes_frame by lia. rewrite ld_insert, Z.eqb_refl. f_equal. apply IH. lia.
  - destruct ws as [|w' ws]; [|cbn [length] in Hlen; lia].
    cbn. rewrite ld_insert, Z.eqb_refl. f_equal. apply wrap_low_bits. lia.
Qed.

Lemma ceil8 len : 0 <= len -> 8 * ((len + 7) / 8) - 8 < len <= 8 * ((len + 7) / 8).
Proof. intros. pose proof (Z.div_mod (len + 7) 8). pose proof (Z.mod_pos_bound (len + 7) 8). lia. Qed.

Lemma ALIGN_ARG_eq len : 0 <= len < 2 ^ 32 -> TASVIR_ALIGN_ARG len = 8 * ((len + 7) / 8).
Proof.
  intros H. unfold TASVIR_ALIGN_ARG.
  destruct (ALIGNX_spec len 3) as [Ha Hb]; [lia..|]. change (2 ^ 3) with 8 in *.
  apply aligned_exists in Ha as [q Hq]; [|lia]. pose proof (ceil8 len). lia.
Qed.

(** ** Arguments *)

(** A length the switch supports. *)
Definition arg_len_ok (len : Z) : Prop := arg_len_listed len = true \/ 0 < len < 8.

(** An argument of [len] bytes is given by its words. *)
Definition arg_ok (len : Z) (arg : list Z) : Prop :=
  Z.of_nat (length arg) = (len + 7) / 8.

(** The value the callee sees: the bytes of the argument; an argument shorter
    than a word passes through an [int]. *)
Definition arg_value (len : Z) (arg : list Z) : list Z :=
  if arg_len_listed len then bytes_value len arg else [wrap (8 * len) (i32 (default 0 (arg !! 0%nat)))].

Lemma arg_len_listed_range len : arg_len_listed len = true -> 0 < len < 2 ^ 32.
Proof.
  unfold arg_len_listed. intros H%bool_decide_eq_true.
  repeat (apply elem_of_cons in H as [->|H]; [vm_compute; split; congruence|]). by apply elem_of_nil in H.
Qed.

Lemma arg_len_ok_range len : arg_len_ok len -> 0 < len < 2 ^ 32.
Proof. intros [H|H]; [by apply arg_len_listed_range|lia]. Qed.

Lemma put_arg_runs len off arg data :
  arg_len_ok len -> arg_ok len arg ->
  exists data', put_arg len off arg data = Some data' /\
    get_bytes len off data' = arg_value len arg /\
    (forall a, a < off \/ off + TASVIR_ALIGN_ARG len <= a -> ld data' a = ld data a).
Proof.
  intros Hlen Harg. pose proof (arg_len_ok_range _ Hlen) as Hr. pose proof (ceil8 len) as Hc.
  unfold put_arg, arg_value, get_bytes. rewrite ALIGN_ARG_eq by lia.
  destruct (arg_len_listed len) eqn:E.
  - eexists. split; [reflexivity|]. unfold arg_ok in Harg. split.
    + rewrite <- Harg, Nat2Z.id. apply get_put_words. lia.
    + intros a Ha. apply put_bytes_frame. lia.
  - destruct Hlen as [?|Hlen]; [congruence|].
    rewrite (proj2 (Z.leb_le len 8)) by lia. eexists. split; [reflexivity|].
    assert ((len + 7) / 8 = 1) as -> by (pose proof (Z.div_mod (len + 7) 8); pose proof (Z.mod_pos_bound (len + 7) 8); lia).
    split.
    + change (Z.to_nat 1) with 1%nat. cbn [get_words]. rewrite (proj2 (Z.leb_gt 8 len)) by lia.
      rewrite ld_insert, Z.eqb_refl. f_equal. apply Z.bits_inj'. intros i Hi. unfold u64.
      rewrite !testbit_wrap by lia. destruct (Z.ltb_spec i (8 * len)); cbn [andb]; [|done].
      by rewrite (proj2 (Z.ltb_lt i 64)) by lia.
    + intros a Ha. rewrite ld_insert. by rewrite (proj2 (Z.eqb_neq _ _)) by lia.
Qed.

Lemma get_args_ext lens ptr d1 d2 :
  Forall arg_len_ok lens -> (forall a, ptr <= a -> ld d1 a = ld d2 a) ->
  get_args lens (arg_offsets ptr lens) d1 = get_args lens (arg_offsets ptr lens) d2.
Proof.
  intros Hl. revert ptr. induction Hl as [|len lens Hlen _ IH]; intros ptr H; [done|].
  cbn [arg_offsets get_args]. pose proof (arg_len_ok_range _ Hlen).
  pose proof (ceil8 len). f_equal.
  - apply get_words_ext. intros a Ha. apply H. lia.
  - apply IH. intros a Ha. apply H. rewrite ALIGN_ARG_eq in Ha by lia. lia.
Qed.

Lemma put_args_runs lens ptr args data :
  Forall2 (fun len arg => arg_len_ok len /\ arg_ok len arg) lens args ->
  exists data', put_args lens (arg_offsets ptr lens) args data = Some data' /\
    get_args lens (arg_offsets ptr lens) data' = zip_with arg_value lens args /\
    (forall a, a < ptr -> ld data' a = ld data a).
Proof.
  intros H. revert ptr data. induction H as [|len arg lens args [Hlen Harg] Hrest IH]; intros ptr data.
  { by exists data. }
  cbn [arg_offsets put_args get_args zip_with head tail default from_option id].
  destruct (put_arg_runs len ptr arg data Hlen Harg) as (d1 & E1 & G1 & F1).
  pose proof (arg_len_ok_range _ Hlen). pose proof (ceil8 len).
  destruct (IH (ptr + TASVIR_ALIGN_ARG len) d1) as (d2 & E2 & G2 & F2).
  rewrite ALIGN_ARG_eq in * by lia.
  exists d2. change (default [] (Some arg)) with arg. rewrite E1. cbn [mbind option_bind]. split; [done|]. split.
  - rewrite G2. f_equal. rewrite <- G1. apply get_words_ext. intros a Ha. apply F2. lia.
  - intros a Ha. rewrite F2, F1; [done|lia|lia].
Qed.

(** C7: Arguments of the supported lengths survive marshalling: with the
    offsets tasvir_rpc_fn_register assigns, what tasvir_vrpc stores in the
    message is what the function's stub reads back, for every function and
    every argument list; and the result the stub stores at the start of the
    data overwrites no argument and is read back by tasvir_rpc_wait. *)
Theorem rpc_args_roundtrip lens args ret_len ret data :
  Forall2 (fun len arg => arg_len_ok len /\ arg_ok len arg) lens args ->
  0 <= ret_len < 2 ^ 31 -> arg_ok ret_len ret ->
  let offs := arg_offsets (TASVIR_ALIGN_ARG ret_len) lens in
  exists data', put_args lens offs args data = Some data' /\
    get_args lens offs data' = zip_with arg_value lens args /\
    get_args lens offs (put_bytes ret_len 0 ret data') = zip_with arg_value lens args /\
    get_bytes ret_len 0 (put_bytes ret_len 0 ret data') = bytes_value ret_len ret.
Proof.
  intros Hargs Hret Hr offs. destruct (put_args_runs lens (TASVIR_ALIGN_ARG ret_len) args data Hargs)
    as (data' & E & G & _).
  exists data'. pose proof (ceil8 ret_len). unfold arg_ok in Hr.
  split; [done|]. split; [done|]. split.
  - rewrite <- G. apply get_args_ext.
    + clear -Hargs. induction Hargs as [|len arg lens args [Hl _] _ IH]; by constructor.
    + intros a Ha. apply put_bytes_frame. rewrite ALIGN_ARG_eq in Ha by lia. lia.
  - unfold get_bytes. rewrite <- Hr, Nat2Z.id. destruct ret as [|r ret]; [done|].
    apply get_put_words. cbn [length] in *. lia.
Qed.

(** A call of tasvir_area_add_user(d, node, -1). *)
Lemma rpc_args_roundtrip_witness :
  exists data', put_args [8; 8; 4] (arg_offsets 8 [8; 8; 4]) [[4096]; [8192]; [-1]] ∅ = Some data' /\
    get_args [8; 8; 4] (arg_offsets 8 [8; 8; 4]) data' = [[4096]; [8192]; [2 ^ 32 - 1]].
Proof.
  destruct (rpc_args_roundtrip [8; 8; 4] [[4096]; [8192]; [-1]] 4 [0] ∅) as (data' & H1 & H2 & _).
  - repeat constructor; first [left; reflexivity | right; lia | reflexivity].
  - lia.
  - reflexivity.
  - exists data'. split; [exact H1|exact H2].
Defined.

Section with_dpdk.
Context `{D : Dpdk, !DpdkSpec D}.

(** ** Reading *)

(** The word at [va] is [v]. *)
Definition reads (w : world) (va v : Z) : Prop := load va w = Done (v, w).

(** Reads depend on memory and mappings only. *)
Lemma reads_ext w w' va v :
  w_mem w' = w_mem w -> w_maps w' = w_maps w -> reads w va v -> reads w' va v.
Proof.
  unfold reads, load. intros -> ->. destruct (va2off _ _) as [o|]; [|done].
  destruct (o mod 8 =? 0); [|done]. congruence.
Qed.

Lemma reads_intro w va o v :
  va2off (w_maps w) va = Some o -> (o mod 8 =? 0) = true -> ld (w_mem w) o = v -> reads w va v.
Proof. unfold reads, load. by intros -> -> ->. Qed.

(** The thread at [t] has identity [tid] and state [st]. *)
Definition thread_at (w : world) (t : Z) (tid : tasvir_tid) (st : Z) : Prop :=
  exists a b, reads w (t + thr_nid_idx) a /\ reads w (t + thr_pid_state) b /\
    tid = mk_tid (Z.land a (2 ^ 48 - 1)) (Z.shiftr a 48) (i32 (lo32 b)) /\ st = hi32 b.

Lemma load_tid_runs w t tid st : thread_at w t tid st -> load_tid t w = Done (tid, w).
Proof.
  intros (a & b & Ha & Hb & -> & _). unfold load_tid, mbind, cmd_bind. by rewrite Ha, Hb.
Qed.

Lemma load_state_runs w t tid st : thread_at w t tid st -> load_thread_state t w = Done (st, w).
Proof. intros (a & b & _ & Hb & _ & ->). unfold load_thread_state, mbind, cmd_bind. by rewrite Hb. Qed.

Lemma thread_at_ext w w' t tid st :
  w_mem w' = w_mem w -> w_maps w' = w_maps w -> thread_at w t tid st -> thread_at w' t tid st.
Proof.
  intros Hm Hv (a & b & Ha & Hb & ? & ?). exists a, b.
  split; [by apply (reads_ext w)|]. split; [by apply (reads_ext w)|done].
Qed.

(** An area: its owner, header, the header's flags and version. *)
Record area_at (w : world) (d owner h flags v : Z) : Prop := {
  aa_owner : reads w (d + desc_owner) owner;
  aa_h : reads w (d + desc_h) h;
  aa_h0 : h <> 0;
  aa_flags : reads w (h + hdr_flags) flags;
  aa_version : reads w (h + hdr_version) v;
}.

Lemma area_at_ext w w' d owner h flags v :
  w_mem w' = w_mem w -> w_maps w' = w_maps w ->
  area_at w d owner h flags v -> area_at w' d owner h flags v.
Proof. intros Hm Hv []. split; eauto using reads_ext. Qed.

Lemma area_is_local_runs w d owner h flags v :
  area_at w d owner h flags v ->
  tasvir_area_is_local d w = Done (has_flag flags TASVIR_AREA_FLAG_LOCAL, w).
Proof.
  intros [_ Hh Hh0 Hf _]. unfold tasvir_area_is_local, mbind, cmd_bind. rewrite Hh.
  rewrite (proj2 (Z.eqb_neq _ _)) by done. by rewrite Hf.
Qed.

(** ** Registered functions *)

(** [fnd] is the entry of the function at [fnptr], as tasvir_rpc_fn_register
    left it, for functions with arguments of supported lengths. *)
Record registered (w : world) (fnptr i : Z) (fnd : tasvir_fn_desc) (lens : list Z) : Prop := {
  rg_ht : tl_ht_fnptr (w_tl w) !! fnptr = Some i;
  rg_desc : tl_fn_descs (w_tl w) !! i = Some fnd;
  rg_fid : fn_fid fnd = i;
  rg_fnptr : fn_fnptr fnd = fnptr;
  rg_lens : lens = take (Z.to_nat (fn_argc fnd)) (fn_arg_lens fnd);
  rg_offs : fn_arg_offsets fnd = arg_offsets (TASVIR_ALIGN_ARG (fn_ret_len fnd)) lens;
}.

Lemma register_registered w fnd :
  tl_nr_fns (w_tl w) < TASVIR_NR_FN ->
  exists w', tasvir_rpc_fn_register fnd w = Done (0, w') /\
    exists fnd', registered w' (fn_fnptr fnd) (tl_nr_fns (w_tl w)) fnd'
                   (take (Z.to_nat (fn_argc fnd)) (fn_arg_lens fnd)).
Proof.
  intros H. unfold tasvir_rpc_fn_register, mbind, cmd_bind, ttld, gets.
  rewrite (proj2 (Z.leb_gt _ _)) by done.
  eexists. split; [reflexivity|]. eexists.
  split; cbn; [apply lookup_insert_eq|apply lookup_insert_eq|reflexivity..].
Qed.

(** ** Sending a request *)

(** The message tasvir_vrpc makes. *)
Lemma vrpc_msg_runs w d owner h flags v fnptr i fnd lens args otid src :
  area_at w d owner h flags v -> owner <> 0 ->
  thread_at w owner otid (thread_state_code TASVIR_THREAD_STATE_RUNNING) ->
  my_tid w = Done (src, w) ->
  registered w fnptr i fnd lens ->
  Forall2 (fun len arg => arg_len_ok len /\ arg_ok len arg) lens args ->
  exists m, vrpc_msg d fnd args w =
      Done (m, w <| w_tl := (w_tl w) <| tl_nr_msgs := u16 (tl_nr_msgs (w_tl w) + 1) |> |>) /\
    m_type m = TASVIR_MSG_TYPE_RPC_REQUEST /\ m_id m = tl_nr_msgs (w_tl w) mod TASVIR_NR_RPC_MSG /\
    m_src_tid m = src /\ m_dst_tid m = otid /\ m_d m = d /\ m_version m = v /\ rpc_fid m = i /\
    get_args lens (fn_arg_offsets fnd) (rpc_data m) = zip_with arg_value lens args.
Proof.
  intros Ha Ho Hot Hsrc Hreg Hargs. pose proof Ha as [Hao Hah Hh0 Haf Hav].
  unfold vrpc_msg, mbind, cmd_bind. rewrite Hao. rewrite (proj2 (Z.eqb_neq owner 0)) by done.
  rewrite (load_state_runs _ _ _ _ Hot), Z.eqb_refl. unfold mret, cmd_ret.
  rewrite (load_tid_runs _ _ _ _ Hot), Hsrc. unfold next_msg_id, mod_tl, ttld, gets, modify, mbind, cmd_bind.
  set (w' := w <| w_tl := _ |>).
  unfold mret, cmd_ret. cbv beta iota. rewrite (reads_ext w w' _ _ eq_refl eq_refl Hah), (proj2 (Z.eqb_neq h 0)) by done.
  rewrite (reads_ext w w' _ _ eq_refl eq_refl Hav).
  destruct Hreg as [_ _ Hfid _ Hlens Hoffs]. rewrite <- Hlens, Hoffs.
  destruct (put_args_runs lens (TASVIR_ALIGN_ARG (fn_ret_len fnd)) args ∅ Hargs) as (data & E & G & _).
  rewrite E. eexists. split; [reflexivity|]. cbn. repeat split; done.
Qed.

(** The ring of this client has room. *)
Definition has_room (q : ring) : Prop := forall m, exists q', rte_ring_sp_enqueue q m = Some q'.

Context (exec : Z -> list (list Z) -> cmd world (list Z)).

(** A message routed elsewhere is not handled here. *)
Lemma handle_routed m src w v w' :
  rpc_route m src w = Done (Some v, w') -> tasvir_handle_msg_rpc exec m src w = Done (v, w').
Proof.
  intros H. unfold tasvir_handle_msg_rpc. cbn [handle_msg_rpc]. unfold mbind, cmd_bind. by rewrite H.
Qed.

(** A client passes a request for another thread to the daemon. *)
Lemma client_route m w d owner h flags v t tid st q q' :
  m_type m = TASVIR_MSG_TYPE_RPC_REQUEST -> m_d m = d -> tl_daemon (w_tl w) = false ->
  tl_thread (w_tl w) = t -> t <> 0 -> thread_at w t tid st ->
  0 <= tid_idx tid < TASVIR_NR_THREADS_LOCAL ->
  td_ring_tx (nd_td (w_nd w) (tid_idx tid)) = Some q -> rte_ring_sp_enqueue q m = Some q' ->
  area_at w d owner h flags v -> owner <> t ->
  rpc_route m TASVIR_MSG_SRC_ME w = Done (Some 0, w <| w_nd := nd_set_td (tid_idx tid)
      ((nd_td (w_nd w) (tid_idx tid)) <| td_ring_tx := Some q' |>) (w_nd w) |>).
Proof.
  intros Hmt Hmd Hd Ht Ht0 Htid Hidx Hq Hq' Harea Hot.
  assert (Hdest : exists loc, rpc_dest m w = Done (Some (loc, false), w)).
  { unfold rpc_dest. rewrite Hmt, Hmd. unfold mbind, cmd_bind, ttld, gets.
    rewrite (area_is_local_runs _ _ _ _ _ _ Harea). destruct (has_flag _ _); [|by exists false].
    rewrite (aa_owner _ _ _ _ _ _ Harea), Ht, (proj2 (Z.eqb_neq owner t)) by done. by exists true. }
  destruct Hdest as [loc Hdest].
  unfold rpc_route, mbind at 1, cmd_bind at 1. rewrite Hdest.
  rewrite bool_decide_false by done. cbn [andb].
  unfold route, ring_send, mbind, cmd_bind, ttld, ndata, gets. rewrite Hd, Ht.
  rewrite (proj2 (Z.eqb_neq t 0)) by done. rewrite (load_tid_runs _ _ _ _ Htid).
  unfold mret, cmd_ret. cbv beta iota.
  rewrite (proj2 (Z.leb_le 0 _)), (proj2 (Z.ltb_lt _ _)) by lia. cbn [andb].
  rewrite Hq, Hq'. reflexivity.
Qed.

(** The slot of a new call. *)
Lemma new_slot_runs w i s :
  exists w', (drop_response i;; mod_status i (fun _ => s)) w = Done (tt, w') /\
    tl_status_l (w_tl w') !! i = Some s /\ w_mem w' = w_mem w /\ nd_tdata (w_nd w') = nd_tdata (w_nd w).
Proof.
  unfold drop_response, status, ttld, gets, mbind, cmd_bind.
  destruct (rs_response _); (eexists; split; [reflexivity|]; split; [apply lookup_insert_eq|done]).
Qed.

(** C8: A client's call on an area another thread owns hands exactly one
    request to the daemon: it carries the function, the area and its version,
    the caller's and the owner's identities and the arguments; the slot of the
    status table with the message's id waits for the answer, and shared memory
    is untouched. *)
Theorem vrpc_sends w d owner h flags v fnptr i fnd lens args otid t tid st q mp :
  tl_daemon (w_tl w) = false -> tl_thread (w_tl w) = t -> t <> 0 -> thread_at w t tid st ->
  0 <= tid_idx tid < TASVIR_NR_THREADS_LOCAL -> length (nd_tdata (w_nd w)) = Z.to_nat TASVIR_NR_THREADS_LOCAL ->
  td_ring_tx (nd_td (w_nd w) (tid_idx tid)) = Some q -> has_room q ->
  rte_mempool_get_bulk (nd_mp (w_nd w)) 1 = Some mp ->
  area_at w d owner h flags v -> owner <> 0 -> owner <> t ->
  thread_at w owner otid (thread_state_code TASVIR_THREAD_STATE_RUNNING) ->
  registered w fnptr i fnd lens -> has_flag (fn_flags fnd) TASVIR_FN_NOACK = false ->
  Forall2 (fun len arg => arg_len_ok len /\ arg_ok len arg) lens args ->
  exists m q' w', tasvir_vrpc exec d fnptr args w = Done (Some (m_id m), w') /\
    m_type m = TASVIR_MSG_TYPE_RPC_REQUEST /\ m_d m = d /\ m_version m = v /\
    m_src_tid m = tid /\ m_dst_tid m = otid /\ rpc_fid m = i /\
    get_args lens (fn_arg_offsets fnd) (rpc_data m) = zip_with arg_value lens args /\
    td_ring_tx (nd_td (w_nd w') (tid_idx tid)) = Some q' /\ ring_items q' = ring_items q ++ [m] /\
    tl_status_l (w_tl w') !! m_id m = Some (mk_status false (m_id m) i TASVIR_RPC_STATUS_PENDING None) /\
    w_mem w' = w_mem w.
Proof.
  intros Hd Ht Ht0 Htid Hidx Htds Hq Hroom Hmp Harea Ho0 Hot Hoth Hreg Hna Hargs.
  unfold tasvir_vrpc, pool_get1, mbind, cmd_bind, ndata, ttld, gets. rewrite Hmp.
  unfold mod_nd, modify, mret, cmd_ret. cbn [negb].
  set (w1 := w <| w_nd := _ |>). pose proof Hreg as [Hht Hdesc Hfid Hfp Hlens Hoffs].
  change (w_tl w1) with (w_tl w). rewrite Hht. cbn [mbind option_bind]. rewrite Hdesc.
  destruct (vrpc_msg_runs w1 d owner h flags v fnptr i fnd lens args otid tid)
    as (m & E & Hmt & Hmid & Hms & Hmdst & Hmd & Hmv & Hmf & Hma).
  { by apply (area_at_ext w). }
  { done. }
  { by apply (thread_at_ext w). }
  { unfold my_tid, mbind, cmd_bind, ttld, gets. change (w_tl w1) with (w_tl w). rewrite Ht.
    rewrite (proj2 (Z.eqb_neq t 0)) by done. apply (load_tid_runs _ _ _ st). by apply (thread_at_ext w). }
  { by split. }
  { done. }
  rewrite E. set (w2 := w1 <| w_tl := _ |>).
  assert (Harea2 : area_at w2 d owner h flags v) by (by apply (area_at_ext w)).
  assert (Htid2 : thread_at w2 t tid st) by (by apply (thread_at_ext w)).
  destruct (Hroom m) as [q' Hq'].
  rewrite (handle_routed m _ w2 _ _
    (client_route m w2 d owner h flags v t tid st q q' Hmt Hmd Hd Ht Ht0 Htid2 Hidx Hq Hq' Harea2 Hot)).
  change (0 =? 0) with true. cbn [negb]. rewrite Hna, Hfid.
  set (w3 := w2 <| w_nd := _ |>).
  destruct (new_slot_runs w3 (m_id m) (mk_status false (m_id m) i TASVIR_RPC_STATUS_PENDING None))
    as (w4 & E4 & Hs & Hmem & Htd).
  unfold mbind, cmd_bind in E4. exists m, q', w4. split.
  { destruct (drop_response (m_id m) w3) as [[[] w5]|]; [|done]. by rewrite E4. }
  do 7 (split; [done|]). split.
  - unfold nd_td. rewrite Htd. fold (nd_td (w_nd w3) (tid_idx tid)). unfold w3. cbn [w_nd set_field].
    rewrite nd_td_set; [done|]. change (w_nd w2) with (w_nd w1).
    change (nd_tdata (w_nd w1)) with (nd_tdata (w_nd w)). rewrite Htds. lia.
  - split; [by apply enqueue_items|]. split; [done|]. by rewrite Hmem.
Qed.

(** ** Answering *)

(** The owner runs the function and turns the request into the response. *)
Lemma request_runs w w' m i fnd lens ret d t tid st h flags v :
  tasvir_is_booting w = Done (false, w) -> registered w (fn_fnptr fnd) i fnd lens -> rpc_fid m = i ->
  exec (fn_fnptr fnd) (get_args lens (fn_arg_offsets fnd) (rpc_data m)) w = Done (ret, w') ->
  has_flag (fn_flags fnd) TASVIR_FN_NOACK = false ->
  m_d m = d -> tl_thread (w_tl w') = t -> t <> 0 -> thread_at w' t tid st -> area_at w' d t h flags v ->
  rpc_request_run exec m w =
    if m_version m =? v then Fault Abort
    else Done (Some (m <| m_dst_tid := m_src_tid m |> <| m_src_tid := tid |>
                       <| m_type := TASVIR_MSG_TYPE_RPC_RESPONSE |> <| m_version := v |>
                       <| m_body := Msg_rpc i (put_bytes (fn_ret_len fnd) 0 ret (rpc_data m)) |>), w').
Proof.
  intros Hb Hreg Hfid Hex Hna Hmd Ht Ht0 Htid Harea. pose proof Harea as [Ho Hh Hh0 _ Hv].
  pose proof Hreg as [_ Hdesc _ _ Hlens _].
  unfold rpc_request_run, run_stub, mbind, cmd_bind, ttld, gets. rewrite Hb, Hfid, Hdesc.
  rewrite <- Hlens, Hex. unfold mret, cmd_ret. cbv beta iota. rewrite Hna, Hmd, Ho, Ht, Z.eqb_refl. cbn [negb].
  unfold my_tid, mbind, cmd_bind, ttld, gets. rewrite Ht. rewrite (proj2 (Z.eqb_neq t 0)) by done.
  rewrite (load_tid_runs _ _ _ _ Htid), Hh. rewrite (proj2 (Z.eqb_neq h 0)) by done.
  rewrite Hv. cbn [negb andb]. by destruct (_ =? _).
Qed.

(** A response for this thread goes to its slot. *)
Lemma response_runs m src w tid :
  m_type m = TASVIR_MSG_TYPE_RPC_RESPONSE -> my_tid w = Done (tid, w) -> m_dst_tid m = tid ->
  tid_nid tid = tid_nid (nd_boot_tid (w_nd w)) ->
  tasvir_handle_msg_rpc exec m src w = (tasvir_handle_msg_rpc_response m;; mret 0) w.
Proof.
  intros Hmt Htid Hdst Hnid. unfold tasvir_handle_msg_rpc. cbn [handle_msg_rpc].
  unfold rpc_route, rpc_dest. rewrite Hmt, Hdst. unfold mbind, cmd_bind, ndata, gets.
  rewrite Hnid, Z.eqb_refl, Htid. unfold mret, cmd_ret. cbv beta iota.
  cbn [negb]. rewrite andb_false_r. by rewrite bool_decide_true.
Qed.

(** A thread that calls a function on a local area it owns itself aborts
    (unless the function changes the version): the request is executed at
    once, and the area is still at the version the request was sent at. *)
Theorem vrpc_self_aborts w d h flags v fnptr i fnd lens args t tid mp :
  tl_thread (w_tl w) = t -> t <> 0 -> tasvir_is_booting w = Done (false, w) ->
  thread_at w t tid (thread_state_code TASVIR_THREAD_STATE_RUNNING) ->
  rte_mempool_get_bulk (nd_mp (w_nd w)) 1 = Some mp ->
  area_at w d t h flags v -> has_flag flags TASVIR_AREA_FLAG_LOCAL = true ->
  registered w fnptr i fnd lens -> has_flag (fn_flags fnd) TASVIR_FN_NOACK = false ->
  Forall2 (fun len arg => arg_len_ok len /\ arg_ok len arg) lens args ->
  (forall w1, w_mem w1 = w_mem w -> w_maps w1 = w_maps w -> tl_thread (w_tl w1) = t ->
     exists ret w', exec fnptr (zip_with arg_value lens args) w1 = Done (ret, w') /\
       tl_thread (w_tl w') = t /\ area_at w' d t h flags v /\
       thread_at w' t tid (thread_state_code TASVIR_THREAD_STATE_RUNNING)) ->
  tasvir_vrpc exec d fnptr args w = Fault Abort.
Proof.
  intros Ht Ht0 Hb Htid Hmp Harea Hloc Hreg Hna Hargs Hex.
  unfold tasvir_vrpc, pool_get1, mbind, cmd_bind, ndata, ttld, gets. rewrite Hmp.
  unfold mod_nd, modify, mret, cmd_ret. cbn [negb].
  set (w1 := w <| w_nd := _ |>). pose proof Hreg as [Hht Hdesc Hfid Hfp Hlens Hoffs].
  change (w_tl w1) with (w_tl w). rewrite Hht. cbn [mbind option_bind]. rewrite Hdesc.
  destruct (vrpc_msg_runs w1 d t h flags v fnptr i fnd lens args tid tid)
    as (m & E & Hmt & Hmid & Hms & Hmdst & Hmd & Hmv & Hmf & Hma).
  { by apply (area_at_ext w). }
  { done. }
  { by apply (thread_at_ext w). }
  { unfold my_tid, mbind, cmd_bind, ttld, gets. change (w_tl w1) with (w_tl w). rewrite Ht.
    rewrite (proj2 (Z.eqb_neq t 0)) by done. eapply load_tid_runs. by apply (thread_at_ext w). }
  { by split. }
  { done. }
  rewrite E. set (w2 := w1 <| w_tl := _ |>).
  assert (Hrt : rpc_route m TASVIR_MSG_SRC_ME w2 = Done (None, w2)).
  { unfold rpc_route, rpc_dest. rewrite Hmt, Hmd. unfold mbind, cmd_bind, ttld, gets.
    assert (Harea2 : area_at w2 d t h flags v) by (by apply (area_at_ext w)).
    rewrite (area_is_local_runs _ _ _ _ _ _ Harea2), Hloc, (aa_owner _ _ _ _ _ _ Harea2).
    change (tl_thread (w_tl w2)) with (tl_thread (w_tl w)). rewrite Ht, Z.eqb_refl.
    unfold mret, cmd_ret. cbv beta iota. rewrite bool_decide_false by done. done. }
  unfold tasvir_handle_msg_rpc. cbn [handle_msg_rpc]. unfold mbind, cmd_bind. rewrite Hrt, Hmt.
  destruct (Hex w2 eq_refl eq_refl Ht) as (ret & w' & Ex & Ht' & Harea' & Htid').
  rewrite (request_runs w2 w' m i fnd lens ret d t tid (thread_state_code TASVIR_THREAD_STATE_RUNNING) h flags v); try done.
  - by rewrite Hmv, Z.eqb_refl.
  - unfold tasvir_is_booting, mbind, cmd_bind, ttld, tdata, gets in *. change (w_tl w2) with
      ((w_tl w) <| tl_nr_msgs := u16 (tl_nr_msgs (w_tl w1) + 1) |>). cbn [tl_thread tl_tdata set_field].
    unfold mret, cmd_ret in *. injection Hb as Hb. by rewrite <- Hb.
  - split; try done. by rewrite Hfp.
  - by rewrite Hma, Hfp.
Qed.

End with_dpdk.

(** ** Two threads of one node *)

(** The root area, owned by thread 0 (at version 7, marked local); thread 0
    is the daemon, thread 1 a client. *)
Definition thr (i : Z) : Z := TASVIR_ADDR_DATA + 65536 + node_thread i.
Definition rpc_mem : gmap Z Z :=
  <[8 := TASVIR_ADDR_DATA + 32768]> (<[16 := thr 0]> (<[32768 := 5]> (<[32768 + 72 := 7]>
  (<[65536 + 16 + 8 := 170]> (<[65536 + 16 + 16 := 100 + Z.shiftl 4 32]>
  (<[65536 + 40 + 8 := 170 + Z.shiftl 1 48]> (<[65536 + 40 + 16 := 101 + Z.shiftl 4 32]> ∅))))))).
Definition fnd_owner : tasvir_fn_desc :=
  mk_fn_desc fn_update_owner 4 0 2 4 [8; 8] [8; 16].
Definition rpc_tls (daemon : bool) (i : Z) : tasvir_tls_data :=
  tls0 <| tl_daemon := daemon |> <| tl_thread := thr i |> <| tl_tdata := i |>
       <| tl_root_desc := TASVIR_ADDR_DATA |>
       <| tl_ht_fnptr := <[fn_update_owner := 4]> ∅ |> <| tl_fn_descs := <[4 := fnd_owner]> ∅ |>.
Definition rpc_td : @tasvir_local_tdata fifo_dpdk :=
  (@tdata_zero fifo_dpdk) <| td_state := TASVIR_THREAD_STATE_RUNNING |>
    <| td_ring_tx := Some (ring0 : @ring fifo_dpdk) |> <| td_ring_rx := Some (ring0 : @ring fifo_dpdk) |>.
Definition rpc_world (daemon : bool) (i : Z) : @world fifo_dpdk :=
  world0 <| w_mem := rpc_mem |> <| w_tl := rpc_tls daemon i |>
         <| w_nd := ndata0 <| nd_boot_tid := mk_tid 170 65535 (-1) |> <| nd_tdata := replicate 64 rpc_td |> |>.

(** A function that returns 0. *)
Definition exec_zero : Z -> list (list Z) -> cmd (@world fifo_dpdk) (list Z) := fun _ _ => mret [0].

Lemma ring0_room : @has_room fifo_dpdk ring0.
Proof. intros m. by eexists. Qed.

(** The word at a concrete offset of [rpc_mem]. *)
Ltac rpc_reads o :=
  apply (reads_intro _ _ o);
    [ lazymatch goal with |- va2off _ ?va = _ => change (va2off [] va = Some o) end
    | reflexivity
    | lazymatch goal with |- _ = ?v => change (ld rpc_mem o = v) end ]; vm_compute; reflexivity.

Lemma rpc_area daemon i :
  area_at (rpc_world daemon i) TASVIR_ADDR_DATA (thr 0) (TASVIR_ADDR_DATA + 32768) 5 7.
Proof. split; [rpc_reads 16|rpc_reads 8|discriminate|rpc_reads 32768|rpc_reads 32840]. Qed.

Lemma rpc_thread daemon i j :
  j = 0 \/ j = 1 ->
  thread_at (rpc_world daemon i) (thr j) (mk_tid 170 j (100 + j)) (thread_state_code TASVIR_THREAD_STATE_RUNNING).
Proof.
  intros [-> | ->]; [exists 170, (100 + Z.shiftl 4 32)|exists (170 + Z.shiftl 1 48), (101 + Z.shiftl 4 32)];
    (split; [first [rpc_reads 65560|rpc_reads 65584]|]; split; [first [rpc_reads 65568|rpc_reads 65592]|];
     split; reflexivity).
Qed.

Lemma rpc_registered daemon i :
  registered (rpc_world daemon i) fn_update_owner 4 fnd_owner [8; 8].
Proof. split; reflexivity. Qed.

Lemma args_owner_ok :
  Forall2 (fun len arg => arg_len_ok len /\ arg_ok len arg) [8; 8] [[TASVIR_ADDR_DATA]; [thr 1]].
Proof. repeat constructor. Qed.

Lemma vrpc_sends_witness :
  exists m w', tasvir_vrpc exec_zero TASVIR_ADDR_DATA fn_update_owner [[TASVIR_ADDR_DATA]; [thr 1]]
      (rpc_world false 1) = Done (Some (m_id m), w') /\
    m_dst_tid m = mk_tid 170 0 100 /\
    get_args [8; 8] [8; 16] (rpc_data m) = [[TASVIR_ADDR_DATA]; [thr 1]].
Proof.
  destruct (vrpc_sends exec_zero (rpc_world false 1) TASVIR_ADDR_DATA (thr 0) (TASVIR_ADDR_DATA + 32768) 5 7
    fn_update_owner 4 fnd_owner [8; 8] [[TASVIR_ADDR_DATA]; [thr 1]] (mk_tid 170 0 100) (thr 1)
    (mk_tid 170 1 101) (thread_state_code TASVIR_THREAD_STATE_RUNNING) ring0 999%nat)
    as (m & q' & w' & E & _ & _ & _ & _ & Hdst & _ & Hargs & _).
  - reflexivity.
  - reflexivity.
  - discriminate.
  - apply rpc_thread. by right.
  - split; [discriminate|reflexivity].
  - reflexivity.
  - reflexivity.
  - exact ring0_room.
  - reflexivity.
  - apply rpc_area.
  - discriminate.
  - discriminate.
  - apply rpc_thread. by left.
  - apply rpc_registered.
  - reflexivity.
  - exact args_owner_ok.
  - exists m, w'. split; [exact E|]. split; [exact Hdst|exact Hargs].
Defined.

Lemma vrpc_self_aborts_witness :
  tasvir_vrpc exec_zero TASVIR_ADDR_DATA fn_update_owner [[TASVIR_ADDR_DATA]; [thr 1]] (rpc_world true 0)
    = Fault Abort.
Proof.
  apply (vrpc_self_aborts exec_zero (rpc_world true 0) TASVIR_ADDR_DATA
    (TASVIR_ADDR_DATA + 32768) 5 7 fn_update_owner 4 fnd_owner [8; 8]
    [[TASVIR_ADDR_DATA]; [thr 1]] (thr 0) (mk_tid 170 0 100) 999%nat).
  - reflexivity.
  - discriminate.
  - reflexivity.
  - apply rpc_thread. by left.
  - reflexivity.
  - apply rpc_area.
  - reflexivity.
  - apply rpc_registered.
  - reflexivity.
  - exact args_owner_ok.
  - intros w1 Hm Hv Ht. exists [0], w1. split; [reflexivity|]. split; [exact Ht|]. split.
    + apply (area_at_ext (rpc_world true 0)); [exact Hm|exact Hv|apply rpc_area].
    + apply (thread_at_ext (rpc_world true 0)); [exact Hm|exact Hv|apply rpc_thread; by left].
Defined.
