(* ===== verification/SyncExternal.v ===== *)
(** * SyncExternal: synchronization between nodes (src/sync_external.c, daemon)

    Sending: [tasvir_sync_external] walks the areas; for an area of this node
    whose interval has passed, [tasvir_sync_external_area] chooses how many of
    the difference logs the slowest subscriber needs, sends the lines they
    name ([tasvir_sync_parse_log] with that pivot) and rotates the logs.
    Receiving: [tasvir_handle_msg_mem] applies one message to the writer copy.
    A version arrives as a sequence of messages, each stating how many bytes
    came before it; the header's flags say whether a version is being received
    (EXT_PENDING), dropped (EXT_IGNORE) or held back until the next internal
    sync (EXT_ENQUEUE). *)
From stdpp Require Import base gmap list numbers.
From Stdlib Require Import ZArith Lia.
From S2P Require Import Prelude Defs Types Mem Log Net Sync Calls Area Rpc.

Section with_dpdk.
Context `{D : Dpdk}.

(** ** Receiving *)

(** [tasvir_stream_vec_rep(dst, m->line, len)] from the message buffer, which
    has room for [TASVIR_NR_CACHELINES_PER_MSG] lines. *)
Definition stream_line (dst : Z) (line : list Z) (len : Z) : cmd world unit :=
  let n := Z.to_nat (8 * Z.max 1 ((len + 63) / 64)) in
  if TASVIR_NR_CACHELINES_PER_MSG * 8 <? Z.of_nat n then fail OutOfBounds
  else store_words dst (take n (line ++ replicate n 0)).

(** A new version starts: the header of the area is prepared for it. *)
Definition mem_new_version (h_rw v : Z) : cmd world unit :=
  cur ← load (h_rw + hdr_last_sync_ext_v);
  when (negb (cur =? v))
    (store (h_rw + hdr_last_sync_ext_v) v;;
     store (h_rw + hdr_last_sync_ext_bytes) 0;;
     and_not_flags h_rw TASVIR_AREA_FLAG_EXT_IGNORE;;
     or_flags h_rw TASVIR_AREA_FLAG_EXT_PENDING).

(** Messages were missed: what came before this one is not what it says. *)
Definition mem_check_bytes (h_rw prev_bytes : Z) : cmd world unit :=
  b ← load (h_rw + hdr_last_sync_ext_bytes);
  when (negb (b =? prev_bytes))
    (and_not_flags h_rw TASVIR_AREA_FLAG_EXT_PENDING;; or_flags h_rw TASVIR_AREA_FLAG_EXT_IGNORE).

(** Store the lines of the message. *)
Definition mem_store (h_rw addr len : Z) (line : list Z) : cmd world unit :=
  when (negb (addr =? 0))
    (tasvir_log addr len;;
     stream_line (tasvir_data2rw addr) line len;;
     b ← load (h_rw + hdr_last_sync_ext_bytes);
     store (h_rw + hdr_last_sync_ext_bytes) (u64 (b + len));;
     booting ← tasvir_is_booting;
     when booting (stream_line (tasvir_data2ro addr) line len)).

(** The last message of a version. The comparison with half the sync interval
    is on doubles, exact below 2^53. *)
Definition mem_last (h h_rw : Z) : cmd world unit :=
  and_not_flags h_rw TASVIR_AREA_FLAG_EXT_PENDING;;
  or_flags h_rw TASVIR_AREA_FLAG_ACTIVE;;
  booting ← tasvir_is_booting;
  if (booting : bool) then or_flags (tasvir_data2ro h) TASVIR_AREA_FLAG_ACTIVE
  else
    now ← ndata nd_time_us; e ← ndata nd_last_sync_int_end; us ← ndata nd_sync_int_us;
    when (us <? 2 * u64 (now - e)) (or_flags h_rw TASVIR_AREA_FLAG_EXT_ENQUEUE).

(** The flags let the message in. *)
Definition mem_accepts (flags : Z) : bool :=
  negb (has_flag flags TASVIR_AREA_FLAG_EXT_IGNORE) && has_flag flags TASVIR_AREA_FLAG_EXT_PENDING.

(** Hold the message back until the next internal sync. *)
Definition mem_hold (h_rw : Z) (m : tasvir_msg) : cmd world unit :=
  r ← ndata nd_ring_mem_pending;
  match rte_ring_sp_enqueue r m with
  | Some r' => mod_nd (fun nd => nd <| nd_ring_mem_pending := r' |>)
  | None =>
      and_not_flags h_rw TASVIR_AREA_FLAG_EXT_ENQUEUE;;
      or_flags h_rw TASVIR_AREA_FLAG_EXT_IGNORE;;
      pool_put1
  end.

Definition tasvir_handle_msg_mem (m : tasvir_msg) : cmd world unit :=
  match m_body m with
  | Msg_rpc _ _ => fail Segv
  | Msg_mem addr len last prev_bytes line =>
      h ← load (m_d m + desc_h);
      if h =? 0 then pool_put1
      else
        let h_rw := tasvir_data2rw h in
        f ← flags_of h_rw;
        if has_flag f TASVIR_AREA_FLAG_EXT_ENQUEUE then mem_hold h_rw m
        else
          mem_new_version h_rw (m_version m);;
          f ← flags_of h_rw;
          when (mem_accepts f)
            (mem_check_bytes h_rw prev_bytes;;
             mem_store h_rw addr len line;;
             when last (mem_last h h_rw));;
          pool_put1
  end.

(** ** Rotating the logs *)

(** [delta_us[i]] *)
Definition delta_us (i : Z) : Z := if i =? 0 then 0 else if i =? 1 then 5 * S2US else 21 * S2US.

(** One vector of the log at [ptr] moves to [ptr_next]. *)
Definition rotate_vec (ptr ptr_next : Z) : cmd world unit :=
  val ← load_words 8 ptr;
  when (negb (test_mask 0 val =? 0))
    (val_next ← load_words 8 ptr_next;
     store_words ptr_next (zip_with Z.lor val val_next);;
     store_words ptr (replicate 8 0)).

(** [for (; ptr < ptr_last; ptr++, ptr_next++)] *)
Fixpoint rotate_vecs (fuel : nat) (ptr ptr_next ptr_last : Z) : cmd world unit :=
  match fuel with
  | O => fail NoFuel
  | S fuel' =>
      if ptr <? ptr_last
      then rotate_vec ptr ptr_next;; rotate_vecs fuel' (ptr + 64) (ptr_next + 64) ptr_last
      else mret tt
  end.

(** Log [i] of the area with header [h] moves into log [i + 1]. *)
Definition rotate_log (fuel : nat) (h i : Z) : cmd world unit :=
  ve ← load_diff_log h i log_version_end;
  vs ← load_diff_log h i log_version_start;
  now ← ndata nd_time_us;
  su ← load_diff_log h i log_start_us;
  when ((vs <? ve) && (delta_us i <? u64 (now - su)))
    (ptr ← load_diff_log h i log_data;
     ptr_next ← load_diff_log h (i + 1) log_data;
     rotate_vecs fuel ptr ptr_next ptr_next;;
     ve ← load_diff_log h i log_version_end;
     store (h + hdr_diff_log (i + 1) + log_version_end) ve;;
     store (h + hdr_diff_log i + log_version_start) ve;;
     eu ← load_diff_log h i log_end_us;
     store (h + hdr_diff_log (i + 1) + log_end_us) eu;;
     store (h + hdr_diff_log i + log_start_us) eu).

Definition tasvir_rotate_logs (fuel : nat) (d : Z) : cmd world unit :=
  h ← load (d + desc_h); rotate_log fuel h 2;; rotate_log fuel h 1.

(** ** Sending *)

(** The smallest version among the subscribers [i ..]. *)
Fixpoint min_version (fuel : nat) (h i vmin : Z) : cmd world Z :=
  match fuel with
  | O => fail NoFuel
  | S fuel' =>
      n ← load (h + hdr_nr_users);
      if i <? n then
        node ← load (h + hdr_user_node i);
        vmin ← (if node =? 0 then mret vmin
                else p ← load (h + hdr_user_version i); v ← load p; mret (if v <? vmin then v else vmin));
        min_version fuel' h (i + 1) vmin
      else mret vmin
  end.

(** The first log, from [pivot], that is older than the last external sync
    and that every subscriber has seen. *)
Fixpoint find_pivot (n : nat) (h last_end vmin pivot : Z) : cmd world Z :=
  match n with
  | O => mret pivot
  | S n' =>
      if pivot <? TASVIR_NR_AREA_LOGS then
        eu ← load_diff_log h pivot log_end_us;
        ve ← load_diff_log h pivot log_version_end;
        if (eu <? last_end) && (ve <=? vmin) then mret pivot
        else find_pivot n' h last_end vmin (pivot + 1)
      else mret pivot
  end.

(** Is there something to send for [d] at all? *)
Definition ext_due (d : Z) : cmd world bool :=
  if d =? 0 then mret false
  else
    owner ← load (d + desc_owner);
    if owner =? 0 then mret false
    else
      loc ← tasvir_area_is_local d;
      if negb loc then mret false
      else
        h ← load (d + desc_h);
        ve ← load_diff_log h 0 log_version_end;
        if ve =? 0 then mret false
        else
          let h_ro := tasvir_data2ro h in
          now ← tdata td_time_us;
          t ← load (h_ro + hdr_last_sync_ext_us);
          us ← load (d + desc_sync_ext_us);
          f ← flags_of h_ro;
          mret (negb ((u64 (now - t) <? us) || has_flag f TASVIR_AREA_FLAG_SLEEPING)).

(** The pivot of this sync of [d]. *)
Definition ext_pivot (fuel : nat) (d h : Z) : cmd world Z :=
  root ← ttld tl_root_desc;
  node_desc ← ttld tl_node_desc;
  is_root ← ttld tl_is_root;
  req ← ndata nd_node_init_req;
  let init := (is_root && ((d =? root) || (d =? node_desc)) && req)%bool in
  vmin ← min_version fuel h 0 (2 ^ 64 - 1);
  last_end ← ndata nd_last_sync_ext_end;
  find_pivot 4 h last_end vmin (if init then TASVIR_NR_AREA_LOGS - 1 else 0).

Definition tasvir_sync_external_area (fuel : nat) (d : Z) : cmd world Z :=
  due ← ext_due d;
  if negb due then mret 0
  else
    h ← load (d + desc_h);
    let h_ro := tasvir_data2ro h in
    now ← tdata td_time_us;
    store (h_ro + hdr_last_sync_ext_us) now;;
    store (h_ro + hdr_last_sync_ext_bytes) 0;;
    pivot ← ext_pivot fuel d h;
    if pivot =? 0 then mret 0
    else
      le ← load (d + desc_offset_log_end);
      changed ← tasvir_sync_parse_log fuel d 0 le pivot;
      when (negb (changed =? 0))
        (mod_stats (fun s => s <| esync_changed_bytes := u64 (esync_changed_bytes s + changed) |>);;
         tasvir_rotate_logs fuel d);;
      le ← load (d + desc_offset_log_end);
      mod_stats (fun s => s <| esync_processed_bytes := u64 (esync_processed_bytes s + le) |>);;
      mret changed.

(** Give the node areas of this node's list the interval [us]. *)
Definition ext_node_interval (node us i : Z) : cmd world unit :=
  nd ← load (node + node_areas_d i);
  ty ← area_type nd;
  when (ty =? area_type_code TASVIR_AREA_TYPE_NODE)
    (tasvir_log (nd + desc_sync_ext_us) 8;; store (nd + desc_sync_ext_us) us).

(** Follow the interval of subscribed area [i], if it is shorter. *)
Definition ext_interval (fuel : nat) (node i : Z) : cmd world unit :=
  d ← load (node + node_areas_d i);
  us ← load (d + desc_sync_ext_us);
  cur ← ndata nd_sync_ext_us;
  if cur <=? us then mret tt
  else
    loc ← tasvir_area_is_local d;
    let us := if (loc : bool) then us / 2 else us in
    mod_nd (fun nd => nd <| nd_sync_ext_us := us |>);;
    is_root ← ttld tl_is_root;
    when is_root
      (root ← ttld tl_root_desc;
       tasvir_log (root + desc_sync_ext_us) 8;;
       store (root + desc_sync_ext_us) us;;
       for_upto fuel 0 (load (node + node_nr_areas)) (ext_node_interval node us)).

Definition tasvir_sync_external (fuel : nat) : cmd world Z :=
  mod_nd (fun nd => nd <| nd_last_sync_ext_start := nd_time_us nd |>);;
  node ← ttld tl_node;
  for_upto fuel 0 (load (node + node_nr_areas)) (ext_interval fuel node);;
  root ← ttld tl_root_desc;
  retval ← tasvir_area_walk fuel root (tasvir_sync_external_area fuel);
  mod_nd (fun nd => nd <| nd_node_init_req := false |>);;
  now ← tasvir_time_us;
  mod_nd (fun nd => nd <| nd_time_us := now |> <| nd_last_sync_ext_end := now |>
    <| nd_stats_cur := (nd_stats_cur nd)
         <| esync_cnt := u64 (esync_cnt (nd_stats_cur nd) + 1) |>
         <| esync_us := u64 (esync_us (nd_stats_cur nd) + u64 (now - nd_last_sync_ext_start nd)) |> |>);;
  mret (if 0 <? retval then 0 else -1).

End with_dpdk.
