(* ===== verification/LogRotate.v ===== *)
(** * LogRotate: the difference logs keep the history (tasvir_rotate_logs, src/sync_external.c)

    An area has four difference logs, one after the other in memory, log 0 the
    youngest. Log [i] stands for the versions from [version_start] to
    [version_end]: it has a bit for every line that changed in them. When a
    log is old enough it is merged into the next one. [rotate_logs_keeps_history]:
    whatever the history of changes, the logs still cover it afterwards. *)
From stdpp Require Import base gmap list numbers.
From Stdlib Require Import ZArith Lia.
From S2P Require Import Prelude Defs Types Fifo Mem Log Net Sync SyncRuns Calls Area Rpc SyncExternal.

(** [m'] is [m] with the [n] bytes at [o] moved into the [n] bytes at [o']. *)
Definition moved (m m' : gmap Z Z) (o o' n : Z) : Prop :=
  forall a, aligned 8 a ->
    ld m' a = if in_range a o n then 0
              else if in_range a o' n then Z.lor (ld m (a - o' + o)) (ld m a) else ld m a.

Lemma moved_trans m m1 m2 o o' n1 n2 :
  aligned 8 o -> aligned 8 o' -> aligned 8 n1 -> 0 <= n1 -> 0 <= n2 -> o + n1 + n2 <= o' ->
  moved m m1 o o' n1 -> moved m1 m2 (o + n1) (o' + n1) n2 -> moved m m2 o o' (n1 + n2).
Proof.
  intros Ho Ho' Hn Hn1 Hn2 Hd H1 H2 a Ha. rewrite H2 by done.
  destruct (in_range a (o + n1) n2) eqn:E1.
  { apply in_range_true in E1. by rewrite (proj2 (in_range_true a o (n1 + n2))) by lia. }
  destruct (in_range a (o' + n1) n2) eqn:E2.
  - apply in_range_true in E2. rewrite (proj2 (in_range_false a o (n1 + n2))), (proj2 (in_range_true a o' (n1 + n2))) by lia.
    rewrite !H1 by align. rewrite (proj2 (in_range_false a o n1)), (proj2 (in_range_false a o' n1)) by lia.
    rewrite (proj2 (in_range_false (a - _ + _) o n1)), (proj2 (in_range_false (a - _ + _) o' n1)) by lia. f_equal. f_equal. lia.
  - apply in_range_false in E1, E2. rewrite H1 by done. destruct (in_range a o n1) eqn:E3.
    { apply in_range_true in E3. by rewrite (proj2 (in_range_true a o (n1 + n2))) by lia. }
    apply in_range_false in E3. rewrite (proj2 (in_range_false a o (n1 + n2))) by lia.
    destruct (in_range a o' n1) eqn:E4.
    + apply in_range_true in E4. by rewrite (proj2 (in_range_true a o' (n1 + n2))) by lia.
    + apply in_range_false in E4. by rewrite (proj2 (in_range_false a o' (n1 + n2))) by lia.
Qed.

Lemma aligned_diff_log i : aligned 8 (hdr_diff_log i).
Proof. unfold hdr_diff_log, sizeof_log. replace (104 + i * 40) with (8 * (13 + 5 * i)) by lia. by apply aligned_mul. Qed.

Section with_dpdk.
Context `{D : Dpdk}.
Implicit Types w : world.

(** ** The loop *)

Lemma zip_lor_lookup m o o' n i :
  (i < n)%nat ->
  zip_with Z.lor (words m o n) (words m o' n) !!! i = Z.lor (ld m (o + 8 * Z.of_nat i)) (ld m (o' + 8 * Z.of_nat i)).
Proof.
  intros Hi. apply list_lookup_total_correct. rewrite lookup_zip_with, !words_lookup by done. done.
Qed.

Lemma rotate_vec_runs w ptr pn o o' :
  spans (w_maps w) ptr o 64 -> spans (w_maps w) pn o' 64 -> aligned 8 o -> aligned 8 o' -> o + 64 <= o' ->
  exists m', runs (rotate_vec ptr pn) w tt (w <| w_mem := m' |>) /\ moved (w_mem w) m' o o' 64.
Proof.
  intros Hs Hs' Ho Ho' Hd. unfold runs, rotate_vec.
  rewrite (bind_runs _ _ _ _ _ (load_words_runs w ptr o 8 Hs Ho)).
  destruct (Z.eqb_spec (test_mask 0 (words (w_mem w) o 8)) 0) as [Hz|Hz]; cbn [negb when].
  - exists (w_mem w). split; [by destruct w|]. apply test_mask_zero in Hz.
    assert (forall a, aligned 8 a -> in_range a o 64 = true -> ld (w_mem w) a = 0) as H0.
    { intros a Ha Hr%in_range_true. destruct (aligned_exists 8 (a - o) ltac:(lia) ltac:(align)) as [q Hq].
      pose proof (words_lookup (w_mem w) o 8 (Z.to_nat q) ltac:(lia)) as Hl.
      pose proof (Forall_lookup_1 _ _ _ _ Hz Hl) as H. replace (o + 8 * Z.of_nat (Z.to_nat q)) with a in H by lia. done. }
    intros a Ha. destruct (in_range a o 64) eqn:E; [by apply H0|].
    destruct (in_range a o' 64) eqn:E'; [|done]. apply in_range_true in E'.
    rewrite (H0 (a - o' + o)); [done|align|]. apply in_range_true. lia.
  - rewrite (bind_runs _ _ _ _ _ (load_words_runs w pn o' 8 Hs' Ho')).
    set (vs := zip_with _ _ _). assert (length vs = 8%nat) as Hl by (unfold vs; rewrite length_zip_with, !length_words; done).
    rewrite (bind_runs _ _ _ _ _ (store_words_runs w pn o' vs ltac:(by rewrite Hl) Ho')).
    set (w1 := w <| w_mem := _ |>). exists (write_words (w_mem w1) o (replicate 8 0)). split.
    { apply (store_words_runs w1 ptr o (replicate 8 0)); done. }
    intros a Ha. rewrite ld_write_words by done. change (8 * Z.of_nat (length (replicate 8 0))) with 64.
    destruct (in_range a o 64) eqn:E.
    + apply lookup_total_replicate_2. apply in_range_true in E.
      destruct (aligned_exists 8 (a - o) ltac:(lia) ltac:(align)) as [q Hq]. rewrite Hq, Z.mul_comm, Z.div_mul by lia. lia.
    + change (w_mem w1) with (write_words (w_mem w) o' vs). rewrite ld_write_words, Hl by done. change (8 * Z.of_nat 8) with 64.
      destruct (in_range a o' 64) eqn:E'; [|done]. apply in_range_true in E'.
      destruct (aligned_exists 8 (a - o') ltac:(lia) ltac:(align)) as [q Hq]. rewrite Hq, Z.mul_comm, Z.div_mul by lia.
      unfold vs. rewrite zip_lor_lookup by lia. f_equal; f_equal; lia.
Qed.

Lemma rotate_vecs_runs fuel k w ptr pn o o' :
  0 <= k -> (Z.to_nat k < fuel)%nat ->
  spans (w_maps w) ptr o (64 * k) -> spans (w_maps w) pn o' (64 * k) -> aligned 8 o -> aligned 8 o' -> o + 64 * k <= o' ->
  exists m', runs (rotate_vecs fuel ptr pn (ptr + 64 * k)) w tt (w <| w_mem := m' |>) /\ moved (w_mem w) m' o o' (64 * k).
Proof.
  revert k w ptr pn o o'. induction fuel as [|fuel IH]; intros k w ptr pn o o' Hk Hf Hs Hs' Ho Ho' Hd; [lia|].
  unfold runs. cbn [rotate_vecs]. destruct (Z.ltb_spec ptr (ptr + 64 * k)) as [Hlt|Hge].
  - destruct (rotate_vec_runs w ptr pn o o') as (m1 & R1 & M1);
      [intros i Hi; apply Hs; lia|intros i Hi; apply Hs'; lia|done|done|lia|].
    rewrite (bind_runs _ _ _ _ _ R1).
    destruct (IH (k - 1) (w <| w_mem := m1 |>) (ptr + 64) (pn + 64) (o + 64) (o' + 64)) as (m2 & R2 & M2); try lia; try align.
    + apply (spans_sub _ _ _ _ 64 _ Hs); lia.
    + apply (spans_sub _ _ _ _ 64 _ Hs'); lia.
    + exists m2. replace (ptr + 64 + 64 * (k - 1)) with (ptr + 64 * k) in R2 by lia. split; [exact R2|].
      replace (64 * k) with (64 + 64 * (k - 1)) by lia.
      eapply moved_trans; [align|align|done|lia|lia|lia|exact M1|exact M2].
  - exists (w_mem w). split; [by destruct w|]. intros a Ha. unfold in_range. cases_cmp; cbn [andb]; done || lia.
Qed.

(** ** The logs of an area *)

(** The area with header [h] (at [oh]) has its logs one after the other at
    [p] (at [o]), [64 * n] bytes each. *)
Record logs_ok w (h oh p o n : Z) : Prop := {
  lg_h : spans (w_maps w) h oh sizeof_header;
  lg_oh : aligned 8 oh;
  lg_p : spans (w_maps w) p o (256 * n);
  lg_o : aligned 8 o;
  lg_n : 0 <= n;
  lg_data i : 0 <= i <= 3 -> ld (w_mem w) (oh + hdr_diff_log i + log_data) = p + 64 * n * i;
  lg_apart : oh + sizeof_header <= o \/ o + 256 * n <= oh;
}.

Section logs.
Context (h oh p o n : Z).

(** A field of log [i], and its bit for line [x] of the area. *)
Definition field (m : gmap Z Z) (i f : Z) : Z := ld m (oh + hdr_diff_log i + f).
Definition has_line (m : gmap Z Z) (i x : Z) : bool := msb (ld m (o + 64 * n * i + 8 * (x / 64))) (x mod 64).

(** The logs cover a history of changes ([changed u x]: line [x] changed in
    version [u]): each has the lines that changed in its versions, and each
    starts where the next older one ends. *)
Record history (changed : Z -> Z -> Prop) (m : gmap Z Z) : Prop := {
  hi_chain i : 0 <= i <= 2 -> field m i log_version_start = field m (i + 1) log_version_end;
  hi_cover i u x : 0 <= i <= 3 -> 0 <= x < 512 * n -> changed u x ->
    field m i log_version_start < u <= field m i log_version_end -> has_line m i x = true;
}.

(** Is log [i] due? *)
Definition rotate_due w (i : Z) : bool :=
  (field (w_mem w) i log_version_start <? field (w_mem w) i log_version_end)
  && (delta_us i <? u64 (nd_time_us (w_nd w) - field (w_mem w) i log_start_us)).

(** The stores after the loop. *)
Definition rotate_fields (m : gmap Z Z) (i : Z) : gmap Z Z :=
  <[oh + hdr_diff_log i + log_start_us := field m i log_end_us]>
    (<[oh + hdr_diff_log (i + 1) + log_end_us := field m i log_end_us]>
      (<[oh + hdr_diff_log i + log_version_start := field m i log_version_end]>
        (<[oh + hdr_diff_log (i + 1) + log_version_end := field m i log_version_end]> m))).

Ltac fields := unfold hdr_diff_log, sizeof_log, log_data, log_end_us, log_start_us, log_version_end, log_version_start,
  sizeof_header in *.

Lemma field_moved m m' i f a b k :
  moved m m' a b k -> 0 <= i <= 3 -> In f [log_version_start; log_start_us; log_version_end; log_end_us; log_data] -> aligned 8 oh ->
  (forall x, oh <= x < oh + sizeof_header -> ~ a <= x < a + k /\ ~ b <= x < b + k) ->
  field m' i f = field m i f.
Proof.
  intros Hm Hi Hf Hoh Hd. unfold field. assert (0 <= f < 40 /\ aligned 8 f) as [Hr Ha].
  { repeat (destruct Hf as [<-|Hf]; [by split; [fields; lia|]|]). destruct Hf. }
  pose proof (aligned_diff_log i). rewrite Hm by align. pose proof (Hd (oh + hdr_diff_log i + f)) as Hx. fields.
  rewrite (proj2 (in_range_false _ a k)), (proj2 (in_range_false _ b k)) by lia. done.
Qed.

(** The five fields of a log. *)
Definition log_field (f : Z) : Prop := 0 <= f < sizeof_log /\ aligned 8 f.

Lemma log_fields :
  log_field log_version_start /\ log_field log_start_us /\ log_field log_version_end /\ log_field log_end_us /\ log_field log_data.
Proof. unfold log_field. repeat split; done. Qed.

Lemma bind_diff_log {B} (k : Z -> cmd world B) w i f :
  logs_ok w h oh p o n -> 0 <= i <= 3 -> log_field f -> (load_diff_log h i f ≫= k) w = k (field (w_mem w) i f) w.
Proof.
  intros Hw Hi [Hf Ha]. unfold load_diff_log, field. rewrite <- !Z.add_assoc. pose proof (aligned_diff_log i).
  apply (bind_load _ _ _ _ _ _ (lg_h _ _ _ _ _ _ Hw) (lg_oh _ _ _ _ _ _ Hw)); [fields; lia|align].
Qed.

Lemma bind_store_diff_log {B} (k : unit -> cmd world B) w i f v :
  logs_ok w h oh p o n -> 0 <= i <= 3 -> log_field f ->
  (store (h + hdr_diff_log i + f) v ≫= k) w = k tt (w <| w_mem := <[oh + hdr_diff_log i + f := v]> (w_mem w) |>).
Proof.
  intros Hw Hi [Hf Ha]. rewrite <- !Z.add_assoc. pose proof (aligned_diff_log i).
  apply (bind_store _ _ _ _ _ _ _ (lg_h _ _ _ _ _ _ Hw) (lg_oh _ _ _ _ _ _ Hw)); [fields; lia|align].
Qed.

(** The layout depends on the five pointers only. *)
Lemma logs_ok_mem w m :
  logs_ok w h oh p o n -> (forall i, 0 <= i <= 3 -> field m i log_data = field (w_mem w) i log_data) ->
  logs_ok (w <| w_mem := m |>) h oh p o n.
Proof. intros [H1 H2 H3 H4 H5 H6 H7] Hm. constructor; try done. intros i Hi. rewrite <- (H6 i Hi). by apply Hm. Qed.

Lemma field_insert m i f j g v :
  log_field f -> log_field g ->
  field (<[oh + hdr_diff_log j + g := v]> m) i f = if (i =? j) && (f =? g) then v else field m i f.
Proof.
  intros [Hf _] [Hg _]. unfold field. rewrite ld_insert. fields. cases_cmp; cbn [andb]; done || lia.
Qed.

Lemma logs_ok_insert w j g v :
  logs_ok w h oh p o n -> log_field g -> g <> log_data ->
  logs_ok (w <| w_mem := <[oh + hdr_diff_log j + g := v]> (w_mem w) |>) h oh p o n.
Proof.
  intros Hw Hg Hne. apply logs_ok_mem; [done|]. intros i Hi. rewrite field_insert by (done || apply log_fields).
  rewrite (proj2 (Z.eqb_neq log_data g)), andb_false_r by done. done.
Qed.

Lemma rotate_log_runs fuel w i :
  logs_ok w h oh p o n -> 1 <= i <= 2 -> (Z.to_nat n < fuel)%nat ->
  exists m', runs (rotate_log fuel h i) w tt (w <| w_mem := m' |>)
    /\ if rotate_due w i then
         exists m1, moved (w_mem w) m1 (o + 64 * n * i) (o + 64 * n * (i + 1)) (64 * n) /\ m' = rotate_fields m1 i
       else m' = w_mem w.
Proof.
  intros Hw Hi Hf. unfold runs, rotate_log, rotate_due.
  rewrite !(bind_diff_log _ w i) by (done || lia).
  change (ndata nd_time_us) with (gets (fun w : world => nd_time_us (w_nd w))). unfold gets, mbind at 1, cmd_bind at 1.
  rewrite (bind_diff_log _ w i) by (done || lia).
  destruct (_ && _)%bool; cbn [when]; [|exists (w_mem w); split; [by destruct w|done]].
  rewrite (bind_diff_log _ w i), (bind_diff_log _ w (i + 1)) by (done || lia).
  unfold field. rewrite !(lg_data _ _ _ _ _ _ Hw) by lia. pose proof (lg_n _ _ _ _ _ _ Hw).
  destruct (rotate_vecs_runs fuel n w (p + 64 * n * i) (p + 64 * n * (i + 1)) (o + 64 * n * i) (o + 64 * n * (i + 1)))
    as (m1 & R1 & M1); try done; try nia.
  1-2: apply (spans_sub _ _ _ _ _ _ (lg_p _ _ _ _ _ _ Hw)); nia.
  1-2: pose proof (lg_o _ _ _ _ _ _ Hw); replace (64 * n * i) with (8 * (8 * n * i)) by lia;
       replace (64 * n * (i + 1)) with (8 * (8 * n * (i + 1))) by lia; align.
  replace (p + 64 * n * i + 64 * n) with (p + 64 * n * (i + 1)) in R1 by lia. rewrite (bind_runs _ _ _ _ _ R1).
  set (w1 := w <| w_mem := m1 |>).
  assert (logs_ok w1 h oh p o n) as Hw1.
  { apply logs_ok_mem; [done|]. intros j Hj. eapply field_moved; [exact M1|done|by cbn; tauto|apply Hw|].
    intros x Hx. pose proof (lg_apart _ _ _ _ _ _ Hw). nia. }
  exists (rotate_fields m1 i). split; [|by exists m1].
  pose proof log_fields as (F1 & F2 & F3 & F4 & F5).
  rewrite (bind_diff_log _ w1 i), (bind_store_diff_log _ w1 (i + 1)) by (done || lia).
  pose proof (logs_ok_insert w1 (i + 1) log_version_end (field m1 i log_version_end) Hw1 F3 ltac:(done)) as Hw2.
  set (w2 := w1 <| w_mem := _ |>) in *.
  rewrite (bind_store_diff_log _ w2 i) by (done || lia).
  pose proof (logs_ok_insert w2 i log_version_start (field m1 i log_version_end) Hw2 F1 ltac:(done)) as Hw3.
  set (w3 := w2 <| w_mem := _ |>) in *.
  rewrite (bind_diff_log _ w3 i) by (done || lia).
  assert (field (w_mem w3) i log_end_us = field m1 i log_end_us) as ->.
  { change (w_mem w3) with (<[oh + hdr_diff_log i + log_version_start := field m1 i log_version_end]>
      (<[oh + hdr_diff_log (i + 1) + log_version_end := field m1 i log_version_end]> m1)).
    rewrite !field_insert by done. by rewrite !andb_false_r. }
  rewrite (bind_store_diff_log _ w3 (i + 1)) by (done || lia).
  pose proof (logs_ok_insert w3 (i + 1) log_end_us (field m1 i log_end_us) Hw3 F4 ltac:(done)) as Hw4.
  set (w4 := w3 <| w_mem := _ |>) in *.
  pose proof (aligned_diff_log i). rewrite <- Z.add_assoc.
  rewrite (store_runs w4 h oh sizeof_header) by (apply Hw4 || (fields; lia) || align).
  by rewrite Z.add_assoc.
Qed.

(** Moving log [i] keeps the history. *)
Lemma history_moved changed m m1 i :
  aligned 8 o -> aligned 8 oh -> 0 <= n -> oh + sizeof_header <= o \/ o + 256 * n <= oh -> 1 <= i <= 2 ->
  history changed m -> moved m m1 (o + 64 * n * i) (o + 64 * n * (i + 1)) (64 * n) ->
  history changed (rotate_fields m1 i).
Proof.
  intros Ho Hoh Hn Hap Hi [Hc Hv] M1.
  pose proof log_fields as (F1 & F2 & F3 & F4 & F5).
  assert (forall j, 0 <= j <= 3 -> field m1 j log_version_start = field m j log_version_start
    /\ field m1 j log_version_end = field m j log_version_end) as Hf.
  { intros j Hj. split; (eapply field_moved; [exact M1|done|by cbn; tauto|done|intros; nia]). }
  assert (forall j, 0 <= j <= 3 -> field (rotate_fields m1 i) j log_version_start
            = (if j =? i then field m i log_version_end else field m j log_version_start)
    /\ field (rotate_fields m1 i) j log_version_end
            = if j =? i + 1 then field m i log_version_end else field m j log_version_end) as Hg.
  { intros j Hj. unfold rotate_fields. rewrite !field_insert by done. rewrite !andb_false_r, !andb_true_r.
    rewrite !(proj1 (Hf _ Hj)), !(proj2 (Hf _ Hj)), !(proj2 (Hf i ltac:(lia))). done. }
  assert (forall a, o <= a < o + 256 * n -> ld (rotate_fields m1 i) a = ld m1 a) as Hl.
  { intros a Ha. unfold rotate_fields. rewrite !ld_insert. fields. cases_cmp. }
  constructor.
  - intros j Hj. rewrite (proj1 (Hg j ltac:(lia))), (proj2 (Hg (j + 1) ltac:(lia))).
    pose proof (Hc j Hj). cases_cmp; congruence.
  - intros j u x Hj Hx Hu. rewrite (proj1 (Hg j Hj)), (proj2 (Hg j Hj)). unfold has_line. intros Hr.
    pose proof (Z.div_mod x 64 ltac:(lia)). pose proof (Z.mod_pos_bound x 64 ltac:(lia)).
    rewrite Hl by nia. rewrite M1.
    2:{ replace (64 * n * j) with (8 * (8 * n * j)) by lia. align. }
    assert (j = i \/ j = i + 1 \/ (j <> i /\ j <> i + 1)) as [->|[->|[Hne1 Hne2]]] by lia.
    + rewrite Z.eqb_refl, (proj2 (Z.eqb_neq i (i + 1))) in Hr by lia. lia.
    + rewrite (proj2 (in_range_false _ (o + 64 * n * i) _)), (proj2 (in_range_true _ (o + 64 * n * (i + 1)) _)) by nia.
      rewrite msb_lor. apply orb_true_iff.
      rewrite (proj2 (Z.eqb_neq (i + 1) i)), Z.eqb_refl in Hr by lia.
      destruct (Z.le_gt_cases u (field m (i + 1) log_version_end)) as [Hle|Hgt].
      * right. apply (Hv (i + 1) u x); [lia|done|done|lia].
      * left. replace (o + 64 * n * (i + 1) + 8 * (x / 64) - (o + 64 * n * (i + 1)) + (o + 64 * n * i))
          with (o + 64 * n * i + 8 * (x / 64)) by lia.
        apply (Hv i u x); [lia|done|done|]. rewrite (Hc i) by lia. lia.
    + rewrite (proj2 (in_range_false _ (o + 64 * n * i) _)), (proj2 (in_range_false _ (o + 64 * n * (i + 1)) _)) by nia.
      rewrite (proj2 (Z.eqb_neq j i)), (proj2 (Z.eqb_neq j (i + 1))) in Hr by lia. by apply (Hv j u x).
Qed.

(** One rotation: layout and history are kept, and only the log words and
    the fields of the logs change. *)
Lemma rotate_log_keeps fuel changed w i :
  logs_ok w h oh p o n -> history changed (w_mem w) -> 1 <= i <= 2 -> (Z.to_nat n < fuel)%nat ->
  exists m', runs (rotate_log fuel h i) w tt (w <| w_mem := m' |>)
    /\ logs_ok (w <| w_mem := m' |>) h oh p o n /\ history changed m'
    /\ (rotate_due w i = true -> field m' i log_version_start = field m' i log_version_end)
    /\ forall a, aligned 8 a -> ~ o <= a < o + 256 * n -> ~ oh + hdr_diff_log 1 <= a < oh + hdr_diff_log 4 ->
         ld m' a = ld (w_mem w) a.
Proof.
  intros Hw Hh Hi Hf. pose proof Hw as [_ Hoh _ Ho Hn _ Hap]. pose proof log_fields as (F1 & F2 & F3 & F4 & F5).
  destruct (rotate_log_runs fuel w i Hw Hi Hf) as (m' & R & Hm). exists m'. split; [done|].
  destruct (rotate_due w i); [|subst m'; split; [by destruct w|done]].
  destruct Hm as (m1 & M1 & ->). split; [|split; [|split]].
  - apply logs_ok_mem; [done|]. intros j Hj. unfold rotate_fields. rewrite !field_insert by done. rewrite !andb_false_r.
    eapply field_moved; [exact M1|done|by cbn; tauto|done|intros; nia].
  - by eapply history_moved.
  - intros _. unfold rotate_fields. rewrite !field_insert by done. rewrite !andb_false_r, !andb_true_r, Z.eqb_refl.
    by rewrite (proj2 (Z.eqb_neq i (i + 1))) by lia.
  - intros a Ha Hna Hnf. unfold rotate_fields. rewrite !ld_insert, M1 by done.
    rewrite (proj2 (in_range_false _ (o + 64 * n * i) _)), (proj2 (in_range_false _ (o + 64 * n * (i + 1)) _)) by nia.
    fields. cases_cmp.
Qed.
End logs.

(** ** Which logs a sync sends *)

(** Subscriber [i] of the area is at version [v]. *)
Definition user_at w (oh i v : Z) : Prop :=
  0 <= i < ld (w_mem w) (oh + hdr_nr_users) /\ ld (w_mem w) (oh + hdr_user_node i) <> 0
  /\ load (ld (w_mem w) (oh + hdr_user_version i)) w = Done (v, w).

(** At most 64 subscribers; the versions of all can be read. *)
Definition users_ok w (oh : Z) : Prop :=
  0 <= ld (w_mem w) (oh + hdr_nr_users) <= TASVIR_NR_NODES
  /\ forall i, 0 <= i < ld (w_mem w) (oh + hdr_nr_users) -> ld (w_mem w) (oh + hdr_user_node i) <> 0 ->
       exists v, user_at w oh i v.

Lemma min_version_runs fuel w h oh i vmin :
  spans (w_maps w) h oh sizeof_header -> aligned 8 oh -> users_ok w oh -> 0 <= i ->
  (Z.to_nat (ld (w_mem w) (oh + hdr_nr_users) - i) < fuel)%nat ->
  exists r, runs (min_version fuel h i vmin) w r w /\ r <= vmin
    /\ forall j v, i <= j -> user_at w oh j v -> r <= v.
Proof.
  intros Hs Ho [Hn Hu]. revert i vmin. induction fuel as [|fuel IH]; intros i vmin Hi Hf; [lia|].
  unfold runs. cbn [min_version]. rewrite (bind_load _ w h oh sizeof_header) by done.
  set (nr := ld _ _) in *. destruct (Z.ltb_spec i nr) as [Hlt|Hge].
  - unfold TASVIR_NR_NODES in Hn.
    assert (0 <= hdr_user_node i < sizeof_header /\ aligned 8 (hdr_user_node i)) as [Hr1 Ha1].
    { unfold hdr_user_node, sizeof_header. split; [lia|]. replace (264 + i * 16) with (8 * (33 + 2 * i)) by lia. by apply aligned_mul. }
    assert (0 <= hdr_user_version i < sizeof_header /\ aligned 8 (hdr_user_version i)) as [Hr2 Ha2].
    { unfold hdr_user_version, sizeof_header. split; [lia|]. replace (272 + i * 16) with (8 * (34 + 2 * i)) by lia. by apply aligned_mul. }
    rewrite (bind_load _ w h oh sizeof_header) by done.
    destruct (Z.eqb_spec (ld (w_mem w) (oh + hdr_user_node i)) 0) as [Hz|Hz].
    + rewrite bind_ret. destruct (IH (i + 1) vmin) as (r & R & Hle & Hall); [lia|lia|].
      exists r. split; [exact R|]. split; [done|]. intros j v Hj Hv. destruct (decide (j = i)) as [->|Hne].
      * destruct Hv as (_ & Hne & _). done.
      * apply (Hall j v); [lia|done].
    + destruct (Hu i ltac:(lia) Hz) as (v & Hv). rewrite bind_assoc, (bind_load _ w h oh sizeof_header) by done.
      rewrite bind_assoc, (bind_runs _ _ _ _ _ (proj2 (proj2 Hv))), bind_ret.
      destruct (IH (i + 1) (if v <? vmin then v else vmin)) as (r & R & Hle & Hall); [lia|lia|].
      exists r. split; [exact R|]. assert (r <= vmin /\ r <= v) as [H1 H2] by (revert Hle; cases_cmp).
      split; [done|]. intros j v' Hj Hv'. destruct (decide (j = i)) as [->|Hne].
      * destruct Hv as (_ & _ & E), Hv' as (_ & _ & E'). rewrite E in E'. injection E' as <-. done.
      * apply (Hall j v'); [lia|done].
  - exists vmin. split; [done|]. split; [lia|]. intros j v Hj (Hr & _). fold nr in Hr. lia.
Qed.

Lemma find_pivot_runs k w h oh p o n last_end vmin q :
  logs_ok w h oh p o n -> 0 <= q -> (4 - q <= Z.of_nat k) -> q <= 4 ->
  exists r, runs (find_pivot k h last_end vmin q) w r w /\ q <= r <= 4
    /\ (r < 4 -> field oh (w_mem w) r log_version_end <= vmin).
Proof.
  intros Hw. revert q. pose proof log_fields as (F1 & F2 & F3 & F4 & F5).
  induction k as [|k IH]; intros q Hq Hk Hq4; unfold runs; cbn [find_pivot].
  - exists q. split; [done|]. lia.
  - destruct (Z.ltb_spec q TASVIR_NR_AREA_LOGS) as [Hlt|Hge]; unfold TASVIR_NR_AREA_LOGS in *; [|exists q; split; [done|lia]].
    rewrite !(bind_diff_log h oh p o n _ w q) by (done || lia).
    destruct (Z.ltb_spec (field oh (w_mem w) q log_end_us) last_end),
      (Z.leb_spec (field oh (w_mem w) q log_version_end) vmin); cbn [andb]; [exists q; split; [done|lia]|..];
      (destruct (IH (q + 1)) as (r & R & Hr & Hv); [lia..|]; exists r; split; [exact R|]; split; [lia|done]).
Qed.

(** C13: a sync sends what every subscriber is missing. If the logs cover a
    history of changes from some version on, [ext_pivot] returns a number of
    logs such that every line that changed after the version of a subscriber,
    up to the newest version of the logs, is marked in one of the logs below
    it, the ones [tasvir_sync_parse_log] merges and sends. *)
Theorem ext_pivot_sends_missing fuel changed w d h oh p o n :
  logs_ok w h oh p o n -> history oh o n changed (w_mem w) -> users_ok w oh -> (65 < fuel)%nat ->
  exists pivot, runs (ext_pivot fuel d h) w pivot w /\ 0 <= pivot <= TASVIR_NR_AREA_LOGS
    /\ forall i v u x, user_at w oh i v -> 0 <= x < 512 * n -> changed u x ->
         field oh (w_mem w) 3 log_version_start <= v < u -> u <= field oh (w_mem w) 0 log_version_end ->
         exists j, 0 <= j < pivot /\ has_line o n (w_mem w) j x = true.
Proof.
  intros Hw Hh Hu Hf. unfold TASVIR_NR_AREA_LOGS.
  destruct (min_version_runs fuel w h oh 0 (2 ^ 64 - 1) (lg_h _ _ _ _ _ _ Hw) (lg_oh _ _ _ _ _ _ Hw) Hu) as (vmin & R1 & _ & Hmin);
    [lia|destruct Hu as [Hn _]; unfold TASVIR_NR_NODES in Hn; lia|].
  set (q0 := if (tl_is_root (w_tl w) && ((d =? tl_root_desc (w_tl w)) || (d =? tl_node_desc (w_tl w))) && nd_node_init_req (w_nd w))%bool
             then TASVIR_NR_AREA_LOGS - 1 else 0).
  assert (q0 = 0 \/ q0 = 3) as Hq0 by (unfold q0; destruct (_ && _)%bool; [by right|by left]).
  destruct (find_pivot_runs 4 w h oh p o n (nd_last_sync_ext_end (w_nd w)) vmin q0 Hw) as (q & R2 & Hq & Hv); [lia..|].
  exists q. split; [|split; [lia|]].
  - unfold runs, ext_pivot, ttld, ndata, gets. unfold mbind at 1 2 3 4, cmd_bind at 1 2 3 4.
    rewrite (bind_runs _ _ _ _ _ R1). exact R2.
  - intros i v u x Hi Hx Hc Hvu Hu0. destruct Hh as [Hch Hcov].
    pose proof (Hmin i v ltac:(destruct Hi; lia) Hi) as Hle.
    pose proof (Hch 0 ltac:(lia)) as E0. pose proof (Hch 1 ltac:(lia)) as E1. pose proof (Hch 2 ltac:(lia)) as E2.
    change (0 + 1) with 1 in E0. change (1 + 1) with 2 in E1. change (2 + 1) with 3 in E2.
    assert (exists j, 0 <= j < q /\ field oh (w_mem w) j log_version_start < u <= field oh (w_mem w) j log_version_end) as (j & Hj & Hr).
    { assert (q = 0 \/ q = 1 \/ q = 2 \/ q = 3 \/ q = 4) as [-> | [-> | [-> | [-> | ->]]]] by lia.
      - specialize (Hv ltac:(lia)). lia.
      - specialize (Hv ltac:(lia)). exists 0. lia.
      - specialize (Hv ltac:(lia)). destruct (Z.le_gt_cases u (field oh (w_mem w) 1 log_version_end)); [exists 1|exists 0]; lia.
      - specialize (Hv ltac:(lia)). destruct (Z.le_gt_cases u (field oh (w_mem w) 2 log_version_end)); [exists 2; lia|].
        destruct (Z.le_gt_cases u (field oh (w_mem w) 1 log_version_end)); [exists 1|exists 0]; lia.
      - destruct (Z.le_gt_cases u (field oh (w_mem w) 3 log_version_end)); [exists 3; lia|].
        destruct (Z.le_gt_cases u (field oh (w_mem w) 2 log_version_end)); [exists 2; lia|].
        destruct (Z.le_gt_cases u (field oh (w_mem w) 1 log_version_end)); [exists 1|exists 0]; lia. }
    exists j. split; [done|]. by apply (Hcov j u x); [lia|..].
Qed.

(** C14: rotating the difference logs loses no change. For any history of
    changed lines that the four logs of an area cover (each log has the lines
    of its versions, each begins where the next older one ends), they cover it
    after [tasvir_rotate_logs] as well; the routine returns, and writes only
    the words of the logs and their version and time fields. *)
Theorem rotate_logs_keeps_history fuel changed w d h oh p o n :
  load (d + desc_h) w = Done (h, w) ->
  logs_ok w h oh p o n -> history oh o n changed (w_mem w) -> (Z.to_nat n < fuel)%nat ->
  exists m', runs (tasvir_rotate_logs fuel d) w tt (w <| w_mem := m' |>)
    /\ logs_ok (w <| w_mem := m' |>) h oh p o n /\ history oh o n changed m'
    /\ forall a, aligned 8 a -> ~ o <= a < o + 256 * n -> ~ oh + hdr_diff_log 1 <= a < oh + hdr_diff_log 4 ->
         ld m' a = ld (w_mem w) a.
Proof.
  intros Hd Hw Hh Hf.
  destruct (rotate_log_keeps h oh p o n fuel changed w 2 Hw Hh ltac:(lia) Hf) as (m1 & R1 & Hw1 & Hh1 & _ & F1).
  destruct (rotate_log_keeps h oh p o n fuel changed _ 1 Hw1 Hh1 ltac:(lia) Hf) as (m2 & R2 & Hw2 & Hh2 & _ & F2).
  exists m2. split; [|split; [exact Hw2|split; [done|]]].
  - unfold runs, tasvir_rotate_logs. rewrite (bind_runs _ _ _ _ _ Hd), (bind_runs _ _ _ _ _ R1). exact R2.
  - intros a Ha H1 H2. rewrite F2 by done. by apply F1.
Qed.
End with_dpdk.

(** ** An example *)

(** An area with one vector per log; line [u] changed in version [u], for the
    versions 1 to 4, of which each log has one; one subscriber, at version 1. *)
Definition rot_oh : Z := 65536.
Definition rot_o : Z := 69632.
Definition rot_h : Z := TASVIR_ADDR_DATA + rot_oh.
Definition rot_p : Z := TASVIR_ADDR_DATA + rot_o.
Definition rot_d : Z := TASVIR_ADDR_DATA + 32768.
Definition rot_log (i : Z) : list (Z * Z) :=
  [(rot_oh + hdr_diff_log i + log_version_start, 3 - i); (rot_oh + hdr_diff_log i + log_version_end, 4 - i);
   (rot_oh + hdr_diff_log i + log_data, rot_p + 64 * i); (rot_o + 64 * i, 2 ^ (63 - (4 - i)))].
Definition rot_mem : gmap Z Z :=
  list_to_map ([(32768 + desc_h, rot_h); (rot_oh + hdr_nr_users, 1); (rot_oh + hdr_user_node 0, 1);
                (rot_oh + hdr_user_version 0, rot_d + desc_h + 8); (32768 + desc_h + 8, 1)]
               ++ rot_log 0 ++ rot_log 1 ++ rot_log 2 ++ rot_log 3).
Definition rot_world : @world fifo_dpdk :=
  world0 <| w_mem := rot_mem |> <| w_nd := ndata0 <| nd_time_us := 100 * S2US |> |>.
Definition rot_changed (u x : Z) : Prop := u = x /\ 1 <= x <= 4.

Lemma rot_logs_ok : logs_ok rot_world rot_h rot_oh rot_p rot_o 1.
Proof.
  constructor; try done.
  - apply (spans_data _ rot_oh sizeof_header false); by vm_compute.
  - apply (spans_data _ rot_o (256 * 1) false); by vm_compute.
  - intros i Hi. assert (i = 0 \/ i = 1 \/ i = 2 \/ i = 3) as [->|[->|[->| ->]]] by lia; reflexivity.
  - left. by vm_compute.
Qed.

Lemma rot_history : history rot_oh rot_o 1 rot_changed (w_mem rot_world).
Proof.
  constructor.
  - intros i Hi. assert (i = 0 \/ i = 1 \/ i = 2) as [->|[->| ->]] by lia; reflexivity.
  - intros i u x Hi Hx [-> Hu] Hr.
    assert (field rot_oh (w_mem rot_world) i log_version_start = 3 - i /\ field rot_oh (w_mem rot_world) i log_version_end = 4 - i) as [E1 E2].
    { assert (i = 0 \/ i = 1 \/ i = 2 \/ i = 3) as [->|[->|[->| ->]]] by lia; split; reflexivity. }
    assert (x = 4 - i) as -> by lia.
    assert (i = 0 \/ i = 1 \/ i = 2 \/ i = 3) as [->|[->|[->| ->]]] by lia; reflexivity.
Qed.

Lemma rot_user : user_at rot_world rot_oh 0 1.
Proof. split; [by vm_compute|]. split; [by vm_compute|reflexivity]. Qed.

Lemma rot_users : users_ok rot_world rot_oh.
Proof.
  split; [by vm_compute|]. intros i Hi _. change (ld (w_mem rot_world) (rot_oh + hdr_nr_users)) with 1 in Hi.
  assert (i = 0) as -> by lia. exists 1. exact rot_user.
Qed.

(** Both logs are old enough and are rotated. *)
Lemma rotate_logs_keeps_history_witness :
  exists m', runs (tasvir_rotate_logs 10 rot_d) rot_world tt (rot_world <| w_mem := m' |>)
    /\ rotate_due rot_oh rot_world 2 = true /\ history rot_oh rot_o 1 rot_changed m'.
Proof.
  destruct (rotate_logs_keeps_history 10 rot_changed rot_world rot_d rot_h rot_oh rot_p rot_o 1) as (m' & R & _ & Hh & _).
  - reflexivity.
  - apply rot_logs_ok.
  - apply rot_history.
  - cbn. lia.
  - exists m'. split; [exact R|]. split; [reflexivity|exact Hh].
Defined.

(** The subscriber at version 1 is missing the lines 2, 3 and 4. *)
Lemma ext_pivot_sends_missing_witness :
  exists pivot, runs (ext_pivot 70 rot_d rot_h) rot_world pivot rot_world
    /\ forall x, 2 <= x <= 4 -> exists j, 0 <= j < pivot /\ has_line rot_o 1 (w_mem rot_world) j x = true.
Proof.
  destruct (ext_pivot_sends_missing 70 rot_changed rot_world rot_d rot_h rot_oh rot_p rot_o 1) as (pivot & R & _ & H).
  - apply rot_logs_ok.
  - apply rot_history.
  - apply rot_users.
  - lia.
  - exists pivot. split; [exact R|]. intros x Hx. apply (H 0 1 x x).
    + exact rot_user.
    + lia.
    + split; [reflexivity|lia].
    + change (field rot_oh (w_mem rot_world) 3 log_version_start) with 0. lia.
    + change (field rot_oh (w_mem rot_world) 0 log_version_end) with 4. lia.
Defined.
