(* ===== verification/MemMsg.v ===== *)
(** * MemMsg: the messages of an external sync (tasvir_msg_mem_generate, src/sync.c)

    A run of changed lines is cut into messages of at most 21 lines. Each
    holds a piece of the reader copy, where it belongs, and how many bytes of
    the same version came before it. [msg_mem_generate_runs]: given room in
    the ring and in the packet pool, exactly these messages are queued, in
    order, and the packets not used are given back. *)
From stdpp Require Import base gmap list numbers.
From Stdlib Require Import ZArith Lia.
From S2P Require Import Prelude Defs Types Fifo Mem Log Net Sync.

(** The bodies of the messages for [len] bytes at [a] in the reader copy of
    [m]: at most [k] of them. *)
Fixpoint mem_bodies (k : nat) (m : gmap Z Z) (a len prev : Z) (last : bool) : list tasvir_msg_body :=
  match k with
  | O => []
  | S k' =>
      if 0 <? len then
        let l := Z.min 1344 len in
        Msg_mem (TASVIR_ADDR_DATA + a) l (last && (len - l =? 0)) prev (words m a (Z.to_nat (l / 8)))
        :: mem_bodies k' m (a + l) (len - l) (prev + l) last
      else []
  end.

(** A memory message of version [v] of the area [d]. *)
Definition is_mem_msg (d v : Z) (m : tasvir_msg) (b : tasvir_msg_body) : Prop :=
  m_type m = TASVIR_MSG_TYPE_MEM /\ m_d m = d /\ m_version m = v /\ m_body m = b.

Section with_dpdk.
Context `{D : Dpdk} `{S : !DpdkSpec D}.
Implicit Types w : world.

(** How many messages a ring has room for. *)
Context (ring_size : ring -> nat).
#[local] Abbreviation size w := (ring_size (nd_ring_ext_tx (w_nd w))).
#[local] Abbreviation items w := (ring_items (nd_ring_ext_tx (w_nd w))).
#[local] Abbreviation avail w := (pool_avail (nd_mp (w_nd w))).

(** Between [w] and [w'] the messages [ms] were queued and [n] packets taken;
    memory is the same. *)
Record sends w w' (ms : list tasvir_msg) (n : Z) : Prop := {
  se_mem : w_mem w' = w_mem w;
  se_maps : w_maps w' = w_maps w;
  se_thread : tl_thread (w_tl w') = tl_thread (w_tl w);
  se_size : size w' = size w;
  se_ring : items w' = items w ++ ms;
  se_pool : Z.of_nat (avail w) = Z.of_nat (avail w') + n;
}.

Lemma sends_trans w w1 w2 ms1 ms2 n1 n2 :
  sends w w1 ms1 n1 -> sends w1 w2 ms2 n2 -> sends w w2 (ms1 ++ ms2) (n1 + n2).
Proof.
  intros [A1 A2 A3 A0 A4 A5] [B1 B2 B3 B0 B4 B5]. constructor; [congruence..| |lia]. by rewrite B4, A4, <- app_assoc.
Qed.

(** The thread's own identity can be read. *)
Definition thread_ok w : Prop := exists o, spans (w_maps w) (tl_thread (w_tl w)) o sizeof_thread /\ aligned 8 o.

Lemma sends_thread w w' ms n : sends w w' ms n -> thread_ok w -> thread_ok w'.
Proof. intros [_ H2 H3 _ _ _] (o & Hs & Ho). exists o. by rewrite H2, H3. Qed.

Lemma thread_tid_runs w : thread_ok w -> exists t, runs (load_tid (tl_thread (w_tl w))) w t w.
Proof.
  intros (o & Hs & Ho). unfold runs, load_tid. rewrite !(bind_load _ w _ o sizeof_thread) by (exact Hs || exact Ho || by vm_compute). by eexists.
Qed.

Lemma bind_ndata {A B} (f : tasvir_local_ndata -> A) (k : A -> cmd world B) w : (ndata f ≫= k) w = k (f (w_nd w)) w.
Proof. done. Qed.
Lemma bind_ttld {A B} (f : tasvir_tls_data -> A) (k : A -> cmd world B) w : (ttld f ≫= k) w = k (f (w_tl w)) w.
Proof. done. Qed.

Lemma next_msg_id_runs w :
  runs next_msg_id w (tl_nr_msgs (w_tl w) mod TASVIR_NR_RPC_MSG)
    (w <| w_tl := (w_tl w) <| tl_nr_msgs := u16 (tl_nr_msgs (w_tl w) + 1) |> |>).
Proof. done. Qed.

(** One message. *)
Lemma msg_mem_make_runs w d a len prev v last :
  thread_ok w -> 0 <= a -> aligned 8 a -> 0 < len -> aligned 64 len -> a + len <= TASVIR_SIZE_DATA ->
  let l := Z.min 1344 len in
  exists msg w', runs (msg_mem_make d (TASVIR_ADDR_DATA + a) len prev v last) w msg w'
    /\ is_mem_msg d v msg (Msg_mem (TASVIR_ADDR_DATA + a) l (last && (len - l =? 0)) prev (words (w_mem w) a (Z.to_nat (l / 8))))
    /\ sends w w' [] 0.
Proof.
  intros Ht Ha Haa Hl Hal Hs l. destruct (thread_tid_runs w Ht) as (t & Rt).
  assert (exists q, l = 64 * q /\ 1 <= q) as (q & Hq & Hq1).
  { destruct (aligned_exists 64 len ltac:(lia) Hal) as [q Hq]. destruct (Z.le_gt_cases 1344 len) as [Hc|Hc]; unfold l.
    - exists 21. lia.
    - exists q. lia. }
  set (w1 := w <| w_tl := (w_tl w) <| tl_nr_msgs := u16 (tl_nr_msgs (w_tl w) + 1) |> |>).
  assert (runs (load_words (Z.to_nat (8 * Z.max 1 ((l + 63) / 64))) (tasvir_data2ro (TASVIR_ADDR_DATA + a))) w1
            (words (w_mem w) a (Z.to_nat (l / 8))) w1) as Rl.
  { replace (Z.max 1 ((l + 63) / 64)) with q.
    2:{ assert ((l + 63) / 64 = q) as ->; [|lia]. symmetry. apply (Z.div_unique _ _ _ 63); lia. }
    replace (l / 8) with (8 * q) by (rewrite Hq; replace (64 * q) with (8 * q * 8) by lia; by rewrite Z.div_mul by lia).
    unfold tasvir_data2ro. rewrite u64_small by (defs; lia).
    replace (TASVIR_ADDR_DATA + a + TASVIR_OFFSET_RO) with (TASVIR_ADDR_DATA_RO + a) by (defs; lia).
    apply (load_words_runs w1 _ a); [|done]. apply spans_ro; lia. }
  eexists _, _. split; [|split].
  - unfold runs, msg_mem_make. rewrite bind_ndata, bind_ttld, (bind_runs _ _ _ _ _ Rt), (bind_runs _ _ _ _ _ (next_msg_id_runs w)).
    change (TASVIR_CACHELINE_BYTES * TASVIR_NR_CACHELINES_PER_MSG) with 1344. fold l w1. rewrite (bind_runs _ _ _ _ _ Rl). reflexivity.
  - done.
  - constructor; [done..|by rewrite app_nil_r|cbn; lia].
Qed.

(** ** Enough room *)

(** A ring takes messages up to its size; the pool gives what it has. *)
Definition ring_takes : Prop :=
  forall r ms, (length (ring_items r) + length ms <= ring_size r)%nat ->
    exists r', rte_ring_sp_enqueue_bulk r ms = Some r' /\ ring_size r' = ring_size r.
Definition pool_gives : Prop := forall p n, (n <= pool_avail p)%nat -> is_Some (rte_mempool_get_bulk p n).

Section room.
Context (Hring : ring_takes) (Hpool : pool_gives).

Lemma get_burst_runs fuel w :
  (32 <= avail w)%nat -> (0 < fuel)%nat -> exists w', runs (retry_tx fuel pool_get_burst) w tt w' /\ sends w w' [] 32.
Proof.
  intros Ha Hf. destruct fuel as [|fuel]; [lia|]. destruct (Hpool (nd_mp (w_nd w)) 32%nat Ha) as [p' Hp].
  exists (w <| w_nd := (w_nd w) <| nd_mp := p' |> |>). split.
  - unfold runs. cbn [retry_tx]. unfold pool_get_burst. rewrite bind_assoc, bind_ndata.
    change (Z.to_nat TASVIR_PKT_BURST) with 32%nat. rewrite Hp. done.
  - apply get_bulk_avail in Hp. constructor; [done..|by rewrite app_nil_r|]. cbn. lia.
Qed.

Lemma ext_enqueue_runs fuel w ms :
  (length (items w) + length ms <= size w)%nat -> (0 < fuel)%nat ->
  exists w', runs (retry_tx fuel (ring_ext_enqueue ms)) w tt w' /\ sends w w' ms 0.
Proof.
  intros Ha Hf. destruct fuel as [|fuel]; [lia|]. destruct (Hring (nd_ring_ext_tx (w_nd w)) ms Ha) as (r' & Hr & Hsz).
  exists (w <| w_nd := (w_nd w) <| nd_ring_ext_tx := r' |> |>). split.
  - unfold runs. cbn [retry_tx]. unfold ring_ext_enqueue. rewrite bind_assoc, bind_ndata, Hr. done.
  - apply enqueue_bulk_items in Hr. constructor; [done..|done|]. cbn. lia.
Qed.

Lemma msg_mem_loop_runs n fuel w d a len prev v last batch :
  thread_ok w -> (0 < fuel)%nat -> 0 <= a -> aligned 64 a -> 0 <= len -> aligned 64 len -> a + len <= TASVIR_SIZE_DATA ->
  0 <= prev -> prev + len < 2 ^ 64 -> len <= 1344 * (Z.of_nat n - 1) -> (length batch < 32)%nat ->
  let bodies := mem_bodies n (w_mem w) a len prev last in
  (length (items w) + length batch + length bodies <= size w)%nat -> (length batch + length bodies <= avail w)%nat ->
  exists ms sent batch' w',
    runs (msg_mem_loop n fuel d (TASVIR_ADDR_DATA + a) len prev v last batch) w (prev + len, batch') w'
    /\ Forall2 (is_mem_msg d v) ms bodies /\ batch ++ ms = sent ++ batch' /\ (length batch' < 32)%nat
    /\ sends w w' sent (Z.of_nat (length sent)).
Proof.
  intros Ht Hf. revert w a len prev batch Ht. induction n as [|n IH]; intros w a len prev batch Ht Ha Haa Hl Hal Hs Hp Hpl Hn Hb bodies Hc Hav; [lia|].
  unfold runs. cbn [msg_mem_loop]. unfold bodies in *. cbn [mem_bodies] in *. clear bodies.
  destruct (Z.ltb_spec 0 len) as [Hpos|Hz].
  2:{ exists [], [], batch, w. replace (prev + len) with prev by lia. split; [done|]. split; [constructor|].
      split; [by rewrite app_nil_r|]. split; [done|]. constructor; [done..|by rewrite app_nil_r|cbn; lia]. }
  destruct (msg_mem_make_runs w d a len prev v last Ht Ha (aligned_weaken 8 8 a ltac:(lia) ltac:(lia) Haa) Hpos Hal Hs)
    as (msg & w1 & R1 & Hmsg & S1).
  cbv zeta in Hmsg. cbn zeta in Hc, Hav |- *. rewrite (bind_runs _ _ _ _ _ R1).
  change (TASVIR_CACHELINE_BYTES * TASVIR_NR_CACHELINES_PER_MSG) with 1344. set (l := Z.min 1344 len) in *.
  assert (0 < l <= len /\ aligned 64 l /\ (len - l = 0 \/ l = 1344)) as (Hlr & Hla & Hlc).
  { unfold l. destruct (Z.le_gt_cases 1344 len); [rewrite Z.min_l by lia|rewrite Z.min_r by lia]; (split; [lia|]); (split; [done|lia]). }
  rewrite (u64_small (prev + l)) by lia. replace (TASVIR_ADDR_DATA + a + l) with (TASVIR_ADDR_DATA + (a + l)) by lia.
  rewrite length_app. cbn [length] in *. set (bodies' := mem_bodies n (w_mem w) (a + l) (len - l) (prev + l) last) in *.
  change TASVIR_PKT_BURST with 32. pose proof (sends_thread _ _ _ _ S1 Ht) as Ht1.
  assert (aligned 64 (a + l) /\ aligned 64 (len - l)) as [Haa' Hal'] by (split; align).
  destruct (Z.leb_spec 32 (Z.of_nat (length batch + 1))) as [Hfull|Hmore].
  - destruct (ext_enqueue_runs fuel w1 (batch ++ [msg])) as (w2 & R2 & S2);
      [rewrite (se_ring _ _ _ _ S1), (se_size _ _ _ _ S1), !length_app; cbn; lia|done|].
    rewrite (bind_runs _ _ _ _ _ R2). pose proof (sends_trans _ _ _ _ _ _ _ S1 S2) as S12. cbn [app] in S12.
    destruct (get_burst_runs fuel w2) as (w3 & R3 & S3); [pose proof (se_pool _ _ _ _ S12); lia|done|].
    rewrite (bind_runs _ _ _ _ _ R3). pose proof (sends_trans _ _ _ _ _ _ _ S12 S3) as S13. rewrite app_nil_r in S13.
    destruct (IH w3 (a + l) (len - l) (prev + l) []) as (ms & sent & batch' & w4 & R4 & Hms & Happ & Hb' & S4);
      try eassumption; try lia.
    + by eapply sends_thread.
    + cbn; lia.
    + rewrite (se_mem _ _ _ _ S13), (se_ring _ _ _ _ S13), (se_size _ _ _ _ S13), !length_app. cbn [length]. fold bodies'. lia.
    + rewrite (se_mem _ _ _ _ S13). fold bodies'. pose proof (se_pool _ _ _ _ S13). cbn [length]. lia.
    + rewrite (se_mem _ _ _ _ S13) in Hms. exists (msg :: ms), (batch ++ msg :: sent), batch', w4.
      replace (prev + l + (len - l)) with (prev + len) in R4 by lia. split; [exact R4|]. split; [by constructor|].
      cbn [app] in Happ. split; [by rewrite Happ, <- app_assoc|]. split; [done|].
      pose proof (sends_trans _ _ _ _ _ _ _ S13 S4) as S14. rewrite <- app_assoc in S14.
      destruct S14 as [E1 E2 E3 E0 E4 E5]. constructor; try done. rewrite length_app. cbn [length]. lia.
  - destruct (IH w1 (a + l) (len - l) (prev + l) (batch ++ [msg])) as (ms & sent & batch' & w4 & R4 & Hms & Happ & Hb' & S4);
      try eassumption; try lia.
    + rewrite length_app. cbn. lia.
    + rewrite (se_mem _ _ _ _ S1), (se_ring _ _ _ _ S1), (se_size _ _ _ _ S1), !length_app. cbn [length]. fold bodies'. lia.
    + rewrite (se_mem _ _ _ _ S1). fold bodies'. pose proof (se_pool _ _ _ _ S1). rewrite length_app. cbn [length]. lia.
    + rewrite (se_mem _ _ _ _ S1) in Hms. exists (msg :: ms), sent, batch', w4.
      replace (prev + l + (len - l)) with (prev + len) in R4 by lia. split; [exact R4|]. split; [by constructor|].
      split; [by rewrite <- Happ, <- app_assoc|]. split; [done|]. by apply (sends_trans _ _ _ _ _ _ _ S1 S4).
Qed.

(** The descriptor [d] is readable at [od] and its header, at [oh] in the
    data region, is [h]. *)
Record area_at w (d od h oh : Z) : Prop := {
  aa_d : spans (w_maps w) (d + desc_h) od 8;
  aa_od : aligned 8 od;
  aa_h : ld (w_mem w) od = h;
  aa_eq : h = TASVIR_ADDR_DATA + oh;
  aa_oh : aligned 64 oh;
  aa_range : 0 <= oh /\ oh + sizeof_header <= TASVIR_SIZE_DATA;
}.

Lemma bind_desc_h {B} (k : Z -> cmd world B) w d od h oh :
  area_at w d od h oh -> (load (d + desc_h) ≫= k) w = k h w.
Proof.
  intros [H1 H2 H3 _ _ _]. pose proof (load_runs0 w (d + desc_h) od 8 H1 H2 ltac:(lia)) as R. rewrite H3 in R.
  by rewrite (bind_runs _ _ _ _ _ R).
Qed.

(** The header in the reader copy. *)
Lemma header_ro w d od h oh :
  area_at w d od h oh -> tasvir_data2ro h = TASVIR_ADDR_DATA_RO + oh /\ spans (w_maps w) (TASVIR_ADDR_DATA_RO + oh) oh sizeof_header
    /\ aligned 8 oh.
Proof.
  intros [_ _ _ -> Ha Hr]. split; [|split].
  - unfold tasvir_data2ro, sizeof_header in *. rewrite u64_small by (defs; lia). defs. lia.
  - apply spans_ro; lia.
  - by apply (aligned_weaken 8 8).
Qed.

Lemma mem_bodies_length n m a len prev last :
  0 <= len <= 1344 * Z.of_nat n -> Z.of_nat (length (mem_bodies n m a len prev last)) = (len + 1343) / 1344.
Proof.
  revert a len prev. induction n as [|n IH]; intros a len prev Hl; cbn [mem_bodies].
  - replace len with 0 by lia. done.
  - destruct (Z.ltb_spec 0 len) as [Hp|Hz]; [|by replace len with 0 by lia]. cbn zeta. cbn [length].
    rewrite Nat2Z.inj_succ, IH by lia. destruct (Z.le_gt_cases 1344 len).
    + rewrite Z.min_l by lia. replace (len + 1343) with (len - 1344 + 1343 + 1 * 1344) by lia. rewrite Z.div_add by lia. lia.
    + rewrite Z.min_r by lia. rewrite Z.sub_diag. change ((0 + 1343) / 1344) with 0. apply (Z.div_unique _ _ _ (len - 1)); lia.
Qed.

(** The whole run is sent. *)
Lemma msg_mem_generate_runs fuel w d od h oh a len last :
  let prev := ld (w_mem w) (oh + hdr_last_sync_ext_bytes) in
  let n := Z.to_nat (len / 1344 + 2) in
  let bodies := mem_bodies n (w_mem w) a len prev last in
  thread_ok w -> (0 < fuel)%nat -> area_at w d od h oh -> 0 <= a -> aligned 64 a -> 0 < len -> aligned 64 len ->
  a + len <= TASVIR_SIZE_DATA -> 0 <= prev -> prev + len < 2 ^ 64 ->
  (length (items w) + length bodies <= size w)%nat -> (32 + length bodies <= avail w)%nat ->
  exists ms w', runs (tasvir_msg_mem_generate fuel d (TASVIR_ADDR_DATA + a) len last) w tt w'
    /\ Forall2 (is_mem_msg d (ld (w_mem w) (oh + hdr_version))) ms bodies
    /\ items w' = items w ++ ms /\ avail w = (avail w' + length ms)%nat
    /\ w_mem w' = <[oh + hdr_last_sync_ext_bytes := prev + len]> (w_mem w).
Proof.
  intros prev n bodies Ht Hf Hd Ha Haa Hl Hal Hs Hp Hpl Hr Hav.
  destruct (get_burst_runs fuel w ltac:(lia) Hf) as (w1 & R1 & S1).
  assert (area_at w1 d od h oh) as Hd1.
  { destruct Hd as [? ? ? ? ? ?], S1 as [E1 E2 _ _ _ _]. constructor; rewrite ?E1, ?E2; done. }
  destruct (header_ro w1 d od h oh Hd1) as (Hro & Hsp & Hoa).
  pose proof (Z.div_mod len 1344 ltac:(lia)). pose proof (Z.mod_pos_bound len 1344 ltac:(lia)).
  assert (0 <= len / 1344) by (apply Z.div_pos; lia).
  destruct (msg_mem_loop_runs n fuel w1 d a len prev (ld (w_mem w) (oh + hdr_version)) last [])
    as (ms & sent & batch & w2 & R2 & Hms & Happ & Hb & S2); try eassumption; try lia.
  - by eapply sends_thread.
  - cbn. lia.
  - rewrite (se_mem _ _ _ _ S1), (se_ring _ _ _ _ S1), (se_size _ _ _ _ S1), app_nil_r. fold bodies. cbn [length]. lia.
  - rewrite (se_mem _ _ _ _ S1). fold bodies. pose proof (se_pool _ _ _ _ S1). cbn [length]. lia.
  - rewrite (se_mem _ _ _ _ S1) in Hms. fold bodies in Hms. cbn [app] in Happ.
    pose proof (sends_trans _ _ _ _ _ _ _ S1 S2) as S12. cbn [app] in S12.
    set (w3 := w2 <| w_mem := <[oh + hdr_last_sync_ext_bytes := prev + len]> (w_mem w2) |>).
    assert (exists w4, runs (when (negb (bool_decide (batch = []))) (retry_tx fuel (ring_ext_enqueue batch))) w3 tt w4
      /\ sends w3 w4 batch 0) as (w4 & R4 & S4).
    { destruct (bool_decide_reflect (batch = [])) as [->|Hne]; cbn [negb when].
      - exists w3. split; [done|]. constructor; [done..|by rewrite app_nil_r|lia].
      - apply ext_enqueue_runs; [|done]. change (items w3) with (items w2). change (size w3) with (size w2).
        rewrite (se_ring _ _ _ _ S12), (se_size _ _ _ _ S12), length_app. apply Forall2_length in Hms. apply (f_equal length) in Happ. rewrite length_app in Happ. lia. }
    exists ms, (w4 <| w_nd := (w_nd w4) <| nd_mp := rte_mempool_put_bulk (nd_mp (w_nd w4)) (Z.to_nat TASVIR_PKT_BURST - length batch) |> |>).
    split; [|split; [done|split; [|split]]].
    + unfold runs, tasvir_msg_mem_generate. rewrite (bind_runs _ _ _ _ _ R1), (bind_desc_h _ w1 d od h oh Hd1). cbn zeta. rewrite Hro.
      rewrite !(bind_load _ w1 _ oh sizeof_header) by (exact Hsp || exact Hoa || by vm_compute). rewrite (se_mem _ _ _ _ S1). fold prev n.
      rewrite (bind_runs _ _ _ _ _ R2). cbn beta iota.
      rewrite (bind_store _ w2 _ oh sizeof_header) by (exact Hoa || (by rewrite (se_maps _ _ _ _ S2)) || by vm_compute). fold w3.
      by rewrite (bind_runs _ _ _ _ _ R4).
    + cbn. rewrite (se_ring _ _ _ _ S4). change (items w3) with (items w2). rewrite (se_ring _ _ _ _ S12), <- app_assoc. by rewrite Happ.
    + cbn. rewrite put_bulk_avail. change (Z.to_nat TASVIR_PKT_BURST) with 32%nat. pose proof (se_pool _ _ _ _ S12) as P1.
      pose proof (se_pool _ _ _ _ S4) as P2. change (avail w3) with (avail w2) in P2.
      apply (f_equal length) in Happ. rewrite length_app in Happ. lia.
    + cbn. rewrite (se_mem _ _ _ _ S4). cbn. by rewrite (se_mem _ _ _ _ S12).
Qed.
End room.
End with_dpdk.
