(* ===== verification/MemRecv.v ===== *)
(** * MemRecv: an external sync arrives (tasvir_handle_msg_mem, src/sync_external.c)

    [handle_msgs_runs]: the messages of a run of lines, handled in order on a
    node that is ready for them, put the lines into its writer copy and mark
    them in its change log, from where the next internal sync takes them to
    the readers. [ext_sync_roundtrip] composes this with the sending side;
    [missed_message_written] shows what happens when a message is lost. *)
From stdpp Require Import base gmap list numbers.
From Stdlib Require Import ZArith Lia.
From S2P Require Import Prelude Defs Types Fifo Mem Log Net Sync Calls Area Rpc SyncExternal MemMsg.

(** ** Flags *)

Lemma testbit_flag i j : 0 <= i -> 0 <= j -> Z.testbit (Z.shiftl 1 i) j = (i =? j).
Proof.
  intros Hi Hj. rewrite Z.shiftl_1_l, Z.pow2_bits_eqb by done. apply Z.eqb_sym || done.
Qed.

Lemma has_flag_bit f i : 0 <= i -> has_flag f (Z.shiftl 1 i) = Z.testbit f i.
Proof.
  intros Hi. unfold has_flag. destruct (Z.testbit f i) eqn:E.
  - apply negb_true_iff, Z.eqb_neq. intros H0. apply (f_equal (fun z => Z.testbit z i)) in H0.
    rewrite Z.land_spec, testbit_flag, E, Z.eqb_refl, Z.bits_0 in H0 by lia. done.
  - apply negb_false_iff, Z.eqb_eq, Z.bits_inj'. intros j Hj. rewrite Z.land_spec, testbit_flag, Z.bits_0 by lia.
    destruct (Z.eqb_spec i j) as [<-|Hne]; [by rewrite E|apply andb_false_r].
Qed.

Lemma has_flag_set f i j : 0 <= i -> 0 <= j ->
  has_flag (set_flag f (Z.shiftl 1 i)) (Z.shiftl 1 j) = (i =? j) || has_flag f (Z.shiftl 1 j).
Proof.
  intros Hi Hj. rewrite !has_flag_bit by done. unfold set_flag. by rewrite Z.lor_spec, testbit_flag, orb_comm by done.
Qed.

Lemma has_flag_clear f i j : 0 <= i < 64 -> 0 <= j < 64 ->
  has_flag (clear_flag f (Z.shiftl 1 i)) (Z.shiftl 1 j) = negb (i =? j) && has_flag f (Z.shiftl 1 j).
Proof.
  intros Hi Hj. rewrite !has_flag_bit by lia. unfold clear_flag.
  rewrite Z.land_spec, testbit_not64, testbit_flag, andb_comm by lia. by rewrite (proj2 (Z.ltb_lt j 64)) by lia.
Qed.

Section with_dpdk.
Context `{D : Dpdk}.
Implicit Types w : world.

Section recv.
Context (d od h oh : Z).
(** The header in the writer copy: where it is, and its first line, which only
    this node writes. *)
#[local] Abbreviation h_rw := (tasvir_data2rw h).
#[local] Abbreviation orw := (TASVIR_SIZE_DATA + oh).

(** A running node with the area: its descriptor is outside that line. *)
Record receiver w : Prop := {
  rc_area : area_at w d od h oh;
  rc_od : ~ orw <= od < orw + 64 /\ od < 2 * TASVIR_SIZE_DATA;
  rc_thread : tl_thread (w_tl w) <> 0;
  rc_state : td_state (nd_td (w_nd w) (tl_tdata (w_tl w))) <> TASVIR_THREAD_STATE_BOOTING;
}.

(** [m'] differs from [m] in the [n] bytes at [lo] only. *)
Definition only (m m' : gmap Z Z) (lo n : Z) : Prop :=
  forall o, aligned 8 o -> ~ lo <= o < lo + n -> ld m' o = ld m o.

Lemma only_refl m lo n : only m m lo n.
Proof. done. Qed.
Lemma only_trans m m1 m2 lo n : only m m1 lo n -> only m1 m2 lo n -> only m m2 lo n.
Proof. intros H1 H2 o Ho Hr. rewrite H2 by done. by apply H1. Qed.
Lemma only_insert m o v lo n : lo <= o < lo + n -> only m (<[o := v]> m) lo n.
Proof. intros Hr a _ Ha. rewrite ld_insert. cases_cmp. Qed.

(** [w] with the memory [m]. *)
Definition at_mem w (m : gmap Z Z) : world := w <| w_mem := m |>.
Lemma at_mem_id w : at_mem w (w_mem w) = w.
Proof. by destruct w. Qed.

Lemma receiver_mem w m : receiver w -> ld m od = ld (w_mem w) od -> receiver (at_mem w m).
Proof. intros [[A1 A2 A3 A4 A5 A6] B C E] Hm. constructor; [|done..]. constructor; try done. cbn. by rewrite Hm. Qed.

Lemma receiver_hdr w m : receiver w -> only (w_mem w) m orw 64 -> receiver (at_mem w m).
Proof. intros Hr Ho. apply receiver_mem; [done|]. apply Ho; apply Hr. Qed.

Lemma header_rw w :
  receiver w -> h_rw = TASVIR_ADDR_DATA_RW + oh /\ spans (w_maps w) (TASVIR_ADDR_DATA_RW + oh) orw 64 /\ aligned 8 orw.
Proof.
  intros [[_ _ _ -> Ha Hr] _ _ _]. unfold sizeof_header in Hr. split; [|split].
  - unfold tasvir_data2rw. rewrite u64_small by (defs; lia). defs. lia.
  - apply spans_rw; lia.
  - apply (aligned_weaken 8 8); [lia..|]. defs. align.
Qed.

(** The fields of that line. *)
Definition hdr_field (f : Z) : Prop := 0 <= f < 64 /\ aligned 8 f.
Lemma hdr_fields :
  hdr_field hdr_flags /\ hdr_field hdr_last_sync_ext_bytes /\ hdr_field hdr_last_sync_ext_us /\ hdr_field hdr_last_sync_ext_v.
Proof. unfold hdr_field. repeat split; done. Qed.

Definition hdr_set (m : gmap Z Z) (f v : Z) : gmap Z Z := <[orw + f := v]> m.

Lemma only_hdr_set m f v : hdr_field f -> only m (hdr_set m f v) orw 64.
Proof. intros [Hf _]. apply only_insert. lia. Qed.

Lemma receiver_hdr_set w m f v : hdr_field f -> receiver (at_mem w m) -> receiver (at_mem w (hdr_set m f v)).
Proof. intros Hf Hr. exact (receiver_hdr (at_mem w m) _ Hr (only_hdr_set m f v Hf)). Qed.

Lemma ld_hdr_set m f g v : ld (hdr_set m f v) (orw + g) = if f =? g then v else ld m (orw + g).
Proof. unfold hdr_set. rewrite ld_insert. cases_cmp; done. Qed.

Lemma bind_hdr_load {B} (k : Z -> cmd world B) w m f :
  receiver (at_mem w m) -> hdr_field f -> (load (h_rw + f) ≫= k) (at_mem w m) = k (ld m (orw + f)) (at_mem w m).
Proof.
  intros Hr [Hf Ha]. destruct (header_rw _ Hr) as (-> & Hs & Ho). by rewrite (bind_load _ _ _ orw 64 f Hs Ho Hf Ha).
Qed.
Lemma hdr_store_runs w m f v :
  receiver (at_mem w m) -> hdr_field f -> runs (store (h_rw + f) v) (at_mem w m) tt (at_mem w (hdr_set m f v)).
Proof.
  intros Hr [Hf Ha]. destruct (header_rw _ Hr) as (-> & Hs & Ho). exact (store_runs _ _ orw 64 f v Hs Ho Hf Ha).
Qed.
Lemma bind_flags_of {B} (k : Z -> cmd world B) w m :
  receiver (at_mem w m) -> (flags_of h_rw ≫= k) (at_mem w m) = k (ld m (orw + hdr_flags)) (at_mem w m).
Proof. intros Hr. apply bind_hdr_load; [done|apply hdr_fields]. Qed.
Lemma or_flags_runs w m mask :
  receiver (at_mem w m) ->
  runs (or_flags h_rw mask) (at_mem w m) tt (at_mem w (hdr_set m hdr_flags (set_flag (ld m (orw + hdr_flags)) mask))).
Proof.
  intros Hr. unfold runs, or_flags, flags_of. rewrite bind_hdr_load by (done || apply hdr_fields).
  apply hdr_store_runs; [done|apply hdr_fields].
Qed.
Lemma and_not_flags_runs w m mask :
  receiver (at_mem w m) ->
  runs (and_not_flags h_rw mask) (at_mem w m) tt (at_mem w (hdr_set m hdr_flags (clear_flag (ld m (orw + hdr_flags)) mask))).
Proof.
  intros Hr. unfold runs, and_not_flags, flags_of. rewrite bind_hdr_load by (done || apply hdr_fields).
  apply hdr_store_runs; [done|apply hdr_fields].
Qed.

(** ** States of an area *)

Definition flag (m : gmap Z Z) (mask : Z) : bool := has_flag (ld m (orw + hdr_flags)) mask.

(** [b] bytes of version [v] have arrived. *)
Record receiving (m : gmap Z Z) (v b : Z) : Prop := {
  rv_pending : flag m TASVIR_AREA_FLAG_EXT_PENDING = true;
  rv_ignore : flag m TASVIR_AREA_FLAG_EXT_IGNORE = false;
  rv_enqueue : flag m TASVIR_AREA_FLAG_EXT_ENQUEUE = false;
  rv_v : ld m (orw + hdr_last_sync_ext_v) = v;
  rv_bytes : ld m (orw + hdr_last_sync_ext_bytes) = b;
}.

(** The next message of version [v] continues it, or is its first. *)
Definition ready (m : gmap Z Z) (v b : Z) : Prop :=
  receiving m v b
  \/ (flag m TASVIR_AREA_FLAG_EXT_ENQUEUE = false /\ ld m (orw + hdr_last_sync_ext_v) <> v /\ b = 0).

Lemma flag_hdr_set m f v mask :
  flag (hdr_set m f v) mask = if f =? hdr_flags then has_flag v mask else flag m mask.
Proof. unfold flag. rewrite ld_hdr_set. cases_cmp; done. Qed.

(** The flags and fields after some stores. *)
Ltac hdr_simpl :=
  rewrite ?flag_hdr_set, ?ld_hdr_set; cbn [Z.eqb hdr_flags hdr_last_sync_ext_bytes hdr_last_sync_ext_us hdr_last_sync_ext_v Pos.eqb];
  unfold TASVIR_AREA_FLAG_EXT_PENDING, TASVIR_AREA_FLAG_EXT_IGNORE, TASVIR_AREA_FLAG_EXT_ENQUEUE, TASVIR_AREA_FLAG_ACTIVE in *;
  rewrite ?has_flag_set, ?has_flag_clear by lia; cbn [Z.eqb Pos.eqb negb andb orb].

(** The memory after the first message of a version. *)
Definition new_version_mem (m : gmap Z Z) (v : Z) : gmap Z Z :=
  let m2 := hdr_set (hdr_set m hdr_last_sync_ext_v v) hdr_last_sync_ext_bytes 0 in
  let m3 := hdr_set m2 hdr_flags (clear_flag (ld m2 (orw + hdr_flags)) TASVIR_AREA_FLAG_EXT_IGNORE) in
  hdr_set m3 hdr_flags (set_flag (ld m3 (orw + hdr_flags)) TASVIR_AREA_FLAG_EXT_PENDING).

Lemma mem_new_version_runs w m v b :
  receiver (at_mem w m) -> ready m v b ->
  exists m1, runs (mem_new_version h_rw v) (at_mem w m) tt (at_mem w m1) /\ only m m1 orw 64 /\ receiving m1 v b.
Proof.
  intros Hr Hready. pose proof hdr_fields as (F1 & F2 & F3 & F4). unfold runs, mem_new_version. rewrite bind_hdr_load by done.
  destruct Hready as [Hrv|(He & Hv & ->)].
  - exists m. rewrite (rv_v _ _ _ Hrv), Z.eqb_refl. done.
  - rewrite (proj2 (Z.eqb_neq _ v)) by done. cbn [negb when]. exists (new_version_mem m v). split; [|split].
    + rewrite (bind_runs _ _ _ _ _ (hdr_store_runs w m _ v Hr F4)). pose proof (receiver_hdr_set w _ _ v F4 Hr) as H1.
      rewrite (bind_runs _ _ _ _ _ (hdr_store_runs w _ _ 0 H1 F2)). pose proof (receiver_hdr_set w _ _ 0 F2 H1) as H2.
      rewrite (bind_runs _ _ _ _ _ (and_not_flags_runs w _ TASVIR_AREA_FLAG_EXT_IGNORE H2)).
      apply or_flags_runs. by apply receiver_hdr_set.
    + unfold new_version_mem. cbv zeta. do 3 (eapply only_trans; [|by apply only_hdr_set]). by apply only_hdr_set.
    + unfold new_version_mem. cbv zeta. constructor; hdr_simpl; done.
Qed.

(** ** The effect of messages *)

(** The [len] bytes at [a] have the words [src] in the writer copy and are
    marked in the log; below the log nothing else changed but the first line
    of the header. *)
Record applied (m m' : gmap Z Z) (src : Z -> Z) (a len : Z) : Prop := {
  ap_words o : aligned 8 o -> a <= o < a + len -> ld m' (TASVIR_SIZE_DATA + o) = src o;
  ap_log x : 0 <= x -> logbit m' x = logbit m x || ((a / 64 <=? x) && (x <? (a + len) / 64));
  ap_rest o : aligned 8 o -> o < 2 * TASVIR_SIZE_DATA ->
    ~ TASVIR_SIZE_DATA + a <= o < TASVIR_SIZE_DATA + a + len -> ~ orw <= o < orw + 64 -> ld m' o = ld m o;
}.

Lemma applied_trans m m1 m2 src a n1 n2 :
  0 <= a -> aligned 64 a -> aligned 64 n1 -> 0 <= n1 -> 0 <= n2 -> a + n1 + n2 <= TASVIR_SIZE_DATA ->
  a + n1 <= oh \/ oh + 64 <= a ->
  applied m m1 src a n1 -> applied m1 m2 src (a + n1) n2 -> applied m m2 src a (n1 + n2).
Proof.
  intros Ha Haa Hn1 Hp1 Hp2 Hs Hd [A1 A2 A3] [B1 B2 B3]. constructor.
  - intros o Ho Hr. destruct (Z.lt_ge_cases o (a + n1)); [|apply B1; [done|lia]].
    rewrite B3; [by apply A1; [|lia]|defs; align|lia..].
  - intros x Hx. rewrite B2, A2, <- orb_assoc by done. f_equal.
    destruct (aligned_exists 64 a ltac:(lia) Haa) as [p ->], (aligned_exists 64 n1 ltac:(lia) Hn1) as [q ->].
    replace (64 * p + 64 * q) with ((p + q) * 64) by lia. rewrite (Z.mul_comm 64 p), !Z.div_mul by lia.
    replace (p * 64 + (64 * q + n2)) with ((p + q) * 64 + n2) by lia.
    rewrite (Z.div_add_l (p + q)) by lia. pose proof (Z.div_pos n2 64). cases_cmp; done || lia.
  - intros o Ho Hlt Hr Hh. rewrite B3 by (done || lia). apply A3; done || lia.
Qed.

Lemma only_applied m m' src a : 0 <= oh -> oh + 64 <= TASVIR_SIZE_DATA -> only m m' orw 64 -> applied m m' src a 0.
Proof.
  intros H0 H1 Ho. constructor.
  - lia.
  - intros x Hx. unfold logbit. rewrite Ho; [|apply aligned_log_off|].
    + rewrite Z.add_0_r. cases_cmp; cbn [andb]; by rewrite orb_false_r.
    + unfold log_off. pose proof (Z.div_pos x 64 Hx). lia.
  - intros o Hoa _ _ Hh. by apply Ho.
Qed.

(** A piece that may be stored: some lines of the data region, at most as
    many as a message holds, without the header line and the descriptor. *)
Record piece (a len : Z) : Prop := {
  pc_a : 0 <= a;
  pc_aligned : aligned 64 a /\ aligned 64 len;
  pc_len : 0 < len <= 1344;
  pc_end : a + len <= TASVIR_SIZE_DATA;
  pc_hdr : a + len <= oh \/ oh + 64 <= a;
  pc_od : ~ TASVIR_SIZE_DATA + a <= od < TASVIR_SIZE_DATA + a + len;
}.

Lemma applied_receiver w m m' src a len :
  receiver (at_mem w m) -> piece a len -> applied m m' src a len -> receiver (at_mem w m').
Proof.
  intros Hr Hp Ha. refine (receiver_mem (at_mem w m) m' Hr _). apply (ap_rest _ _ _ _ _ Ha).
  - apply (rc_area _ Hr).
  - apply (rc_od _ Hr).
  - apply Hp.
  - apply (rc_od _ Hr).
Qed.

Lemma stream_line_runs w m a len src :
  piece a len ->
  exists m1, runs (stream_line (tasvir_data2rw (TASVIR_ADDR_DATA + a)) ((fun i => src (a + 8 * i)) <$> seqZ 0 (len / 8)) len)
               (at_mem w m) tt (at_mem w m1)
    /\ (forall o, aligned 8 o -> ld m1 o = if in_range o (TASVIR_SIZE_DATA + a) len then src (o - TASVIR_SIZE_DATA) else ld m o).
Proof.
  intros [Ha [Haa Hal] Hl He _ _]. destruct (aligned_exists 64 len ltac:(lia) Hal) as [q Hq].
  assert (len / 8 = 8 * q) as Hd8 by (rewrite Hq; replace (64 * q) with (8 * q * 8) by lia; by rewrite Z.div_mul by lia).
  set (line := _ <$> seqZ 0 (len / 8)). assert (length line = Z.to_nat (8 * q)) as Hlen.
  { unfold line. rewrite length_fmap, length_seqZ, Hd8. done. }
  unfold runs, stream_line. assert ((len + 63) / 64 = q) as -> by (symmetry; apply (Z.div_unique _ _ _ 63); lia).
  rewrite Z.max_r by lia. change (TASVIR_NR_CACHELINES_PER_MSG * 8) with 168.
  rewrite (proj2 (Z.ltb_ge 168 _)) by lia. rewrite take_app_le, take_ge by lia.
  unfold tasvir_data2rw. rewrite u64_small by (defs; lia).
  replace (TASVIR_ADDR_DATA + a + TASVIR_OFFSET_RW) with (TASVIR_ADDR_DATA_RW + a) by (defs; lia).
  pose proof (aligned_weaken 8 8 a ltac:(lia) ltac:(lia) Haa) as Ha8.
  assert (aligned 8 (TASVIR_SIZE_DATA + a)) as Ho by align.
  rewrite (store_words_runs (at_mem w m) _ (TASVIR_SIZE_DATA + a));
    [|rewrite Hlen; apply spans_rw; lia|done].
  eexists. split; [reflexivity|]. intros o Hoa. rewrite ld_write_words by done. cbn [at_mem].
  replace (8 * Z.of_nat (length line)) with len by (rewrite Hlen; lia).
  destruct (in_range o _ _) eqn:E; [|done]. apply in_range_true in E.
  destruct (aligned_exists 8 (o - (TASVIR_SIZE_DATA + a)) ltac:(lia) ltac:(align)) as [i Hi].
  rewrite Hi, Z.mul_comm, Z.div_mul by lia. apply list_lookup_total_correct. unfold line.
  rewrite list_lookup_fmap, lookup_seqZ_lt by lia. cbn. f_equal. f_equal. lia.
Qed.

Lemma not_booting w m : receiver (at_mem w m) -> runs tasvir_is_booting (at_mem w m) false (at_mem w m).
Proof.
  intros [_ _ Ht Hs]. unfold runs, tasvir_is_booting, ttld, tdata, gets, mbind, cmd_bind.
  rewrite (proj2 (Z.eqb_neq _ 0) Ht), bool_decide_eq_false_2 by done. done.
Qed.

Lemma mem_store_runs w m b a len src :
  receiver (at_mem w m) -> ld m (orw + hdr_last_sync_ext_bytes) = b -> piece a len -> 0 <= b -> b + len < 2 ^ 64 ->
  exists m1, runs (mem_store h_rw (TASVIR_ADDR_DATA + a) len ((fun i => src (a + 8 * i)) <$> seqZ 0 (len / 8))) (at_mem w m) tt (at_mem w m1)
    /\ applied m m1 src a len /\ ld m1 (orw + hdr_last_sync_ext_bytes) = b + len
    /\ forall f, hdr_field f -> f <> hdr_last_sync_ext_bytes -> ld m1 (orw + f) = ld m (orw + f).
Proof.
  intros Hr Hv Hp Hb Hbl. pose proof hdr_fields as (F1 & F2 & F3 & F4). pose proof Hp as [Ha [Haa Hal] Hl He Hh Ho].
  pose proof (rc_area _ Hr) as [_ _ _ _ _ Hoh]. unfold sizeof_header in Hoh.
  unfold runs, mem_store. rewrite (proj2 (Z.eqb_neq _ 0)) by (defs; lia). cbn [negb when].
  destruct (tasvir_log_lines (at_mem w m) (TASVIR_ADDR_DATA + a) len) as (m1 & R1 & L1 & O1); [unfold loggable; lia|].
  rewrite (bind_runs _ _ _ _ _ R1). change ((at_mem w m) <| w_mem := m1 |>) with (at_mem w m1).
  destruct (stream_line_runs w m1 a len src Hp) as (m2 & R2 & W2). rewrite (bind_runs _ _ _ _ _ R2).
  assert (forall o, aligned 8 o -> o < 2 * TASVIR_SIZE_DATA -> ld m1 o = ld m o) as O1'.
  { intros o Hoa Hlt. apply (O1 o Hoa). left. unfold log_off. lia. }
  assert (applied m m2 src a len) as A2.
  { constructor.
    - intros o Hoa Hor. rewrite W2, (proj2 (in_range_true _ _ len)) by (lia || (defs; align)). f_equal. lia.
    - intros x Hx. unfold logbit at 1. rewrite W2 by apply aligned_log_off. pose proof (Z.div_pos x 64 Hx).
      rewrite (proj2 (in_range_false _ _ len)) by (unfold log_off; lia). fold (logbit m1 x). rewrite L1 by done. cbn [at_mem]. f_equal.
      unfold line_of. replace (TASVIR_ADDR_DATA + a - TASVIR_ADDR_DATA) with a by lia.
      replace (TASVIR_ADDR_DATA + a + len - 1 - TASVIR_ADDR_DATA) with (a + len - 1) by lia. f_equal.
      destruct (aligned_exists 64 (a + len) ltac:(lia) ltac:(align)) as [q ->].
      replace (64 * q - 1) with ((q - 1) * 64 + 63) by lia. rewrite Z.div_add_l, (Z.mul_comm 64 q), Z.div_mul by lia.
      change (63 / 64) with 0. cases_cmp.
    - intros o Hoa Hlt Hout _. rewrite W2, (proj2 (in_range_false _ _ len)) by (done || lia). by apply O1'. }
  pose proof (applied_receiver w m m2 src a len Hr Hp A2) as Hr2.
  assert (forall f, hdr_field f -> ld m2 (orw + f) = ld m (orw + f)) as Hf.
  { intros f [Hf1 Hf2]. pose proof (aa_oh _ _ _ _ _ (rc_area _ Hr)) as Hoa. apply (aligned_weaken 8 8) in Hoa; [|lia..].
    assert (aligned 8 (orw + f)) by align.
    rewrite W2, (proj2 (in_range_false _ _ len)) by (done || lia). apply O1'; [done|lia]. }
  rewrite bind_hdr_load, Hf, Hv by done. rewrite u64_small by lia.
  rewrite (bind_runs _ _ _ _ _ (hdr_store_runs w m2 _ (b + len) Hr2 F2)).
  pose proof (receiver_hdr_set w m2 _ (b + len) F2 Hr2) as Hr3. rewrite (bind_runs _ _ _ _ _ (not_booting w _ Hr3)).
  eexists. split; [reflexivity|]. split.
  - replace len with (len + 0) by lia. eapply applied_trans; [done|done|done|lia|lia|lia|done|exact A2|].
    apply only_applied; [lia|lia|by apply only_hdr_set].
  - split; [by rewrite ld_hdr_set, Z.eqb_refl|]. intros f Hff Hne. rewrite ld_hdr_set, (proj2 (Z.eqb_neq _ f)) by done. by apply Hf.
Qed.

Lemma stored_receiving m m1 v b b' :
  receiving m v b -> ld m1 (orw + hdr_last_sync_ext_bytes) = b' ->
  (forall f, hdr_field f -> f <> hdr_last_sync_ext_bytes -> ld m1 (orw + f) = ld m (orw + f)) -> receiving m1 v b'.
Proof.
  intros [V1 V2 V3 V4 V5] Hb Hf. pose proof hdr_fields as (F1 & F2 & F3 & F4).
  assert (ld m1 (orw + hdr_flags) = ld m (orw + hdr_flags)) as E by (by apply Hf).
  unfold flag in *. constructor; unfold flag; rewrite ?E; try done. by rewrite Hf.
Qed.

(** The last message of a version completes it. *)
Definition complete (m : gmap Z Z) : Prop :=
  flag m TASVIR_AREA_FLAG_ACTIVE = true /\ flag m TASVIR_AREA_FLAG_EXT_PENDING = false.

Lemma mem_last_runs w m :
  receiver (at_mem w m) ->
  exists m1, runs (mem_last h h_rw) (at_mem w m) tt (at_mem w m1) /\ only m m1 orw 64 /\ complete m1.
Proof.
  intros Hr. pose proof hdr_fields as (F1 & F2 & F3 & F4). unfold runs, mem_last.
  rewrite (bind_runs _ _ _ _ _ (and_not_flags_runs w m TASVIR_AREA_FLAG_EXT_PENDING Hr)). set (m1 := hdr_set m _ _).
  assert (receiver (at_mem w m1)) as H1 by (by apply receiver_hdr_set).
  rewrite (bind_runs _ _ _ _ _ (or_flags_runs w m1 TASVIR_AREA_FLAG_ACTIVE H1)). set (m2 := hdr_set m1 _ _).
  assert (receiver (at_mem w m2)) as H2 by (by apply receiver_hdr_set).
  assert (only m m2 orw 64) as O2 by (eapply only_trans; apply only_hdr_set; done).
  assert (complete m2) as C2.
  { unfold complete, m2, m1. hdr_simpl. done. }
  rewrite (bind_runs _ _ _ _ _ (not_booting w m2 H2)), !bind_ndata. destruct (_ <? _); cbn [when].
  - eexists. split; [apply or_flags_runs, H2|]. split; [eapply only_trans; [exact O2|by apply only_hdr_set]|].
    destruct C2 as [C3 C4]. unfold complete, flag in *. hdr_simpl. done.
  - by exists m2.
Qed.

(** [w] with another packet pool. *)
Definition at_pool w (p : pool) : world := w <| w_nd := (w_nd w) <| nd_mp := p |> |>.
Lemma receiver_pool w p m : receiver (at_mem w m) -> receiver (at_mem (at_pool w p) m).
Proof. intros [[A1 A2 A3 A4 A5 A6] B C E]. by constructor. Qed.

(** One message. *)
Lemma handle_msg_runs w m msg v b a len last src :
  receiver (at_mem w m) -> ready m v b -> piece a len -> 0 <= b -> b + len < 2 ^ 64 ->
  is_mem_msg d v msg (Msg_mem (TASVIR_ADDR_DATA + a) len last b ((fun i => src (a + 8 * i)) <$> seqZ 0 (len / 8))) ->
  exists m1 p, runs (tasvir_handle_msg_mem msg) (at_mem w m) tt (at_mem (at_pool w p) m1)
    /\ applied m m1 src a len /\ if last then complete m1 else receiving m1 v (b + len).
Proof.
  intros Hr Hready Hp Hb Hbl (_ & Hd & Hv & Hbody). pose proof hdr_fields as (F1 & F2 & F3 & F4).
  pose proof Hp as [Ha [Haa Hal] Hl He Hh Ho]. pose proof (rc_area _ Hr) as [_ _ _ Eh _ Hoh]. unfold sizeof_header in Hoh.
  unfold runs, tasvir_handle_msg_mem. rewrite Hbody, Hd, Hv, (bind_desc_h _ _ d od h oh (rc_area _ Hr)).
  rewrite (proj2 (Z.eqb_neq h 0)) by (rewrite Eh; defs; lia). cbn zeta. rewrite bind_flags_of by done.
  assert (flag m TASVIR_AREA_FLAG_EXT_ENQUEUE = false) as Henq by (destruct Hready as [[]|[]]; done).
  unfold flag in Henq. rewrite Henq.
  destruct (mem_new_version_runs w m v b Hr Hready) as (m1 & R1 & O1 & V1). rewrite (bind_runs _ _ _ _ _ R1).
  pose proof (receiver_hdr (at_mem w m) m1 Hr O1 : receiver (at_mem w m1)) as H1.
  rewrite bind_flags_of by done. unfold mem_accepts. pose proof V1 as [P1 P2 P3 P4 P5]. unfold flag in P1, P2. rewrite P1, P2.
  cbn [negb andb when]. rewrite !bind_assoc. unfold mem_check_bytes. rewrite bind_assoc, bind_hdr_load, P5, Z.eqb_refl by done. cbn [negb when].
  rewrite bind_ret.
  destruct (mem_store_runs w m1 b a len src H1 P5 Hp Hb Hbl) as (m2 & R2 & A2 & B2 & F5).
  pose proof (stored_receiving m1 m2 v b _ V1 B2 F5) as V2. rewrite !bind_assoc, (bind_runs _ _ _ _ _ R2).
  pose proof (applied_receiver w m1 m2 src a len H1 Hp A2) as H2.
  assert (applied m m2 src a len) as A02.
  { replace len with (0 + len) by lia. eapply applied_trans; [done|done|done|lia|lia|lia|lia| |rewrite Z.add_0_r; exact A2].
    apply only_applied; [lia|lia|exact O1]. }
  destruct last; cbn [when].
  - destruct (mem_last_runs w m2 H2) as (m3 & R3 & O3 & C3). rewrite (bind_runs _ _ _ _ _ R3).
    exists m3, (rte_mempool_put_bulk (nd_mp (w_nd w)) 1). split; [done|]. split; [|done].
    replace len with (len + 0) by lia. eapply applied_trans; [done|done|done|lia|lia|lia|done|exact A02|].
    apply only_applied; [lia|lia|exact O3].
  - exists m2, (rte_mempool_put_bulk (nd_mp (w_nd w)) 1). by rewrite bind_ret.
Qed.

(** All messages of a run, in order. *)
Lemma handle_msgs_runs n w m ms v b a len last msrc :
  receiver (at_mem w m) -> ready m v b -> 0 <= a -> aligned 64 a -> aligned 64 len -> 0 < len <= 1344 * Z.of_nat n ->
  a + len <= TASVIR_SIZE_DATA -> a + len <= oh \/ oh + 64 <= a ->
  ~ TASVIR_SIZE_DATA + a <= od < TASVIR_SIZE_DATA + a + len -> 0 <= b -> b + len < 2 ^ 64 ->
  Forall2 (is_mem_msg d v) ms (mem_bodies n msrc a len b last) ->
  exists m1 p, runs (for_each ms tasvir_handle_msg_mem) (at_mem w m) tt (at_mem (at_pool w p) m1)
    /\ applied m m1 (ld msrc) a len /\ if last then complete m1 else receiving m1 v (b + len).
Proof.
  revert w m ms b a len. induction n as [|n IH]; intros w m ms b a len Hr Hready Ha Haa Hal Hl He Hh Ho Hb Hbl Hms; [lia|].
  cbn [mem_bodies] in Hms. rewrite (proj2 (Z.ltb_lt 0 len)) in Hms by lia. cbn zeta in Hms. set (l := Z.min 1344 len) in *.
  apply Forall2_cons_inv_r in Hms as (msg & ms' & Hmsg & Hms & ->).
  assert (0 < l <= len /\ l <= 1344 /\ aligned 64 l /\ (len - l = 0 \/ l = 1344)) as (Hlr & Hl1 & Hla & Hlc).
  { unfold l. destruct (Z.le_gt_cases 1344 len); [rewrite Z.min_l by lia|rewrite Z.min_r by lia]; (split; [lia|]); (split; [lia|]); (split; [done|lia]). }
  assert (piece a l) as Hp by (constructor; [done|by split|lia|lia|lia|lia]).
  unfold words in Hmsg. rewrite Z2Nat.id in Hmsg by (apply Z.div_pos; lia).
  destruct (handle_msg_runs w m msg v b a l _ (ld msrc) Hr Hready Hp Hb ltac:(lia) Hmsg) as (m1 & p1 & R1 & A1 & C1).
  unfold runs. cbn [for_each]. rewrite (bind_runs _ _ _ _ _ R1).
  destruct (Z.eq_dec (len - l) 0) as [Hz|Hnz].
  - assert (len = l) as El by lia. rewrite Hz in Hms, C1. rewrite Z.eqb_refl, andb_true_r in C1.
    assert (ms' = []) as -> by (destruct n; cbn in Hms; by inversion Hms).
    exists m1, p1. split; [done|]. rewrite El. done.
  - rewrite (proj2 (Z.eqb_neq (len - l) 0)), andb_false_r in C1 by done.
    pose proof (applied_receiver w m m1 _ a l Hr Hp A1) as H1.
    destruct (IH (at_pool w p1) m1 ms' (b + l) (a + l) (len - l)) as (m2 & p2 & R2 & A2 & C2);
      [by apply receiver_pool|by left|lia|align|align|lia|lia|lia|lia|lia|lia|done|].
    exists m2, p2. split; [exact R2|]. split.
    + replace len with (l + (len - l)) by lia. eapply applied_trans; [done|done|done|lia|lia|lia|lia|exact A1|exact A2].
    + replace (b + l + (len - l)) with (b + len) in C2 by lia. done.
Qed.

(** A message that does not continue what has arrived. *)
Lemma handle_missed_runs w m msg v b prev a len last src :
  receiver (at_mem w m) -> receiving m v b -> prev <> b -> piece a len -> 0 <= b -> b + len < 2 ^ 64 ->
  is_mem_msg d v msg (Msg_mem (TASVIR_ADDR_DATA + a) len last prev ((fun i => src (a + 8 * i)) <$> seqZ 0 (len / 8))) ->
  exists m1 p, runs (tasvir_handle_msg_mem msg) (at_mem w m) tt (at_mem (at_pool w p) m1)
    /\ applied m m1 src a len /\ (last = true -> complete m1).
Proof.
  intros Hr V0 Hne Hp Hb Hbl (_ & Hd & Hv & Hbody). pose proof hdr_fields as (F1 & F2 & F3 & F4).
  pose proof Hp as [Ha [Haa Hal] Hl He Hh Ho]. pose proof (rc_area _ Hr) as [_ _ _ Eh _ Hoh]. unfold sizeof_header in Hoh.
  unfold runs, tasvir_handle_msg_mem. rewrite Hbody, Hd, Hv, (bind_desc_h _ _ d od h oh (rc_area _ Hr)).
  rewrite (proj2 (Z.eqb_neq h 0)) by (rewrite Eh; defs; lia). cbn zeta. rewrite bind_flags_of by done.
  pose proof V0 as [P1 P2 P3 P4 P5]. unfold flag in P1, P2, P3. rewrite P3. unfold mem_new_version.
  rewrite bind_assoc, bind_hdr_load, P4, Z.eqb_refl by done. cbn [negb when]. rewrite bind_ret, bind_flags_of by done.
  unfold mem_accepts. rewrite P1, P2. cbn [negb andb when]. rewrite !bind_assoc. unfold mem_check_bytes.
  rewrite bind_assoc, bind_hdr_load, P5 by done. rewrite (proj2 (Z.eqb_neq b prev)) by done. cbn [negb when].
  rewrite bind_assoc, (bind_runs _ _ _ _ _ (and_not_flags_runs w m TASVIR_AREA_FLAG_EXT_PENDING Hr)). set (m1 := hdr_set m _ _).
  assert (receiver (at_mem w m1)) as H1 by (by apply receiver_hdr_set).
  rewrite (bind_runs _ _ _ _ _ (or_flags_runs w m1 TASVIR_AREA_FLAG_EXT_IGNORE H1)). set (m2 := hdr_set m1 _ _).
  assert (receiver (at_mem w m2)) as H2 by (by apply receiver_hdr_set).
  assert (ld m2 (orw + hdr_last_sync_ext_bytes) = b) as B2.
  { unfold m2, m1. rewrite !ld_hdr_set. cbn [Z.eqb hdr_flags hdr_last_sync_ext_bytes]. done. }
  destruct (mem_store_runs w m2 b a len src H2 B2 Hp Hb Hbl) as (m3 & R3 & A3 & _). rewrite !bind_assoc, (bind_runs _ _ _ _ _ R3).
  pose proof (applied_receiver w m2 m3 src a len H2 Hp A3) as H3.
  assert (applied m m3 src a len) as A03.
  { replace len with (0 + len) by lia. eapply applied_trans; [done|done|done|lia|lia|lia|lia| |rewrite Z.add_0_r; exact A3].
    apply only_applied; [lia|lia|]. eapply only_trans; by apply only_hdr_set. }
  destruct last; cbn [when].
  - destruct (mem_last_runs w m3 H3) as (m4 & R4 & O4 & C4). rewrite (bind_runs _ _ _ _ _ R4).
    exists m4, (rte_mempool_put_bulk (nd_mp (w_nd w)) 1). split; [done|]. split; [|done].
    replace len with (len + 0) by lia. eapply applied_trans; [done|done|done|lia|lia|lia|done|exact A03|].
    apply only_applied; [lia|lia|exact O4].
  - exists m3, (rte_mempool_put_bulk (nd_mp (w_nd w)) 1). rewrite bind_ret. done.
Qed.
End recv.

(** C12: an external sync copies lines to another node. The owner of an area
    sends a run of lines of its reader copy ([tasvir_msg_mem_generate], with
    room in ring and pool); a running node that is ready for the next bytes of
    that version handles the messages in order ([tasvir_handle_msg_mem]). Both
    return, and then the receiver's writer copy holds the sender's lines, they
    are marked in its change log, nothing else changed there but the first
    line of the area's header, and the last message of the version makes the
    area active. The lines are not the header line or the receiver's view of
    the descriptor. *)
Theorem ext_sync_roundtrip `{S : !DpdkSpec D} (ring_size : ring -> nat) fuel ws wr d ods odr h oh a len last :
  ring_takes ring_size -> pool_gives ->
  let b := ld (w_mem ws) (oh + hdr_last_sync_ext_bytes) in
  let v := ld (w_mem ws) (oh + hdr_version) in
  thread_ok ws -> (0 < fuel)%nat -> area_at ws d ods h oh -> 0 <= a -> aligned 64 a -> 0 < len -> aligned 64 len ->
  a + len <= TASVIR_SIZE_DATA -> 0 <= b -> b + len < 2 ^ 64 ->
  Z.of_nat (length (ring_items (nd_ring_ext_tx (w_nd ws)))) + (len + 1343) / 1344 <= Z.of_nat (ring_size (nd_ring_ext_tx (w_nd ws))) ->
  32 + (len + 1343) / 1344 <= Z.of_nat (pool_avail (nd_mp (w_nd ws))) ->
  receiver d odr h oh wr -> ready oh (w_mem wr) v b ->
  a + len <= oh \/ oh + 64 <= a -> ~ TASVIR_SIZE_DATA + a <= odr < TASVIR_SIZE_DATA + a + len ->
  exists ms ws' wr', runs (tasvir_msg_mem_generate fuel d (TASVIR_ADDR_DATA + a) len last) ws tt ws'
    /\ ring_items (nd_ring_ext_tx (w_nd ws')) = ring_items (nd_ring_ext_tx (w_nd ws)) ++ ms
    /\ runs (for_each ms tasvir_handle_msg_mem) wr tt wr'
    /\ applied oh (w_mem wr) (w_mem wr') (ld (w_mem ws)) a len
    /\ if last then complete oh (w_mem wr') else receiving oh (w_mem wr') v (b + len).
Proof.
  intros Hring Hpool b v Ht Hf Hd Ha Haa Hl Hal He Hb Hbl Hr Hp Hrc Hready Hh Ho.
  set (n := Z.to_nat (len / 1344 + 2)).
  pose proof (Z.div_mod len 1344 ltac:(lia)). pose proof (Z.mod_pos_bound len 1344 ltac:(lia)).
  assert (0 <= len / 1344) by (apply Z.div_pos; lia).
  pose proof (mem_bodies_length n (w_mem ws) a len b last ltac:(lia)) as Hnb.
  destruct (msg_mem_generate_runs ring_size Hring Hpool fuel ws d ods h oh a len last) as (ms & ws' & R1 & Hms & Hit & _);
    try eassumption; try (fold b n; lia).
  fold b v n in Hms. rewrite <- (at_mem_id wr) in Hrc.
  destruct (handle_msgs_runs d odr h oh n wr (w_mem wr) ms v b a len last (w_mem ws) Hrc) as (m1 & p & R2 & A2 & C2);
    try eassumption; try lia.
  rewrite at_mem_id in R2. exists ms, ws', (at_mem (at_pool wr p) m1). done.
Qed.

(** A message that arrives out of turn is written all the same. When the
    bytes before it are not the ones that have arrived (an earlier message of
    the version was lost), [tasvir_handle_msg_mem] marks the area as ignoring
    the rest of the version, but still stores the lines of this message in the
    writer copy and, if it is the last one, makes the area active, so that the
    readers get a version with a gap. *)
Theorem missed_message_written d od h oh w msg v b prev a len last src :
  receiver d od h oh w -> receiving oh (w_mem w) v b -> prev <> b -> piece od oh a len -> 0 <= b -> b + len < 2 ^ 64 ->
  is_mem_msg d v msg (Msg_mem (TASVIR_ADDR_DATA + a) len last prev ((fun i => src (a + 8 * i)) <$> seqZ 0 (len / 8))) ->
  exists w', runs (tasvir_handle_msg_mem msg) w tt w'
    /\ applied oh (w_mem w) (w_mem w') src a len /\ (last = true -> complete oh (w_mem w')).
Proof.
  intros Hr V Hne Hp Hb Hbl Hm. rewrite <- (at_mem_id w) in Hr.
  destruct (handle_missed_runs d od h oh w (w_mem w) msg v b prev a len last src Hr V Hne Hp Hb Hbl Hm) as (m1 & p & R & A & C).
  rewrite at_mem_id in R. by exists (at_mem (at_pool w p) m1).
Qed.
End with_dpdk.

(** ** An example *)

(** Two nodes with an area, header at 64 KiB and data at 1 MiB; on the sender
    it is at version 5 and two of its words are set. *)
Definition ext_d : Z := TASVIR_ADDR_DATA + 32768.
Definition ext_oh : Z := 65536.
Definition ext_h : Z := TASVIR_ADDR_DATA + ext_oh.
Definition ext_node (m : gmap Z Z) : @world fifo_dpdk :=
  world0 <| w_mem := <[32768 + desc_h := ext_h]> m |> <| w_tl := tls0 <| tl_thread := TASVIR_ADDR_DATA + 16384 |> |>.
Definition ext_sender : @world fifo_dpdk :=
  ext_node (<[ext_oh + hdr_version := 5]> (<[1048576 := 7]> (<[1048576 + 1400 := 8]> ∅))).
Definition ext_receiver : @world fifo_dpdk := ext_node ∅.
(** The receiver with 64 bytes of version 5. *)
Definition ext_partial : @world fifo_dpdk :=
  ext_node (<[TASVIR_SIZE_DATA + ext_oh + hdr_last_sync_ext_v := 5]>
    (<[TASVIR_SIZE_DATA + ext_oh + hdr_last_sync_ext_bytes := 64]>
      (<[TASVIR_SIZE_DATA + ext_oh + hdr_flags := TASVIR_AREA_FLAG_EXT_PENDING]> ∅))).

Lemma fifo_ring_takes : ring_takes (D := fifo_dpdk) fifo_cap.
Proof.
  intros r ms Hlen. eexists. cbn in *. unfold fifo_enqueue. rewrite decide_True by done. done.
Qed.
Lemma fifo_pool_gives : pool_gives (D := fifo_dpdk).
Proof. intros p n Hn. cbn in *. unfold pool_get. rewrite decide_True by done. by eexists. Qed.

Lemma ext_area m : area_at (ext_node m) ext_d (32768 + desc_h) ext_h ext_oh.
Proof.
  constructor; try done.
  - apply (spans_data _ (32768 + desc_h) 8 false); by vm_compute.
  - unfold ext_node. cbn [w_mem set_field]. rewrite ld_insert, Z.eqb_refl. done.
Qed.

Lemma ext_receives m : receiver ext_d (32768 + desc_h) ext_h ext_oh (ext_node m).
Proof. constructor; [apply ext_area|unfold ext_oh, desc_h; defs; lia|done|done]. Qed.

(** 22 lines take two messages. *)
Lemma ext_sync_roundtrip_witness :
  exists ms ws' wr', runs (tasvir_msg_mem_generate 1 ext_d (TASVIR_ADDR_DATA + 1048576) 1408 true) ext_sender tt ws'
    /\ runs (for_each ms tasvir_handle_msg_mem) ext_receiver tt wr'
    /\ ld (w_mem wr') (TASVIR_SIZE_DATA + 1048576) = 7 /\ ld (w_mem wr') (TASVIR_SIZE_DATA + 1048576 + 1400) = 8
    /\ complete ext_oh (w_mem wr').
Proof.
  destruct (ext_sync_roundtrip (D := fifo_dpdk) fifo_cap 1 ext_sender ext_receiver ext_d (32768 + desc_h) (32768 + desc_h) ext_h ext_oh 1048576 1408 true)
    as (ms & ws' & wr' & R1 & _ & R2 & A & C).
  - apply fifo_ring_takes.
  - apply fifo_pool_gives.
  - exists 16384. split; [|done]. apply (spans_data _ 16384 sizeof_thread false); by vm_compute.
  - lia.
  - apply ext_area.
  - lia.
  - done.
  - lia.
  - done.
  - by vm_compute.
  - by vm_compute.
  - by vm_compute.
  - by vm_compute.
  - by vm_compute.
  - apply ext_receives.
  - right. split; [by vm_compute|]. split; [by vm_compute|by vm_compute].
  - right. by vm_compute.
  - unfold desc_h. defs. lia.
  - exists ms, ws', wr'. split; [exact R1|]. split; [exact R2|]. split; [|split; [|exact C]].
    + exact (ap_words _ _ _ _ _ _ A 1048576 eq_refl ltac:(lia)).
    + exact (ap_words _ _ _ _ _ _ A (1048576 + 1400) eq_refl ltac:(lia)).
Defined.

(** 128 bytes should have come before this last message, only 64 have. *)
Definition ext_late : tasvir_msg :=
  msg0 <| m_d := ext_d |> <| m_version := 5 |>
       <| m_body := Msg_mem (TASVIR_ADDR_DATA + 1048576) 64 true 128 ((fun _ => 9) <$> seqZ 0 (64 / 8)) |>.

Lemma missed_message_written_witness :
  exists w', runs (tasvir_handle_msg_mem ext_late) ext_partial tt w'
    /\ ld (w_mem w') (TASVIR_SIZE_DATA + 1048576) = 9 /\ complete ext_oh (w_mem w').
Proof.
  destruct (missed_message_written (D := fifo_dpdk) ext_d (32768 + desc_h) ext_h ext_oh ext_partial ext_late 5 64 128 1048576 64 true (fun _ => 9))
    as (w' & R & A & C).
  - apply ext_receives.
  - constructor; by vm_compute.
  - lia.
  - constructor; try done; try (by vm_compute); unfold ext_oh, desc_h; defs; lia.
  - lia.
  - lia.
  - done.
  - exists w'. split; [exact R|]. split; [|exact (C eq_refl)].
    exact (ap_words _ _ _ _ _ _ A 1048576 eq_refl ltac:(lia)).
Defined.
