(* ===== verification/Stat.v ===== *)
(** * Stat: statistics (src/stat.c)

    The daemon accumulates counters in [stats_cur] and folds them into
    [stats] once per interval; clients ask it to do so, or to reset them, by
    setting a flag and waiting until the daemon clears it. The line of text
    [tasvir_stats_update] logs is not modelled. *)
From stdpp Require Import base gmap list numbers.
From Stdlib Require Import ZArith Lia.
From S2P Require Import Prelude Defs Types Fifo.

(** [avg += cur], field by field: the sent bytes and packets are added from
    the received ones. *)
Definition stats_add (avg cur : tasvir_stats) : tasvir_stats :=
  mk_stats
    (u64 (isync_success avg + isync_success cur))
    (u64 (isync_failure avg + isync_failure cur))
    (u64 (isync_barrier_us avg + isync_barrier_us cur))
    (u64 (isync_us avg + isync_us cur))
    (u64 (isync_changed_bytes avg + isync_changed_bytes cur))
    (u64 (isync_processed_bytes avg + isync_processed_bytes cur))
    (u64 (esync_cnt avg + esync_cnt cur))
    (u64 (esync_us avg + esync_us cur))
    (u64 (esync_changed_bytes avg + esync_changed_bytes cur))
    (u64 (esync_processed_bytes avg + esync_processed_bytes cur))
    (u64 (rx_bytes avg + rx_bytes cur))
    (u64 (tx_bytes avg + rx_bytes cur))
    (u64 (rx_pkts avg + rx_pkts cur))
    (u64 (tx_pkts avg + rx_pkts cur)).

Section with_dpdk.
Context `{D : Dpdk}.

(** What the other threads do until this thread's next access. *)
Context (env : cmd world unit).

(** [while (flag) _mm_pause()] *)
Fixpoint wait_flag (fuel : nat) (flag : tasvir_local_ndata -> bool) : cmd world unit :=
  match fuel with
  | O => fail NoFuel
  | S fuel' => env;; b ← ndata flag; if (b : bool) then wait_flag fuel' flag else mret tt
  end.

Definition tasvir_stats_get (fuel : nat) : cmd world tasvir_stats :=
  mod_nd (fun nd => nd <| nd_stat_update_req := true |>);;
  wait_flag fuel nd_stat_update_req;;
  ndata nd_stats.

Definition tasvir_stats_reset (fuel : nat) : cmd world unit :=
  daemon ← ttld tl_daemon;
  if (daemon : bool) then
    mod_nd (fun nd => nd <| nd_stats := stats_zero |> <| nd_stats_cur := stats_zero |>
      <| nd_last_stat := nd_time_us nd |>
      <| nd_last_sync_int_start := nd_time_us nd |> <| nd_last_sync_ext_start := nd_time_us nd |>
      <| nd_last_sync_int_end := nd_time_us nd |> <| nd_last_sync_ext_end := nd_time_us nd |>
      <| nd_stat_reset_req := false |>)
  else
    mod_nd (fun nd => nd <| nd_stat_reset_req := true |>);;
    wait_flag fuel nd_stat_reset_req.

Definition tasvir_stats_update : cmd world unit :=
  now ← ndata nd_time_us;
  last ← ndata nd_last_stat;
  if u64 (now - last) =? 0 then mret tt
  else
    mod_nd (fun nd => nd <| nd_last_stat := now |>
      <| nd_stats := stats_add (nd_stats nd) (nd_stats_cur nd) |>
      <| nd_stats_cur := stats_zero |> <| nd_stat_update_req := false |>).

End with_dpdk.

(** The accumulated statistics count the sent messages wrongly: after an
    update, the total of sent bytes (packets) has grown by the number of
    received bytes (packets) of the interval, whatever was sent. *)
Theorem stats_update_counts_rx_as_tx `{D : Dpdk} (w : world) :
  u64 (nd_time_us (w_nd w) - nd_last_stat (w_nd w)) <> 0 ->
  exists w', tasvir_stats_update w = Done (tt, w') /\
    tx_bytes (nd_stats (w_nd w')) = u64 (tx_bytes (nd_stats (w_nd w)) + rx_bytes (nd_stats_cur (w_nd w))) /\
    tx_pkts (nd_stats (w_nd w')) = u64 (tx_pkts (nd_stats (w_nd w)) + rx_pkts (nd_stats_cur (w_nd w))) /\
    nd_stats_cur (w_nd w') = stats_zero.
Proof.
  intros H. unfold tasvir_stats_update, mbind, cmd_bind, ndata, gets.
  rewrite (proj2 (Z.eqb_neq _ _)) by done. eexists. split; [reflexivity|done].
Qed.

Lemma stats_update_counts_rx_as_tx_witness :
  exists w' : @world fifo_dpdk,
    tasvir_stats_update (world0 <| w_nd := ndata0 <| nd_time_us := 10 |>
      <| nd_stats_cur := stats_zero <| rx_bytes := 7 |> <| tx_bytes := 500 |> |> |>) = Done (tt, w') /\
    tx_bytes (nd_stats (w_nd w')) = 7.
Proof.
  destruct (@stats_update_counts_rx_as_tx fifo_dpdk (world0 <| w_nd := ndata0 <| nd_time_us := 10 |>
    <| nd_stats_cur := stats_zero <| rx_bytes := 7 |> <| tx_bytes := 500 |> |> |>)) as (w' & E & H & _).
  - discriminate.
  - exists w'. split; [exact E|exact H].
Defined.
