(* ===== verification/Init.v ===== *)
(** * Init: boot of a daemon or client thread (src/init.c, src/dpdk.c)

    [tasvir_init] maps the shared memory, creates or attaches to the root and
    node areas, obtains a slot in the node's thread table and announces the
    thread as running. What the operating system, DPDK's device set-up and
    the environment variables answer is the record [boot]. A file mapping
    does not change the contents of memory; the pool and rings of the
    node-local data cannot be NULL in the model, so the fields a failing
    [tasvir_init_local] would leave NULL keep their previous value. *)
From stdpp Require Import base gmap list numbers.
From Stdlib Require Import ZArith Lia.
From S2P Require Import Prelude Defs Types Mem Log Net Sync Calls Area Rpc SyncExternal.

(** TASVIR_MBUF_POOL_SIZE *)
Definition TASVIR_MBUF_POOL_SIZE : Z := Z.shiftl 2 17 - 1.

(** ** C strings *)

Definition hex_digit (n : Z) : Z := if n <? 10 then 48 + n else 87 + n.

(** [ether_ntoa_r]: six hexadecimal bytes without leading zeros, separated by
    colons; the first byte of the address is the low byte of the integer. *)
Definition hex_byte (b : Z) : list Z :=
  if b <? 16 then [hex_digit b] else [hex_digit (b / 16); hex_digit (b mod 16)].
Fixpoint ether_ntoa (n : nat) (mac : Z) : list Z :=
  match n with
  | O => []
  | S O => hex_byte (u8 mac)
  | S n' => hex_byte (u8 mac) ++ [58] ++ ether_ntoa n' (Z.shiftr mac 8)
  end.

(** A string as the words of a [tasvir_str]. *)
Fixpoint word_of_bytes (bs : list Z) : Z :=
  match bs with [] => 0 | b :: bs' => Z.lor b (Z.shiftl (word_of_bytes bs') 8) end.
Definition str_words (s : list Z) : list Z :=
  let s := s ++ replicate 32 0 in
  [word_of_bytes (take 8 s); word_of_bytes (take 8 (drop 8 s));
   word_of_bytes (take 8 (drop 16 s)); word_of_bytes (take 8 (drop 24 s))].

(** "node-" followed by the address *)
Definition node_name (mac : Z) : list Z := [110; 111; 100; 101; 45] ++ ether_ntoa 6 mac.

Section with_dpdk.
Context `{D : Dpdk, !Calls}.

(** ** Environment of the boot *)

Record boot := mk_boot {
  (** TASVIR_CORE is set, to a number; [rte_eal_init] succeeds *)
  bo_core : bool;
  bo_eal : bool;
  (** [shm_open], [ftruncate], the two [mmap]s *)
  bo_shm : bool;
  bo_trunc : bool;
  bo_map : bool;
  bo_map_ro : bool;
  (** TASVIR_IS_ROOT is "1" *)
  bo_is_root : bool;
  (** [rte_pktmbuf_pool_create] *)
  bo_pool : Z -> option pool;
  (** TASVIR_PCIADDR is set; [rte_eth_dev_count_avail];
      [rte_eth_dev_get_port_by_name] and the port; its MAC address; the four
      set-up calls that can fail *)
  bo_pciaddr : bool;
  bo_nb_ports : Z;
  bo_port : option nic;
  bo_mac : Z;
  bo_configure : bool;
  bo_rxq : bool;
  bo_txq : bool;
  bo_start : bool;
  (** [getpid()] *)
  bo_pid : Z;
}.

(** ** DPDK (src/dpdk.c) *)

Definition tasvir_init_dpdk (b : boot) : cmd world Z :=
  mret (if bo_core b && bo_eal b then 0 else -1).

(** The link state, statistics and promiscuous mode do not matter to the
    model; the wait for the link takes at most three seconds. *)
Definition tasvir_init_port (b : boot) : cmd world Z :=
  if negb (bo_pciaddr b) then mret 0
  else if bo_nb_ports b =? 0 then mret (-1)
  else match bo_port b with
  | None => mret (-1)
  | Some port =>
      mod_nd (fun nd => nd <| nd_port := port |> <| nd_mac_addr := bo_mac b |>
        <| nd_boot_tid := mk_tid (bo_mac b) (tid_idx (nd_boot_tid nd)) (tid_pid (nd_boot_tid nd)) |>);;
      mret (if bo_configure b && bo_rxq b && bo_txq b && bo_start b then 0 else -1)
  end.

(** ** Local data *)

(** The multicast addresses 01:00:5e:0x:0f:ff. *)
Definition mcast (x : Z) : Z := word_of_bytes [1; 0; 94; x; 15; 255].

(** The daemon's part of tasvir_init_local. When it sets the boot time,
    [ttld.tsc2usec_mult] is still zero, so tasvir_time_us returns zero. *)
Definition init_local_daemon (b : boot) : cmd world Z :=
  when (bo_is_root b) (mod_tl (fun t => t <| tl_is_root := true |>));;
  match bo_pool b TASVIR_MBUF_POOL_SIZE, rte_ring_create TASVIR_RING_EXT_SIZE, rte_ring_create TASVIR_RING_EXT_SIZE with
  | Some mp, Some ext_tx, Some pending =>
      rdtsc;;
      mod_nd (fun nd => {|
        nd_boot_us := 0; nd_time_us := 0;
        nd_sync_int_us := TASVIR_SYNC_INTERNAL_US; nd_sync_ext_us := TASVIR_SYNC_EXTERNAL_US;
        nd_mp := mp; nd_barrier_end_tsc := 0; nd_barrier_cnt := 2 ^ 64 - 1; nd_barrier_seq := 1;
        nd_ring_ext_tx := ext_tx; nd_ring_mem_pending := pending; nd_mac_addr := 0; nd_port := nd_port nd;
        nd_boot_tid := mk_tid (mcast 0) 65535 (-1);
        nd_memcast_tid := mk_tid (mcast 1) 65535 (-1);
        nd_rpccast_tid := mk_tid (mcast 2) 65535 (-1);
        nd_last_stat := 0; nd_last_sync_int_start := 0; nd_last_sync_int_end := 0;
        nd_last_sync_ext_start := 0; nd_last_sync_ext_end := 0;
        nd_stats_cur := stats_zero; nd_stats := stats_zero;
        nd_job_bytes := 0; nd_nr_jobs := 0; nd_jobs := ∅;
        nd_node_init_req := false; nd_sync_req := false;
        nd_stat_reset_req := false; nd_stat_update_req := false;
        nd_tdata := replicate (Z.to_nat TASVIR_NR_THREADS_LOCAL) tdata_zero |});;
      mret 0
  | _, _, _ => mret (-1)
  end.

(** What the other threads do until this thread's next access. *)
Context (env : cmd world unit).

(** A client waits for the daemon: [do ... while (__rdtsc() < end_tsc)]. *)
Fixpoint wait_daemon (fuel : nat) (end_tsc : Z) : cmd world Z :=
  match fuel with
  | O => fail NoFuel
  | S fuel' =>
      env;;
      s ← tdata td_state;
      if bool_decide (s = TASVIR_THREAD_STATE_RUNNING) then mret 0
      else t ← rdtsc; if t <? end_tsc then wait_daemon fuel' end_tsc else mret (-1)
  end.

Definition tasvir_init_local (fuel : nat) (b : boot) : cmd world Z :=
  if negb (bo_shm b && bo_trunc b && bo_map b && bo_map_ro b) then mret (-1)
  else
    mod_tl (fun t => t <| tl_tdata := TASVIR_THREAD_DAEMON_IDX |>);;
    daemon ← ttld tl_daemon;
    if (daemon : bool) then init_local_daemon b
    else t ← rdtsc; wait_daemon fuel (u64 (t + 10 ^ 10)).

(** ** The root area *)

(** The descriptor of the root; [strcpy] writes the slash and its NUL. *)
Definition init_root_desc (root : Z) : cmd world unit :=
  store (root + desc_pd) 0;;
  store (root + desc_owner) 0;;
  store (root + desc_h) (TASVIR_ALIGN (root + sizeof_desc));;
  store (root + desc_offset_log_end) (TASVIR_ALIGN (sizeof_header + TASVIR_NR_AREAS * sizeof_desc));;
  t ← load (root + desc_type);
  store (root + desc_type) (low_bits 32 (area_type_code TASVIR_AREA_TYPE_CONTAINER) t);;
  n ← load (root + desc_name);
  store (root + desc_name) (low_bits 16 slash n);;
  store (root + desc_len) (TASVIR_SIZE_DATA - GB);;
  store (root + desc_nr_areas_max) TASVIR_NR_AREAS.

(** [*d], a descriptor passed by value. *)
Definition load_desc (d : Z) : cmd world area_desc :=
  ws ← load_words 14 d;
  let a := desc_of_words ws in mret (a <| ad_type := lo32 (ad_type a) |>).

Definition tasvir_init_root (fuel : nat) : cmd world Z :=
  let root := TASVIR_ADDR_DATA in
  mod_tl (fun t => t <| tl_root_desc := root |>);;
  daemon ← ttld tl_daemon;
  when daemon (init_root_desc root);;
  is_root ← ttld tl_is_root;
  d_ret ← (if (is_root : bool) then desc ← load_desc root; d ← tasvir_new fuel desc; mret (Some d)
           else tasvir_attach_wait fuel (15 * S2US) [slash]);
  match d_ret with
  | None => fail Segv
  | Some d =>
      if d =? 0 then mret (-1)
      else h ← load (d + desc_h); mret (if (h =? 0) || negb (d =? root) then -1 else 0)
  end.

(** ** The node area *)

(** The daemon creates it. *)
Definition init_node_daemon (fuel : nat) (name : list Z) : cmd world Z :=
  root ← ttld tl_root_desc;
  nd ← tasvir_new fuel (mk_desc root 0 0 sizeof_node 0 0 (str_words name) 0 0 0
                          (area_type_code TASVIR_AREA_TYPE_NODE));
  mod_tl (fun t => t <| tl_node_desc := nd |>);;
  if nd =? 0 then mret (-1)
  else
    node ← tasvir_data nd;
    mod_tl (fun t => t <| tl_node := node |>);;
    store_words node (replicate (Z.to_nat (sizeof_node / 8)) 0);;
    mac ← ndata nd_mac_addr;
    store (node + node_nid) mac;;
    store (node + node_heartbeat_us) TASVIR_HEARTBEAT_US;;
    tasvir_log node sizeof_node;;
    mret 0.

(** A client attaches to it and checks that the daemon is alive. *)
Definition init_node_client (fuel : nat) (name : list Z) : cmd world Z :=
  nd ← tasvir_attach_wait fuel (500 * MS2US) name;
  match nd with
  | None => fail Segv
  | Some nd =>
      mod_tl (fun t => t <| tl_node_desc := nd |>);;
      if nd =? 0 then mret (-1)
      else
        h ← load (nd + desc_h);
        hd ← load (h + hdr_d);
        if hd =? 0 then mret (-1)
        else
          node ← tasvir_data nd;
          mod_tl (fun t => t <| tl_node := node |>);;
          now ← tasvir_time_us;
          if h =? 0 then mret (-1)
          else
            last ← ndata nd_time_us;
            us ← load (nd + desc_sync_int_us);
            mret (if us <? u64 (now - last) then -1 else 0)
  end.

Definition tasvir_init_node (fuel : nat) : cmd world Z :=
  mac ← ndata nd_mac_addr;
  daemon ← ttld tl_daemon;
  if (daemon : bool) then init_node_daemon fuel (node_name mac) else init_node_client fuel (node_name mac).

(** ** Threads *)

(** The first slot that is neither running nor booting. *)
Fixpoint free_thread (n : nat) (idx : Z) : cmd world Z :=
  match n with
  | O => mret idx
  | S n' =>
      s ← ndata (fun nd => td_state (nd_td nd idx));
      if bool_decide (s = TASVIR_THREAD_STATE_RUNNING) || bool_decide (s = TASVIR_THREAD_STATE_BOOTING)
      then free_thread n' (idx + 1) else mret idx
  end.

(** The daemon's entry for thread [idx] in the node area. *)
Definition init_thread_entry (t idx pid : Z) : cmd world unit :=
  node ← ttld tl_node;
  nid ← load (node + node_nid);
  store (t + thr_time_us) 0;;
  store (t + thr_nid_idx) (Z.lor (Z.land nid (2 ^ 48 - 1)) (Z.shiftl idx 48));;
  store (t + thr_pid_state) (set_hi32 (u32 pid) (thread_state_code TASVIR_THREAD_STATE_BOOTING));;
  tasvir_log t sizeof_thread.

(** The address of the thread's entry, 0 for NULL. *)
Definition tasvir_init_thread (fuel : nat) (pid : Z) : cmd world Z :=
  daemon ← ttld tl_daemon;
  if (daemon : bool) then
    idx ← free_thread (Z.to_nat TASVIR_NR_THREADS_LOCAL) 0;
    if idx =? TASVIR_NR_THREADS_LOCAL then mret 0
    else
      node ← ttld tl_node;
      let t := node + node_thread idx in
      init_thread_entry t idx pid;;
      let tx := rte_ring_create TASVIR_RING_SIZE in
      let rx := rte_ring_create TASVIR_RING_SIZE in
      mod_td_at idx (fun _ => tdata_zero <| td_state := TASVIR_THREAD_STATE_BOOTING |>
                                         <| td_ring_tx := tx |> <| td_ring_rx := rx |>);;
      mret (match tx, rx with Some _, Some _ => t | _, _ => 0 end)
  else
    node_desc ← ttld tl_node_desc;
    r ← tasvir_rpc_wait S2US node_desc fn_init_thread [[pid]];
    mret (match r with Some ws => default 0 (ws !! 0%nat) | None => 0 end).

(** Run [c]; on a non-zero result return -1, else go on with [k]. *)
Definition check0 (c : cmd world Z) (k : cmd world Z) : cmd world Z :=
  r ← c; if r =? 0 then k else mret (-1).

(** The daemon thread takes over its areas and subscribes to them. *)
Definition finish_owner (fuel : nat) : cmd world Z :=
  is_root ← ttld tl_is_root;
  me ← ttld tl_thread;
  root ← ttld tl_root_desc;
  node_desc ← ttld tl_node_desc;
  node ← ttld tl_node;
  check0 (if (is_root : bool) then tasvir_update_owner fuel root me else mret 0)
  (check0 (tasvir_update_owner fuel node_desc me)
  (check0 (tasvir_area_add_user_wait fuel (100 * MS2US) root node (-1))
          (tasvir_area_add_user_wait fuel (100 * MS2US) node_desc node (-1)))).

(** The part of tasvir_init_finish that changes the thread's state. *)
Definition finish_state (fuel : nat) (t idx : Z) : cmd world Z :=
  daemon ← ttld tl_daemon;
  me ← ttld tl_thread;
  if (daemon : bool) then
    check0 (if t =? me then finish_owner fuel else mret 0)
      (tasvir_log (t + thr_pid_state + 4) 4;;
       b ← load (t + thr_pid_state);
       store (t + thr_pid_state) (set_hi32 b (thread_state_code TASVIR_THREAD_STATE_RUNNING));;
       mod_td_at idx (fun td => td <| td_state := TASVIR_THREAD_STATE_RUNNING |>
                                   <| td_state_req := TASVIR_THREAD_STATE_RUNNING |>);;
       mret 0)
  else
    node_desc ← ttld tl_node_desc;
    r ← tasvir_rpc_wait S2US node_desc fn_init_finish [[t]];
    mret (match r with
          | Some ws => if i32 (default 0 (ws !! 0%nat)) =? 0 then 0 else -1
          | None => -1
          end).

Definition tasvir_init_finish (fuel : nat) (t : Z) : cmd world Z :=
  tid ← load_tid t;
  s ← ndata (fun nd => td_state (nd_td nd (tid_idx tid)));
  if negb (bool_decide (s = TASVIR_THREAD_STATE_BOOTING)) then mret (-1)
  else
    me ← ttld tl_thread;
    node ← ttld tl_node;
    assert_w (negb (me =? 0) && negb (node =? 0));;
    check0 (finish_state fuel t (tid_idx tid))
      (running ← tasvir_is_running;
       if (t =? me) && negb running then mret (-1)
       else
         daemon ← ttld tl_daemon;
         node_desc ← ttld tl_node_desc;
         when daemon (tasvir_sync_external_area fuel node_desc;; mret tt);;
         mret 0).

(** ** tasvir_init *)

(** The thread's slot and its announcement; 0 is NULL. *)
Definition init_thread_finish (fuel : nat) (b : boot) : cmd world Z :=
  t ← tasvir_init_thread fuel (bo_pid b);
  mod_tl (fun tl => tl <| tl_thread := t |>);;
  if t =? 0 then mret (-1)
  else
    tid ← load_tid t;
    mod_tl (fun tl => tl <| tl_tdata := tid_idx tid |>);;
    tasvir_init_finish fuel t.

Definition tasvir_init (fuel : nat) (b : boot) : cmd world Z :=
  node ← ttld tl_node;
  thread ← ttld tl_thread;
  if negb (node =? 0) || negb (thread =? 0) then ttld tl_root_desc
  else
    tasvir_init_rpc;;
    daemon ← ttld tl_daemon;
    r ← check0 (tasvir_init_dpdk b)
       (check0 (tasvir_init_local fuel b)
       (check0 (if (daemon : bool) then tasvir_init_port b else mret 0)
       (check0 (tasvir_init_root fuel)
       (check0 (tasvir_init_node fuel)
               (init_thread_finish fuel b)))));
    if r =? 0 then ttld tl_root_desc else mret 0.

End with_dpdk.
