(* ===== verification/Service.v ===== *)
(** * Service: the service loop (src/service.c)

    [tasvir_service] is what every thread calls all the time: it delivers
    messages from the rings and, in the daemon, from the network card,
    schedules and joins internal syncs, starts external syncs and updates the
    statistics. Here the cycle of calls between the components is closed:
    [lib_calls n] is the library with calls nested at most [n] deep, each
    level built from the previous one. *)
From stdpp Require Import base gmap list numbers.
From Stdlib Require Import ZArith Lia.
From S2P Require Import Prelude Defs Types Mem Log Net Sync Calls Area SyncInternal Rpc SyncExternal Stat Init.

Section with_dpdk.
Context `{D : Dpdk}.

Section with_calls.
Context `{!Calls}.
(** What the other threads do, and what a registered function does. *)
Context (env : cmd world unit) (exec : Z -> list (list Z) -> cmd world (list Z)).

(** ** Messages *)

(** One message from the card: only Tasvir's Ethernet type, and only the
    memory and RPC multicast addresses or this node's own. *)
Definition port_rx_msg (m : tasvir_msg) : cmd world unit :=
  mac ← ndata nd_mac_addr;
  memcast ← ndata nd_memcast_tid;
  rpccast ← ndata nd_rpccast_tid;
  if m_ether_type m =? TASVIR_ETH_PROTO then
    mod_stats (fun s => s <| rx_bytes := u64 (rx_bytes s + m_pkt_len m) |>
                          <| rx_pkts := u64 (rx_pkts s + 1) |>);;
    if m_ether_dhost m =? tid_nid memcast then tasvir_handle_msg_mem m
    else if (m_ether_dhost m =? mac) || (m_ether_dhost m =? tid_nid rpccast)
    then tasvir_handle_msg_rpc exec m TASVIR_MSG_SRC_NET;; mret tt
    else pool_put1
  else pool_put1.

(** [while ((retval = rte_eth_rx_burst(...)) > 0)] *)
Fixpoint tasvir_service_port_rx (fuel : nat) : cmd world unit :=
  match fuel with
  | O => fail NoFuel
  | S fuel' =>
      p ← ndata nd_port;
      let '(ms, p') := rte_eth_rx_burst p (Z.to_nat TASVIR_PKT_BURST) in
      mod_nd (fun nd => nd <| nd_port := p' |>);;
      match ms with
      | [] => mret tt
      | _ => for_each ms port_rx_msg;; tasvir_service_port_rx fuel'
      end
  end.

(** A ring of the node: read it, write it back. A NULL ring faults. *)
Record ring_ref := mk_ring_ref {
  rr_get : tasvir_local_ndata -> option ring;
  rr_set : ring -> tasvir_local_ndata -> tasvir_local_ndata;
}.
Definition ring_tx_of (i : Z) : ring_ref :=
  mk_ring_ref (fun nd => td_ring_tx (nd_td nd i))
    (fun r nd => nd_set_td i ((nd_td nd i) <| td_ring_tx := Some r |>) nd).
Definition ring_rx_of (i : Z) : ring_ref :=
  mk_ring_ref (fun nd => td_ring_rx (nd_td nd i))
    (fun r nd => nd_set_td i ((nd_td nd i) <| td_ring_rx := Some r |>) nd).
Definition ring_pending : ring_ref :=
  mk_ring_ref (fun nd => Some (nd_ring_mem_pending nd)) (fun r nd => nd <| nd_ring_mem_pending := r |>).

(** One message from a ring. *)
Definition ring_msg (rpc : bool) (m : tasvir_msg) : cmd world unit :=
  if rpc then tasvir_handle_msg_rpc exec m TASVIR_MSG_SRC_LOCAL;; mret tt
  else daemon ← ttld tl_daemon; when daemon (tasvir_handle_msg_mem m).

(** [while ((count = rte_ring_sc_dequeue_burst(...)) > 0)] *)
Fixpoint tasvir_service_ring (fuel : nat) (rr : ring_ref) (rpc : bool) : cmd world unit :=
  match fuel with
  | O => fail NoFuel
  | S fuel' =>
      r ← ndata (rr_get rr);
      match r with
      | None => fail Segv
      | Some r =>
          let '(ms, r') := rte_ring_sc_dequeue_burst r (Z.to_nat TASVIR_PKT_BURST) in
          mod_nd (rr_set rr r');;
          match ms with
          | [] => mret tt
          | _ => for_each ms (ring_msg rpc);; tasvir_service_ring fuel' rr rpc
          end
      end
  end.

(** The ring of a thread that runs or boots. *)
Definition service_thread_ring (fuel : nat) (tid : Z) : cmd world unit :=
  s ← ndata (fun nd => td_state (nd_td nd tid));
  when (bool_decide (s = TASVIR_THREAD_STATE_RUNNING) || bool_decide (s = TASVIR_THREAD_STATE_BOOTING))
    (tasvir_service_ring fuel (ring_tx_of tid) true).

Definition tasvir_service_io (fuel : nat) : cmd world unit :=
  daemon ← ttld tl_daemon;
  if (daemon : bool) then
    node ← ttld tl_node;
    when (negb (node =? 0)) (for_each (seqZ 0 TASVIR_NR_THREADS_LOCAL) (service_thread_ring fuel));;
    is_root ← ttld tl_is_root;
    running ← tasvir_is_running;
    when (negb is_root || running) (tasvir_service_port_rx fuel;; tasvir_service_port_tx fuel)
  else i ← ttld tl_tdata; tasvir_service_ring fuel (ring_rx_of i) true.

(** ** New nodes *)

(** [for (size_t i = 0; --nr_areas > 0 && i < nr_areas_max; i++)]: the counter
    is decremented before it is tested, and wraps below zero. *)
Fixpoint nodes_loop (n fuel : nat) (root c nr_areas i : Z) : cmd world unit :=
  match n with
  | O => fail NoFuel
  | S n' =>
      let nr := u64 (nr_areas - 1) in
      max ← load (root + desc_nr_areas_max);
      if (0 <? nr) && (i <? max) then
        ty ← area_type (child c i);
        when (ty =? area_type_code TASVIR_AREA_TYPE_NODE)
          (name ← load_name (child c i); tasvir_attach_wait fuel (100 * MS2US) name;; mret tt);;
        nodes_loop n' fuel root c nr (i + 1)
      else mret tt
  end.

Definition tasvir_service_nodes (fuel : nat) : cmd world unit :=
  root ← ttld tl_root_desc;
  h ← load (root + desc_h);
  v ← load (h + hdr_version);
  v_prev ← ttld tl_v_prev;
  if v =? v_prev then mret tt
  else
    mod_tl (fun t => t <| tl_v_prev := v |>);;
    c ← tasvir_data root;
    nr ← load (h + hdr_nr_areas);
    nodes_loop fuel fuel root c nr 0.

(** ** The loop body *)

(** What a running daemon does before it looks at the sync sequence. *)
Definition service_daemon_pre (fuel : nat) : cmd world unit :=
  reset ← ndata nd_stat_reset_req;
  when reset (tasvir_stats_reset env fuel);;
  tasvir_service_nodes fuel;;
  req ← ndata nd_sync_req;
  now ← ndata nd_time_us; e ← ndata nd_last_sync_int_end; us ← ndata nd_sync_int_us;
  when (req || (us <=? u64 (now - e))) (tasvir_sched_sync_internal fuel).

(** What a daemon does in a round without internal sync. *)
Definition service_daemon_post (fuel : nat) : cmd world unit :=
  now ← ndata nd_time_us; e ← ndata nd_last_sync_ext_end; us ← ndata nd_sync_ext_us;
  when (us <=? u64 (now - e)) (tasvir_sync_external fuel;; mret tt);;
  req ← ndata nd_stat_update_req;
  now ← ndata nd_time_us; last ← ndata nd_last_stat;
  when (req || (TASVIR_STAT_US <=? u64 (now - last))) tasvir_stats_update.

Definition service (fuel : nat) : cmd world Z :=
  now ← tasvir_time_us;
  mod_td (fun t => t <| td_time_us := now |>);;
  tasvir_service_io fuel;;
  daemon ← ttld tl_daemon;
  when daemon (now ← tdata td_time_us; mod_nd (fun nd => nd <| nd_time_us := now |>));;
  running ← tasvir_is_running;
  if negb running then mret (-1)
  else
    when daemon (service_daemon_pre fuel);;
    next ← tdata td_next_sync_seq;
    prev ← tdata td_prev_sync_seq;
    if negb (next =? prev) then
      r ← tasvir_sync_internal env fuel;
      when (daemon && (r =? 0))%bool (tasvir_service_ring fuel ring_pending false);;
      mret r
    else
      when daemon (service_daemon_post fuel);;
      mret (-1).

(** [while (__rdtsc() < end_tsc && (retval = tasvir_service()))] *)
Definition service_wait (fuel : nat) (timeout_us : Z) (sync_req : bool) : cmd world Z :=
  when sync_req (mod_nd (fun nd => nd <| nd_sync_req := true |>));;
  end_tsc ← deadline timeout_us;
  r ← poll fuel end_tsc (Some (-1)) (service fuel) (fun r => r =? 0) (mret tt);
  mret (default (-1) r).

(** ** The functions of the library that can be called remotely *)

(** The stubs TASVIR_RPCFN_DEFINE makes: each argument is read at its type. *)
Definition lib_exec (fuel : nat) (fnptr : Z) (args : list (list Z)) : cmd world (list Z) :=
  let arg i := default [] (args !! i) in
  let word i := default 0 (arg i !! 0%nat) in
  r ← (if fnptr =? fn_init_thread then tasvir_init_thread fuel (i32 (word 0%nat))
       else if fnptr =? fn_new_alloc_desc then
         let a := desc_of_words (arg 0%nat) in
         tasvir_new_alloc_desc fuel (a <| ad_type := lo32 (ad_type a) |>)
       else if fnptr =? fn_delete then tasvir_delete (word 0%nat)
       else if fnptr =? fn_init_finish then tasvir_init_finish fuel (word 0%nat)
       else if fnptr =? fn_update_owner then tasvir_update_owner fuel (word 0%nat) (word 1%nat)
       else if fnptr =? fn_area_add_user then
         tasvir_area_add_user fuel (word 0%nat) (word 1%nat) (i32 (word 2%nat))
       else fail Segv);
  mret [r].

End with_calls.

(** ** Closing the cycle *)

(** What the other threads do, and the application's own functions. *)
Context (env : cmd world unit) (app_exec : Z -> list (list Z) -> cmd world (list Z)).

(** A registered function: of the library (addresses 1 to 6) or of the
    application. *)
Definition exec_at (C : Calls) (fuel : nat) (fnptr : Z) (args : list (list Z)) : cmd world (list Z) :=
  if (1 <=? fnptr) && (fnptr <=? 6) then lib_exec fuel fnptr args else app_exec fnptr args.

(** The library with calls nested at most [n] deep. *)
Fixpoint lib_calls (n fuel : nat) : Calls :=
  match n with
  | O => {| tasvir_service := fail NoFuel;
            tasvir_rpc _ _ _ := fail NoFuel;
            tasvir_rpc_wait _ _ _ _ := fail NoFuel |}
  | S n' =>
      let C := lib_calls n' fuel in
      {| tasvir_service := service env (exec_at C fuel) fuel;
         tasvir_rpc := rpc (exec_at C fuel);
         tasvir_rpc_wait := rpc_wait (exec_at C fuel) fuel |}
  end.

(** [tasvir_service()] and [tasvir_service_wait()] of the closed library. *)
Definition lib_service (n fuel : nat) : cmd world Z :=
  @service (lib_calls n fuel) env (exec_at (lib_calls n fuel) fuel) fuel.
Definition tasvir_service_wait (n fuel : nat) (timeout_us : Z) (sync_req : bool) : cmd world Z :=
  @service_wait (lib_calls n fuel) env (exec_at (lib_calls n fuel) fuel) fuel timeout_us sync_req.

(** The daemon (src/daemon.c): boot, then serve; [rounds] turns of the
    endless loop. *)
Definition daemon_main (n fuel rounds : nat) (b : boot) : cmd world Z :=
  root ← @tasvir_init _ (lib_calls n fuel) env fuel b;
  if root =? 0 then mret (-1)
  else for_each (seqZ 0 (Z.of_nat rounds)) (fun _ => lib_service n fuel;; mret tt);; mret 0.

End with_dpdk.
