(* ===== verification/RpcReturn.v ===== *)
(** * RpcReturn: the way of an answer through the rings

    The owner of an area executes a request and sends the response
    ([tasvir_handle_msg_rpc_request]); if the owner is a client, the daemon
    takes the response from the owner's ring and passes it on; the caller takes
    it from its own ring ([tasvir_service_io]) into the slot of its status
    table. The node's data, with the rings, are shared: each thread starts from
    the [w_nd] the one before it left. *)
From stdpp Require Import base gmap list numbers.
From Stdlib Require Import ZArith Lia.
From S2P Require Import Prelude Defs Types Fifo Mem Log Net Sync SyncCopy Calls Area AreaProofs Rpc RpcProofs Init Service.

Section with_dpdk.
Context `{D : Dpdk, !DpdkSpec D} (exec : Z -> list (list Z) -> cmd world (list Z)).

(** A ring with nothing in it. *)
Definition idle (q : option ring) : Prop := exists r, q = Some r /\ ring_items r = [] /\ has_room r.

Lemma nd_td_set_ne (nd : tasvir_local_ndata) i j t : 0 <= i -> 0 <= j -> i <> j -> nd_td (nd_set_td i t nd) j = nd_td nd j.
Proof. intros Hi Hj Hne. unfold nd_td, nd_set_td. cbn. rewrite list_lookup_insert_ne; [done|lia]. Qed.

Lemma w_nd_set (w : world) nd : w_nd (w <| w_nd := nd |>) = nd.
Proof. reflexivity. Qed.

Lemma nd_set_td_length (nd : tasvir_local_ndata) i t : length (nd_tdata (nd_set_td i t nd)) = length (nd_tdata nd).
Proof. unfold nd_set_td. cbn. apply length_insert. Qed.

(** Setting the sending ring of one thread does not touch the receiving ring of any. *)
Lemma rx_after_tx (nd : tasvir_local_ndata) i j r :
  0 <= i -> 0 <= j -> (Z.to_nat i < length (nd_tdata nd))%nat ->
  td_ring_rx (nd_td (nd_set_td i ((nd_td nd i) <| td_ring_tx := r |>) nd) j) = td_ring_rx (nd_td nd j).
Proof.
  intros Hi Hj Hl. destruct (decide (i = j)) as [->|Hne]; [by rewrite nd_td_set|by rewrite nd_td_set_ne].
Qed.

Lemma my_tid_runs w t tid st : tl_thread (w_tl w) = t -> t <> 0 -> thread_at w t tid st -> my_tid w = Done (tid, w).
Proof.
  intros Ht Ht0 Hth. unfold my_tid, mbind, cmd_bind, ttld, gets. rewrite Ht, (proj2 (Z.eqb_neq _ _)) by done. by eapply load_tid_runs.
Qed.

(** ** A response that is not for this thread *)

Section passing.
Context (w : world) (m : tasvir_msg) (src : tasvir_msg_src) (t : Z) (tid : tasvir_tid) (st : Z).
Hypothesis Hm : m_type m = TASVIR_MSG_TYPE_RPC_RESPONSE.
Hypothesis Ht : tl_thread (w_tl w) = t.
Hypothesis Ht0 : t <> 0.
Hypothesis Hth : thread_at w t tid st.
Hypothesis Hdst : m_dst_tid m <> tid.
Hypothesis Hnid : tid_nid (m_dst_tid m) = tid_nid (nd_boot_tid (w_nd w)).

Lemma response_dest : rpc_dest m w = Done (Some (true, false), w).
Proof.
  unfold rpc_dest. rewrite Hm. unfold mbind, cmd_bind, ndata, gets. rewrite Hnid, Z.eqb_refl.
  rewrite (my_tid_runs w t tid st Ht Ht0 Hth). unfold mret, cmd_ret. by rewrite bool_decide_false.
Qed.

(** The daemon puts it on the ring of the thread it is for. *)
Lemma daemon_passes q q' :
  tl_daemon (w_tl w) = true -> 0 <= tid_idx (m_dst_tid m) < TASVIR_NR_THREADS_LOCAL ->
  td_ring_rx (nd_td (w_nd w) (tid_idx (m_dst_tid m))) = Some q -> rte_ring_sp_enqueue q m = Some q' ->
  rpc_route m src w = Done (Some 0, w <| w_nd := nd_set_td (tid_idx (m_dst_tid m))
    ((nd_td (w_nd w) (tid_idx (m_dst_tid m))) <| td_ring_rx := Some q' |>) (w_nd w) |>).
Proof.
  intros Hd Hidx Hq Hq'. unfold TASVIR_NR_THREADS_LOCAL in Hidx.
  unfold rpc_route, mbind at 1, cmd_bind at 1. rewrite response_dest. rewrite andb_false_r.
  unfold route, ring_send, mbind, cmd_bind, ttld, ndata, gets. rewrite Hd. unfold mret, cmd_ret. cbv beta iota.
  destruct (Z.eqb_spec (tid_idx (m_dst_tid m)) 65535); [lia|].
  rewrite (proj2 (Z.leb_le 0 _)), (proj2 (Z.ltb_lt _ _)) by (unfold TASVIR_NR_THREADS_LOCAL; lia). cbn [andb]. rewrite Hq, Hq'. reflexivity.
Qed.

(** A client puts it on its own ring to the daemon. *)
Lemma client_passes q q' :
  tl_daemon (w_tl w) = false -> 0 <= tid_idx tid < TASVIR_NR_THREADS_LOCAL ->
  td_ring_tx (nd_td (w_nd w) (tid_idx tid)) = Some q -> rte_ring_sp_enqueue q m = Some q' ->
  rpc_route m src w = Done (Some 0, w <| w_nd := nd_set_td (tid_idx tid)
    ((nd_td (w_nd w) (tid_idx tid)) <| td_ring_tx := Some q' |>) (w_nd w) |>).
Proof.
  intros Hd Hidx Hq Hq'. unfold rpc_route, mbind at 1, cmd_bind at 1. rewrite response_dest. rewrite andb_false_r.
  unfold route, ring_send, mbind, cmd_bind, ttld, ndata, gets. rewrite Hd, Ht, (proj2 (Z.eqb_neq t 0)) by done.
  rewrite (load_tid_runs _ _ _ _ Hth). unfold mret, cmd_ret. cbv beta iota.
  rewrite (proj2 (Z.leb_le 0 _)), (proj2 (Z.ltb_lt _ _)) by lia. cbn [andb]. rewrite Hq, Hq'. reflexivity.
Qed.
End passing.

(** ** One message on a ring *)

(** The loop takes it off, handles it, and finds the ring empty. *)
Lemma service_ring_one (P : world -> Prop) fuel rr w r m :
  rr_get rr (w_nd w) = Some r -> ring_items r = [m] ->
  (forall r', exists w2, ring_msg exec true m (w <| w_nd := rr_set rr r' (w_nd w) |>) = Done (tt, w2)
     /\ rr_get rr (w_nd w2) = Some r' /\ forall r2, P (w2 <| w_nd := rr_set rr r2 (w_nd w2) |>)) ->
  exists w3, tasvir_service_ring exec (S (S fuel)) rr true w = Done (tt, w3) /\ P w3.
Proof.
  intros Hget Hr Hmsg. remember (S fuel) as fuel1. cbn [tasvir_service_ring]. unfold mbind, cmd_bind, ndata, mod_nd, gets, modify. rewrite Hget.
  destruct (rte_ring_sc_dequeue_burst r _) as [ms r1] eqn:E1. destruct (dequeue_burst_items _ _ _ _ E1) as [Hms Hl]. rewrite Hr in Hms, Hl.
  assert (ms = [m] /\ ring_items r1 = []) as [-> Hr1].
  { destruct ms as [|m1 ms]; [by vm_compute in Hl|]. injection Hms as -> Hms. symmetry in Hms. by apply app_eq_nil in Hms as [-> ->]. }
  destruct (Hmsg r1) as (w2 & E2 & Hget2 & HP). cbn [for_each]. unfold mbind, cmd_bind. rewrite E2. unfold mret, cmd_ret. cbv beta iota.
  subst fuel1. cbn [tasvir_service_ring]. unfold mbind, cmd_bind, ndata, mod_nd, gets, modify. rewrite Hget2.
  destruct (rte_ring_sc_dequeue_burst r1 _) as [ms2 r2] eqn:E3. destruct (dequeue_burst_items _ _ _ _ E3) as [Hms2 _]. rewrite Hr1 in Hms2.
  symmetry in Hms2. apply app_eq_nil in Hms2 as [-> _]. eexists. split; [reflexivity|]. apply HP.
Qed.

(** ** The caller *)

(** A client of the node with identity [tid], whose slot [id] waits. *)
Record caller (w : world) (tid : tasvir_tid) (id : Z) (s : tasvir_rpc_status) : Prop := {
  ca_client : tl_daemon (w_tl w) = false;
  ca_thread : exists t st, tl_thread (w_tl w) = t /\ t <> 0 /\ thread_at w t tid st;
  ca_tdata : tl_tdata (w_tl w) = tid_idx tid;
  ca_slot : tl_status_l (w_tl w) !! id = Some s;
  ca_free : rs_do_free s = false;
}.

(** Whoever of the callers of [m'] takes its turn at the rings after [w] has
    the answer in its slot. *)
Definition reaches_slot (w : world) (m' : tasvir_msg) : Prop :=
  forall fuel wc s, caller wc (m_dst_tid m') (m_id m') s -> w_nd wc = w_nd w ->
  exists wc', tasvir_service_io exec (S (S fuel)) wc = Done (tt, wc') /\
    tl_status_l (w_tl wc') !! m_id m' = Some (s <| rs_status := TASVIR_RPC_STATUS_DONE |> <| rs_response := Some m' |>).

Lemma slot_filled w m' s :
  tl_status_l (w_tl w) !! m_id m' = Some s -> rs_do_free s = false ->
  exists w', tasvir_handle_msg_rpc_response m' w = Done (tt, w') /\ w_nd w' = w_nd w /\
    tl_status_l (w_tl w') !! m_id m' = Some (s <| rs_status := TASVIR_RPC_STATUS_DONE |> <| rs_response := Some m' |>).
Proof.
  intros Hs Hfree. unfold tasvir_handle_msg_rpc_response, mod_status, status, mod_tl, modify, ttld, gets, mbind, cmd_bind.
  rewrite Hs. cbn [default from_option id w_tl tl_status_l set_field]. rewrite lookup_insert_eq. cbn [default from_option id rs_do_free set_field]. rewrite Hfree.
  eexists. split; [reflexivity|]. split; [reflexivity|]. cbn [w_tl tl_status_l set_field]. rewrite !lookup_insert_eq. reflexivity.
Qed.

Lemma on_ring_reaches w m' r :
  m_type m' = TASVIR_MSG_TYPE_RPC_RESPONSE -> 0 <= tid_idx (m_dst_tid m') < TASVIR_NR_THREADS_LOCAL ->
  length (nd_tdata (w_nd w)) = Z.to_nat TASVIR_NR_THREADS_LOCAL -> tid_nid (m_dst_tid m') = tid_nid (nd_boot_tid (w_nd w)) ->
  td_ring_rx (nd_td (w_nd w) (tid_idx (m_dst_tid m'))) = Some r -> ring_items r = [m'] -> reaches_slot w m'.
Proof.
  intros Hm Hidx Hl Hnid Hr Hitems fuel wc s [Hd (t & st & Ht & Ht0 & Hth) Hi Hs Hfree] Hnd.
  unfold tasvir_service_io, mbind, cmd_bind, ttld, gets. rewrite Hd, Hi.
  apply (service_ring_one (fun w => tl_status_l (w_tl w) !! m_id m' = Some (s <| rs_status := TASVIR_RPC_STATUS_DONE |> <| rs_response := Some m' |>))
    fuel (ring_rx_of (tid_idx (m_dst_tid m'))) wc r m'); [cbn; by rewrite Hnd|done|].
  intros r'. set (w1 := wc <| w_nd := _ |>). destruct (slot_filled w1 m' s Hs Hfree) as (w2 & E2 & Hnd2 & Hs2). exists w2. split.
  - unfold ring_msg, mbind, cmd_bind. rewrite (response_runs exec m' _ w1 (m_dst_tid m')); [|done| |done|].
    + unfold mbind, cmd_bind. by rewrite E2.
    + apply (my_tid_runs w1 t _ st Ht Ht0). by apply (thread_at_ext wc).
    + cbn. by rewrite Hnd.
  - split; [|done]. cbn. rewrite Hnd2. unfold w1. cbn [w_nd set_field rr_set ring_rx_of]. rewrite nd_td_set; [done|]. rewrite Hnd, Hl. lia.
Qed.

(** ** The owner *)

(** The thread of [w], at [t] with identity [tid], owns the local area of the
    request [m] and has registered its function, which returns [ret] in the
    state [w'], where the area is at version [v]. *)
Record answers (w w' : world) (m : tasvir_msg) (fnd : tasvir_fn_desc) (lens ret : list Z) (t : Z) (tid : tasvir_tid) (v : Z) : Prop := {
  an_type : m_type m = TASVIR_MSG_TYPE_RPC_REQUEST;
  an_running : tasvir_is_booting w = Done (false, w);
  an_thread : tl_thread (w_tl w) = t /\ t <> 0;
  an_owner : exists h flags v0, area_at w (m_d m) t h flags v0 /\ has_flag flags TASVIR_AREA_FLAG_LOCAL = true;
  an_fn : registered w (fn_fnptr fnd) (rpc_fid m) fnd lens /\ has_flag (fn_flags fnd) TASVIR_FN_NOACK = false;
  an_exec : exec (fn_fnptr fnd) (get_args lens (fn_arg_offsets fnd) (rpc_data m)) w = Done (ret, w');
  an_ret : 0 <= fn_ret_len fnd /\ arg_ok (fn_ret_len fnd) ret;
  an_thread' : tl_thread (w_tl w') = t /\ exists st, thread_at w' t tid st;
  an_area' : exists h flags, area_at w' (m_d m) t h flags v;
}.

(** The response to [m]: same id, back to the caller, with the result and the
    version of the area. *)
Record response_to (m m' : tasvir_msg) (fnd : tasvir_fn_desc) (ret : list Z) (tid : tasvir_tid) (v : Z) : Prop := {
  rt_type : m_type m' = TASVIR_MSG_TYPE_RPC_RESPONSE;
  rt_id : m_id m' = m_id m;
  rt_dst : m_dst_tid m' = m_src_tid m;
  rt_src : m_src_tid m' = tid;
  rt_area : m_d m' = m_d m;
  rt_version : m_version m' = v;
  rt_result : get_bytes (fn_ret_len fnd) 0 (rpc_data m') = bytes_value (fn_ret_len fnd) ret;
}.

Lemma owner_executes w w' m fnd lens ret t tid v src :
  answers w w' m fnd lens ret t tid v -> m_version m <> v ->
  exists m', response_to m m' fnd ret tid v /\
    forall w2, rpc_route m' TASVIR_MSG_SRC_ME w' = Done (Some 0, w2) -> tasvir_handle_msg_rpc exec m src w = Done (0, w2).
Proof.
  intros [Hmt Hb [Ht Ht0] (h & fl & v0 & Harea & Hloc) [Hreg Hna] Hex [Hrl Hret] [Ht' [st Hth]] (h' & fl' & Harea')] Hver.
  pose proof (request_runs exec w w' m (rpc_fid m) fnd lens ret (m_d m) t tid st h' fl' v Hb Hreg eq_refl Hex Hna eq_refl Ht' Ht0 Hth Harea') as E.
  rewrite (proj2 (Z.eqb_neq _ _)) in E by done. set (m' := m <| m_dst_tid := _ |> <| m_src_tid := _ |>
    <| m_type := _ |> <| m_version := _ |> <| m_body := _ |>) in E. exists m'. split.
  - split; try done. pose proof (ceil8 (fn_ret_len fnd)). unfold get_bytes, arg_ok in *. rewrite <- Hret, Nat2Z.id.
    change (rpc_data m') with (put_bytes (fn_ret_len fnd) 0 ret (rpc_data m)). destruct ret; [done|]. apply get_put_words. lia.
  - intros w2 Hr. unfold tasvir_handle_msg_rpc. cbn [handle_msg_rpc].
    assert (rpc_route m src w = Done (None, w)) as Hroute.
    { unfold rpc_route, rpc_dest. rewrite Hmt. unfold mbind, cmd_bind, ttld, gets.
      rewrite (area_is_local_runs _ _ _ _ _ _ Harea), Hloc, (aa_owner _ _ _ _ _ _ Harea), Ht, Z.eqb_refl. unfold mret, cmd_ret. cbv beta iota.
      by rewrite andb_false_r. }
    unfold mbind, cmd_bind. by rewrite Hroute, Hmt, E, Hr.
Qed.

(** ** The daemon *)

(** The daemon of the node, with identity [tid]. *)
Definition daemon_thread (w : world) (tid : tasvir_tid) : Prop :=
  tl_daemon (w_tl w) = true /\ exists t st, tl_thread (w_tl w) = t /\ t <> 0 /\ thread_at w t tid st.

(** It passes on a response it finds on the ring of a client. *)
Lemma daemon_forwards fuel i wd dtid m' q r :
  daemon_thread wd dtid -> m_type m' = TASVIR_MSG_TYPE_RPC_RESPONSE -> m_dst_tid m' <> dtid ->
  tid_nid (m_dst_tid m') = tid_nid (nd_boot_tid (w_nd wd)) -> 0 <= tid_idx (m_dst_tid m') < TASVIR_NR_THREADS_LOCAL ->
  length (nd_tdata (w_nd wd)) = Z.to_nat TASVIR_NR_THREADS_LOCAL -> 0 <= i < TASVIR_NR_THREADS_LOCAL ->
  td_ring_rx (nd_td (w_nd wd) (tid_idx (m_dst_tid m'))) = Some q -> ring_items q = [] -> has_room q ->
  td_ring_tx (nd_td (w_nd wd) i) = Some r -> ring_items r = [m'] ->
  exists wd', tasvir_service_ring exec (S (S fuel)) (ring_tx_of i) true wd = Done (tt, wd') /\ reaches_slot wd' m'.
Proof.
  intros (Hd & t & st & Ht & Ht0 & Hth) Hm Hdst Hnid Hidx Hl Hi Hq Hq0 Hroom Hr Hitems. destruct (Hroom m') as [q' Hq'].
  apply (service_ring_one (fun w => reaches_slot w m') fuel (ring_tx_of i) wd r m' Hr Hitems). intros r'. set (w1 := wd <| w_nd := _ |>).
  assert (w_nd w1 = nd_set_td i ((nd_td (w_nd wd) i) <| td_ring_tx := Some r' |>) (w_nd wd)) as Hw1 by done.
  assert (length (nd_tdata (w_nd w1)) = Z.to_nat TASVIR_NR_THREADS_LOCAL) as Hl1 by (by rewrite Hw1, nd_set_td_length).
  assert (td_ring_rx (nd_td (w_nd w1) (tid_idx (m_dst_tid m'))) = Some q) as Hq1
    by (rewrite Hw1, rx_after_tx; [done|lia|lia|rewrite Hl; lia]).
  assert (rpc_route m' TASVIR_MSG_SRC_LOCAL w1 = Done (Some 0, w1 <| w_nd := nd_set_td (tid_idx (m_dst_tid m'))
    ((nd_td (w_nd w1) (tid_idx (m_dst_tid m'))) <| td_ring_rx := Some q' |>) (w_nd w1) |>)) as Hroute.
  { apply (daemon_passes w1 m' _ t dtid st) with (q := q); try done. by apply (thread_at_ext wd). }
  eexists. split; [unfold ring_msg, mbind, cmd_bind; rewrite (handle_routed exec m' _ w1 _ _ Hroute); reflexivity|]. split.
  - set (t1 := nd_td (w_nd w1) (tid_idx (m_dst_tid m'))). change (td_ring_tx (nd_td (nd_set_td (tid_idx (m_dst_tid m')) (t1 <| td_ring_rx := Some q' |>) (w_nd w1)) i) = Some r').
    subst t1. destruct (decide (tid_idx (m_dst_tid m') = i)) as [E|Hne].
    + rewrite E. rewrite nd_td_set by (rewrite Hl1; lia). 
      change (td_ring_tx (nd_td (w_nd w1) i) = Some r'). by rewrite Hw1, nd_td_set by (rewrite Hl; lia).
    + rewrite nd_td_set_ne by lia. by rewrite Hw1, nd_td_set by (rewrite Hl; lia).
  - intros r2. rewrite w_nd_set. set (nd1 := nd_set_td (tid_idx (m_dst_tid m')) _ (w_nd w1)).
    assert (length (nd_tdata nd1) = Z.to_nat TASVIR_NR_THREADS_LOCAL) as Hl2 by (unfold nd1; by rewrite nd_set_td_length).
    change (rr_set (ring_tx_of i) r2 nd1) with (nd_set_td i ((nd_td nd1 i) <| td_ring_tx := Some r2 |>) nd1).
    apply (on_ring_reaches _ _ q'); try done; rewrite ?w_nd_set.
    + by rewrite nd_set_td_length.
    + rewrite rx_after_tx; [|lia|lia|rewrite Hl2; lia]. unfold nd1. by rewrite nd_td_set by (rewrite Hl1; lia).
    + by rewrite (enqueue_items _ _ _ Hq'), Hq0.
Qed.

(** C9: a request that reaches the owner of its area comes back to the
    caller as the answer. The owner runs the function on the arguments of the
    message and sends a response with the same id to the caller, holding the
    bytes of the result and the area's version after the call. If the owner is
    the daemon the response is on the caller's ring at once; otherwise it is on
    the ring of the owner, and the daemon's next turn at that ring moves it to
    the caller's. The caller's next [tasvir_service_io] makes the slot of the id
    done, with the response in it. Caller and owner are different threads of
    one node, their rings exist and are empty, the function asks for an
    answer and returns, and the area is at another version than the one the
    request was sent at (otherwise the owner aborts, [vrpc_self_aborts]). *)
Theorem rpc_answer_returns w w' m fnd lens ret t tid v src :
  answers w w' m fnd lens ret t tid v -> m_version m <> v -> m_src_tid m <> tid ->
  0 <= tid_idx (m_src_tid m) < TASVIR_NR_THREADS_LOCAL -> tid_nid (m_src_tid m) = tid_nid (nd_boot_tid (w_nd w')) ->
  length (nd_tdata (w_nd w')) = Z.to_nat TASVIR_NR_THREADS_LOCAL -> idle (td_ring_rx (nd_td (w_nd w') (tid_idx (m_src_tid m)))) ->
  (tl_daemon (w_tl w') = false -> 0 <= tid_idx tid < TASVIR_NR_THREADS_LOCAL /\ idle (td_ring_tx (nd_td (w_nd w') (tid_idx tid)))) ->
  exists m' w2, tasvir_handle_msg_rpc exec m src w = Done (0, w2) /\ response_to m m' fnd ret tid v /\
    if tl_daemon (w_tl w') then reaches_slot w2 m'
    else forall fuel wd dtid, daemon_thread wd dtid -> m_src_tid m <> dtid -> w_nd wd = w_nd w2 ->
      exists wd', tasvir_service_ring exec (S (S fuel)) (ring_tx_of (tid_idx tid)) true wd = Done (tt, wd') /\ reaches_slot wd' m'.
Proof.
  intros Han Hver Hne Hidx Hnid Hl (q & Hq & Hq0 & Hroom) Htx.
  destruct (owner_executes w w' m fnd lens ret t tid v src Han Hver) as (m' & Hrt & Hsend).
  pose proof Hrt as [Hm _ Hdst _ _ _ _]. destruct Han as [_ _ [_ Ht0] _ _ _ _ [Ht' [st Hth]] _].
  rewrite <- Hdst in Hne, Hidx, Hnid, Hq. destruct (tl_daemon (w_tl w')) eqn:Hd.
  - destruct (Hroom m') as [q' Hq']. exists m'. eexists. split; [|split; [exact Hrt|]].
    + apply Hsend. by apply (daemon_passes w' m' _ t tid st) with (q := q).
    + apply (on_ring_reaches _ _ q'); try done; rewrite ?w_nd_set.
      * by rewrite nd_set_td_length.
      * by rewrite nd_td_set by (rewrite Hl; lia).
      * by rewrite (enqueue_items _ _ _ Hq'), Hq0.
  - destruct (Htx eq_refl) as (Hi & r & Hr & Hr0 & Hroomr). destruct (Hroomr m') as [r' Hr']. exists m'. eexists. split; [|split; [exact Hrt|]].
    + apply Hsend. by apply (client_passes w' m' _ t tid st) with (q := r).
    + intros fuel wd dtid Hdt Hdn Hnd. rewrite <- Hdst in Hdn. apply (daemon_forwards fuel _ wd dtid m' q r'); try done; rewrite ?Hnd, ?w_nd_set; try done.
      * by rewrite nd_set_td_length.
      * rewrite rx_after_tx; [done|lia|lia|rewrite Hl; lia].
      * by rewrite nd_td_set by (rewrite Hl; lia).
      * by rewrite (enqueue_items _ _ _ Hr'), Hr0.
Qed.
End with_dpdk.

(** ** An example *)

(** A request of thread 1, as the daemon, which owns the root area, receives
    it; and the caller, its slot 0 pending. *)
Definition rpc_req : tasvir_msg :=
  mk_msg 112 0 0 0 TASVIR_MSG_TYPE_RPC_REQUEST 0 (mk_tid 170 1 101) (mk_tid 170 0 100) TASVIR_ADDR_DATA 6
    (Msg_rpc 4 (<[8 := TASVIR_ADDR_DATA]> (<[16 := thr 1]> ∅))).
Definition rpc_caller : @world fifo_dpdk :=
  (rpc_world false 1) <| w_tl := (rpc_tls false 1)
    <| tl_status_l := <[0 := mk_status false 0 4 TASVIR_RPC_STATUS_PENDING None]> ∅ |> |>.

Lemma rpc_answered : answers exec_zero (rpc_world true 0) (rpc_world true 0) rpc_req fnd_owner [8; 8] [0] (thr 0) (mk_tid 170 0 100) 7.
Proof.
  split.
  - reflexivity.
  - reflexivity.
  - split; [reflexivity|discriminate].
  - do 3 eexists. split; [apply rpc_area|reflexivity].
  - split; [apply rpc_registered|reflexivity].
  - reflexivity.
  - split; [discriminate|reflexivity].
  - split; [reflexivity|]. eexists. apply rpc_thread. by left.
  - do 2 eexists. apply rpc_area.
Qed.

Lemma rpc_answer_returns_witness :
  exists m' (w2 wc' : @world fifo_dpdk), tasvir_handle_msg_rpc exec_zero rpc_req TASVIR_MSG_SRC_LOCAL (rpc_world true 0) = Done (0, w2) /\
    tasvir_service_io exec_zero 2 (rpc_caller <| w_nd := w_nd w2 |>) = Done (tt, wc') /\
    get_bytes 4 0 (rpc_data m') = [0] /\ m_version m' = 7 /\
    tl_status_l (w_tl wc') !! 0 = Some (mk_status false 0 4 TASVIR_RPC_STATUS_DONE (Some m')).
Proof.
  destruct (rpc_answer_returns exec_zero (rpc_world true 0) (rpc_world true 0) rpc_req fnd_owner [8; 8] [0] (thr 0) (mk_tid 170 0 100) 7
    TASVIR_MSG_SRC_LOCAL) as (m' & w2 & E & Hrt & Hreach).
  - exact rpc_answered.
  - discriminate.
  - discriminate.
  - split; [discriminate|reflexivity].
  - reflexivity.
  - reflexivity.
  - exists ring0. split; [reflexivity|]. split; [reflexivity|exact ring0_room].
  - discriminate.
  - destruct Hrt as [_ Hid Hdst _ _ Hv Hret]. cbn [rpc_world rpc_tls w_tl tl_daemon set_field] in Hreach.
    destruct (Hreach 0%nat (rpc_caller <| w_nd := w_nd w2 |>) (mk_status false 0 4 TASVIR_RPC_STATUS_PENDING None)) as (wc' & E2 & Hs).
    + rewrite Hdst, Hid. split; [reflexivity| |reflexivity|reflexivity|reflexivity].
      exists (thr 1), (thread_state_code TASVIR_THREAD_STATE_RUNNING). split; [reflexivity|]. split; [discriminate|].
      apply (thread_at_ext (rpc_world false 1)); [reflexivity|reflexivity|]. apply rpc_thread. by right.
    + reflexivity.
    + exists m', w2, wc'. rewrite Hid in Hs. split; [exact E|]. split; [exact E2|]. split; [exact Hret|]. split; [exact Hv|exact Hs].
Defined.
