(* ===== verification/Boot.v ===== *)
(** * Boot: the library runs

    The definitions of all components, linked by [lib_calls], evaluated on
    the boot of a root daemon: the default build comes up, creates the root
    and node areas and enters the running state, and the service loop performs
    internal and external syncs; a build with assertions does not come up,
    because tasvir_update_owner asserts that the calling thread is registered,
    which it is not yet when the root area is created. *)
From stdpp Require Import base gmap list numbers.
From Stdlib Require Import ZArith Lia.
From S2P Require Import Prelude Defs Types Fifo Mem Log Sync Calls Area Init Service.

(** ** A machine without network *)

Definition boot_root : @boot fifo_dpdk := {|
  bo_core := true; bo_eal := true; bo_shm := true; bo_trunc := true; bo_map := true; bo_map_ro := true;
  bo_is_root := true; bo_pool := fun _ => Some (1000%nat : @pool fifo_dpdk);
  bo_pciaddr := false; bo_nb_ports := 0; bo_port := None; bo_mac := 0;
  bo_configure := true; bo_rxq := true; bo_txq := true; bo_start := true; bo_pid := 42 |}.

(** No other thread, and no application function. *)
Definition alone : cmd (@world fifo_dpdk) unit := mret tt.
Definition no_app : Z -> list (list Z) -> cmd (@world fifo_dpdk) (list Z) := fun _ _ => fail Segv.

(** A clock that advances five milliseconds per reading. *)
Definition power_on (debug : bool) : @world fifo_dpdk :=
  world0 <| w_tl := tls0 <| tl_debug := debug |> |> <| w_clk := fun n => 5000 * Z.of_nat n |>.

(** What an observer sees of the outcome: the result, the state of thread 0,
    the number of children of the root area in its writer copy, its version
    in the reader copy and the numbers of internal and external syncs. *)
Definition observe (o : outcome (Z * @world fifo_dpdk)) : option (Z * tasvir_thread_state * Z * Z * Z * Z) + fault :=
  match o with
  | Done (r, w) =>
      inl (Some (r, td_state (nd_td (w_nd w) 0), ld (w_mem w) (TASVIR_SIZE_DATA + 32768 + hdr_nr_areas),
        ld (w_mem w) (32768 + hdr_version), isync_success (nd_stats_cur (w_nd w)), esync_cnt (nd_stats_cur (w_nd w))))
  | Fault f => inr f
  end.

(** The root daemon of the default build boots: tasvir_init returns the
    root area, the thread is running and the node's area is the root's only
    child. *)
Example root_daemon_boots :
  observe (@tasvir_init fifo_dpdk (lib_calls alone no_app 2 2300) alone 2300 boot_root (power_on false))
  = inl (Some (TASVIR_ADDR_DATA, TASVIR_THREAD_STATE_RUNNING, 1, 0, 0, 0)).
Proof. vm_compute. reflexivity. Qed.

(** Booted, the root daemon serves: in sixty turns of its loop it
    completes four internal syncs and one external sync, and readers see
    version 1 of the root area. *)
Example root_daemon_serves :
  observe (daemon_main alone no_app 2 2300 60 boot_root (power_on false))
  = inl (Some (0, TASVIR_THREAD_STATE_RUNNING, 1, 1, 4, 1)).
Proof. vm_compute. reflexivity. Qed.

(** A build with assertions cannot boot a root daemon: the assertion in
    tasvir_update_owner fails for every thread that is not registered, and the
    boot creates the root area before it registers the thread. *)
Theorem debug_daemon_asserts :
  (forall `{D : Dpdk, !Calls} fuel d owner (w : world),
     tl_debug (w_tl w) = true -> tl_thread (w_tl w) = 0 ->
     tasvir_update_owner fuel d owner w = Fault AssertFail) /\
  @tasvir_init fifo_dpdk (lib_calls alone no_app 2 2300) alone 2300 boot_root (power_on true)
    = Fault AssertFail.
Proof.
  split; [|vm_compute; reflexivity].
  intros D C fuel d owner w Hd Ht. unfold tasvir_update_owner, assert_w, mbind, cmd_bind, ttld, gets.
  rewrite Hd, Ht. cbn. by rewrite andb_false_r.
Qed.

(** The boot time a daemon records is zero: tasvir_init_local reads the
    clock before the conversion factor from ticks to microseconds is set. *)
Theorem boot_time_is_zero `{D : Dpdk} env fuel b (w : world) w' :
  tl_daemon (w_tl w) = true -> tasvir_init_local env fuel b w = Done (0, w') ->
  nd_boot_us (w_nd w') = 0 /\ nd_time_us (w_nd w') = 0.
Proof.
  intros Hd. unfold tasvir_init_local. destruct (negb _); [done|].
  unfold init_local_daemon, mbind, cmd_bind, ttld, gets, mod_tl, modify. cbn [w_tl tl_daemon set_field]. rewrite Hd.
  unfold when, mod_tl, modify, mod_nd, rdtsc, mret, cmd_ret.
  destruct (bo_is_root b), (bo_pool b TASVIR_MBUF_POOL_SIZE), (rte_ring_create TASVIR_RING_EXT_SIZE); try done; by intros [= <-].
Qed.

Lemma boot_time_is_zero_witness :
  exists w', tasvir_init_local alone 10 boot_root (power_on false) = Done (0, w') /\ nd_boot_us (w_nd w') = 0.
Proof.
  assert (H : exists w', tasvir_init_local alone 10 boot_root (power_on false) = Done (0, w'))
    by (eexists; reflexivity).
  destruct H as [w' H]. exists w'. split; [exact H|].
  apply (@boot_time_is_zero fifo_dpdk alone 10%nat boot_root (power_on false) w').
  - reflexivity.
  - exact H.
Defined.
