(* ===== verification/KvMem.v ===== *)
(** * KvMem: the memory the key-value store works on (apps/kvstore)

    The store keeps its dictionary, entries, keys and values inside one area,
    in structures made of 64-bit words, and reports every write to Tasvir
    with [wrap_log_write]. Its code is modelled on the words of the process's memory
    ([kv_mem]: the area as its writer sees it and the process's own strings);
    [kv_log] records the calls of the Tasvir library, latest first. [kv_can_resize] and [kv_seed] are the static
    variables of dict.c that allow resizing and seed the hash. What the C
    library answers is part of the state: [kv_random] holds the values that
    [random()] will return, [kv_time] the times that [gettimeofday] will. *)
From stdpp Require Import base gmap list numbers.
From Stdlib Require Import ZArith Lia.
From S2P Require Import Prelude Mem.

(** A call of the Tasvir library. *)
Inductive kv_call :=
| CallLog (data size : Z)                       (** [tasvir_log] *)
| CallActivate (active : bool)                  (** [tasvir_activate] *)
| CallAreaActivate (d : Z) (active : bool)      (** [tasvir_area_activate] *)
| CallService                                   (** [tasvir_service] *)
| CallRpc (d w : Z) (k v : list Z).             (** [tasvir_rpc] of [update_byval] *)

Record kv := mk_kv {
  kv_mem : gmap Z Z;
  kv_log : list kv_call;
  kv_can_resize : bool;
  kv_seed : list Z;
  kv_random : list Z;
  kv_time : list (Z * Z);
}.
#[export] Instance eta_kv : Eta kv := fun r => 
  mk_kv (kv_mem r) (kv_log r) (kv_can_resize r) (kv_seed r) (kv_random r) (kv_time r).

(** An access to the first page (NULL or a field of NULL) or at an address
    that is not a multiple of eight faults. *)
Definition kaddr_ok (a : Z) : bool := (4096 <=? a) && (a mod 8 =? 0).
Definition kload (a : Z) : cmd kv Z := fun s =>
  if kaddr_ok a then Done (ld (kv_mem s) a, s) else Fault Segv.
Definition kstore (a v : Z) : cmd kv unit := fun s =>
  if kaddr_ok a then Done (tt, s <| kv_mem := <[a := v]> (kv_mem s) |>) else Fault Segv.

(** [tasvir_log(data, size)] *)
Definition wrap_log_write (data size : Z) : cmd kv unit :=
  modify (fun s => s <| kv_log := CallLog data size :: kv_log s |>).
Definition tasvir_call (c : kv_call) : cmd kv unit :=
  modify (fun s => s <| kv_log := c :: kv_log s |>).

(** The next answer of [random()], of [gettimeofday()] in seconds and
    microseconds. *)
Definition random : cmd kv Z := fun s =>
  match kv_random s with
  | [] => Fault NoFuel
  | r :: rs => Done (r, s <| kv_random := rs |>)
  end.
Definition gettimeofday : cmd kv (Z * Z) := fun s =>
  match kv_time s with
  | [] => Fault NoFuel
  | t :: ts => Done (t, s <| kv_time := ts |>)
  end.

(** ** Bytes *)

Definition byte_of (w i : Z) : Z := u8 (Z.shiftr w (8 * i)).
Definition kload8 (a : Z) : cmd kv Z := w ← kload (a - a mod 8); mret (byte_of w (a mod 8)).
Definition kstore8 (a v : Z) : cmd kv unit :=
  w ← kload (a - a mod 8);
  let i := a mod 8 in
  kstore (a - a mod 8)
    (Z.lor (Z.land w (not64 (Z.shiftl 255 (8 * i)))) (Z.shiftl (u8 v) (8 * i))).

(** The string at [a], without its terminator; [fuel] bounds its length. *)
Fixpoint kstring (fuel : nat) (a : Z) : cmd kv (list Z) :=
  match fuel with
  | O => fail NoFuel
  | S fuel' => c ← kload8 a; if c =? 0 then mret [] else s ← kstring fuel' (a + 1); mret (c :: s)
  end.
Definition kstrlen (fuel : nat) (a : Z) : cmd kv Z := s ← kstring fuel a; mret (Z.of_nat (length s)).

(** [n] bytes at [a]; store bytes at [a]. *)
Fixpoint kbytes (n : nat) (a : Z) : cmd kv (list Z) :=
  match n with
  | O => mret []
  | S n' => c ← kload8 a; s ← kbytes n' (a + 1); mret (c :: s)
  end.
Fixpoint kput (a : Z) (bs : list Z) : cmd kv unit :=
  match bs with
  | [] => mret tt
  | b :: bs' => kstore8 a b;; kput (a + 1) bs'
  end.

(** ** Lemmas *)

Lemma kload_ok s a : kaddr_ok a = true -> kload a s = Done (ld (kv_mem s) a, s).
Proof. unfold kload. by intros ->. Qed.

Lemma kstore_ok s a v : kaddr_ok a = true -> kstore a v s = Done (tt, s <| kv_mem := <[a := v]> (kv_mem s) |>).
Proof. unfold kstore. by intros ->. Qed.

Lemma kaddr_ok_iff a : kaddr_ok a = true <-> 4096 <= a /\ aligned 8 a.
Proof. unfold kaddr_ok, aligned. rewrite andb_true_iff, Z.leb_le, Z.eqb_eq. done. Qed.

Lemma kaddr_ok_off p sz i :
  4096 <= p /\ aligned 8 p -> 0 <= i < sz -> aligned 8 i -> kaddr_ok (p + i) = true.
Proof. intros [? ?] ? ?. apply kaddr_ok_iff. split; [lia|align]. Qed.

(** One accepted access is one rewriting step. *)
Lemma bind_kload {B} (k : Z -> cmd kv B) s a :
  kaddr_ok a = true -> (kload a ≫= k) s = k (ld (kv_mem s) a) s.
Proof. intros H. unfold mbind, cmd_bind. by rewrite kload_ok. Qed.
Lemma bind_kstore {B} (k : unit -> cmd kv B) s a v :
  kaddr_ok a = true -> (kstore a v ≫= k) s = k tt (s <| kv_mem := <[a := v]> (kv_mem s) |>).
Proof. intros H. unfold mbind, cmd_bind. by rewrite kstore_ok. Qed.
