(* ===== verification/Alloc.v ===== *)
(** * Alloc: the fixed-size allocator of the key-value store (apps/kvstore/alloc.c)

    A region is cut into objects of one size. The free list holds the objects
    given back, last first, and at its end the part of the region never used,
    from which objects are cut as needed. [alloc_refines_stack] shows that
    the allocator is a stack of free objects, whatever is written into the
    objects in use. *)
From stdpp Require Import base gmap list numbers.
From Stdlib Require Import ZArith Lia.
From S2P Require Import Prelude Mem KvMem.

(** ** Layout *)

(** [struct FreeNode] and [struct Allocator] *)
Definition fn_next : Z := 0.
Definition fn_size : Z := 8.
Definition sizeof_FreeNode : Z := 16.
Definition al_head : Z := 0.
Definition al_used : Z := 8.
Definition al_alloc_size : Z := 16.
Definition sizeof_Allocator : Z := 24.

(** ** Operations *)

(** NULL is 0. *)
Definition init_allocator (space len obj_len : Z) : cmd kv Z :=
  let obj_size := if sizeof_FreeNode <? obj_len then obj_len else sizeof_FreeNode in
  if len <? u64 (sizeof_Allocator + obj_size) then mret 0
  else
    let remaining := len - sizeof_Allocator in
    kstore (space + al_used) 0;;
    kstore (space + al_alloc_size) obj_size;;
    kstore (space + al_head) (space + sizeof_Allocator);;
    kstore (space + sizeof_Allocator + fn_size) remaining;;
    kstore (space + sizeof_Allocator + fn_next) 0;;
    mret space.

Definition alloc_allocator (allocator : Z) : cmd kv Z :=
  head ← kload (allocator + al_head);
  if head =? 0 then mret 0
  else
    size ← kload (head + fn_size);
    obj ← kload (allocator + al_alloc_size);
    (if u64 (2 * obj) <=? size then
       kstore (allocator + al_head) (head + obj);;
       kstore (head + obj + fn_next) 0;;
       kstore (head + obj + fn_size) (u64 (size - obj))
     else
       next ← kload (head + fn_next);
       kstore (allocator + al_head) next);;
    mret head.

Definition free_allocator (allocator region : Z) : cmd kv unit :=
  head ← kload (allocator + al_head);
  kstore (region + fn_next) head;;
  obj ← kload (allocator + al_alloc_size);
  kstore (region + fn_size) obj;;
  kstore (allocator + al_head) region.

(** ** Specification *)

(** The first [n] objects of [sz] bytes from [a] on. *)
Fixpoint carve (n : nat) (a sz : Z) : list Z :=
  match n with O => [] | S n' => a :: carve n' (a + sz) sz end.

(** The free list from [p] stands for the objects [free], next one first. *)
Inductive free_list (m : gmap Z Z) (sz : Z) : Z -> list Z -> Prop :=
| free_nil : free_list m sz 0 []
| free_tail p s n :
    ld m (p + fn_size) = s -> ld m (p + fn_next) = 0 ->
    sz * Z.of_nat (S n) <= s < sz * Z.of_nat (S n) + sz -> s < 2 ^ 64 ->
    free_list m sz p (carve (S n) p sz)
| free_node p free :
    ld m (p + fn_size) = sz -> free_list m sz (ld m (p + fn_next)) free ->
    free_list m sz p (p :: free).

(** An allocator at [a] with objects of [sz] bytes, [free] the free ones. *)
Record allocator_ok (m : gmap Z Z) (a sz : Z) (free : list Z) : Prop := {
  ao_addr : 4096 <= a /\ aligned 8 a;
  ao_sz : 16 <= sz < 2 ^ 63 /\ aligned 8 sz;
  ao_size : ld m (a + al_alloc_size) = sz;
  ao_list : free_list m sz (ld m (a + al_head)) free;
}.

(** The blocks [[b, b + sz)] of [bs] lie apart from each other and from the
    allocator's own words, at addresses that can be accessed. *)
Record blocks_apart (a sz : Z) (bs : list Z) : Prop := {
  ba_ok : forall b, b ∈ bs -> 4096 <= b /\ aligned 8 b;
  ba_head : forall b, b ∈ bs -> a + sizeof_Allocator <= b \/ b + sz <= a;
  ba_nodup : NoDup bs;
  ba_apart : forall b c, b ∈ bs -> c ∈ bs -> b <> c -> b + sz <= c \/ c + sz <= b;
}.

(** A client's calls, and its writes into an object it holds. *)
Inductive alloc_op := OpAlloc | OpFree (p : Z) | OpWrite (p i v : Z).

Definition run_op (a : Z) (op : alloc_op) : cmd kv (option Z) :=
  match op with
  | OpAlloc => r ← alloc_allocator a; mret (Some r)
  | OpFree p => free_allocator a p;; mret None
  | OpWrite p i v => kstore (p + i) v;; mret None
  end.
Fixpoint run_ops (a : Z) (ops : list alloc_op) : cmd kv (list (option Z)) :=
  match ops with
  | [] => mret []
  | op :: ops' => r ← run_op a op; rs ← run_ops a ops'; mret (r :: rs)
  end.

(** The specification: a stack of free objects and the set of objects in use.
    A client gives back, and writes to, objects it holds. *)
Inductive stack_step (sz : Z) : list Z * list Z -> alloc_op -> option Z -> list Z * list Z -> Prop :=
| step_full live : stack_step sz ([], live) OpAlloc (Some 0) ([], live)
| step_alloc p free live : stack_step sz (p :: free, live) OpAlloc (Some p) (free, p :: live)
| step_free p free live live' :
    live ≡ₚ p :: live' -> stack_step sz (free, live) (OpFree p) None (p :: free, live')
| step_write p i v free live :
    p ∈ live -> 0 <= i < sz -> aligned 8 i -> stack_step sz (free, live) (OpWrite p i v) None (free, live).
Inductive stack_steps (sz : Z) : list Z * list Z -> list alloc_op -> list (option Z) -> list Z * list Z -> Prop :=
| steps_nil st : stack_steps sz st [] [] st
| steps_cons st op r st1 ops rs st2 :
    stack_step sz st op r st1 -> stack_steps sz st1 ops rs st2 ->
    stack_steps sz st (op :: ops) (r :: rs) st2.

(** The allocator in state [s] implements the stack [free] with [live] in use. *)
Definition implements (s : kv) (a sz : Z) (st : list Z * list Z) : Prop :=
  allocator_ok (kv_mem s) a sz st.1 /\ blocks_apart a sz (st.1 ++ st.2).

(** ** Lemmas *)

Lemma length_carve n a sz : length (carve n a sz) = n.
Proof. revert a. induction n as [|n IH]; intros a; cbn; [done|by rewrite IH]. Qed.

Lemma carve_elem n a sz b : b ∈ carve n a sz <-> exists i, 0 <= i < Z.of_nat n /\ b = a + i * sz.
Proof.
  revert a. induction n as [|n IH]; intros a; cbn [carve].
  - split; [intros H; by apply not_elem_of_nil in H|intros (i & Hi & _); lia].
  - rewrite elem_of_cons, IH. split.
    + intros [->|(i & Hi & ->)]; [exists 0; lia|exists (i + 1); lia].
    + intros (i & Hi & ->). destruct (Z.eq_dec i 0) as [->|]; [left; lia|right; exists (i - 1); lia].
Qed.

Lemma carve_nodup n a sz : 0 < sz -> NoDup (carve n a sz).
Proof.
  intros Hsz. revert a. induction n as [|n IH]; intros a; cbn; constructor; [|apply IH].
  rewrite carve_elem. intros (i & Hi & Ha). nia.
Qed.

(** Words outside the free objects do not matter to the free list. *)
Lemma free_list_ext m m' sz p free :
  (forall b i, b ∈ free -> 0 <= i < 16 -> ld m' (b + i) = ld m (b + i)) ->
  free_list m sz p free -> free_list m' sz p free.
Proof.
  intros Heq H. induction H as [|p s n Hs Hn Hr|p free Hs Hfl IH].
  - constructor.
  - assert (p ∈ carve (S n) p sz) by (cbn; left).
    apply (free_tail _ _ p s); [rewrite Heq by (done || (unfold fn_size, fn_next; lia))..| |]; done.
  - assert (p ∈ p :: free) as Hin by left. constructor.
    + rewrite Heq by (done || (unfold fn_size; lia)). done.
    + rewrite Heq by (done || (unfold fn_next; lia)). apply IH. intros b i Hb. apply Heq. by right.
Qed.

(** Compute the words of an updated memory. *)
Ltac al_words :=
  cbn [kv_mem]; rewrite ?ld_insert;
  unfold al_head, al_used, al_alloc_size, fn_next, fn_size, sizeof_Allocator in *;
  cases_cmp.

Section operations.
Context (s : kv) (a sz : Z).
#[local] Abbreviation m := (kv_mem s).
Implicit Types free live : list Z.

Lemma allocator_words free :
  allocator_ok m a sz free ->
  kaddr_ok (a + al_head) = true /\ kaddr_ok (a + al_alloc_size) = true.
Proof. intros [Ha _ _ _]. split; by eapply (kaddr_ok_off a 24). Qed.

Lemma block_words free live b :
  allocator_ok m a sz free -> blocks_apart a sz (free ++ live) -> b ∈ free ++ live ->
  kaddr_ok (b + fn_size) = true /\ kaddr_ok (b + fn_next) = true.
Proof.
  intros [_ Hsz _ _] Hb Hin. apply (ba_ok _ _ _ Hb) in Hin.
  split; eapply (kaddr_ok_off b sz); try done; unfold fn_size, fn_next; lia.
Qed.

(** [alloc_allocator] pops the next free object, and changes no other word
    than the list head and the free objects that remain. *)
Lemma alloc_allocator_spec free live :
  allocator_ok m a sz free -> blocks_apart a sz (free ++ live) ->
  exists m', runs (alloc_allocator a) s (default 0 (head free)) (s <| kv_mem := m' |>)
    /\ allocator_ok m' a sz (tail free)
    /\ forall x, x <> a -> (forall b, b ∈ tail free -> ~ b <= x < b + sz) -> ld m' x = ld m x.
Proof.
  intros Hok Hap. destruct (allocator_words _ Hok) as [Kh Ks].
  destruct Hok as [Ha Hsz Hsize Hl].
  unfold runs, alloc_allocator. rewrite bind_kload by done.
  remember (ld m (a + al_head)) as p0 eqn:Ep.
  destruct Hl as [|p t n Ht Hn Hr Ht64|p fr Ht Hfr].
  - exists m. split; [by destruct s|]. split; [|done]. constructor; [done..|].
    rewrite <- Ep. constructor.
  - set (fr := carve (S n) p sz) in *.
    assert (free_list m sz p fr) as Hl by (by apply (free_tail _ _ p t)). rewrite Ep in Hl.
    assert (p ∈ fr ++ live) as Hin by (left || (cbn; left)).
    destruct (block_words fr live p) as [Kps Kpn]; [by constructor|done..|].
    pose proof (ba_ok _ _ _ Hap p Hin) as Hpa.
    rewrite (proj2 (Z.eqb_neq p 0)) by lia.
    rewrite !bind_kload by done. rewrite Hsize, Ht.
    rewrite u64_small by lia. destruct (Z.leb_spec (2 * sz) t).
    + assert (1 <= n)%nat by nia. destruct n as [|n]; [lia|].
      assert (p + sz ∈ fr ++ live) as Hin2 by (cbn; right; left).
      pose proof (ba_head _ _ _ Hap _ Hin2) as Hh2.
      destruct (block_words fr live (p + sz)) as [K2s K2n]; [by constructor|done..|].
      rewrite !bind_assoc, bind_kstore, bind_assoc, bind_kstore, bind_kstore by done.
      cbn [head default fr carve tail].
      eexists. split; [reflexivity|]. rewrite u64_small by lia. cbn.
      split.
      * constructor; [done..| |]; al_words; try done.
        change (p + sz :: carve n (p + sz + sz) sz) with (carve (S n) (p + sz) sz).
        apply (free_tail _ _ _ (t - sz)); [| |lia..]; al_words; done.
      * intros x Hx Hb. specialize (Hb (p + sz) ltac:(left)). al_words; done.
    + assert (n = 0%nat) as -> by nia. rewrite bind_assoc, bind_kload by done.
      rewrite Hn, bind_kstore by done. eexists. split; [reflexivity|]. cbn. split.
      * constructor; [done..| |]; al_words; try done; constructor.
      * intros x Hx _. al_words; done.
  - assert (free_list m sz p (p :: fr)) as Hl by (by constructor). rewrite Ep in Hl.
    rewrite <- Ep in Hl at 2.
    assert (p ∈ p :: fr ++ live) as Hin by left.
    destruct (block_words (p :: fr) live p) as [Kps Kpn]; [by constructor|done..|].
    pose proof (ba_ok _ _ _ Hap p Hin) as Hpa.
    rewrite (proj2 (Z.eqb_neq p 0)) by lia.
    rewrite !bind_kload by done. rewrite Hsize, Ht, u64_small by lia.
    rewrite (proj2 (Z.leb_gt (2 * sz) sz)) by lia.
    rewrite bind_assoc, bind_kload, bind_kstore by done.
    eexists. split; [reflexivity|]. cbn. split.
    + constructor; [done..| |]; al_words; try done.
      eapply free_list_ext; [|exact Hfr]. intros b i Hb Hi.
      destruct (ba_head _ _ _ Hap b) as [|]; [right; apply elem_of_app; by left|..];
        al_words; done.
    + intros x Hx _. al_words; done.
Qed.

(** [free_allocator] pushes an object. *)
Lemma free_allocator_spec p free live :
  allocator_ok m a sz free -> blocks_apart a sz (p :: free ++ live) ->
  exists m', runs (free_allocator a p) s tt (s <| kv_mem := m' |>)
    /\ allocator_ok m' a sz (p :: free)
    /\ forall x, x <> a -> ~ p <= x < p + 16 -> ld m' x = ld m x.
Proof.
  intros Hok Hap. destruct (allocator_words _ Hok) as [Kh Ks].
  destruct Hok as [Ha Hsz Hsize Hl].
  assert (p ∈ p :: free ++ live) as Hin by left.
  pose proof (ba_ok _ _ _ Hap p Hin) as Hpa. pose proof (ba_head _ _ _ Hap p Hin) as Hph.
  assert (kaddr_ok (p + fn_size) = true /\ kaddr_ok (p + fn_next) = true) as [Kps Kpn]
    by (split; by eapply (kaddr_ok_off p 16)).
  unfold runs, free_allocator. rewrite bind_kload, bind_kstore by done.
  rewrite bind_kload, bind_kstore, kstore_ok by done. cbn.
  eexists. split; [reflexivity|]. split.
  - constructor; [done..| |]; al_words; try done.
    constructor; al_words; try done.
    eapply free_list_ext; [|exact Hl]. intros b i Hb Hi.
    pose proof (ba_nodup _ _ _ Hap) as Hnd. apply list.NoDup_cons in Hnd as [Hnd _].
    assert (b <> p) as Hbp by (intros ->; apply Hnd, elem_of_app; by left).
    assert (b ∈ p :: free ++ live) as Hbin by (right; apply elem_of_app; by left).
    pose proof (ba_apart _ _ _ Hap b p Hbin Hin Hbp).
    pose proof (ba_head _ _ _ Hap b Hbin). al_words; done.
  - intros x Hx Hxp. al_words; done.
Qed.

(** A write into an object in use leaves the allocator as it is. *)
Lemma write_live_spec p i v free live :
  allocator_ok m a sz free -> blocks_apart a sz (free ++ live) ->
  p ∈ live -> 0 <= i < sz -> aligned 8 i ->
  runs (kstore (p + i) v) s tt (s <| kv_mem := <[p + i := v]> m |>)
  /\ allocator_ok (<[p + i := v]> m) a sz free.
Proof.
  intros [Ha Hsz Hsize Hl] Hap Hp Hi Hai.
  assert (p ∈ free ++ live) as Hin by (apply elem_of_app; by right).
  split. { apply kstore_ok. apply (kaddr_ok_off p sz); [by apply (ba_ok _ _ _ Hap)|done..]. }
  pose proof (ba_head _ _ _ Hap p Hin).
  constructor; [done..| |]; al_words; try done.
  eapply free_list_ext; [|exact Hl]. intros b j Hb Hj.
  pose proof (ba_nodup _ _ _ Hap) as Hnd. apply list.NoDup_app in Hnd as (_ & Hd & _).
  assert (b <> p) as Hbp by (intros ->; by apply (Hd p)).
  assert (b ∈ free ++ live) as Hbin by (apply elem_of_app; by left).
  pose proof (ba_apart _ _ _ Hap b p Hbin Hin Hbp). al_words; done.
Qed.

(** The whole region is free after [init_allocator]. *)
Lemma init_allocator_spec len obj n :
  4096 <= a /\ aligned 8 a -> sz = Z.max obj sizeof_FreeNode ->
  0 <= obj < 2 ^ 62 -> aligned 8 obj -> len < 2 ^ 64 ->
  sz * Z.of_nat (S n) <= len - sizeof_Allocator < sz * Z.of_nat (S n) + sz ->
  exists m', runs (init_allocator a len obj) s a (s <| kv_mem := m' |>)
    /\ implements (s <| kv_mem := m' |>) a sz (carve (S n) (a + sizeof_Allocator) sz, [])
    /\ forall x, ~ a <= x < a + sizeof_Allocator + 16 -> ld m' x = ld m x.
Proof.
  intros Ha Hsz Hobj Hao Hlen Hr. unfold sizeof_FreeNode, sizeof_Allocator in *.
  assert (aligned 8 sz) as Hasz.
  { subst sz. destruct (Z.max_spec obj 16) as [[_ ->]|[_ ->]]; [reflexivity|done]. }
  assert (forall i, 0 <= i < 40 -> aligned 8 i -> kaddr_ok (a + i) = true) as K
    by (intros i ??; by apply (kaddr_ok_off a 40)).
  unfold runs, init_allocator.
  replace (if sizeof_FreeNode <? obj then obj else sizeof_FreeNode) with sz
    by (unfold sizeof_FreeNode; cases_cmp).
  unfold sizeof_Allocator. rewrite u64_small by nia.
  rewrite (proj2 (Z.ltb_ge len (24 + sz))) by nia.
  rewrite <- !Z.add_assoc.
  rewrite !bind_kstore by (apply K; [unfold al_used, al_head, al_alloc_size, fn_size, fn_next; lia|reflexivity]).
  cbn -[carve]. eexists. split; [reflexivity|]. split; [split|].
  - constructor; [done|split; [nia|done]|..]; al_words; try done.
    eapply (free_tail _ _ _ (len - 24)); [..|done|lia]; al_words; done.
  - cbn [fst snd]. rewrite app_nil_r. constructor.
    + intros b (i & Hi & ->)%carve_elem. split; [nia|].
      rewrite (Z.mul_comm i sz). destruct Ha. align.
    + intros b (i & Hi & ->)%carve_elem. left. unfold sizeof_Allocator. nia.
    + apply carve_nodup. lia.
    + intros b c (i & Hi & ->)%carve_elem (j & Hj & ->)%carve_elem Hne.
      assert (i < j \/ j < i) as [|] by (assert (i <> j) by (intros ->; done); lia); [left|right]; nia.
  - intros x Hx. al_words; done.
Qed.
End operations.

(** ** Refinement *)

Lemma blocks_apart_perm a sz bs bs' : bs ≡ₚ bs' -> blocks_apart a sz bs -> blocks_apart a sz bs'.
Proof.
  intros Hp [H1 H2 H3 H4]. constructor.
  - intros b Hb. apply H1. by rewrite Hp.
  - intros b Hb. apply H2. by rewrite Hp.
  - by rewrite <- Hp.
  - intros b c Hb Hc. apply H4; by rewrite Hp.
Qed.

(** Every step of the specification is what the code does. *)
Lemma run_op_simulates s a sz st op r st' :
  implements s a sz st -> stack_step sz st op r st' ->
  exists s', runs (run_op a op) s r s' /\ implements s' a sz st'.
Proof.
  intros [Hok Hap] Hst.
  destruct Hst as [live|p free live|p free live live' Hp|p i v free live Hp Hi Hai]; cbn [fst snd] in *.
  - destruct (alloc_allocator_spec s a sz [] live Hok Hap) as (m' & Hr & Hok' & _).
    eexists. split; [apply runs_bind; eexists _, _; by split|]. by split.
  - destruct (alloc_allocator_spec s a sz (p :: free) live Hok Hap) as (m' & Hr & Hok' & _).
    eexists. split; [apply runs_bind; eexists _, _; by split|]. split; [done|].
    eapply blocks_apart_perm; [|exact Hap]. cbn [fst snd]. solve_Permutation.
  - assert (blocks_apart a sz (p :: free ++ live')) as Hap'.
    { eapply blocks_apart_perm; [|exact Hap]. rewrite Hp. solve_Permutation. }
    destruct (free_allocator_spec s a sz p free live' Hok Hap') as (m' & Hr & Hok' & _).
    eexists. split; [apply runs_bind; eexists _, _; by split|]. by split.
  - destruct (write_live_spec s a sz p i v free live) as [Hr Hok']; [done..|].
    eexists. split; [apply runs_bind; eexists _, _; by split|]. by split.
Qed.

Lemma run_ops_simulates s a sz st ops rs st' :
  implements s a sz st -> stack_steps sz st ops rs st' ->
  exists s', runs (run_ops a ops) s rs s' /\ implements s' a sz st'.
Proof.
  intros Hi Hst. revert s Hi. induction Hst as [st|st op r st1 ops rs st2 H1 _ IH]; intros s Hi.
  - by exists s.
  - destruct (run_op_simulates _ _ _ _ _ _ _ Hi H1) as (s1 & Hr & Hi1).
    destruct (IH _ Hi1) as (s2 & Hrs & Hi2). exists s2. split; [|done].
    apply runs_bind. eexists _, _. split; [done|]. apply runs_bind. by eexists _, _.
Qed.

(** No object is made up or lost. *)
Lemma stack_steps_objects sz st ops rs st' :
  stack_steps sz st ops rs st' -> st.1 ++ st.2 ≡ₚ st'.1 ++ st'.2.
Proof.
  induction 1 as [|st op r st1 ops rs st2 H1 _ IH]; [done|]. rewrite <- IH. clear IH.
  destruct H1 as [| |p free live live' Hp|]; cbn [fst snd]; [done| |rewrite Hp|done]; solve_Permutation.
Qed.

(** C36: the allocator is a stack of free objects. Set up on a region that
    holds [n + 1] objects, it carries out any sequence of calls in which the
    client gives back objects it holds and writes into objects it holds, and
    answers as the stack does: NULL when no object is left, otherwise an
    object that is free. All objects, free or in use, are then still the
    [n + 1] objects of the region, apart from each other and from the
    allocator's header. *)
Theorem alloc_refines_stack s a len obj n ops rs st :
  4096 <= a /\ aligned 8 a -> 0 <= obj < 2 ^ 62 -> aligned 8 obj -> len < 2 ^ 64 ->
  let sz := Z.max obj sizeof_FreeNode in
  let objects := carve (S n) (a + sizeof_Allocator) sz in
  sz * Z.of_nat (S n) <= len - sizeof_Allocator < sz * Z.of_nat (S n) + sz ->
  stack_steps sz (objects, []) ops rs st ->
  exists s', runs (init_allocator a len obj ≫= fun a => run_ops a ops) s rs s'
    /\ allocator_ok (kv_mem s') a sz st.1 /\ blocks_apart a sz objects /\ st.1 ++ st.2 ≡ₚ objects.
Proof.
  intros Ha Hobj Hao Hlen sz objects Hr Hst.
  destruct (init_allocator_spec s a sz len obj n) as (m' & Hrun & Hi & _); [done..|].
  destruct (run_ops_simulates _ _ _ _ _ _ _ Hi Hst) as (s' & Hrs & Hok & Hap).
  pose proof (stack_steps_objects _ _ _ _ _ Hst) as Hp. cbn [fst snd] in Hp. rewrite app_nil_r in Hp.
  exists s'. split; [apply runs_bind; by eexists _, _|]. split; [done|]. split; [|done].
  eapply blocks_apart_perm; [symmetry; exact Hp|done].
Qed.

(** A region of 24 + 3 * 64 bytes: three objects, a fourth request fails, an
    object is written, given back and handed out again. *)
Lemma alloc_refines_stack_witness :
  exists s', runs (init_allocator 4096 216 64 ≫= fun a =>
      run_ops a [OpAlloc; OpAlloc; OpAlloc; OpAlloc; OpWrite 4184 8 7; OpFree 4184; OpAlloc])
    (mk_kv ∅ [] true [] [] []) [Some 4120; Some 4184; Some 4248; Some 0; None; None; Some 4184] s'
  /\ allocator_ok (kv_mem s') 4096 64 [] /\ blocks_apart 4096 64 [4120; 4184; 4248]
  /\ [4184; 4248; 4120] ≡ₚ [4120; 4184; 4248].
Proof.
  apply (alloc_refines_stack _ 4096 216 64 2 _ _ ([], [4184; 4248; 4120])); [done..|].
  eapply steps_cons; [apply step_alloc|]. eapply steps_cons; [apply step_alloc|].
  eapply steps_cons; [apply step_alloc|]. eapply steps_cons; [apply step_full|].
  eapply steps_cons; [apply step_write; [right; left|lia|reflexivity]|].
  eapply steps_cons; [apply (step_free _ _ _ _ [4248; 4120]); solve_Permutation|].
  eapply steps_cons; [apply step_alloc|]. apply steps_nil.
Defined.
