(* ===== verification/Siphash.v ===== *)
(** * Siphash: the hash function of the key-value store (apps/kvstore/siphash.c)

    SipHash with one compression round and two finalisation rounds, and its
    variant that ignores the case of ASCII letters. An input is the list of
    its bytes. [siphash_nocase_lowers] shows that the variant is the plain
    hash of the input in lower case. *)
From stdpp Require Import base list numbers.
From Stdlib Require Import ZArith Lia.
From S2P Require Import Prelude.

Definition siptlw (c : Z) : Z := if (65 <=? c) && (c <=? 90) then c + (97 - 65) else c.

Definition ROTL (x b : Z) : Z := Z.lor (shl64 x b) (shr64 x (64 - b)).

(** [p[i]] *)
Definition byte_at (p : list Z) (i : nat) : Z := default 0 (p !! i).

(** The 64-bit load of a little-endian machine. *)
Fixpoint le_word (n i : nat) (p : list Z) : Z :=
  match n with O => 0 | S n' => byte_at p i + 256 * le_word n' (S i) p end.
Definition U8TO64_LE (p : list Z) : Z := le_word 8 0 p.

Definition U8TO64_LE_NOCASE (p : list Z) : Z :=
  Z.lor (Z.lor (Z.lor (Z.lor (Z.lor (Z.lor (Z.lor
    (siptlw (byte_at p 0)) (shl64 (siptlw (byte_at p 1)) 8))
    (shl64 (siptlw (byte_at p 2)) 16)) (shl64 (siptlw (byte_at p 3)) 24))
    (shl64 (siptlw (byte_at p 4)) 32)) (shl64 (siptlw (byte_at p 5)) 40))
    (shl64 (siptlw (byte_at p 6)) 48)) (shl64 (siptlw (byte_at p 7)) 56).

Record sip := mk_sip { v0 : Z; v1 : Z; v2 : Z; v3 : Z }.
#[export] Instance eta_sip : Eta sip := fun r => mk_sip (v0 r) (v1 r) (v2 r) (v3 r).

Definition SIPROUND (s : sip) : sip :=
  let s := s <| v0 := u64 (v0 s + v1 s) |> in
  let s := s <| v1 := ROTL (v1 s) 13 |> in
  let s := s <| v1 := Z.lxor (v1 s) (v0 s) |> in
  let s := s <| v0 := ROTL (v0 s) 32 |> in
  let s := s <| v2 := u64 (v2 s + v3 s) |> in
  let s := s <| v3 := ROTL (v3 s) 16 |> in
  let s := s <| v3 := Z.lxor (v3 s) (v2 s) |> in
  let s := s <| v0 := u64 (v0 s + v3 s) |> in
  let s := s <| v3 := ROTL (v3 s) 21 |> in
  let s := s <| v3 := Z.lxor (v3 s) (v0 s) |> in
  let s := s <| v2 := u64 (v2 s + v1 s) |> in
  let s := s <| v1 := ROTL (v1 s) 17 |> in
  let s := s <| v1 := Z.lxor (v1 s) (v2 s) |> in
  s <| v2 := ROTL (v2 s) 32 |>.

(** The state the key sets up. *)
Definition sip_init (k : list Z) : sip :=
  let k0 := U8TO64_LE k in
  let k1 := U8TO64_LE (drop 8 k) in
  mk_sip (Z.lxor 0x736f6d6570736575 k0) (Z.lxor 0x646f72616e646f6d k1)
         (Z.lxor 0x6c7967656e657261 k0) (Z.lxor 0x7465646279746573 k1).

(** [v3 ^= m; SIPROUND; v0 ^= m] *)
Definition sip_word (m : Z) (s : sip) : sip :=
  let s := SIPROUND (s <| v3 := Z.lxor (v3 s) m |>) in
  s <| v0 := Z.lxor (v0 s) m |>.

(** [v2 ^= 0xff], two rounds and the digest. *)
Definition sip_final (s : sip) : Z :=
  let s := SIPROUND (SIPROUND (s <| v2 := Z.lxor (v2 s) 0xff |>)) in
  Z.lxor (Z.lxor (Z.lxor (v0 s) (v1 s)) (v2 s)) (v3 s).

(** [for (; in != end; in += 8)]: [n] words, read with [rd]. *)
Fixpoint sip_words (rd : list Z -> Z) (n : nat) (inp : list Z) (s : sip) : list Z * sip :=
  match n with
  | O => (inp, s)
  | S n' => sip_words rd n' (drop 8 inp) (sip_word (rd inp) s)
  end.

(** [switch (left)], each case falling through to the next. *)
Fixpoint sip_tail (tr : Z -> Z) (left : nat) (inp : list Z) (b : Z) : Z :=
  match left with
  | O => b
  | S i => sip_tail tr i inp (Z.lor b (shl64 (tr (byte_at inp i)) (8 * Z.of_nat i)))
  end.

Definition siphash (inp k : list Z) : Z :=
  let inlen := Z.of_nat (length inp) in
  let left := Z.land inlen 7 in
  let b := shl64 inlen 56 in
  let (inp', s) := sip_words U8TO64_LE (Z.to_nat ((inlen - inlen mod 8) / 8)) inp (sip_init k) in
  sip_final (sip_word (sip_tail (fun c => c) (Z.to_nat left) inp' b) s).

Definition siphash_nocase (inp k : list Z) : Z :=
  let inlen := Z.of_nat (length inp) in
  let left := Z.land inlen 7 in
  let b := shl64 inlen 56 in
  let (inp', s) := sip_words U8TO64_LE_NOCASE (Z.to_nat ((inlen - inlen mod 8) / 8)) inp (sip_init k) in
  sip_final (sip_word (sip_tail siptlw (Z.to_nat left) inp' b) s).

(** ** Lemmas *)

Definition is_byte (c : Z) : Prop := 0 <= c < 256.

Lemma siptlw_byte c : is_byte c -> is_byte (siptlw c).
Proof. unfold is_byte, siptlw. intros. cases_cmp; cbn; lia. Qed.

Lemma byte_at_fmap f p i : f 0 = 0 -> byte_at (f <$> p) i = f (byte_at p i).
Proof. intros Hf. unfold byte_at. rewrite list_lookup_fmap. by destruct (p !! i). Qed.

Lemma byte_at_byte p i : Forall is_byte p -> is_byte (byte_at p i).
Proof.
  intros H. unfold byte_at. destruct (p !! i) eqn:E; [|unfold is_byte; cbn; lia].
  by apply (Forall_lookup_1 _ _ _ _ H E).
Qed.

(** Parts of a word that do not overlap: [|] adds them. *)
Lemma lor_shl64_add a c i :
  0 <= i <= 56 -> 0 <= a < 2 ^ i -> is_byte c ->
  Z.lor a (shl64 c i) = a + c * 2 ^ i /\ 0 <= a + c * 2 ^ i < 2 ^ (i + 8).
Proof.
  intros Hi Ha Hc. unfold is_byte in Hc. rewrite Z.pow_add_r by lia.
  assert (2 ^ i <= 2 ^ 56) by (apply Z.pow_le_mono_r; lia).
  change (2 ^ 56) with 72057594037927936 in *.
  unfold shl64. rewrite Z.shiftl_mul_pow2 by lia.
  rewrite u64_small by (change (2 ^ 64) with 18446744073709551616; nia).
  split; [|change (2 ^ 8) with 256; nia].
  assert (Z.land a (c * 2 ^ i) = 0) as Hz.
  { apply Z.bits_inj'. intros j Hj. rewrite Z.land_spec, Z.testbit_0_l, <- Z.shiftl_mul_pow2 by lia.
    rewrite <- (wrap_small i a), testbit_wrap, Z.shiftl_spec by lia.
    destruct (Z.ltb_spec j i); [|done]. rewrite (Z.testbit_neg_r c) by lia. apply andb_false_r. }
  by rewrite <- Z.lxor_lor, <- Z.add_nocarry_lxor.
Qed.

Lemma lor_bytes_add c0 c1 c2 c3 c4 c5 c6 c7 :
  is_byte c0 -> is_byte c1 -> is_byte c2 -> is_byte c3 -> is_byte c4 -> is_byte c5 -> is_byte c6 -> is_byte c7 ->
  Z.lor (Z.lor (Z.lor (Z.lor (Z.lor (Z.lor (Z.lor c0 (shl64 c1 8)) (shl64 c2 16)) (shl64 c3 24))
    (shl64 c4 32)) (shl64 c5 40)) (shl64 c6 48)) (shl64 c7 56)
  = c0 + 256 * (c1 + 256 * (c2 + 256 * (c3 + 256 * (c4 + 256 * (c5 + 256 * (c6 + 256 * (c7 + 256 * 0))))))).
Proof.
  intros H0 B1 B2 B3 B4 B5 B6 B7. unfold is_byte in H0.
  destruct (lor_shl64_add c0 c1 8 ltac:(lia) H0 B1) as [-> H1].
  destruct (lor_shl64_add _ c2 16 ltac:(lia) H1 B2) as [-> H2].
  destruct (lor_shl64_add _ c3 24 ltac:(lia) H2 B3) as [-> H3].
  destruct (lor_shl64_add _ c4 32 ltac:(lia) H3 B4) as [-> H4].
  destruct (lor_shl64_add _ c5 40 ltac:(lia) H4 B5) as [-> H5].
  destruct (lor_shl64_add _ c6 48 ltac:(lia) H5 B6) as [-> H6].
  destruct (lor_shl64_add _ c7 56 ltac:(lia) H6 B7) as [-> H7].
  lia.
Qed.

(** Reading eight bytes and lowering them is reading the lowered bytes. *)
Lemma U8TO64_LE_NOCASE_lowers p :
  Forall is_byte p -> U8TO64_LE_NOCASE p = U8TO64_LE (siptlw <$> p).
Proof.
  intros Hp. pose proof (fun i => siptlw_byte _ (byte_at_byte p i Hp)) as Hb.
  unfold U8TO64_LE. cbn [le_word]. rewrite !byte_at_fmap by done. unfold U8TO64_LE_NOCASE.
  by apply lor_bytes_add.
Qed.

Lemma sip_words_lowers n p s :
  Forall is_byte p ->
  sip_words U8TO64_LE n (siptlw <$> p) s = (siptlw <$> (sip_words U8TO64_LE_NOCASE n p s).1, (sip_words U8TO64_LE_NOCASE n p s).2).
Proof.
  revert p s. induction n as [|n IH]; intros p s Hp; cbn [sip_words]; [done|].
  rewrite <- fmap_drop, IH, U8TO64_LE_NOCASE_lowers by (done || by apply Forall_drop). done.
Qed.

Lemma sip_tail_lowers n p b : sip_tail (fun c => c) n (siptlw <$> p) b = sip_tail siptlw n p b.
Proof.
  revert b. induction n as [|n IH]; intros b; cbn [sip_tail]; [done|].
  by rewrite byte_at_fmap, IH.
Qed.

(** [siphash_nocase] is [siphash] of the input with its capital letters
    lowered, for every input and key; so inputs that differ in case only have
    the same hash. *)
Theorem siphash_nocase_lowers inp k :
  Forall is_byte inp -> siphash_nocase inp k = siphash (siptlw <$> inp) k.
Proof.
  intros Hp. unfold siphash_nocase, siphash. rewrite length_fmap, sip_words_lowers by done.
  destruct (sip_words U8TO64_LE_NOCASE _ _ _) as [inp' s]. cbn [fst snd].
  by rewrite sip_tail_lowers.
Qed.

(** "HELLO world" under the key "1234567812345678", as in the source's test. *)
Definition hello_upper : list Z := [72; 69; 76; 76; 79; 32; 119; 111; 114; 108; 100].
Definition hello_key : list Z := [49; 50; 51; 52; 53; 54; 55; 56; 49; 50; 51; 52; 53; 54; 55; 56].
Lemma siphash_nocase_lowers_witness :
  Forall is_byte hello_upper
  /\ siphash_nocase hello_upper hello_key = siphash (siptlw <$> hello_upper) hello_key
  /\ siphash_nocase hello_upper hello_key <> siphash hello_upper hello_key.
Proof.
  assert (Forall is_byte hello_upper) as H by (unfold hello_upper, is_byte; repeat constructor; lia).
  split; [exact H|]. split; [apply (siphash_nocase_lowers hello_upper hello_key H)|].
  vm_compute. congruence.
Defined.
