(* ===== verification/KvStrings.v ===== *)
(** * KvStrings: bytes and C strings in the store's memory

    [bytes_at m p bs]: the bytes from [p] on are [bs]; [str_at m p x]: a
    string. Reading gives them back, and writing bytes stores them and
    changes no other byte. *)
From stdpp Require Import base gmap list numbers.
From Stdlib Require Import ZArith Lia.
From S2P Require Import Prelude Mem KvMem Siphash.

(** The word that holds the byte at [a]; the byte. *)
Definition word_of (a : Z) : Z := a - a mod 8.
Definition byte (m : gmap Z Z) (a : Z) : Z := byte_of (ld m (word_of a)) (a mod 8).

Definition bytes_at (m : gmap Z Z) (p : Z) (bs : list Z) : Prop :=
  forall i c, bs !! i = Some c -> byte m (p + Z.of_nat i) = c.

(** A string of non-zero bytes and its terminator. *)
Definition str_at (m : gmap Z Z) (p : Z) (x : list Z) : Prop :=
  4096 <= p /\ bytes_at m p (x ++ [0]) /\ Forall (fun c => c <> 0) x.

(** ** Reading *)

Lemma word_of_spec a : word_of a <= a < word_of a + 8 /\ aligned 8 (word_of a).
Proof.
  unfold word_of, aligned. pose proof (Z.mod_pos_bound a 8 ltac:(lia)). split; [lia|].
  rewrite Zminus_mod_idemp_r, Z.sub_diag. done.
Qed.

Lemma word_of_ok a : 4096 <= a -> kaddr_ok (word_of a) = true.
Proof.
  intros Ha. destruct (word_of_spec a) as [Hr Hal]. apply kaddr_ok_iff. split; [|done].
  destruct (aligned_exists 8 (word_of a) ltac:(lia) Hal) as [q Hq]. lia.
Qed.

Lemma kload8_ok s a : 4096 <= a -> kload8 a s = Done (byte (kv_mem s) a, s).
Proof. intros Ha. unfold kload8. by rewrite bind_kload by (by apply word_of_ok). Qed.

Lemma bytes_at_cons m p c bs : bytes_at m p (c :: bs) <-> byte m p = c /\ bytes_at m (p + 1) bs.
Proof.
  split.
  - intros H. split; [specialize (H 0%nat c eq_refl); by rewrite Z.add_0_r in H|].
    intros i c' Hi. specialize (H (S i) c' Hi). rewrite <- H. f_equal. lia.
  - intros [<- H] [|i] c' Hi; [injection Hi as <-; f_equal; lia|]. rewrite <- (H i c' Hi). f_equal. lia.
Qed.

Lemma str_at_cons m p c x : str_at m p (c :: x) <-> 4096 <= p /\ byte m p = c /\ c <> 0 /\ str_at m (p + 1) x.
Proof.
  unfold str_at. cbn [app]. rewrite bytes_at_cons, list.Forall_cons. intuition lia.
Qed.

Lemma str_at_nil m p : str_at m p [] <-> 4096 <= p /\ byte m p = 0.
Proof.
  unfold str_at. cbn [app]. rewrite bytes_at_cons. split; [tauto|]. intros [? ?]. split; [done|].
  split; [split; [done|by intros ? ? ?]|constructor].
Qed.

Lemma kstring_runs s fuel p x : str_at (kv_mem s) p x -> (length x < fuel)%nat -> runs (kstring fuel p) s x s.
Proof.
  revert p x. induction fuel as [|fuel IH]; intros p x Hx Hl; [lia|]. unfold runs. cbn [kstring].
  destruct x as [|c x].
  - apply str_at_nil in Hx as [Hp Hb]. unfold mbind, cmd_bind. by rewrite kload8_ok, Hb.
  - apply str_at_cons in Hx as (Hp & Hb & Hc & Hx). unfold mbind at 1, cmd_bind at 1. rewrite kload8_ok, Hb by done.
    rewrite (proj2 (Z.eqb_neq c 0)) by done. unfold mbind, cmd_bind.
    cbn in Hl. by rewrite (IH (p + 1) x Hx ltac:(lia)).
Qed.

Lemma kstrlen_runs s fuel p x :
  str_at (kv_mem s) p x -> (length x < fuel)%nat -> runs (kstrlen fuel p) s (Z.of_nat (length x)) s.
Proof.
  intros Hx Hl. unfold runs, kstrlen. pose proof (kstring_runs s fuel p x Hx Hl) as Hr.
  unfold mbind, cmd_bind. by rewrite Hr.
Qed.

Lemma kbytes_runs s p bs : 4096 <= p -> bytes_at (kv_mem s) p bs -> runs (kbytes (length bs) p) s bs s.
Proof.
  revert p. induction bs as [|c bs IH]; intros p Hp Hb; [done|]. apply bytes_at_cons in Hb as [Hc Hb].
  unfold runs. cbn [length kbytes]. unfold mbind, cmd_bind. rewrite kload8_ok, Hc by done.
  by rewrite (IH (p + 1) ltac:(lia) Hb).
Qed.

(** There is one string at an address. *)
Lemma str_at_unique m p x y : str_at m p x -> str_at m p y -> x = y.
Proof.
  revert p y. induction x as [|c x IH]; intros p [|c' y] Hx Hy; [done|..].
  - apply str_at_nil in Hx as [_ Hx]. apply str_at_cons in Hy as (_ & Hy & Hc & _). congruence.
  - apply str_at_nil in Hy as [_ Hy]. apply str_at_cons in Hx as (_ & Hx & Hc & _). congruence.
  - apply str_at_cons in Hx as (_ & <- & _ & Hx). apply str_at_cons in Hy as (_ & <- & _ & Hy).
    f_equal. by eapply IH.
Qed.

(** Bytes depend on the words they are in. *)
Lemma bytes_at_frame m m' p bs :
  bytes_at m p bs ->
  (forall a, p <= a < p + Z.of_nat (length bs) -> ld m' (word_of a) = ld m (word_of a)) -> bytes_at m' p bs.
Proof.
  intros Hb Hw i c Hi. rewrite <- (Hb i c Hi). unfold byte. rewrite Hw; [done|].
  pose proof (lookup_lt_Some _ _ _ Hi). lia.
Qed.

Lemma str_at_frame m m' p x :
  str_at m p x ->
  (forall a, p <= a < p + Z.of_nat (length x) + 1 -> ld m' (word_of a) = ld m (word_of a)) -> str_at m' p x.
Proof.
  intros (Hp & Hb & Hn) Hw. split; [done|]. split; [|done]. eapply bytes_at_frame; [exact Hb|].
  rewrite length_app. cbn. intros a Ha. apply Hw. lia.
Qed.

(** ** Writing *)

Lemma byte_range m a : 0 <= byte m a < 256.
Proof. unfold byte, byte_of. apply (wrap_range 8). lia. Qed.

Lemma testbit_byte_of w i j : 0 <= i < 8 -> 0 <= j -> Z.testbit (byte_of w i) j = (j <? 8) && Z.testbit w (j + 8 * i).
Proof.
  intros Hi Hj. unfold byte_of, u8. rewrite testbit_wrap, Z.shiftr_spec by lia. done.
Qed.

(** Storing a byte in a word of 64 bits. *)
Lemma byte_of_store w v i j :
  0 <= i < 8 -> 0 <= j < 8 -> 0 <= v < 256 ->
  byte_of (Z.lor (Z.land w (not64 (Z.shiftl 255 (8 * i)))) (Z.shiftl (u8 v) (8 * i))) j
  = if i =? j then v else byte_of w j.
Proof.
  intros Hi Hj Hv. rewrite u8_small by (change (2 ^ 8) with 256; lia).
  assert (forall n, 0 <= n -> Z.testbit 255 n = (n <? 8)) as H255.
  { intros n Hn. change 255 with (Z.ones 8). by rewrite testbit_ones64. }
  assert (forall n, 8 <= n -> Z.testbit v n = false) as Hvhi.
  { intros n Hn. rewrite <- (u8_small v) by (change (2 ^ 8) with 256; lia). unfold u8.
    rewrite testbit_wrap by lia. destruct (Z.ltb_spec n 8); [lia|done]. }
  apply Z.bits_inj'. intros n Hn. rewrite testbit_byte_of by lia.
  rewrite Z.lor_spec, Z.land_spec, testbit_not64, !Z.shiftl_spec by lia.
  destruct (Z.eqb_spec i j) as [->|Hne].
  - replace (n + 8 * j - 8 * j) with n by lia. rewrite H255 by lia.
    destruct (Z.ltb_spec n 8); cbn; [|by rewrite Hvhi].
    by rewrite andb_false_r, andb_false_r.
  - rewrite testbit_byte_of by lia. destruct (Z.ltb_spec n 8); [|done]. cbn [andb].
    assert (n + 8 * j - 8 * i < 0 \/ 8 <= n + 8 * j - 8 * i) as [|] by lia.
    + rewrite (Z.testbit_neg_r 255), (Z.testbit_neg_r v) by lia. cases_cmp. cbn. by rewrite andb_true_r, orb_false_r.
    + rewrite H255, Hvhi by lia. cases_cmp. cbn. by rewrite andb_true_r, orb_false_r.
Qed.

(** [kstore8] changes one byte, in one word. *)
Lemma kstore8_runs s a v :
  4096 <= a -> 0 <= v < 256 ->
  exists m', runs (kstore8 a v) s tt (s <| kv_mem := m' |>)
    /\ (forall b, byte m' b = if a =? b then v else byte (kv_mem s) b)
    /\ forall x, x <> word_of a -> ld m' x = ld (kv_mem s) x.
Proof.
  intros Ha Hv. pose proof (word_of_ok a Ha) as Hk. eexists. split; [|split].
  - unfold runs, kstore8. rewrite bind_kload by done. cbv zeta. by rewrite kstore_ok.
  - intros b. unfold byte. rewrite ld_insert. fold (word_of a).
    pose proof (Z.mod_pos_bound a 8 ltac:(lia)). pose proof (Z.mod_pos_bound b 8 ltac:(lia)).
    destruct (Z.eqb_spec (word_of a) (word_of b)) as [Hw|Hw].
    + rewrite byte_of_store by done. rewrite <- Hw. unfold word_of in Hw. cases_cmp; done.
    + destruct (Z.eqb_spec a b) as [->|]; done.
  - intros x Hx. rewrite ld_insert. fold (word_of a). cases_cmp; done.
Qed.

Lemma kput_runs s p bs :
  4096 <= p -> Forall (fun c => 0 <= c < 256) bs ->
  exists m', runs (kput p bs) s tt (s <| kv_mem := m' |>)
    /\ bytes_at m' p bs
    /\ (forall b, ~ p <= b < p + Z.of_nat (length bs) -> byte m' b = byte (kv_mem s) b)
    /\ forall x, (forall a, p <= a < p + Z.of_nat (length bs) -> x <> word_of a) -> ld m' x = ld (kv_mem s) x.
Proof.
  revert s p. induction bs as [|c bs IH]; intros s p Hp Hb.
  - exists (kv_mem s). split; [by destruct s|]. by split; [intros ? ? ?|].
  - apply list.Forall_cons in Hb as [Hc Hb].
    destruct (kstore8_runs s p c Hp Hc) as (m1 & H1 & Hb1 & Hw1).
    destruct (IH (s <| kv_mem := m1 |>) (p + 1) ltac:(lia) Hb) as (m2 & H2 & Hb2 & Ho2 & Hw2). cbn [kv_mem] in *.
    exists m2. split; [|split; [|split]].
    + unfold runs. cbn [kput]. unfold mbind, cmd_bind. rewrite H1. exact H2.
    + apply bytes_at_cons. split; [|done]. rewrite Ho2, Hb1, Z.eqb_refl by lia. done.
    + intros b Hr. cbn [length] in Hr. rewrite Ho2, Hb1 by lia. cases_cmp.
    + intros x Hx. cbn [length] in Hx. rewrite Hw2, Hw1; [done|apply Hx; lia|intros a Ha; apply Hx; lia].
Qed.
