(* ===== verification/Dict.v ===== *)
(** * Dict: the hash table of the key-value store (apps/kvstore/dict.c, dict.h)

    A table of buckets, each a chain of entries, in the words of an area. The
    table lies behind the [struct dict] in the space it is given and cannot
    grow; the code for a second table and incremental rehashing is there, and
    modelled, but never set in motion since [dictExpand] always fails.
    [dictType] holds the callbacks of a dictionary, [None] where the pointer
    is NULL; a routine gets the callbacks of its dictionary as [ty]. Loops
    along a chain run at most [fuel] steps. The text of [dictGetStats] is not
    modelled. *)
From stdpp Require Import base gmap list numbers.
From Stdlib Require Import ZArith Lia.
From S2P Require Import Prelude Mem KvMem Siphash.

(** ** Layout *)

Definition DICT_OK : Z := 0.
Definition DICT_ERR : Z := 1.
Definition DICT_HT_INITIAL_SIZE : Z := 4.
Definition dict_force_resize_ratio : Z := 5.
Definition LONG_MAX : Z := 2 ^ 63 - 1.

(** [struct dictEntry] *)
Definition de_key : Z := 0.
Definition de_val : Z := 8.
Definition de_next : Z := 16.
Definition sizeof_dictEntry : Z := 24.

Record dictType := mk_dictType {
  dt_hashFunction : Z -> cmd kv Z;
  dt_keyDup : option (Z -> Z -> cmd kv Z);
  dt_valDup : option (Z -> Z -> cmd kv Z);
  dt_keyCompare : option (Z -> Z -> Z -> cmd kv Z);
  dt_keyDestructor : option (Z -> Z -> cmd kv unit);
  dt_valDestructor : option (Z -> Z -> cmd kv unit);
  dt_entryAlloc : option (Z -> cmd kv Z);
  dt_entryDestructor : option (Z -> Z -> cmd kv unit);
  dt_entryModed : option (Z -> Z -> cmd kv unit);
}.

(** [struct dictht] *)
Definition ht_table : Z := 0.
Definition ht_size : Z := 8.
Definition ht_sizemask : Z := 16.
Definition ht_used : Z := 24.

(** [struct dict] *)
Definition d_type : Z := 0.
Definition d_privdata : Z := 8.
Definition d_ht (i : Z) : Z := 16 + 32 * i.
Definition d_rehashidx : Z := 80.
Definition d_iterators : Z := 88.
Definition sizeof_dict : Z := 96.

(** ** Hash functions *)

Definition dictSetHashFunctionSeed (seed : list Z) : cmd kv unit :=
  modify (fun s => s <| kv_seed := take 16 seed |>).
Definition dictGetHashFunctionSeed : cmd kv (list Z) := gets kv_seed.
Definition dictGenHashFunction (key : list Z) : cmd kv Z := k ← gets kv_seed; mret (siphash key k).
Definition dictGenCaseHashFunction (buf : list Z) : cmd kv Z :=
  k ← gets kv_seed; mret (siphash_nocase buf k).

(** ** Sizes *)

(** [i *= 2] until [i >= size]; 61 doublings reach [LONG_MAX]. *)
Fixpoint next_power (n : nat) (i size : Z) : Z :=
  match n with
  | O => i
  | S n' => if size <=? i then i else next_power n' (u64 (i * 2)) size
  end.
Definition _dictNextPower (size : Z) : Z :=
  if LONG_MAX <=? size then LONG_MAX else next_power 62 DICT_HT_INITIAL_SIZE size.

Definition prev_power (size : Z) : Z :=
  let size := Z.lor size (shr64 size 1) in
  let size := Z.lor size (shr64 size 2) in
  let size := Z.lor size (shr64 size 4) in
  let size := Z.lor size (shr64 size 8) in
  let size := Z.lor size (shr64 size 16) in
  let size := Z.lor size (shr64 size 32) in
  size - shr64 size 1.
Definition _dictPrevPower (size : Z) : cmd kv Z :=
  if DICT_HT_INITIAL_SIZE <=? size then mret (prev_power size) else fail AssertFail.

(** [rev]: the rounds [s = 32, 16, .. 1]. *)
Fixpoint rev_rounds (n : nat) (s mask v : Z) : Z :=
  let s := Z.shiftr s 1 in
  if 0 <? s then
    match n with
    | O => v
    | S n' =>
        let mask := Z.lxor mask (shl64 mask s) in
        let v := Z.lor (Z.land (shr64 v s) mask) (Z.land (shl64 v s) (not64 mask)) in
        rev_rounds n' s mask v
    end
  else v.
Definition rev (v : Z) : Z := rev_rounds 6 64 (2 ^ 64 - 1) v.

Section dict.
Context (ty : dictType) (fuel : nat).

(** ** Callbacks *)

Definition call1 (f : option (Z -> Z -> cmd kv unit)) (d x : Z) : cmd kv unit :=
  match f with Some f => p ← kload (d + d_privdata); f p x | None => mret tt end.

Definition _dictFreeEntry (d e : Z) : cmd kv unit :=
  match dt_entryDestructor ty with
  | Some f => p ← kload (d + d_privdata); f p e
  | None => fail AssertFail
  end.
Definition _dictModed (d e : Z) : cmd kv unit := call1 (dt_entryModed ty) d e.

Definition dictFreeVal (d entry : Z) : cmd kv unit :=
  match dt_valDestructor ty with
  | Some f => p ← kload (d + d_privdata); v ← kload (entry + de_val); f p v
  | None => mret tt
  end.
Definition dictFreeKey (d entry : Z) : cmd kv unit :=
  match dt_keyDestructor ty with
  | Some f => p ← kload (d + d_privdata); k ← kload (entry + de_key); f p k
  | None => mret tt
  end.
Definition dictSetVal (d entry val : Z) : cmd kv unit :=
  match dt_valDup ty with
  | Some f => p ← kload (d + d_privdata); v ← f p val; kstore (entry + de_val) v
  | None => kstore (entry + de_val) val
  end.
Definition dictSetKey (d entry key : Z) : cmd kv unit :=
  match dt_keyDup ty with
  | Some f => p ← kload (d + d_privdata); k ← f p key; kstore (entry + de_key) k
  | None => kstore (entry + de_key) key
  end.
Definition dictCompareKeys (d key1 key2 : Z) : cmd kv bool :=
  match dt_keyCompare ty with
  | Some f => p ← kload (d + d_privdata); r ← f p key1 key2; mret (negb (r =? 0))
  | None => mret (key1 =? key2)
  end.
Definition dictHashKey (key : Z) : cmd kv Z := dt_hashFunction ty key.

Definition dictGetVal (he : Z) : cmd kv Z := kload (he + de_val).
Definition dictSlots (d : Z) : cmd kv Z :=
  a ← kload (d + d_ht 0 + ht_size); b ← kload (d + d_ht 1 + ht_size); mret (u64 (a + b)).
Definition dictSize (d : Z) : cmd kv Z :=
  a ← kload (d + d_ht 0 + ht_used); b ← kload (d + d_ht 1 + ht_used); mret (u64 (a + b)).
(** The word holds -1 as [2 ^ 64 - 1]. *)
Definition dictIsRehashing (d : Z) : cmd kv bool :=
  r ← kload (d + d_rehashidx); mret (negb (i64 r =? -1)).

(** ** Creation *)

Definition _dictReset (ht : Z) : cmd kv unit :=
  kstore (ht + ht_table) 0;; kstore (ht + ht_size) 0;;
  kstore (ht + ht_sizemask) 0;; kstore (ht + ht_used) 0.

Definition _dictInit (d type privDataPtr : Z) : cmd kv Z :=
  _dictReset (d + d_ht 0);;
  _dictReset (d + d_ht 1);;
  kstore (d + d_type) type;;
  kstore (d + d_privdata) privDataPtr;;
  kstore (d + d_rehashidx) (u64 (-1));;
  kstore (d + d_iterators) 0;;
  mret DICT_OK.

Definition _dictCreate (d size area : Z) : cmd kv Z :=
  realsize ← _dictPrevPower (size / 8);
  if realsize <? DICT_HT_INITIAL_SIZE then mret DICT_ERR
  else
    kstore (d + d_ht 0 + ht_table) area;;
    kstore (d + d_ht 0 + ht_size) realsize;;
    kstore (d + d_ht 0 + ht_sizemask) (realsize - 1);;
    kstore (d + d_ht 0 + ht_used) 0;;
    mret DICT_OK.

Definition dictCreate (type privDataPtr space size : Z) : cmd kv Z :=
  if size <? sizeof_dict then mret 0
  else
    let remaining := size - sizeof_dict in
    if remaining / 8 <? DICT_HT_INITIAL_SIZE then mret 0
    else
      _dictInit space type privDataPtr;;
      _dictCreate space remaining (space + sizeof_dict);;
      mret space.

Definition dictExpand (d size : Z) : cmd kv Z := mret DICT_ERR.

Definition dictResize (d : Z) : cmd kv Z :=
  can ← gets kv_can_resize;
  reh ← (if negb can then mret true else dictIsRehashing d);
  if negb can || reh then mret DICT_ERR
  else
    used ← kload (d + d_ht 0 + ht_used);
    let minimal := i32 used in
    let minimal := if minimal <? DICT_HT_INITIAL_SIZE then DICT_HT_INITIAL_SIZE else minimal in
    dictExpand d (u64 minimal).

Definition dictEnableResize : cmd kv unit := modify (fun s => s <| kv_can_resize := true |>).
Definition dictDisableResize : cmd kv unit := modify (fun s => s <| kv_can_resize := false |>).

(** ** Incremental rehashing *)

(** [&d->ht[i].table[j]] *)
Definition slot (d i j : Z) : cmd kv Z := t ← kload (d + d_ht i + ht_table); mret (t + 8 * j).

(** Skips empty buckets; [None] when [empty_visits] runs out. *)
Fixpoint rehash_skip (n : nat) (d empty_visits : Z) : cmd kv (option Z) :=
  match n with
  | O => fail NoFuel
  | S n' =>
      idx ← kload (d + d_rehashidx);
      a ← slot d 0 (i64 idx);
      he ← kload a;
      if he =? 0 then
        kstore (d + d_rehashidx) (u64 (idx + 1));;
        let empty_visits := i32 (empty_visits - 1) in
        if empty_visits =? 0 then mret None else rehash_skip n' d empty_visits
      else mret (Some empty_visits)
  end.

(** Moves the entries of a chain into [ht[1]]. *)
Fixpoint rehash_chain (n : nat) (d de : Z) : cmd kv unit :=
  match n with
  | O => fail NoFuel
  | S n' =>
      if de =? 0 then mret tt
      else
        nextde ← kload (de + de_next);
        key ← kload (de + de_key);
        hash ← dictHashKey key;
        mask ← kload (d + d_ht 1 + ht_sizemask);
        let h := u32 (Z.land hash mask) in
        a ← slot d 1 h;
        he ← kload a;
        kstore (de + de_next) he;;
        kstore a de;;
        u0 ← kload (d + d_ht 0 + ht_used);
        kstore (d + d_ht 0 + ht_used) (u64 (u0 - 1));;
        u1 ← kload (d + d_ht 1 + ht_used);
        kstore (d + d_ht 1 + ht_used) (u64 (u1 + 1));;
        rehash_chain n' d nextde
  end.

(** The outer loop; [true] when [empty_visits] ran out. *)
Fixpoint rehash_loop (m : nat) (d n empty_visits : Z) : cmd kv bool :=
  match m with
  | O => fail NoFuel
  | S m' =>
      used ← (if n =? 0 then mret 0 else kload (d + d_ht 0 + ht_used));
      if used =? 0 then mret false
      else
        size ← kload (d + d_ht 0 + ht_size);
        idx ← kload (d + d_rehashidx);
        (if idx <? size then mret tt else fail AssertFail);;
        r ← rehash_skip fuel d empty_visits;
        match r with
        | None => mret true
        | Some ev =>
            idx ← kload (d + d_rehashidx);
            a ← slot d 0 (i64 idx);
            de ← kload a;
            rehash_chain fuel d de;;
            kstore a 0;;
            kstore (d + d_rehashidx) (u64 (idx + 1));;
            rehash_loop m' d (n - 1) ev
        end
  end.

(** [free] of the old table gives memory back to the C library, which no
    modelled word belongs to. *)
Definition dictRehash (d n : Z) : cmd kv Z :=
  let empty_visits := i32 (n * 10) in
  reh ← dictIsRehashing d;
  if negb reh then mret 0
  else
    out ← rehash_loop fuel d n empty_visits;
    if (out : bool) then mret 1
    else
      used ← kload (d + d_ht 0 + ht_used);
      if used =? 0 then
        t ← kload (d + d_ht 1 + ht_table); sz ← kload (d + d_ht 1 + ht_size);
        sm ← kload (d + d_ht 1 + ht_sizemask); us ← kload (d + d_ht 1 + ht_used);
        kstore (d + d_ht 0 + ht_table) t;; kstore (d + d_ht 0 + ht_size) sz;;
        kstore (d + d_ht 0 + ht_sizemask) sm;; kstore (d + d_ht 0 + ht_used) us;;
        _dictReset (d + d_ht 1);;
        kstore (d + d_rehashidx) (u64 (-1));;
        mret 0
      else mret 1.

Definition timeInMilliseconds : cmd kv Z :=
  tv ← gettimeofday; mret (i64 (tv.1 * 1000 + Z.quot tv.2 1000)).

Fixpoint rehash_ms (n : nat) (d start ms rehashes : Z) : cmd kv Z :=
  match n with
  | O => fail NoFuel
  | S n' =>
      r ← dictRehash d 100;
      if r =? 0 then mret rehashes
      else
        let rehashes := i32 (rehashes + 100) in
        now ← timeInMilliseconds;
        if ms <? now - start then mret rehashes else rehash_ms n' d start ms rehashes
  end.
Definition dictRehashMilliseconds (d ms : Z) : cmd kv Z :=
  start ← timeInMilliseconds;
  rehash_ms fuel d start ms 0.

Definition _dictRehashStep (d : Z) : cmd kv unit :=
  it ← kload (d + d_iterators);
  when (it =? 0) (dictRehash d 1;; mret tt).

(** [if (dictIsRehashing(d)) _dictRehashStep(d);] *)
Definition rehash_if_rehashing (d : Z) : cmd kv unit :=
  reh ← dictIsRehashing d; when reh (_dictRehashStep d).

(** ** Lookup *)

(** The entry of [key] on the chain from [he], NULL if there is none. *)
Fixpoint find_chain (n : nat) (d key he : Z) : cmd kv Z :=
  match n with
  | O => fail NoFuel
  | S n' =>
      if he =? 0 then mret 0
      else
        k ← kload (he + de_key);
        same ← (if key =? k then mret true else dictCompareKeys d key k);
        if (same : bool) then mret he
        else nx ← kload (he + de_next); find_chain n' d key nx
  end.

(** [idx = h & d->ht[table].sizemask] *)
Definition bucket_of (d table h : Z) : cmd kv Z :=
  mask ← kload (d + d_ht table + ht_sizemask); mret (u32 (Z.land h mask)).

(** Searches bucket [h] of [table]: its index and the entry found. *)
Definition find_table (d table key h : Z) : cmd kv (Z * Z) :=
  idx ← bucket_of d table h;
  a ← slot d table idx;
  he ← kload a;
  r ← find_chain fuel d key he;
  mret (idx, r).

Definition dictFind (d key : Z) : cmd kv Z :=
  n ← dictSize d;
  if n =? 0 then mret 0
  else
    rehash_if_rehashing d;;
    hash ← dictHashKey key;
    let h := u32 hash in
    r0 ← find_table d 0 key h;
    if negb (r0.2 =? 0) then mret r0.2
    else
      reh ← dictIsRehashing d;
      if negb reh then mret 0
      else r1 ← find_table d 1 key h; mret r1.2.

Definition dictFetchValue (d key : Z) : cmd kv Z :=
  he ← dictFind d key;
  if he =? 0 then mret 0 else dictGetVal he.

(** ** Insertion *)

Definition _dictExpandIfNeeded (d : Z) : cmd kv Z :=
  reh ← dictIsRehashing d;
  if (reh : bool) then mret DICT_OK
  else
    size ← kload (d + d_ht 0 + ht_size);
    if size =? 0 then dictExpand d DICT_HT_INITIAL_SIZE
    else
      used ← kload (d + d_ht 0 + ht_used);
      can ← gets kv_can_resize;
      if (size <=? used) && (can || (dict_force_resize_ratio <? used / size))
      then dictExpand d (u64 (used * 2))
      else mret DICT_OK.

(** The index returned and the value left in [*existing]. *)
Definition _dictKeyIndex (d key hash : Z) : cmd kv (Z * Z) :=
  r ← _dictExpandIfNeeded d;
  if r =? DICT_ERR then mret (-1, 0)
  else
    r0 ← find_table d 0 key hash;
    if negb (r0.2 =? 0) then mret (-1, r0.2)
    else
      reh ← dictIsRehashing d;
      if negb reh then mret (i32 r0.1, 0)
      else
        r1 ← find_table d 1 key hash;
        if negb (r1.2 =? 0) then mret (-1, r1.2) else mret (i32 r1.1, 0).

(** The entry added and the value left in [*existing]. *)
Definition dictAddRaw (d key : Z) : cmd kv (Z * Z) :=
  rehash_if_rehashing d;;
  hash ← dictHashKey key;
  r ← _dictKeyIndex d key (u32 hash);
  let index := r.1 in
  if index =? -1 then mret (0, r.2)
  else
    reh ← dictIsRehashing d;
    let ht := if (reh : bool) then 1 else 0 in
    entry ← match dt_entryAlloc ty with
            | Some f => p ← kload (d + d_privdata); f p
            | None => fail AssertFail
            end;
    a ← slot d ht index;
    he ← kload a;
    kstore (entry + de_next) he;;
    kstore a entry;;
    _dictModed d a;;
    used ← kload (d + d_ht ht + ht_used);
    kstore (d + d_ht ht + ht_used) (u64 (used + 1));;
    dictSetKey d entry key;;
    mret (entry, r.2).

Definition dictAdd (d key val : Z) : cmd kv Z :=
  r ← dictAddRaw d key;
  if r.1 =? 0 then mret DICT_ERR
  else dictSetVal d r.1 val;; mret DICT_OK.

(** [auxentry] is a copy of the entry on the stack, freed by its value. *)
Definition dictReplace (d key val : Z) : cmd kv Z :=
  r ← dictAddRaw d key;
  let existing := r.2 in
  if negb (r.1 =? 0) then dictSetVal d r.1 val;; mret 1
  else
    kload (existing + de_key);;
    old ← kload (existing + de_val);
    kload (existing + de_next);;
    dictSetVal d existing val;;
    (match dt_valDestructor ty with
     | Some f => p ← kload (d + d_privdata); f p old
     | None => mret tt
     end);;
    mret 0.

Definition dictAddOrFind (d key : Z) : cmd kv Z :=
  r ← dictAddRaw d key; mret (if negb (r.1 =? 0) then r.1 else r.2).

(** ** Removal *)

Definition dictFreeUnlinkedEntry (d he : Z) : cmd kv unit :=
  if he =? 0 then mret tt
  else dictFreeKey d he;; dictFreeVal d he;; _dictFreeEntry d he.

(** [link] is the word that points to [he]: the bucket, or the [next] field
    of the entry before. *)
Fixpoint delete_chain (n : nat) (d table key : Z) (nofree : bool) (link he : Z) : cmd kv Z :=
  match n with
  | O => fail NoFuel
  | S n' =>
      if he =? 0 then mret 0
      else
        k ← kload (he + de_key);
        same ← (if key =? k then mret true else dictCompareKeys d key k);
        if (same : bool) then
          nx ← kload (he + de_next);
          kstore link nx;;
          _dictModed d link;;
          when (negb nofree) (dictFreeKey d he;; dictFreeVal d he;; _dictFreeEntry d he);;
          used ← kload (d + d_ht table + ht_used);
          kstore (d + d_ht table + ht_used) (u64 (used - 1));;
          mret he
        else nx ← kload (he + de_next); delete_chain n' d table key nofree (he + de_next) nx
  end.

Definition delete_table (d table key h : Z) (nofree : bool) : cmd kv Z :=
  idx ← bucket_of d table h;
  a ← slot d table idx;
  he ← kload a;
  delete_chain fuel d table key nofree a he.

Definition dictGenericDelete (d key : Z) (nofree : bool) : cmd kv Z :=
  u0 ← kload (d + d_ht 0 + ht_used);
  u1 ← kload (d + d_ht 1 + ht_used);
  if (u0 =? 0) && (u1 =? 0) then mret 0
  else
    rehash_if_rehashing d;;
    hash ← dictHashKey key;
    let h := u32 hash in
    r0 ← delete_table d 0 key h nofree;
    if negb (r0 =? 0) then mret r0
    else
      reh ← dictIsRehashing d;
      if negb reh then mret 0 else delete_table d 1 key h nofree.

Definition dictDelete (d key : Z) : cmd kv Z :=
  r ← dictGenericDelete d key false; mret (if negb (r =? 0) then DICT_OK else DICT_ERR).
Definition dictUnlink (d key : Z) : cmd kv Z := dictGenericDelete d key true.

(** Frees the entries of a chain. *)
Fixpoint clear_chain (n : nat) (d ht he : Z) : cmd kv unit :=
  match n with
  | O => fail NoFuel
  | S n' =>
      if he =? 0 then mret tt
      else
        nextHe ← kload (he + de_next);
        dictFreeKey d he;; dictFreeVal d he;; _dictFreeEntry d he;;
        used ← kload (ht + ht_used);
        kstore (ht + ht_used) (u64 (used - 1));;
        clear_chain n' d ht nextHe
  end.

Fixpoint clear_table (n : nat) (d ht i : Z) (callback : option (Z -> cmd kv unit)) : cmd kv unit :=
  match n with
  | O => fail NoFuel
  | S n' =>
      size ← kload (ht + ht_size);
      used ← kload (ht + ht_used);
      if (i <? size) && (0 <? used) then
        (match callback with
         | Some f => when (Z.land i 65535 =? 0) (p ← kload (d + d_privdata); f p)
         | None => mret tt
         end);;
        t ← kload (ht + ht_table);
        he ← kload (t + 8 * i);
        (if he =? 0 then mret tt else clear_chain fuel d ht he);;
        clear_table n' d ht (i + 1) callback
      else mret tt
  end.

Definition _dictClear (d ht : Z) (callback : option (Z -> cmd kv unit)) : cmd kv Z :=
  clear_table fuel d ht 0 callback;; _dictReset ht;; mret DICT_OK.

(** [assert(0)] comes first. *)
Definition dictRelease (d : Z) : cmd kv unit := fail AssertFail.

Definition dictEmpty (d : Z) (callback : option (Z -> cmd kv unit)) : cmd kv unit :=
  _dictClear d (d + d_ht 0) callback;;
  _dictClear d (d + d_ht 1) callback;;
  kstore (d + d_rehashidx) (u64 (-1));;
  kstore (d + d_iterators) 0.

Definition dictGetHash (key : Z) : cmd kv Z := h ← dictHashKey key; mret (u32 h).

(** The word that points to the entry whose key is the pointer [oldptr]. *)
Fixpoint find_ref (n : nat) (oldptr heref : Z) : cmd kv Z :=
  match n with
  | O => fail NoFuel
  | S n' =>
      he ← kload heref;
      if he =? 0 then mret 0
      else
        k ← kload (he + de_key);
        if oldptr =? k then mret heref else find_ref n' oldptr (he + de_next)
  end.
Definition dictFindEntryRefByPtrAndHash (d oldptr hash : Z) : cmd kv Z :=
  n ← dictSize d;
  if n =? 0 then mret 0
  else
    idx ← bucket_of d 0 hash;
    a ← slot d 0 idx;
    r ← find_ref fuel oldptr a;
    if negb (r =? 0) then mret r
    else
      reh ← dictIsRehashing d;
      if negb reh then mret 0
      else idx ← bucket_of d 1 hash; a ← slot d 1 idx; find_ref fuel oldptr a.

(** ** Iterators *)

(** One integer mixed into the fingerprint, in wrapping signed arithmetic. *)
Definition fingerprint_step (hash int : Z) : Z :=
  let hash := i64 (hash + int) in
  let hash := i64 (Z.lnot hash + i64 (Z.shiftl hash 21)) in
  let hash := Z.lxor hash (Z.shiftr hash 24) in
  let hash := i64 (i64 (hash + i64 (Z.shiftl hash 3)) + i64 (Z.shiftl hash 8)) in
  let hash := Z.lxor hash (Z.shiftr hash 14) in
  let hash := i64 (i64 (hash + i64 (Z.shiftl hash 2)) + i64 (Z.shiftl hash 4)) in
  let hash := Z.lxor hash (Z.shiftr hash 28) in
  i64 (hash + i64 (Z.shiftl hash 31)).

Definition dictFingerprint (d : Z) : cmd kv Z :=
  i0 ← kload (d + d_ht 0 + ht_table);
  i1 ← kload (d + d_ht 0 + ht_size);
  i2 ← kload (d + d_ht 0 + ht_used);
  i3 ← kload (d + d_ht 1 + ht_table);
  i4 ← kload (d + d_ht 1 + ht_size);
  i5 ← kload (d + d_ht 1 + ht_used);
  mret (fold_left fingerprint_step [i64 i0; i64 i1; i64 i2; i64 i3; i64 i4; i64 i5] 0).

(** An iterator is private to its user: its fields are passed along. *)
Record dictIterator := mk_iter {
  it_d : Z;
  it_index : Z;
  it_table : Z;
  it_safe : bool;
  it_entry : Z;
  it_nextEntry : Z;
  it_fingerprint : Z;
}.
#[export] Instance eta_iter : Eta dictIterator := fun r =>
  mk_iter (it_d r) (it_index r) (it_table r) (it_safe r) (it_entry r) (it_nextEntry r) (it_fingerprint r).

(** [fingerprint] is not initialised; 0 stands for what [malloc] left there. *)
Definition dictGetIterator (d : Z) : dictIterator := mk_iter d (-1) 0 false 0 0 0.
Definition dictGetSafeIterator (d : Z) : dictIterator := (dictGetIterator d) <| it_safe := true |>.

(** [iterators++] or the fingerprint, when the iteration starts. *)
Definition iter_start (it : dictIterator) : cmd kv dictIterator :=
  if (it_index it =? -1) && (it_table it =? 0) then
    if it_safe it then
      n ← kload (it_d it + d_iterators);
      kstore (it_d it + d_iterators) (u64 (n + 1));; mret it
    else f ← dictFingerprint (it_d it); mret (it <| it_fingerprint := f |>)
  else mret it.

Fixpoint iter_next (n : nat) (it : dictIterator) : cmd kv (Z * dictIterator) :=
  match n with
  | O => fail NoFuel
  | S n' =>
      let found (it : dictIterator) :=
        if it_entry it =? 0 then iter_next n' it
        else nx ← kload (it_entry it + de_next); mret (it_entry it, it <| it_nextEntry := nx |>) in
      if it_entry it =? 0 then
        it ← iter_start it;
        let it := it <| it_index := it_index it + 1 |> in
        size ← kload (it_d it + d_ht (it_table it) + ht_size);
        if i64 size <=? it_index it then
          reh ← dictIsRehashing (it_d it);
          if (reh : bool) && (it_table it =? 0) then
            let it := it <| it_table := it_table it + 1 |> <| it_index := 0 |> in
            a ← slot (it_d it) 1 (it_index it);
            e ← kload a;
            found (it <| it_entry := e |>)
          else mret (0, it)
        else
          a ← slot (it_d it) (it_table it) (it_index it);
          e ← kload a;
          found (it <| it_entry := e |>)
      else found (it <| it_entry := it_nextEntry it |>)
  end.
Definition dictNext (it : dictIterator) : cmd kv (Z * dictIterator) := iter_next fuel it.

Definition dictReleaseIterator (it : dictIterator) : cmd kv unit :=
  if negb ((it_index it =? -1) && (it_table it =? 0)) then
    if it_safe it then
      n ← kload (it_d it + d_iterators);
      kstore (it_d it + d_iterators) (u64 (n - 1))
    else
      f ← dictFingerprint (it_d it);
      if it_fingerprint it =? f then mret tt else fail AssertFail
  else mret tt.

(** ** Random entries *)

(** [do .. while (he == NULL)] with two tables, with one. *)
Fixpoint random_bucket2 (n : nat) (d : Z) : cmd kv Z :=
  match n with
  | O => fail NoFuel
  | S n' =>
      idx ← kload (d + d_rehashidx);
      r ← random;
      slots ← dictSlots d;
      (if u64 (slots - idx) =? 0 then fail DivByZero else mret tt);;
      size0 ← kload (d + d_ht 0 + ht_size);
      let h := u32 (idx + r mod u64 (slots - idx)) in
      a ← (if size0 <=? h then slot d 1 (h - size0) else slot d 0 h);
      he ← kload a;
      if he =? 0 then random_bucket2 n' d else mret he
  end.
Fixpoint random_bucket (n : nat) (d : Z) : cmd kv Z :=
  match n with
  | O => fail NoFuel
  | S n' =>
      r ← random;
      mask ← kload (d + d_ht 0 + ht_sizemask);
      let h := u32 (Z.land r mask) in
      a ← slot d 0 h;
      he ← kload a;
      if he =? 0 then random_bucket n' d else mret he
  end.

(** The length of a chain; the entry [k] steps along it. *)
Fixpoint chain_length (n : nat) (he : Z) : cmd kv Z :=
  match n with
  | O => fail NoFuel
  | S n' => if he =? 0 then mret 0 else nx ← kload (he + de_next); l ← chain_length n' nx; mret (l + 1)
  end.
Fixpoint chain_nth (k : nat) (he : Z) : cmd kv Z :=
  match k with O => mret he | S k' => nx ← kload (he + de_next); chain_nth k' nx end.

Definition dictGetRandomKey (d : Z) : cmd kv Z :=
  n ← dictSize d;
  if n =? 0 then mret 0
  else
    rehash_if_rehashing d;;
    reh ← dictIsRehashing d;
    he ← (if (reh : bool) then random_bucket2 fuel d else random_bucket fuel d);
    listlen ← chain_length fuel he;
    r ← random;
    chain_nth (Z.to_nat (r mod listlen)) he.

(** [for (j = 0; j < count; j++)] of rehashing steps. *)
Fixpoint rehash_steps (n : nat) (d : Z) : cmd kv unit :=
  match n with
  | O => mret tt
  | S n' => reh ← dictIsRehashing d; if (reh : bool) then _dictRehashStep d;; rehash_steps n' d else mret tt
  end.

(** Copies a chain to [des]; [true] when [count] entries are stored. *)
Fixpoint some_chain (n : nat) (he des stored count : Z) : cmd kv (bool * Z * Z) :=
  match n with
  | O => fail NoFuel
  | S n' =>
      if he =? 0 then mret (false, des, stored)
      else
        kstore des he;;
        nx ← kload (he + de_next);
        let des := des + 8 in let stored := stored + 1 in
        if stored =? count then mret (true, des, stored)
        else some_chain n' nx des stored count
  end.

Record sampler := mk_sampler { sm_i : Z; sm_emptylen : Z; sm_des : Z; sm_stored : Z; sm_done : bool }.
#[export] Instance eta_sampler : Eta sampler := fun r =>
  mk_sampler (sm_i r) (sm_emptylen r) (sm_des r) (sm_stored r) (sm_done r).

(** The body of the [for] over the tables. *)
Definition some_table (d tables j count maxsizemask : Z) (s : sampler) : cmd kv sampler :=
  idx ← kload (d + d_rehashidx);
  if (tables =? 2) && (j =? 0) && (sm_i s <? idx) then
    size1 ← kload (d + d_ht 1 + ht_size);
    mret (if size1 <=? sm_i s then s <| sm_i := idx |> else s)
  else
    size ← kload (d + d_ht j + ht_size);
    if size <=? sm_i s then mret s
    else
      a ← slot d j (sm_i s);
      he ← kload a;
      if he =? 0 then
        let s := s <| sm_emptylen := sm_emptylen s + 1 |> in
        if (5 <=? sm_emptylen s) && (count <? sm_emptylen s) then
          r ← random; mret (s <| sm_i := Z.land r maxsizemask |> <| sm_emptylen := 0 |>)
        else mret s
      else
        r ← some_chain fuel he (sm_des s) (sm_stored s) count;
        let '(stop, des, stored) := r in
        mret (s <| sm_emptylen := 0 |> <| sm_des := des |> <| sm_stored := stored |> <| sm_done := stop |>).

(** [while (stored < count && maxsteps--)]; [n] is [maxsteps]. *)
Fixpoint some_loop (n : nat) (d tables count maxsizemask : Z) (s : sampler) : cmd kv Z :=
  if sm_stored s <? count then
    match n with
    | O => mret (sm_stored s)
    | S n' =>
        s ← some_table d tables 0 count maxsizemask s;
        s ← (if sm_done s || (tables =? 1) then mret s else some_table d tables 1 count maxsizemask s);
        if sm_done s then mret (sm_stored s)
        else some_loop n' d tables count maxsizemask (s <| sm_i := Z.land (u64 (sm_i s + 1)) maxsizemask |>)
    end
  else mret (sm_stored s).

Definition dictGetSomeKeys (d des count : Z) : cmd kv Z :=
  n ← dictSize d;
  let count := if n <? count then u32 n else count in
  let maxsteps := u32 (count * 10) in
  rehash_steps (Z.to_nat count) d;;
  reh ← dictIsRehashing d;
  let tables := if (reh : bool) then 2 else 1 in
  m0 ← kload (d + d_ht 0 + ht_sizemask);
  m1 ← kload (d + d_ht 1 + ht_sizemask);
  let maxsizemask := if (1 <? tables) && (m0 <? m1) then m1 else m0 in
  r ← random;
  some_loop (Z.to_nat maxsteps) d tables count maxsizemask (mk_sampler (Z.land r maxsizemask) 0 des 0 false).

(** ** Scanning *)

Section scan.
Context (fn : Z -> Z -> cmd kv unit) (bucketfn : option (Z -> Z -> cmd kv unit)) (privdata : Z).

Fixpoint scan_chain (n : nat) (de : Z) : cmd kv unit :=
  match n with
  | O => fail NoFuel
  | S n' =>
      if de =? 0 then mret tt
      else next ← kload (de + de_next); fn privdata de;; scan_chain n' next
  end.

(** Emits the entries of bucket [i] of the table at [t]. *)
Definition scan_bucket (t i : Z) : cmd kv unit :=
  tb ← kload (t + ht_table);
  (match bucketfn with Some f => f privdata (tb + 8 * i) | None => mret tt end);;
  tb ← kload (t + ht_table);
  de ← kload (tb + 8 * i);
  scan_chain fuel de.

(** [do .. while (v & (m0 ^ m1))] over the larger table. *)
Fixpoint scan_expand (n : nat) (t1 v m0 m1 : Z) : cmd kv Z :=
  match n with
  | O => fail NoFuel
  | S n' =>
      scan_bucket t1 (Z.land v m1);;
      let v := Z.lor (Z.land (u64 (Z.lor v m0 + 1)) (not64 m0)) (Z.land v m0) in
      if Z.land v (Z.lxor m0 m1) =? 0 then mret v else scan_expand n' t1 v m0 m1
  end.

(** The cursor after [v] under the mask [m0]. *)
Definition scan_advance (v m0 : Z) : Z :=
  let v := Z.lor v (not64 m0) in
  let v := rev v in
  let v := u64 (v + 1) in
  rev v.

Definition dictScan (d v : Z) : cmd kv Z :=
  n ← dictSize d;
  if n =? 0 then mret 0
  else
    reh ← dictIsRehashing d;
    if negb reh then
      m0 ← kload (d + d_ht 0 + ht_sizemask);
      scan_bucket (d + d_ht 0) (Z.land v m0);;
      mret (scan_advance v m0)
    else
      size0 ← kload (d + d_ht 0 + ht_size);
      size1 ← kload (d + d_ht 1 + ht_size);
      let t0 := if size1 <? size0 then d + d_ht 1 else d + d_ht 0 in
      let t1 := if size1 <? size0 then d + d_ht 0 else d + d_ht 1 in
      m0 ← kload (t0 + ht_sizemask);
      m1 ← kload (t1 + ht_sizemask);
      scan_bucket t0 (Z.land v m0);;
      v ← scan_expand fuel t1 v m0 m1;
      mret (scan_advance v m0).
End scan.
End dict.
