(* ===== verification/DictBits.v ===== *)
(** * DictBits: the bit tricks of the hash table

    [_dictPrevPower] rounds down to a power of two, [rev] reverses the bits of
    a word, and the cursor of [dictScan], which counts in reversed bits, meets
    every bucket once. *)
From stdpp Require Import base list numbers.
From Stdlib Require Import ZArith Lia.
From S2P Require Import Prelude Mem KvMem Siphash Dict.

(** ** [_dictPrevPower] *)

(** [x] has bit [i] set iff one of the [n] bits of [z] from [i] on is set. *)
Definition smeared (z n x : Z) : Prop :=
  forall i, 0 <= i -> Z.testbit x i = true <-> exists j, i <= j < i + n /\ Z.testbit z j = true.

Lemma smeared_1 z : smeared z 1 z.
Proof.
  intros i Hi. split; [intros H; exists i; split; [lia|done]|].
  intros (j & Hj & H). by replace i with j by lia.
Qed.

Lemma smeared_double z n x : 0 <= n -> smeared z n x -> smeared z (n + n) (Z.lor x (shr64 x n)).
Proof.
  intros Hn Hx i Hi. rewrite Z.lor_spec, testbit_shr64, orb_true_iff by lia.
  rewrite (Hx i Hi), (Hx (i + n) ltac:(lia)). split.
  - intros [(j & Hj & H)|(j & Hj & H)]; exists j; (split; [lia|done]).
  - intros (j & Hj & H). destruct (Z.lt_ge_cases j (i + n)); [left|right]; exists j; (split; [lia|done]).
Qed.

(** All bits up to the leading one, then only the leading one. *)
Lemma smeared_ones z x :
  0 < z < 2 ^ 64 -> smeared z 64 x -> x = Z.ones (Z.log2 z + 1).
Proof.
  intros Hz Hx. pose proof (Z.log2_nonneg z). apply Z.bits_inj'. intros i Hi.
  rewrite testbit_ones64 by lia. destruct (Z.ltb_spec i (Z.log2 z + 1)) as [Hl|Hl].
  - apply Hx; [done|]. exists (Z.log2 z). split; [|apply Z.bit_log2; lia].
    assert (Z.log2 z < 64) by (apply Z.log2_lt_pow2; lia). lia.
  - apply not_true_is_false. intros H2. apply Hx in H2 as (j & Hj & H2); [|done].
    rewrite Z.bits_above_log2 in H2 by lia. done.
Qed.

Lemma prev_power_log2 z : 0 < z < 2 ^ 64 -> prev_power z = 2 ^ Z.log2 z.
Proof.
  intros Hz. unfold prev_power. pose proof (Z.log2_nonneg z).
  pose proof (smeared_double z 32 _ ltac:(lia) (smeared_double z 16 _ ltac:(lia)
    (smeared_double z 8 _ ltac:(lia) (smeared_double z 4 _ ltac:(lia) (smeared_double z 2 _ ltac:(lia)
    (smeared_double z 1 _ ltac:(lia) (smeared_1 z))))))) as Hs.
  change (32 + 32) with 64 in Hs. change (16 + 16) with 32 in Hs. change (8 + 8) with 16 in Hs.
  change (4 + 4) with 8 in Hs. change (2 + 2) with 4 in Hs. change (1 + 1) with 2 in Hs.
  cbv zeta. set (x := Z.lor _ (shr64 _ 32)) in *.
  rewrite (smeared_ones z x) by done.
  unfold shr64. rewrite Z.ones_equiv, Z.shiftr_div_pow2, Z.pow_add_r by lia.
  change (2 ^ 1) with 2. unfold Z.pred.
  replace ((2 ^ Z.log2 z * 2 + -1) / 2) with (2 ^ Z.log2 z - 1); [lia|].
  apply Z.div_unique with 1; lia.
Qed.

(** [_dictPrevPower] returns the largest power of two that is not above
    its argument; it asserts that the argument is at least 4. *)
Theorem dictPrevPower_largest s size :
  4 <= size < 2 ^ 64 ->
  exists k, runs (_dictPrevPower size) s (2 ^ k) s /\ 2 <= k < 64 /\ 2 ^ k <= size < 2 ^ (k + 1).
Proof.
  intros Hz. exists (Z.log2 size). pose proof (Z.log2_spec size ltac:(lia)) as Hl.
  split; [|split; [|exact Hl]].
  - unfold runs, _dictPrevPower, DICT_HT_INITIAL_SIZE. rewrite (proj2 (Z.leb_le 4 size)) by lia.
    by rewrite prev_power_log2 by lia.
  - split; [|apply Z.log2_lt_pow2; lia]. apply (Z.log2_le_mono 4). lia.
Qed.
Lemma dictPrevPower_largest_witness :
  exists k, runs (_dictPrevPower 100) (mk_kv ∅ [] true [] [] []) (2 ^ k) (mk_kv ∅ [] true [] [] [])
    /\ 2 <= k < 64 /\ 2 ^ k <= 100 < 2 ^ (k + 1).
Proof. apply (dictPrevPower_largest (mk_kv ∅ [] true [] [] []) 100). lia. Defined.

(** ** [rev] *)

(** A property of the bit numbers [0 .. 63] can be checked one by one. *)
Lemma bits64 (P : Z -> bool) : forallb P (seqZ 0 64) = true -> forall i, 0 <= i < 64 -> P i = true.
Proof. rewrite forallb_forall. intros H i Hi. apply H, list_elem_of_In, elem_of_seqZ. lia. Qed.

(** One round with [s] swaps the bits whose numbers differ in [s]. *)
Definition swaps (s mask : Z) : bool :=
  forallb (fun i => Bool.eqb (Z.testbit mask i) (Z.land i s =? 0)
    && (if Z.land i s =? 0 then (i + s =? Z.lxor i s) && (i + s <? 64) else (i - s =? Z.lxor i s) && (0 <=? i - s)))
    (seqZ 0 64).

Lemma rev_round s mask v i :
  swaps s mask = true -> 0 <= v < 2 ^ 64 -> 0 <= i < 64 -> 0 <= s ->
  Z.testbit (Z.lor (Z.land (shr64 v s) mask) (Z.land (shl64 v s) (not64 mask))) i = Z.testbit v (Z.lxor i s).
Proof.
  intros Hs Hv Hi Hs0. pose proof (bits64 _ Hs i Hi) as Hb. cbv beta in Hb.
  apply andb_true_iff in Hb as [Hm Hb]. apply eqb_prop in Hm.
  rewrite Z.lor_spec, !Z.land_spec, testbit_not64, testbit_shr64, testbit_shl64, Hm by lia.
  rewrite (proj2 (Z.ltb_lt i 64)) by lia.
  destruct (Z.land i s =? 0); apply andb_true_iff in Hb as [He Hb]; apply Z.eqb_eq in He; rewrite <- He;
    cbn; [by rewrite andb_true_r, andb_false_r, orb_false_r|by rewrite andb_false_r, andb_true_r].
Qed.

Definition swap_round (s mask v : Z) : Z :=
  Z.lor (Z.land (shr64 v s) mask) (Z.land (shl64 v s) (not64 mask)).

Lemma rev_unfold v :
  rev v = swap_round 1 0x5555555555555555 (swap_round 2 0x3333333333333333
    (swap_round 4 0x0F0F0F0F0F0F0F0F (swap_round 8 0x00FF00FF00FF00FF
    (swap_round 16 0x0000FFFF0000FFFF (swap_round 32 0x00000000FFFFFFFF v))))).
Proof. reflexivity. Qed.

Lemma rev_0 : rev 0 = 0.
Proof. vm_compute. reflexivity. Qed.

#[local] Opaque rev.

Lemma swap_round_range s mask v : 0 <= mask < 2 ^ 64 -> 0 <= v < 2 ^ 64 -> 0 <= swap_round s mask v < 2 ^ 64.
Proof.
  intros Hm Hv. unfold swap_round. apply lor_range; [lia|apply land_range_r; lia|].
  apply land_range_r; [lia|apply u64_range].
Qed.

Lemma rev_range v : 0 <= v < 2 ^ 64 -> 0 <= rev v < 2 ^ 64.
Proof. intros. rewrite rev_unfold. repeat apply swap_round_range; lia. Qed.

Lemma testbit_rev v i : 0 <= v < 2 ^ 64 -> 0 <= i < 64 -> Z.testbit (rev v) i = Z.testbit v (63 - i).
Proof.
  intros Hv Hi. rewrite rev_unfold.
  assert (forall s, forallb (fun i => (0 <=? Z.lxor i s) && (Z.lxor i s <? 64)) (seqZ 0 64) = true ->
    forall i, 0 <= i < 64 -> 0 <= Z.lxor i s < 64) as Hx.
  { intros s H j Hj. pose proof (bits64 _ H j Hj) as Hb. cbv beta in Hb.
    apply andb_true_iff in Hb as [?%Z.leb_le ?%Z.ltb_lt]. lia. }
  pose proof (Hx 1 eq_refl i Hi) as H1. pose proof (Hx 2 eq_refl _ H1) as H2.
  pose proof (Hx 4 eq_refl _ H2) as H3. pose proof (Hx 8 eq_refl _ H3) as H4.
  pose proof (Hx 16 eq_refl _ H4) as H5.
  do 6 (unfold swap_round at 1;
    rewrite rev_round by first [reflexivity | lia | repeat apply swap_round_range; lia]).
  f_equal. apply Z.eqb_eq.
  apply (bits64 (fun i => Z.lxor (Z.lxor (Z.lxor (Z.lxor (Z.lxor (Z.lxor i 1) 2) 4) 8) 16) 32 =? 63 - i)); done.
Qed.

Lemma rev_rev v : 0 <= v < 2 ^ 64 -> rev (rev v) = v.
Proof.
  intros Hv. pose proof (rev_range v Hv). apply word_eq; [by apply rev_range|done|].
  intros i Hi. rewrite !testbit_rev by lia. f_equal. lia.
Qed.

(** ** The cursor of [dictScan] *)

(** The cursor of step [n] of a scan of [2 ^ k] buckets: [n] in reversed bits. *)
Definition scan_cursor (k n : Z) : Z := rev ((n mod 2 ^ k) * 2 ^ (64 - k)).

Section cursor.
Context (k : Z) (Hk : 0 <= k < 64).

Lemma cursor_word n : 0 <= (n mod 2 ^ k) * 2 ^ (64 - k) < 2 ^ 64.
Proof.
  pose proof (Z.mod_pos_bound n (2 ^ k) ltac:(apply Z.pow_pos_nonneg; lia)).
  pose proof (Z.pow_pos_nonneg 2 (64 - k) ltac:(lia) ltac:(lia)).
  replace (2 ^ 64) with (2 ^ k * 2 ^ (64 - k)) by (rewrite <- Z.pow_add_r by lia; f_equal; lia). nia.
Qed.

(** Setting the low [64 - k] bits of a multiple of [2 ^ (64 - k)] adds them. *)
Lemma lor_low_ones a : Z.lor (a * 2 ^ (64 - k)) (Z.ones (64 - k)) = a * 2 ^ (64 - k) + 2 ^ (64 - k) - 1.
Proof.
  rewrite <- Z.add_sub_assoc. replace (2 ^ (64 - k) - 1) with (Z.ones (64 - k)) by (rewrite Z.ones_equiv; lia).
  rewrite Z.add_nocarry_lxor, Z.lxor_lor; [done|..]; apply Z.bits_inj'; intros i Hi;
    rewrite <- Z.shiftl_mul_pow2, Z.land_spec, Z.shiftl_spec, testbit_ones64, Z.testbit_0_l by lia;
    cases_cmp; rewrite ?andb_false_r; try done; by rewrite Z.testbit_neg_r by lia.
Qed.

Lemma scan_advance_cursor n : 0 <= n -> scan_advance (scan_cursor k n) (2 ^ k - 1) = scan_cursor k (n + 1).
Proof.
  intros Hn. unfold scan_advance. pose proof (cursor_word n) as Hw.
  set (a := n mod 2 ^ k) in *. pose proof (Z.pow_pos_nonneg 2 k ltac:(lia) ltac:(lia)) as Hp.
  assert (0 <= Z.lor (scan_cursor k n) (not64 (2 ^ k - 1)) < 2 ^ 64) as Hl.
  { apply lor_range; [lia|apply rev_range, Hw|apply u64_range]. }
  replace (rev (Z.lor (scan_cursor k n) (not64 (2 ^ k - 1)))) with (a * 2 ^ (64 - k) + 2 ^ (64 - k) - 1).
  - unfold scan_cursor. f_equal. replace (a * 2 ^ (64 - k) + 2 ^ (64 - k) - 1 + 1) with ((a + 1) * 2 ^ (64 - k)) by lia.
    unfold u64, wrap. replace (2 ^ 64) with (2 ^ k * 2 ^ (64 - k)) by (rewrite <- Z.pow_add_r by lia; f_equal; lia).
    rewrite Z.mul_mod_distr_r by (apply Z.pow_nonzero; lia). f_equal. unfold a. by rewrite Z.add_mod_idemp_l by lia.
  - rewrite <- lor_low_ones. apply word_eq; [|by apply rev_range|].
    { apply lor_range; [lia|done|]. rewrite Z.ones_equiv.
      assert (0 < 2 ^ (64 - k) <= 2 ^ 64) by (split; [apply Z.pow_pos_nonneg; lia|apply Z.pow_le_mono_r; lia]). lia. }
    intros i Hi. rewrite testbit_rev, !Z.lor_spec by done. unfold scan_cursor. rewrite testbit_rev by lia.
    fold a. replace (63 - (63 - i)) with i by lia. f_equal.
    replace (2 ^ k - 1) with (Z.ones k) by (rewrite Z.ones_equiv; lia).
    rewrite testbit_not64, !testbit_ones64 by lia. cases_cmp; done.
Qed.

Lemma scan_cursor_0 : scan_cursor k 0 = 0.
Proof.
  unfold scan_cursor. rewrite Z.mod_0_l, Z.mul_0_l by (apply Z.pow_nonzero; lia). apply rev_0.
Qed.

Lemma scan_cursor_iter n :
  Nat.iter n (fun v => scan_advance v (2 ^ k - 1)) 0 = scan_cursor k (Z.of_nat n).
Proof.
  induction n as [|n IH]; cbn [Nat.iter nat_rect].
  - symmetry. apply scan_cursor_0.
  - change (nat_rect _ _ _ n) with (Nat.iter n (fun v => scan_advance v (2 ^ k - 1)) 0).
    rewrite IH, scan_advance_cursor by lia. f_equal. lia.
Qed.

Lemma scan_cursor_range n : 0 <= scan_cursor k n < 2 ^ k.
Proof.
  pose proof (cursor_word n) as Hw. pose proof (rev_range _ Hw) as Hr. unfold scan_cursor.
  replace (rev (n mod 2 ^ k * 2 ^ (64 - k))) with (wrap k (rev (n mod 2 ^ k * 2 ^ (64 - k)))); [apply wrap_range; lia|].
  apply Z.bits_inj'. intros i Hi. rewrite testbit_wrap by lia.
  destruct (Z.ltb_spec i k); [done|]. destruct (Z.lt_ge_cases i 64); [|by rewrite testbit_high].
  rewrite testbit_rev, <- Z.shiftl_mul_pow2, Z.shiftl_spec, Z.testbit_neg_r by lia. done.
Qed.

Lemma scan_cursor_inj n n' : 0 <= n < 2 ^ k -> 0 <= n' < 2 ^ k -> scan_cursor k n = scan_cursor k n' -> n = n'.
Proof.
  intros Hn Hn' H. apply (f_equal rev) in H. unfold scan_cursor in H.
  rewrite !rev_rev in H by apply cursor_word. rewrite !Z.mod_small in H by lia.
  apply Z.mul_reg_r in H; [done|]. apply Z.pow_nonzero; lia.
Qed.

(** The buckets of a scan are all buckets, each once. *)
Lemma scan_cursors_perm : scan_cursor k <$> seqZ 0 (2 ^ k) ≡ₚ seqZ 0 (2 ^ k).
Proof.
  apply submseteq_length_Permutation; [|by rewrite length_fmap].
  apply NoDup_submseteq.
  - apply NoDup_fmap_2_strong; [|apply NoDup_seqZ].
    intros n n' Hn%elem_of_seqZ Hn'%elem_of_seqZ. apply scan_cursor_inj; lia.
  - intros x (n & -> & _)%list_elem_of_fmap. apply elem_of_seqZ. pose proof (scan_cursor_range n). lia.
Qed.

Lemma scan_cursor_zero n : 0 <= n <= 2 ^ k -> scan_cursor k n = 0 <-> n = 0 \/ n = 2 ^ k.
Proof.
  intros Hn. pose proof (Z.pow_pos_nonneg 2 k ltac:(lia) ltac:(lia)) as Hp.
  split.
  - intros H. destruct (Z.eq_dec n (2 ^ k)); [by right|left].
    apply scan_cursor_inj; [lia..|]. by rewrite scan_cursor_0.
  - intros [->| ->]; [done|]. transitivity (scan_cursor k 0); [|apply scan_cursor_0]. unfold scan_cursor. by rewrite Z.mod_same, Z.mod_0_l by lia.
Qed.
End cursor.
