(* ===== verification/DictSpec.v ===== *)
(** * DictSpec: what the hash table promises and what it relies on

    [DictHeap] is the interface between a dictionary and its callbacks: keys
    that can be hashed and compared, entries that can be allocated, and
    objects that can be given back. [dict_rep] is the promise: the words of a
    dictionary stand for a finite map from keys to value pointers. The
    operations are proved against the interface in [DictProofs];
    [AllocDictProofs] implements it. *)
From stdpp Require Import base gmap list numbers.
From Stdlib Require Import ZArith Lia.
From S2P Require Import Prelude Mem KvMem Siphash Dict.

(** The state [s] with other memory and calls. *)
Definition upd (s : kv) (m : gmap Z Z) (l : list kv_call) : kv :=
  mk_kv m l (kv_can_resize s) (kv_seed s) (kv_random s) (kv_time s).

Lemma upd_id s : upd s (kv_mem s) (kv_log s) = s.
Proof. by destruct s. Qed.

(** The words from [a] to [a + n] are the same in both memories. *)
Definition same_words (m m' : gmap Z Z) (a n : Z) : Prop :=
  forall i, 0 <= i < n -> ld m' (a + i) = ld m (a + i).

(** ** The interface to the callbacks *)

(** What the pointers [l] hold in [m] they hold in [m']. *)
Definition keeps {A} (holds : gmap Z Z -> Z -> A -> Prop) (m m' : gmap Z Z) (l : list Z) : Prop :=
  forall p x, p ∈ l -> holds m p x -> holds m' p x.

(** [heap_ok m fe le lk lv]: in the memory [m] the entries [fe] are free, next
    one first, and the entries [le], keys [lk] and values [lv] are in use.
    [heap_word] tells the words that belong to the callbacks. What an
    operation of the callbacks may change: its own words, except the entries
    still in use and what the keys and values still in use hold. *)
Class DictHeap (ty : dictType) (priv : Z) (K V : Type) `{Countable K} := {
  key_at : gmap Z Z -> Z -> K -> Prop;
  val_at : gmap Z Z -> Z -> V -> Prop;
  key_hash : list Z -> K -> Z;
  heap_ok : gmap Z Z -> list Z -> list Z -> list Z -> list Z -> Prop;
  heap_word : Z -> Prop;

  key_unique m p x y : key_at m p x -> key_at m p y -> x = y;
  key_hash_ok s p x : key_at (kv_mem s) p x -> runs (dt_hashFunction ty p) s (key_hash (kv_seed s) x) s;
  key_compare_ok s p q x y :
    key_at (kv_mem s) p x -> key_at (kv_mem s) q y ->
    exists f r, dt_keyCompare ty = Some f /\ runs (f priv p q) s r s /\ (r <> 0 <-> x = y);
  no_keyDup : dt_keyDup ty = None;
  no_valDup : dt_valDup ty = None;
  moded_ok s a : exists f l, dt_entryModed ty = Some f /\ runs (f priv a) s tt (upd s (kv_mem s) l);

  heap_perm m fe le le' lk lk' lv lv' :
    le ≡ₚ le' -> lk ≡ₚ lk' -> lv ≡ₚ lv' -> heap_ok m fe le lk lv -> heap_ok m fe le' lk' lv';
  heap_entry m fe le lk lv e :
    heap_ok m fe le lk lv -> e ∈ le ->
    4096 <= e /\ aligned 8 e /\ forall i, 0 <= i < sizeof_dictEntry -> heap_word (e + i);
  heap_apart m fe le lk lv :
    heap_ok m fe le lk lv ->
    NoDup le /\ forall e e', e ∈ le -> e' ∈ le -> e <> e' -> e + sizeof_dictEntry <= e' \/ e' + sizeof_dictEntry <= e;
  (** Writes to entries in use and outside the heap do not disturb it. *)
  heap_write m m' fe le lk lv :
    heap_ok m fe le lk lv ->
    (forall x, heap_word x -> (forall e, e ∈ le -> ~ e <= x < e + sizeof_dictEntry) -> ld m' x = ld m x) ->
    heap_ok m' fe le lk lv /\ keeps key_at m m' lk /\ keeps val_at m m' lv;
  heap_alloc s e fe le lk lv :
    heap_ok (kv_mem s) (e :: fe) le lk lv ->
    exists f m' l', dt_entryAlloc ty = Some f /\ runs (f priv) s e (upd s m' l')
      /\ heap_ok m' fe (e :: le) lk lv
      /\ (forall x, ~ heap_word x -> ld m' x = ld (kv_mem s) x)
      /\ (forall e', e' ∈ le -> same_words (kv_mem s) m' e' sizeof_dictEntry)
      /\ keeps key_at (kv_mem s) m' lk /\ keeps val_at (kv_mem s) m' lv;
  heap_alloc_none s le lk lv :
    heap_ok (kv_mem s) [] le lk lv ->
    exists f m' l', dt_entryAlloc ty = Some f /\ runs (f priv) s 0 (upd s m' l')
      /\ (forall x, ~ heap_word x -> ld m' x = ld (kv_mem s) x);
  heap_free_val s fe le lk v lv :
    heap_ok (kv_mem s) fe le lk (v :: lv) ->
    exists f m' l', dt_valDestructor ty = Some f /\ runs (f priv v) s tt (upd s m' l')
      /\ heap_ok m' fe le lk lv
      /\ (forall x, ~ heap_word x -> ld m' x = ld (kv_mem s) x)
      /\ (forall e', e' ∈ le -> same_words (kv_mem s) m' e' sizeof_dictEntry)
      /\ keeps key_at (kv_mem s) m' lk /\ keeps val_at (kv_mem s) m' lv;
  heap_free_key s fe le p lk lv :
    heap_ok (kv_mem s) fe le (p :: lk) lv ->
    exists f m' l', dt_keyDestructor ty = Some f /\ runs (f priv p) s tt (upd s m' l')
      /\ heap_ok m' fe le lk lv
      /\ (forall x, ~ heap_word x -> ld m' x = ld (kv_mem s) x)
      /\ (forall e', e' ∈ le -> same_words (kv_mem s) m' e' sizeof_dictEntry)
      /\ keeps key_at (kv_mem s) m' lk /\ keeps val_at (kv_mem s) m' lv;
  heap_free_entry s fe e le lk lv :
    heap_ok (kv_mem s) fe (e :: le) lk lv ->
    exists f m' l', dt_entryDestructor ty = Some f /\ runs (f priv e) s tt (upd s m' l')
      /\ heap_ok m' (e :: fe) le lk lv
      /\ (forall x, ~ heap_word x -> ld m' x = ld (kv_mem s) x)
      /\ (forall e', e' ∈ le -> same_words (kv_mem s) m' e' sizeof_dictEntry)
      /\ keeps key_at (kv_mem s) m' lk /\ keeps val_at (kv_mem s) m' lv;
}.

Section spec.
Context {ty : dictType} {priv : Z} {K V : Type} `{HD : DictHeap ty priv K V}.

(** ** The dictionary in memory *)

(** An entry, with the key its key pointer holds. *)
Record ent := mk_ent { e_addr : Z; e_keyp : Z; e_val : Z; e_k : K }.

Fixpoint chain (m : gmap Z Z) (p : Z) (es : list ent) : Prop :=
  match es with
  | [] => p = 0
  | e :: es' =>
      p = e_addr e /\ 4096 <= p /\ aligned 8 p
      /\ ld m (p + de_key) = e_keyp e /\ ld m (p + de_val) = e_val e /\ key_at m (e_keyp e) (e_k e)
      /\ chain m (ld m (p + de_next)) es'
  end.

Definition bucket (seed : list Z) (k : Z) (x : K) : Z := u32 (key_hash seed x) mod 2 ^ k.

(** The dictionary at [d]: a table of [2 ^ k] buckets at [tbl], not
    rehashing, whose chains hold the entries [bs]. *)
Record dict_ok (seed : list Z) (m : gmap Z Z) (d tbl k : Z) (bs : list (list ent)) : Prop := {
  do_addr : 4096 <= d /\ aligned 8 d;
  do_tbl : 4096 <= tbl /\ aligned 8 tbl;
  do_k : 2 <= k <= 31;
  do_priv : ld m (d + d_privdata) = priv;
  do_table : ld m (d + d_ht 0 + ht_table) = tbl;
  do_size : ld m (d + d_ht 0 + ht_size) = 2 ^ k;
  do_mask : ld m (d + d_ht 0 + ht_sizemask) = 2 ^ k - 1;
  do_used : ld m (d + d_ht 0 + ht_used) = Z.of_nat (length (concat bs));
  do_used1 : ld m (d + d_ht 1 + ht_used) = 0;
  do_rehash : ld m (d + d_rehashidx) = 2 ^ 64 - 1;
  do_len : Z.of_nat (length bs) = 2 ^ k;
  do_chain i es : bs !! i = Some es -> chain m (ld m (tbl + 8 * Z.of_nat i)) es;
  do_bucket i es e : bs !! i = Some es -> e ∈ es -> bucket seed k (e_k e) = Z.of_nat i;
  do_count : Z.of_nat (length (concat bs)) < 2 ^ 63;
  do_nodup : NoDup (e_k <$> concat bs);
  do_apart : d + sizeof_dict <= tbl \/ tbl + 8 * 2 ^ k <= d;
  do_heap x : d <= x < d + sizeof_dict \/ tbl <= x < tbl + 8 * 2 ^ k -> ~ heap_word x;
}.

(** The map the entries stand for. *)
Definition map_of (es : list ent) : gmap K Z := list_to_map ((fun e => (e_k e, e_val e)) <$> es).

(** The dictionary at [d] holds the map [M] in a table of [cap] buckets behind
    its header, where [dictCreate] puts it; the entries [fe] are free; the keys [xk] and values [xv] are in use elsewhere. *)
Definition dict_rep (s : kv) (d cap : Z) (M : gmap K Z) (fe xk xv : list Z) : Prop :=
  exists k bs,
    cap = 2 ^ k /\ dict_ok (kv_seed s) (kv_mem s) d (d + sizeof_dict) k bs /\ M = map_of (concat bs)
    /\ heap_ok (kv_mem s) fe (e_addr <$> concat bs) ((e_keyp <$> concat bs) ++ xk) ((e_val <$> concat bs) ++ xv).

(** What an operation leaves alone: the values outside the dictionary and in
    the map, all words that belong neither to the callbacks nor to the
    dictionary, and the state other than memory and calls. *)
Definition kept (s s' : kv) (d cap : Z) (M' : gmap K Z) (xv : list Z) : Prop :=
  (forall v y, v ∈ xv \/ (exists x, M' !! x = Some v) -> val_at (kv_mem s) v y -> val_at (kv_mem s') v y)
  /\ (forall a, ~ heap_word a -> ~ d <= a < d + sizeof_dict + 8 * cap -> ld (kv_mem s') a = ld (kv_mem s) a)
  /\ s' = upd s (kv_mem s') (kv_log s').
End spec.
Arguments ent : clear implicits.
