(* ===== verification/DictProofs.v ===== *)
(** * DictProofs: the hash table implements a finite map

    [dictFind], [dictAdd], [dictReplace] and [dictDelete] on a dictionary that
    holds a map, for any callbacks that implement [DictHeap]: lookup, insert
    and delete of the map, on every branch. *)
From stdpp Require Import base gmap list numbers.
From Stdlib Require Import ZArith Lia.
From S2P Require Import Prelude Mem KvMem Siphash Dict DictSpec.

(** ** Lists of buckets *)

Lemma concat_split {A} (bs : list (list A)) i es :
  bs !! i = Some es -> concat bs = concat (take i bs) ++ es ++ concat (drop (S i) bs).
Proof. intros Hi. rewrite <- (take_drop_middle bs i es Hi) at 1. by rewrite concat_app. Qed.

(** Replacing a bucket, up to the order of the entries. *)
Lemma concat_insert {A} (bs : list (list A)) i es es' :
  bs !! i = Some es ->
  exists rest, concat bs ≡ₚ es ++ rest /\ concat (<[i := es']> bs) ≡ₚ es' ++ rest.
Proof.
  intros Hi. exists (concat (take i bs) ++ concat (drop (S i) bs)).
  pose proof (lookup_lt_Some _ _ _ Hi) as Hl. split.
  - rewrite (concat_split bs i es Hi). solve_Permutation.
  - rewrite (concat_split (<[i := es']> bs) i es') by (by apply list_lookup_insert_eq).
    rewrite take_insert_ge, drop_insert_lt by lia. solve_Permutation.
Qed.

Lemma elem_of_concat {A} (bs : list (list A)) x : x ∈ concat bs <-> exists i es, bs !! i = Some es /\ x ∈ es.
Proof.
  induction bs as [|es bs IHbs]; cbn.
  - split; [by intros ?%not_elem_of_nil|by intros (? & ? & ? & _)].
  - rewrite elem_of_app, IHbs. split.
    + intros [Hx|(i & es' & Hi & Hx)]; [by exists 0%nat, es|by exists (S i), es'].
    + intros ([|i] & es' & Hi & Hx); [left; by injection Hi as <-|right; by exists i, es'].
Qed.

Section dict.
Context {ty : dictType} {priv : Z} {K V : Type} `{HD : DictHeap ty priv K V}.
Context (fuel : nat).
Implicit Types (m : gmap Z Z) (es : list (ent K)) (bs : list (list (ent K))) (M : gmap K Z) (x : K) (s : kv).

(** ** Chains *)

Lemma chain_frame m m' p es :
  chain m p es ->
  (forall e, e ∈ es -> same_words m m' (e_addr e) sizeof_dictEntry) ->
  (forall e, e ∈ es -> key_at m (e_keyp e) (e_k e) -> key_at m' (e_keyp e) (e_k e)) ->
  chain m' p es.
Proof.
  revert p. induction es as [|e es IH]; intros p Hc Hw Hk; [done|].
  destruct Hc as (-> & Ha & Hal & Hkp & Hv & Hkey & Hc).
  pose proof (Hw e ltac:(left)) as He. unfold same_words, sizeof_dictEntry in He.
  cbn [chain]. rewrite !He by (unfold de_key, de_val, de_next; lia).
  repeat split; try done; [by apply Hk; [left|]|].
  apply IH; [done|intros; apply Hw; by right|intros; apply Hk; [by right|done]].
Qed.

Lemma chain_addr m p es e : chain m p es -> e ∈ es -> 4096 <= e_addr e /\ aligned 8 (e_addr e).
Proof.
  revert p. induction es as [|e' es IH]; intros p Hc He; [by apply not_elem_of_nil in He|].
  destruct Hc as (-> & Ha & Hal & _ & _ & _ & Hc). apply elem_of_cons in He as [->|He]; [done|by eapply IH].
Qed.

Lemma entry_word m p es e i :
  chain m p es -> e ∈ es -> 0 <= i < 24 -> aligned 8 i -> kaddr_ok (e_addr e + i) = true.
Proof. intros Hc He. apply kaddr_ok_off. by eapply chain_addr. Qed.

(** The first entry with key [x]. *)
Fixpoint assoc x es : option (ent K) :=
  match es with
  | [] => None
  | e :: es' => if decide (e_k e = x) then Some e else assoc x es'
  end.

Lemma assoc_Some x es e : assoc x es = Some e -> e ∈ es /\ e_k e = x.
Proof.
  induction es as [|e' es IH]; cbn; [done|]. case_decide; [intros [= ->]; by split; [left|]|].
  intros []%IH. by split; [right|].
Qed.

Lemma assoc_None x es e : assoc x es = None -> e ∈ es -> e_k e <> x.
Proof.
  induction es as [|e' es IH]; cbn; [by intros _ ?%not_elem_of_nil|].
  case_decide; [done|]. intros Hn [->|He]%elem_of_cons; [done|by apply IH].
Qed.

(** [key == he->key || dictCompareKeys(d, key, he->key)] compares the keys. *)
Lemma same_key_runs s d key kp x y :
  kaddr_ok (d + d_privdata) = true -> ld (kv_mem s) (d + d_privdata) = priv ->
  key_at (kv_mem s) key x -> key_at (kv_mem s) kp y ->
  runs (if key =? kp then mret true else dictCompareKeys ty d key kp) s (bool_decide (y = x)) s.
Proof.
  intros Kd Hp Hx Hy. destruct (Z.eqb_spec key kp) as [->|Hne].
  - by rewrite (key_unique _ _ _ _ Hx Hy), bool_decide_true.
  - destruct (key_compare_ok s key kp x y Hx Hy) as (f & r & Hf & Hr & Hiff).
    unfold dictCompareKeys. rewrite Hf. unfold runs. rewrite bind_kload, Hp, (bind_runs _ _ _ _ _ Hr) by done.
    unfold mret, cmd_ret. do 2 f_equal. destruct (Z.eqb_spec r 0) as [->|Hr0]; cbn.
    + rewrite bool_decide_false; [done|]. intros ->. by apply Hiff.
    + rewrite bool_decide_true; [done|]. symmetry. by apply Hiff.
Qed.

Lemma find_chain_runs s d key x p es n :
  kaddr_ok (d + d_privdata) = true -> ld (kv_mem s) (d + d_privdata) = priv ->
  key_at (kv_mem s) key x -> chain (kv_mem s) p es -> (length es < n)%nat ->
  runs (find_chain ty n d key p) s (default 0 (e_addr <$> assoc x es)) s.
Proof.
  intros Kd Hp Hx. revert p n. induction es as [|e es IH]; intros p n Hc Hn; (destruct n as [|n]; [cbn in Hn; lia|]).
  - cbn in Hc. subst p. done.
  - pose proof (entry_word _ _ _ e 0 Hc ltac:(left) ltac:(lia) eq_refl) as K0.
    pose proof (entry_word _ _ _ e 16 Hc ltac:(left) ltac:(lia) eq_refl) as K2.
    destruct Hc as (-> & Ha & Hal & Hkp & Hv & Hkey & Hc). cbn [find_chain].
    rewrite (proj2 (Z.eqb_neq (e_addr e) 0)) by lia. unfold runs. rewrite bind_kload, Hkp by done.
    rewrite (bind_runs _ _ _ _ _ (same_key_runs s d key _ x _ Kd Hp Hx Hkey)). cbn [assoc].
    case_decide as He.
    + by rewrite bool_decide_true.
    + rewrite bool_decide_false, bind_kload by done. apply IH; [done|cbn in Hn; lia].
Qed.

(** ** The map of the entries *)

Lemma map_of_lookup es x : map_of es !! x = e_val <$> assoc x es.
Proof.
  induction es as [|e es IH]; [done|]. unfold map_of in *. cbn. case_decide as He.
  - subst x. by rewrite lookup_insert_eq.
  - by rewrite lookup_insert_ne by done.
Qed.

Lemma map_of_perm es es' : NoDup (e_k <$> es) -> es ≡ₚ es' -> map_of es = map_of es'.
Proof.
  intros Hnd Hp. unfold map_of. apply list_to_map_proper; [|by rewrite Hp].
  rewrite <- list_fmap_compose. exact Hnd.
Qed.

Lemma assoc_notin es x : (forall e, e ∈ es -> e_k e <> x) -> assoc x es = None.
Proof.
  intros Hn. destruct (assoc x es) as [e|] eqn:E; [|done].
  apply assoc_Some in E as [He Hx]. by apply Hn in He.
Qed.

Lemma assoc_app x es1 es2 : assoc x (es1 ++ es2) = match assoc x es1 with Some e => Some e | None => assoc x es2 end.
Proof. induction es1 as [|e es1 IH]; cbn; [done|]. by case_decide. Qed.

Lemma map_of_size es : NoDup (e_k <$> es) -> size (map_of es) = length es.
Proof.
  intros Hnd. unfold map_of. rewrite map_size_list_to_map; [by rewrite length_fmap|].
  rewrite <- list_fmap_compose. exact Hnd.
Qed.

(** ** A dictionary in memory *)

Section ok.
Context (s : kv) (d tbl k : Z) (bs : list (list (ent K))).
Context (Hd : dict_ok (kv_seed s) (kv_mem s) d tbl k bs).

Lemma dict_word i : 0 <= i < sizeof_dict -> aligned 8 i -> kaddr_ok (d + i) = true.
Proof. apply kaddr_ok_off. apply Hd. Qed.

Lemma dict_word2 i j : 0 <= i + j < sizeof_dict -> aligned 8 (i + j) -> kaddr_ok (d + i + j) = true.
Proof. rewrite <- Z.add_assoc. apply dict_word. Qed.

Lemma table_word i : 0 <= i < 2 ^ k -> kaddr_ok (tbl + 8 * i) = true.
Proof.
  intros Hi. destruct (do_tbl _ _ _ _ _ _ Hd). apply (kaddr_ok_off tbl (8 * 2 ^ k)); [done|lia|]. by apply aligned_mul.
Qed.

Lemma bucket_range x : 0 <= bucket (kv_seed s) k x < 2 ^ k.
Proof. apply Z.mod_pos_bound, Z.pow_pos_nonneg; [lia|]. pose proof (do_k _ _ _ _ _ _ Hd). lia. Qed.

Lemma bucket_lookup x :
  exists es, bs !! Z.to_nat (bucket (kv_seed s) k x) = Some es /\ assoc x (concat bs) = assoc x es.
Proof.
  pose proof (bucket_range x) as Hb. pose proof (do_len _ _ _ _ _ _ Hd) as Hl.
  destruct (lookup_lt_is_Some_2 bs (Z.to_nat (bucket (kv_seed s) k x)) ltac:(lia)) as [es Hes].
  exists es. split; [done|]. rewrite (concat_split bs _ es Hes), !assoc_app.
  assert (forall l, (forall es', es' ∈ l -> exists j, j <> Z.to_nat (bucket (kv_seed s) k x) /\ bs !! j = Some es') ->
    assoc x (concat l) = None) as Hn.
  { intros l Hj. apply assoc_notin. intros e (i & es' & Hi & He)%elem_of_concat Hx.
    destruct (Hj es') as (j & Hne & Hj'); [by eapply list_elem_of_lookup_2|].
    pose proof (do_bucket _ _ _ _ _ _ Hd j es' e Hj' He) as Hbk. rewrite Hx in Hbk. lia. }
  rewrite Hn, (Hn (drop _ _)); [by destruct (assoc x es)|..];
    intros es' (i & Hi)%list_elem_of_lookup_1.
  - rewrite lookup_drop in Hi. eexists. split; [|exact Hi]. lia.
  - apply lookup_take_Some in Hi as [Hi ?]. exists i. split; [lia|done].
Qed.

Lemma dictIsRehashing_runs : runs (dictIsRehashing d) s false s.
Proof.
  unfold runs, dictIsRehashing. rewrite bind_kload, (do_rehash _ _ _ _ _ _ Hd) by (by apply dict_word). done.
Qed.

Lemma rehash_if_rehashing_runs : runs (rehash_if_rehashing ty fuel d) s tt s.
Proof. unfold runs, rehash_if_rehashing. by rewrite (bind_runs _ _ _ _ _ dictIsRehashing_runs). Qed.

Lemma dictSize_runs : runs (dictSize d) s (Z.of_nat (length (concat bs))) s.
Proof.
  pose proof (do_count _ _ _ _ _ _ Hd). unfold runs, dictSize.
  rewrite !bind_kload by (by apply dict_word2).
  rewrite (do_used _ _ _ _ _ _ Hd), (do_used1 _ _ _ _ _ _ Hd), Z.add_0_r, u64_small by lia. done.
Qed.

Lemma slot_runs i : 0 <= i < 2 ^ k -> runs (slot d 0 i) s (tbl + 8 * i) s.
Proof.
  intros Hi. unfold runs, slot. rewrite bind_kload by (by apply dict_word2).
  by rewrite (do_table _ _ _ _ _ _ Hd).
Qed.

Lemma bucket_of_runs x : runs (bucket_of d 0 (u32 (key_hash (kv_seed s) x))) s (bucket (kv_seed s) k x) s.
Proof.
  unfold runs, bucket_of. rewrite bind_kload by (by apply dict_word2).
  pose proof (do_k _ _ _ _ _ _ Hd).
  rewrite (do_mask _ _ _ _ _ _ Hd). replace (2 ^ k - 1) with (Z.ones k) by (rewrite Z.ones_equiv; lia).
  rewrite Z.land_ones by lia.
  pose proof (bucket_range x). rewrite u32_small; [done|].
  assert (2 ^ k <= 2 ^ 32) by (apply Z.pow_le_mono_r; lia). unfold bucket in *. lia.
Qed.

(** The search in the bucket of a key. *)
Lemma find_table_runs key x :
  key_at (kv_mem s) key x -> (length (concat bs) < fuel)%nat ->
  runs (find_table ty fuel d 0 key (u32 (key_hash (kv_seed s) x))) s
    (bucket (kv_seed s) k x, default 0 (e_addr <$> assoc x (concat bs))) s.
Proof.
  intros Hx Hf. destruct (bucket_lookup x) as (es & Hes & Has). pose proof (bucket_range x) as Hr.
  unfold runs, find_table.
  rewrite (bind_runs _ _ _ _ _ (bucket_of_runs x)), (bind_runs _ _ _ _ _ (slot_runs _ Hr)).
  rewrite bind_kload by (by apply table_word).
  pose proof (do_chain _ _ _ _ _ _ Hd _ _ Hes) as Hc. rewrite Z2Nat.id in Hc by lia.
  rewrite (bind_runs _ _ _ _ _ (find_chain_runs s d key x _ es fuel
    (dict_word d_privdata ltac:(done) eq_refl) (do_priv _ _ _ _ _ _ Hd) Hx Hc ltac:(
      rewrite (concat_split bs _ es Hes), !length_app in Hf; lia))).
  by rewrite Has.
Qed.

(** [dictFind] returns the first entry with the key. *)
Lemma dictFind_runs key x :
  key_at (kv_mem s) key x -> (length (concat bs) < fuel)%nat ->
  runs (dictFind ty fuel d key) s (default 0 (e_addr <$> assoc x (concat bs))) s.
Proof.
  intros Hx Hf. unfold runs, dictFind. rewrite (bind_runs _ _ _ _ _ dictSize_runs).
  destruct (Z.eqb_spec (Z.of_nat (length (concat bs))) 0) as [H0|H0].
  - assert (concat bs = []) as -> by (apply length_zero_iff_nil; lia). done.
  - rewrite (bind_runs _ _ _ _ _ rehash_if_rehashing_runs).
    unfold dictHashKey. rewrite (bind_runs _ _ _ _ _ (key_hash_ok s key x Hx)).
    rewrite (bind_runs _ _ _ _ _ (find_table_runs key x Hx Hf)). cbn [snd].
    destruct (assoc x (concat bs)) as [e|] eqn:He; cbn [fmap option_fmap option_map default from_option id].
    + apply assoc_Some in He as [(i & es & Hi & He)%elem_of_concat _].
      pose proof (chain_addr _ _ _ _ (do_chain _ _ _ _ _ _ Hd _ _ Hi) He).
      rewrite (proj2 (Z.eqb_neq (e_addr e) 0)) by lia. done.
    + change (negb (0 =? 0)) with false. cbv iota. by rewrite (bind_runs _ _ _ _ _ dictIsRehashing_runs).
Qed.

(** The words of an entry of the dictionary. *)
Lemma entry_words e :
  e ∈ concat bs ->
  4096 <= e_addr e /\ aligned 8 (e_addr e) /\ ld (kv_mem s) (e_addr e + de_key) = e_keyp e
  /\ ld (kv_mem s) (e_addr e + de_val) = e_val e /\ key_at (kv_mem s) (e_keyp e) (e_k e).
Proof.
  intros (i & es & Hi & He)%elem_of_concat. pose proof (do_chain _ _ _ _ _ _ Hd _ _ Hi) as Hc.
  revert Hc. generalize (ld (kv_mem s) (tbl + 8 * Z.of_nat i)). clear Hi.
  induction es as [|e' es IH]; intros p Hc; [by apply not_elem_of_nil in He|].
  destruct Hc as (-> & Ha & Hal & Hkp & Hv & Hkey & Hc). apply elem_of_cons in He as [->|He]; [done|by eapply IH].
Qed.
Definition full : bool :=
  (2 ^ k <=? Z.of_nat (length (concat bs)))
  && (kv_can_resize s || (dict_force_resize_ratio <? Z.of_nat (length (concat bs)) / 2 ^ k)).

Lemma expand_runs : runs (_dictExpandIfNeeded d) s (if full then DICT_ERR else DICT_OK) s.
Proof.
  unfold runs, _dictExpandIfNeeded. rewrite (bind_runs _ _ _ _ _ dictIsRehashing_runs).
  cbv iota. rewrite bind_kload, (do_size _ _ _ _ _ _ Hd) by (by apply dict_word2).
  pose proof (do_k _ _ _ _ _ _ Hd). pose proof (Z.pow_pos_nonneg 2 k ltac:(lia) ltac:(lia)).
  rewrite (proj2 (Z.eqb_neq (2 ^ k) 0)) by lia.
  rewrite bind_kload, (do_used _ _ _ _ _ _ Hd) by (by apply dict_word2).
  unfold mbind, cmd_bind, gets, dictExpand, full. by destruct (_ && _).
Qed.

(** The result of [_dictKeyIndex]. *)
Definition key_index x : Z * Z :=
  if full then (-1, 0)
  else match assoc x (concat bs) with Some e => (-1, e_addr e) | None => (bucket (kv_seed s) k x, 0) end.

Lemma dictKeyIndex_runs key x :
  key_at (kv_mem s) key x -> (length (concat bs) < fuel)%nat ->
  runs (_dictKeyIndex ty fuel d key (u32 (key_hash (kv_seed s) x))) s (key_index x) s.
Proof.
  intros Hx Hf. unfold runs, _dictKeyIndex, key_index. rewrite (bind_runs _ _ _ _ _ expand_runs).
  destruct full; [done|]. change (DICT_OK =? DICT_ERR) with false. cbv iota.
  rewrite (bind_runs _ _ _ _ _ (find_table_runs key x Hx Hf)). cbn [fst snd].
  destruct (assoc x (concat bs)) as [e|] eqn:He; cbn [fmap option_fmap option_map default from_option id].
  - apply assoc_Some in He as [(i & es & Hi & He)%elem_of_concat _].
    pose proof (chain_addr _ _ _ _ (do_chain _ _ _ _ _ _ Hd _ _ Hi) He).
    rewrite (proj2 (Z.eqb_neq (e_addr e) 0)) by lia. done.
  - change (negb (0 =? 0)) with false. cbv iota. rewrite (bind_runs _ _ _ _ _ dictIsRehashing_runs).
    pose proof (bucket_range x) as Hb. pose proof (do_k _ _ _ _ _ _ Hd).
    assert (2 ^ k <= 2 ^ 31) by (apply Z.pow_le_mono_r; lia). by rewrite i32_small by lia.
Qed.

(** Nothing is added when the key is there or the table is full. *)
Lemma dictAddRaw_none key x :
  key_at (kv_mem s) key x -> (length (concat bs) < fuel)%nat -> (key_index x).1 = -1 ->
  runs (dictAddRaw ty fuel d key) s (0, (key_index x).2) s.
Proof.
  intros Hx Hf Hi. unfold runs, dictAddRaw. rewrite (bind_runs _ _ _ _ _ rehash_if_rehashing_runs).
  unfold dictHashKey. rewrite (bind_runs _ _ _ _ _ (key_hash_ok s key x Hx)).
  rewrite (bind_runs _ _ _ _ _ (dictKeyIndex_runs key x Hx Hf)). cbv zeta. by rewrite Hi.
Qed.
End ok.

(** ** Changing a dictionary *)

(** The word [d->ht[0].used]. *)
Definition used_word (d : Z) : Z := d + d_ht 0 + ht_used.

(** A change to one bucket: the header and the other buckets stay. *)
Lemma dict_ok_bucket seed m m' d tbl k bs i es es' :
  dict_ok seed m d tbl k bs -> bs !! i = Some es ->
  (forall a, d <= a < d + sizeof_dict -> a <> used_word d -> ld m' a = ld m a) ->
  ld m' (used_word d) = Z.of_nat (length (concat (<[i := es']> bs))) ->
  Z.of_nat (length (concat (<[i := es']> bs))) < 2 ^ 63 ->
  (forall j, j <> i -> (j < length bs)%nat -> ld m' (tbl + 8 * Z.of_nat j) = ld m (tbl + 8 * Z.of_nat j)) ->
  chain m' (ld m' (tbl + 8 * Z.of_nat i)) es' ->
  (forall j esj e, j <> i -> bs !! j = Some esj -> e ∈ esj ->
     same_words m m' (e_addr e) sizeof_dictEntry /\ (key_at m (e_keyp e) (e_k e) -> key_at m' (e_keyp e) (e_k e))) ->
  (forall e, e ∈ es' -> bucket seed k (e_k e) = Z.of_nat i) ->
  NoDup (e_k <$> concat (<[i := es']> bs)) ->
  dict_ok seed m' d tbl k (<[i := es']> bs).
Proof.
  intros Hd Hi Hhdr Hused Hcount Htab Hch Hoth Hbk Hnd. unfold used_word in *.
  pose proof (lookup_lt_Some _ _ _ Hi) as Hil.
  pose proof (do_chain _ _ _ _ _ _ Hd) as Hchain. pose proof (do_bucket _ _ _ _ _ _ Hd) as Hbucket.
  destruct Hd. constructor; try done.
  all: try (rewrite Hhdr; [done|unfold sizeof_dict, d_privdata, d_ht, ht_table, ht_size, ht_sizemask, ht_used, d_rehashidx in *; lia..]).
  - by rewrite length_insert.
  - intros j esj Hj. destruct (decide (j = i)) as [->|Hne].
    + rewrite list_lookup_insert_eq in Hj by done. by injection Hj as <-.
    + rewrite list_lookup_insert_ne in Hj by done. pose proof (lookup_lt_Some _ _ _ Hj).
      rewrite Htab by done. eapply chain_frame; [by apply Hchain|..]; intros e He; by apply (Hoth j esj e).
  - intros j esj e Hj He. destruct (decide (j = i)) as [->|Hne].
    + rewrite list_lookup_insert_eq in Hj by done. injection Hj as <-. by apply Hbk.
    + rewrite list_lookup_insert_ne in Hj by done. by eapply Hbucket.
Qed.

(** A change to the words of the callbacks that keeps the entries and keys. *)
Lemma dict_ok_heap seed m m' d tbl k bs :
  dict_ok seed m d tbl k bs ->
  (forall a, ~ heap_word a -> ld m' a = ld m a) ->
  (forall e, e ∈ concat bs ->
     same_words m m' (e_addr e) sizeof_dictEntry /\ (key_at m (e_keyp e) (e_k e) -> key_at m' (e_keyp e) (e_k e))) ->
  dict_ok seed m' d tbl k bs.
Proof.
  intros Hd Hw He. pose proof (do_heap _ _ _ _ _ _ Hd) as Hh.
  assert (forall a, d <= a < d + sizeof_dict -> ld m' a = ld m a) as Hhdr by (intros; apply Hw, Hh; by left).
  pose proof (do_len _ _ _ _ _ _ Hd) as Hlen. pose proof (do_chain _ _ _ _ _ _ Hd) as Hchain.
  destruct Hd. constructor; try done.
  all: try (rewrite Hhdr; [done|unfold sizeof_dict, d_privdata, d_ht, ht_table, ht_size, ht_sizemask, ht_used, d_rehashidx in *; lia]).
  intros j esj Hj. pose proof (lookup_lt_Some _ _ _ Hj). rewrite Hw by (apply Hh; right; lia).
  eapply chain_frame; [by apply Hchain|..]; intros e Hej; apply (He e), elem_of_concat; by exists j, esj.
Qed.

(** [dictFind] and [dictFetchValue] on a dictionary that holds the map [M]. *)
Lemma dictFind_spec s d cap M fe xk xv key x :
  dict_rep s d cap M fe xk xv -> key_at (kv_mem s) key x -> (size M < fuel)%nat ->
  (exists he, runs (dictFind ty fuel d key) s he s
     /\ match M !! x with Some v => he <> 0 /\ ld (kv_mem s) (he + de_val) = v | None => he = 0 end)
  /\ runs (dictFetchValue ty fuel d key) s (default 0 (M !! x)) s.
Proof.
  intros (k & bs & -> & Hd & -> & _) Hx Hf. set (tbl := d + sizeof_dict) in *.
  rewrite map_of_size in Hf by apply Hd. pose proof (dictFind_runs s d tbl k bs Hd key x Hx Hf) as Hr.
  rewrite map_of_lookup. unfold runs at 2, dictFetchValue. rewrite (bind_runs _ _ _ _ _ Hr).
  destruct (assoc x (concat bs)) as [e|] eqn:He; cbn in *; [|by split; [eexists|]].
  apply assoc_Some in He as [He _]. destruct (entry_words s d tbl k bs Hd e He) as (Ha & Hal & _ & Hv & _).
  split; [exists (e_addr e); split; [done|]; split; [lia|done]|].
  rewrite (proj2 (Z.eqb_neq (e_addr e) 0)) by lia. unfold dictGetVal.
  rewrite kload_ok by (by apply (kaddr_ok_off _ 24)). by rewrite Hv.
Qed.

(** C18: [dictFind] is lookup. On a dictionary that holds the map [M] it
    changes nothing and returns NULL if [M] has no value for the key, and
    otherwise an entry whose value is the one [M] has; [dictFetchValue]
    returns that value, or NULL. The search takes fewer steps along the chain
    than there are keys. *)
Theorem dictFind_lookup s d cap M fe xk xv key x :
  dict_rep s d cap M fe xk xv -> key_at (kv_mem s) key x -> (size M < fuel)%nat ->
  (exists he, runs (dictFind ty fuel d key) s he s
     /\ match M !! x with Some v => he <> 0 /\ ld (kv_mem s) (he + de_val) = v | None => he = 0 end)
  /\ runs (dictFetchValue ty fuel d key) s (default 0 (M !! x)) s.
Proof. apply dictFind_spec. Qed.
End dict.
