(* ===== verification/DictUpdate.v ===== *)
(** * DictUpdate: insertion and deletion in the hash table

    [dictAdd], [dictReplace] and [dictDelete] on a dictionary that holds a
    map, on every branch: insert and delete of the map, an error, or the
    crash of [dictReplace] on a full table. *)
From stdpp Require Import base gmap list numbers.
From Stdlib Require Import ZArith Lia.
From S2P Require Import Prelude Mem KvMem Siphash Dict DictSpec DictProofs.

Section dict.
Context {ty : dictType} {priv : Z} {K V : Type} `{HD : DictHeap ty priv K V}.
Context (fuel : nat).
Implicit Types (m : gmap Z Z) (es : list (ent K)) (bs : list (list (ent K))) (M : gmap K Z) (x : K) (s : kv).
#[local] Abbreviation addrs l := (e_addr <$> l).

(** The keys of the entries are among the keys in use. *)
Definition keys_in (lk : list Z) es : Prop := forall e, e ∈ es -> e_keyp e ∈ lk.

(** The callbacks moved from [m] to [m'], keeping the entries [le], keys [lk]
    and values [lv]. *)
Definition heap_step m m' (le lk lv : list Z) : Prop :=
  (forall a, ~ heap_word a -> ld m' a = ld m a)
  /\ (forall e, e ∈ le -> same_words m m' e sizeof_dictEntry)
  /\ keeps key_at m m' lk /\ keeps val_at m m' lv.

Lemma dict_ok_step seed m m' d tbl k bs lk lv :
  dict_ok seed m d tbl k bs -> keys_in lk (concat bs) -> heap_step m m' (addrs (concat bs)) lk lv ->
  dict_ok seed m' d tbl k bs.
Proof.
  intros Hd Hk (Hw & He & Hkey & _). eapply dict_ok_heap; [done..|]. intros e Hin. split.
  - apply He. by apply list_elem_of_fmap_2.
  - apply Hkey. by apply Hk.
Qed.

Lemma keeps_trans {A} (holds : gmap Z Z -> Z -> A -> Prop) m1 m2 m3 l :
  keeps holds m1 m2 l -> keeps holds m2 m3 l -> keeps holds m1 m3 l.
Proof. intros H1 H2 p x Hp Hx. apply H2; [done|]. by apply H1. Qed.

(** Words outside the heap and words of entries do not meet. *)
Lemma heap_entry_ne m fe le lk lv e i a :
  heap_ok m fe le lk lv -> e ∈ le -> 0 <= i < sizeof_dictEntry -> ~ heap_word a -> e + i <> a.
Proof. intros Hh He Hi Ha <-. apply Ha. by apply (heap_entry _ _ _ _ _ _ Hh He). Qed.

(** Words neither of the callbacks nor of the dictionary stay. *)
Definition untouched m m' (d tbl k : Z) : Prop :=
  forall a, ~ heap_word a -> ~ d <= a < d + sizeof_dict -> ~ tbl <= a < tbl + 8 * 2 ^ k -> ld m' a = ld m a.

Lemma untouched_trans m1 m2 m3 d tbl k : untouched m1 m2 d tbl k -> untouched m2 m3 d tbl k -> untouched m1 m3 d tbl k.
Proof. intros H1 H2 a Ha Hd Ht. by rewrite H2, H1. Qed.

Lemma untouched_heap m m' d tbl k : (forall a, ~ heap_word a -> ld m' a = ld m a) -> untouched m m' d tbl k.
Proof. intros Hw a Ha _ _. by apply Hw. Qed.

Section ok.
Context (s : kv) (d tbl k : Z) (bs : list (list (ent K))) (lk lv : list Z).
Context (Hd : dict_ok (kv_seed s) (kv_mem s) d tbl k bs) (Hk : keys_in lk (concat bs)).

Lemma used_not_heap : ~ heap_word (used_word d).
Proof. apply (do_heap _ _ _ _ _ _ Hd). left. unfold used_word, d_ht, ht_used, sizeof_dict. lia. Qed.

Lemma slot_not_heap i : 0 <= i < 2 ^ k -> ~ heap_word (tbl + 8 * i).
Proof. intros Hi. apply (do_heap _ _ _ _ _ _ Hd). right. lia. Qed.

Lemma slot_ne_header i a : 0 <= i < 2 ^ k -> d <= a < d + sizeof_dict -> tbl + 8 * i <> a.
Proof. intros Hi Ha. pose proof (do_apart _ _ _ _ _ _ Hd). lia. Qed.

Lemma moded_runs s' a :
  ld (kv_mem s') (d + d_privdata) = priv ->
  exists l, runs (_dictModed ty d a) s' tt (upd s' (kv_mem s') l).
Proof.
  intros Hp. destruct (moded_ok s' a) as (f & l & Hf & Hr). exists l.
  unfold runs, _dictModed, call1. rewrite Hf, bind_kload, Hp by (by eapply (dict_word s d tbl k bs Hd)). done.
Qed.

(** The memory in which the entry [e] heads bucket [b]. *)
Definition add_mem m e key b : gmap Z Z :=
  <[e + de_key := key]> (<[used_word d := Z.of_nat (length (concat bs)) + 1]>
    (<[tbl + 8 * b := e]> (<[e + de_next := ld m (tbl + 8 * b)]> m))).

Lemma add_mem_other m e key b a :
  a <> e + de_key -> a <> used_word d -> a <> tbl + 8 * b -> a <> e + de_next -> ld (add_mem m e key b) a = ld m a.
Proof. intros. unfold add_mem. rewrite !ld_insert. cases_cmp; done. Qed.
End ok.

Section add.
Context (s : kv) (d tbl k : Z) (bs : list (list (ent K))) (lk lv : list Z).
Context (Hd : dict_ok (kv_seed s) (kv_mem s) d tbl k bs) (Hk : keys_in lk (concat bs)).
#[local] Abbreviation m := (kv_mem s).
Context (e : Z) (fe : list Z) (key : Z) (x : K) (es : list (ent K)).
#[local] Abbreviation b := (bucket (kv_seed s) k x).
#[local] Abbreviation m' := (add_mem d tbl bs m e key b).
Context (Hh : heap_ok m fe (e :: addrs (concat bs)) lk lv) (Hkey : key ∈ lk) (Hx : key_at m key x).
Context (Has : assoc x (concat bs) = None) (Hcount : Z.of_nat (length (concat bs)) + 1 < 2 ^ 63).
Context (Hes : bs !! Z.to_nat b = Some es).

(** Words of entries already in the dictionary are not touched. *)
Lemma add_mem_entry e' : e' ∈ concat bs -> same_words m m' (e_addr e') sizeof_dictEntry.
Proof.
  intros He j Hj. pose proof (bucket_range s d tbl k bs Hd x) as Hb.
  assert (e_addr e' ∈ e :: addrs (concat bs)) as Hin by (right; by apply list_elem_of_fmap_2).
  destruct (heap_apart _ _ _ _ _ Hh) as [Hnd Hap]. apply list.NoDup_cons in Hnd as [Hnd _].
  assert (e_addr e' <> e) as Hne by (intros <-; apply Hnd; by apply list_elem_of_fmap_2).
  specialize (Hap _ _ Hin ltac:(left) Hne). unfold sizeof_dictEntry in *.
  apply add_mem_other; unfold de_key, de_next; [lia| | |lia].
  - eapply heap_entry_ne; [done..|]. by eapply used_not_heap.
  - eapply heap_entry_ne; [done..|]. by eapply slot_not_heap.
Qed.

Lemma add_heap : heap_ok m' fe (e :: addrs (concat bs)) lk lv /\ keeps key_at m m' lk /\ keeps val_at m m' lv.
Proof.
  pose proof (bucket_range s d tbl k bs Hd x) as Hb. apply (heap_write _ _ _ _ _ _ Hh).
  intros a Ha Hout. pose proof (Hout e ltac:(left)) as He. unfold sizeof_dictEntry in He.
  apply add_mem_other; unfold de_key, de_next; try lia; intros ->; revert Ha.
  - by eapply used_not_heap.
  - by eapply slot_not_heap.
Qed.

Lemma add_untouched : untouched m m' d tbl k.
Proof.
  intros a Ha Hhd Ht. pose proof (bucket_range s d tbl k bs Hd x) as Hb.
  apply add_mem_other; try (apply not_eq_sym; eapply heap_entry_ne; [exact Hh|left|by vm_compute|done]).
  - intros ->. apply Hhd. unfold used_word, d_ht, ht_used, sizeof_dict. lia.
  - lia.
Qed.

Lemma add_dict_ok : exists v, dict_ok (kv_seed s) m' d tbl k (<[Z.to_nat b := mk_ent e key v x :: es]> bs).
Proof.
  pose proof (bucket_range s d tbl k bs Hd x) as Hb. destruct add_heap as (Hh' & Hkeys & _).
  destruct (heap_entry _ _ _ _ _ e Hh ltac:(left)) as (Ha & Hal & Hew).
  assert (tbl + 8 * Z.of_nat (Z.to_nat b) = tbl + 8 * b) as Hslot by lia.
  assert (forall j, 0 <= j < sizeof_dictEntry -> e + j <> used_word d /\ e + j <> tbl + 8 * b) as Hne.
  { intros j Hj. split; eapply heap_entry_ne; try done; [left|by eapply used_not_heap|left|by eapply slot_not_heap]. }
  assert (ld m' (tbl + 8 * b) = e) as Hhead.
  { unfold add_mem. rewrite !ld_insert. pose proof (Hne 0). pose proof (Hne 16). unfold sizeof_dictEntry, de_key, de_next in *.
    pose proof (slot_ne_header s d tbl k bs Hd b (used_word d) Hb ltac:(unfold used_word, d_ht, ht_used, sizeof_dict; lia)).
    cases_cmp; done. }
  exists (ld m' (e + de_val)). destruct (concat_insert bs _ es (mk_ent e key (ld m' (e + de_val)) x :: es) Hes) as (rest & Hp1 & Hp2).
  assert (concat (<[Z.to_nat b := mk_ent e key (ld m' (e + de_val)) x :: es]> bs)
    ≡ₚ mk_ent e key (ld m' (e + de_val)) x :: concat bs) as Hp by (rewrite Hp2, Hp1; done).
  eapply dict_ok_bucket; [done..| | | | | | | |].
  - intros a Hin Hu. apply add_mem_other; [| |intros ->; by eapply (slot_ne_header s d tbl k bs Hd b)|];
      try done; intros ->; eapply (do_heap _ _ _ _ _ _ Hd); try (left; exact Hin); apply Hew; by vm_compute.
  - rewrite Hp. cbn [length]. unfold add_mem. rewrite !ld_insert. pose proof (Hne 0).
    unfold sizeof_dictEntry, de_key in *. cases_cmp.
  - rewrite Hp. cbn [length]. lia.
  - intros j Hj Hjl. pose proof (do_len _ _ _ _ _ _ Hd).
    apply add_mem_other; try (apply not_eq_sym; eapply heap_entry_ne; [exact Hh|left|by vm_compute|eapply slot_not_heap; [done|lia]]).
    + eapply slot_ne_header; [done|lia|]. unfold used_word, d_ht, ht_used, sizeof_dict. lia.
    + lia.
  - rewrite Hslot, Hhead. cbn [chain e_addr e_keyp e_val e_k]. repeat split; try done.
    + unfold add_mem. by rewrite ld_insert, Z.eqb_refl.
    + by apply Hkeys.
    + assert (ld m' (e + de_next) = ld m (tbl + 8 * b)) as ->.
      { unfold add_mem. rewrite !ld_insert. pose proof (Hne 16). unfold sizeof_dictEntry, de_key, de_next in *. cases_cmp; done. }
      pose proof (do_chain _ _ _ _ _ _ Hd _ _ Hes) as Hc. rewrite Hslot in Hc.
      eapply chain_frame; [exact Hc|..]; intros e' He';
        (assert (e' ∈ concat bs) by (apply elem_of_concat; by eexists _, _)).
      * by apply add_mem_entry.
      * apply Hkeys. by apply Hk.
  - intros j esj e' Hj Hlj He'. assert (e' ∈ concat bs) by (apply elem_of_concat; by eexists _, _).
    split; [by apply add_mem_entry|apply Hkeys; by apply Hk].
  - intros e' [->|He']%elem_of_cons; [cbn; lia|]. by eapply do_bucket.
  - rewrite Hp. cbn. constructor; [|apply Hd]. intros (e' & Hxe & He')%list_elem_of_fmap.
    by eapply assoc_None.
Qed.
End add.

(** From the allocated entry on, [dictAddRaw] writes [add_mem]. *)
Lemma dictAddRaw_new s d tbl k bs lk lv e fe key x es :
  dict_ok (kv_seed s) (kv_mem s) d tbl k bs -> keys_in lk (concat bs) ->
  heap_ok (kv_mem s) (e :: fe) (addrs (concat bs)) lk lv ->
  key ∈ lk -> key_at (kv_mem s) key x -> (length (concat bs) < fuel)%nat ->
  full s k bs = false -> assoc x (concat bs) = None -> Z.of_nat (length (concat bs)) + 1 < 2 ^ 63 ->
  let i := Z.to_nat (bucket (kv_seed s) k x) in
  bs !! i = Some es ->
  exists m' l' v, runs (dictAddRaw ty fuel d key) s (e, 0) (upd s m' l')
    /\ dict_ok (kv_seed s) m' d tbl k (<[i := mk_ent e key v x :: es]> bs)
    /\ heap_ok m' fe (e :: addrs (concat bs)) lk lv
    /\ keeps key_at (kv_mem s) m' lk /\ keeps val_at (kv_mem s) m' lv
    /\ untouched (kv_mem s) m' d tbl k.
Proof.
  intros Hd Hk Hh Hkey Hx Hf Hfull Has Hcount i Hes.
  pose proof (bucket_range s d tbl k bs Hd x) as Hb.
  destruct (heap_alloc s e fe _ _ _ Hh) as (f & m1 & l1 & Hfa & Hra & Hh1 & Hw1 & He1 & Hk1 & Hv1).
  assert (dict_ok (kv_seed s) m1 d tbl k bs) as Hd1 by (by eapply dict_ok_step).
  set (s1 := upd s m1 l1). set (b := bucket (kv_seed s) k x).
  destruct (heap_entry _ _ _ _ _ e Hh1 ltac:(left)) as (Ha & Hal & Hew).
  assert (forall j, 0 <= j < 24 -> aligned 8 j -> kaddr_ok (e + j) = true) as Ke by (intros; by apply (kaddr_ok_off e 24)).
  destruct (add_heap s1 d tbl k bs lk lv Hd1 e fe key x Hh1) as (Hh2 & Hk2 & Hv2).
  destruct (add_dict_ok s1 d tbl k bs lk lv Hd1 Hk e fe key x es Hh1 Hkey (Hk1 _ _ Hkey Hx) Has Hcount Hes) as [v Hd2].
  set (m2 := <[tbl + 8 * b := e]> (<[e + de_next := ld m1 (tbl + 8 * b)]> m1)).
  assert (forall a, d <= a < d + sizeof_dict -> ld m2 a = ld m1 a) as Hhdr.
  { intros a Hin. unfold m2. rewrite !ld_insert.
    pose proof (slot_ne_header s d tbl k bs Hd b a Hb Hin).
    pose proof (heap_entry_ne _ _ _ _ _ e de_next a Hh1 ltac:(left) ltac:(by vm_compute)
      ltac:(apply (do_heap _ _ _ _ _ _ Hd); by left)). cases_cmp; done. }
  destruct (moded_runs s d tbl k bs Hd (upd s1 m2 l1) (tbl + 8 * b)) as [l2 Hmod].
  { cbn [kv_mem upd]. rewrite Hhdr by (unfold d_privdata, sizeof_dict; lia). apply Hd1. }
  exists (add_mem d tbl bs m1 e key b), l2, v. 
  split; [|split; [done|split; [done|split; [by eapply keeps_trans|split; [by eapply keeps_trans|]]]]].
  2:{ eapply untouched_trans; [by apply untouched_heap|]. eapply (add_untouched s1 d tbl k bs lk lv); done. }
  unfold runs, dictAddRaw. rewrite (bind_runs _ _ _ _ _ (rehash_if_rehashing_runs fuel s d tbl k bs Hd)).
  unfold dictHashKey. rewrite (bind_runs _ _ _ _ _ (key_hash_ok s key x Hx)).
  rewrite (bind_runs _ _ _ _ _ (dictKeyIndex_runs fuel s d tbl k bs Hd key x Hx Hf)).
  unfold key_index. rewrite Hfull, Has. cbn [fst snd]. fold b.
  rewrite (proj2 (Z.eqb_neq b (-1))) by lia.
  rewrite (bind_runs _ _ _ _ _ (dictIsRehashing_runs s d tbl k bs Hd)). cbv iota.
  rewrite Hfa, bind_assoc, bind_kload, (do_priv _ _ _ _ _ _ Hd) by (by eapply (dict_word s d tbl k bs Hd)).
  rewrite (bind_runs _ _ _ _ _ Hra).
  rewrite (bind_runs _ _ _ _ _ (slot_runs s1 d tbl k bs Hd1 _ Hb)).
  rewrite bind_kload, !bind_kstore by (first [by apply Ke | by apply (table_word s1 d tbl k bs Hd1)]).
  change (_ <| kv_mem := _ |>) with (upd s1 m2 l1). rewrite (bind_runs _ _ _ _ _ Hmod).
  rewrite bind_kload, bind_kstore by (by eapply (dict_word2 s1 d tbl k bs Hd1)).
  unfold dictSetKey. rewrite no_keyDup, bind_kstore by (by apply Ke).
  cbn [kv_mem upd]. rewrite Hhdr by (unfold d_ht, ht_used, sizeof_dict; lia).
  rewrite (do_used _ _ _ _ _ _ Hd1), u64_small by lia. done.
Qed.

(** ** Setting a value *)

Definition with_val (e : ent K) (v : Z) : ent K := mk_ent (e_addr e) (e_keyp e) v (e_k e).

Lemma chain_set_val m p es1 e es2 v :
  chain m p (es1 ++ e :: es2) ->
  let m' := <[e_addr e + de_val := v]> m in
  (forall e', e' ∈ es1 ++ es2 -> same_words m m' (e_addr e') sizeof_dictEntry) ->
  (forall e', e' ∈ es1 ++ e :: es2 -> key_at m (e_keyp e') (e_k e') -> key_at m' (e_keyp e') (e_k e')) ->
  chain m' p (es1 ++ with_val e v :: es2).
Proof.
  intros Hc m' Hw Hk. revert p Hc. induction es1 as [|e1 es1 IH]; intros p Hc; cbn [app] in *.
  - destruct Hc as (-> & Ha & Hal & Hkp & Hv & Hkey & Hc). cbn [chain with_val e_addr e_keyp e_val e_k].
    assert (forall i, i <> de_val -> ld m' (e_addr e + i) = ld m (e_addr e + i)) as Hi
      by (intros; unfold m'; rewrite ld_insert; cases_cmp; done).
    rewrite (Hi de_key), (Hi de_next) by done. unfold m' at 1. rewrite ld_insert, Z.eqb_refl.
    repeat split; try done; [by apply Hk; [left|]|].
    eapply chain_frame; [exact Hc|exact Hw|]. intros e' He'. apply Hk. by right.
  - destruct Hc as (-> & Ha & Hal & Hkp & Hv & Hkey & Hc). cbn [chain].
    pose proof (Hw e1 ltac:(left)) as He. unfold same_words, sizeof_dictEntry in He.
    rewrite !He by (unfold de_key, de_val, de_next; lia).
    repeat split; try done; [by apply Hk; [left|]|].
    apply IH; [intros; apply Hw; by right|intros; by apply Hk; [right|]|done].
Qed.

(** Other entries than [e] do not have the words of [e]. *)
Lemma other_entry_words m fe lk lv (e : ent K) (rest : list (ent K)) v i :
  heap_ok m fe (addrs (e :: rest)) lk lv -> 0 <= i < sizeof_dictEntry ->
  forall e', e' ∈ rest -> same_words m (<[e_addr e + i := v]> m) (e_addr e') sizeof_dictEntry.
Proof.
  intros Hh Hi e' He' j Hj. destruct (heap_apart _ _ _ _ _ Hh) as [Hnd Hap].
  cbn in Hnd. apply list.NoDup_cons in Hnd as [Hnd _].
  assert (e_addr e' ∈ addrs rest) as Hin by (by apply list_elem_of_fmap_2).
  assert (e_addr e <> e_addr e') as Hne by (intros Heq; apply Hnd; by rewrite Heq).
  specialize (Hap (e_addr e) (e_addr e') ltac:(left) ltac:(by right) Hne).
  rewrite ld_insert. unfold sizeof_dictEntry in *. cases_cmp; done.
Qed.

Lemma set_val_ok s d tbl k bs lk lv fe (e : ent K) v :
  dict_ok (kv_seed s) (kv_mem s) d tbl k bs -> keys_in lk (concat bs) ->
  heap_ok (kv_mem s) fe (addrs (concat bs)) lk lv -> e ∈ concat bs ->
  let m' := <[e_addr e + de_val := v]> (kv_mem s) in
  runs (dictSetVal ty d (e_addr e) v) s tt (upd s m' (kv_log s))
  /\ keeps key_at (kv_mem s) m' lk /\ keeps val_at (kv_mem s) m' lv /\ untouched (kv_mem s) m' d tbl k
  /\ exists bs' rest, dict_ok (kv_seed s) m' d tbl k bs' /\ concat bs ≡ₚ e :: rest
    /\ concat bs' ≡ₚ with_val e v :: rest /\ heap_ok m' fe (addrs (concat bs')) lk lv.
Proof.
  intros Hd Hk Hh He m'. destruct (entry_words s d tbl k bs Hd e He) as (Ha & Hal & _).
  destruct (proj1 (elem_of_concat bs e) He) as (i & es & Hi & Hes).
  apply list_elem_of_split in Hes as (es1 & es2 & ->).
  destruct (concat_insert bs i _ (es1 ++ with_val e v :: es2) Hi) as (rest & Hp & Hp').
  assert (concat bs ≡ₚ e :: (es1 ++ es2 ++ rest)) as Hp1 by (rewrite Hp; solve_Permutation).
  assert (concat (<[i := es1 ++ with_val e v :: es2]> bs) ≡ₚ with_val e v :: (es1 ++ es2 ++ rest)) as Hp1'
    by (rewrite Hp'; solve_Permutation).
  assert (heap_ok (kv_mem s) fe (addrs (e :: (es1 ++ es2 ++ rest))) lk lv) as Hh1 
    by (apply (heap_perm _ _ (addrs (concat bs)) _ lk _ lv); [by rewrite Hp1|done..]).
  destruct (heap_write (kv_mem s) m' fe _ lk lv Hh1) as (Hh2 & Hk2 & Hv2).
  { intros a _ Hout. specialize (Hout (e_addr e) ltac:(left)). unfold m'. rewrite ld_insert.
    unfold sizeof_dictEntry, de_val in *. cases_cmp; done. }
  assert (forall a, ~ heap_word a -> ld m' a = ld (kv_mem s) a) as Hnh.
  { intros a Hna. unfold m'. rewrite ld_insert.
    pose proof (heap_entry_ne _ _ _ _ _ (e_addr e) de_val a Hh1 ltac:(left) ltac:(by vm_compute) Hna). cases_cmp; done. }
  pose proof (other_entry_words _ _ _ _ e _ v de_val Hh1 ltac:(by vm_compute)) as Hoth. fold m' in Hoth.
  split. { unfold runs, dictSetVal. rewrite no_valDup, kstore_ok by (by apply (kaddr_ok_off _ 24)). by destruct s. }
  split; [done|]. split; [done|]. split; [by apply untouched_heap|].
  exists (<[i := es1 ++ with_val e v :: es2]> bs), (es1 ++ es2 ++ rest).
  split; [|split; [done|split; [done|
    apply (heap_perm _ _ (addrs (e :: es1 ++ es2 ++ rest)) _ lk _ lv); [by rewrite Hp1'|done..]]]].
  assert (e_k <$> concat (<[i := es1 ++ with_val e v :: es2]> bs) ≡ₚ e_k <$> concat bs) as Hpk by (rewrite Hp1', Hp1; done).
  pose proof (do_heap _ _ _ _ _ _ Hd) as Hdh. pose proof (do_len _ _ _ _ _ _ Hd) as Hlen.
  assert (length (concat (<[i := es1 ++ with_val e v :: es2]> bs)) = length (concat bs)) as Hleq by (rewrite Hp1', Hp1; done).
  eapply dict_ok_bucket; [done..| | | | | | | |].
  - intros a Hin _. apply Hnh, Hdh. by left.
  - rewrite Hleq, Hnh by (by eapply used_not_heap). apply Hd.
  - rewrite Hleq. apply Hd.
  - intros j _ Hj. apply Hnh, Hdh. right. lia.
  - pose proof (lookup_lt_Some _ _ _ Hi). rewrite Hnh by (apply Hdh; right; lia). apply chain_set_val; [by apply Hd|..].
    + intros e' [He'|He']%elem_of_app; apply Hoth; rewrite !elem_of_app; tauto.
    + intros e' He'. apply Hk2, Hk. apply elem_of_concat. by eexists _, _.
  - intros j esj e' Hne Hj He'. assert (e' ∈ concat bs) by (apply elem_of_concat; by eexists _, _).
    split; [|by apply Hk2, Hk]. apply Hoth. assert (e' ∈ e :: (es1 ++ es2 ++ rest)) as He2 by (by rewrite <- Hp1).
    apply elem_of_cons in He2 as [->|]; [|done].
    pose proof (do_bucket _ _ _ _ _ _ Hd j esj e Hj He').
    pose proof (do_bucket _ _ _ _ _ _ Hd i _ e Hi ltac:(apply elem_of_app; right; left)). lia.
  - intros e' He'. assert (e' = with_val e v \/ e' ∈ es1 ++ e :: es2) as [->|He2].
    { rewrite elem_of_app, elem_of_cons in *. tauto. }
    + apply (do_bucket _ _ _ _ _ _ Hd i _ e Hi). apply elem_of_app. right. left.
    + by eapply (do_bucket _ _ _ _ _ _ Hd i).
  - rewrite Hpk. apply Hd.
Qed.

(** With no entry left, [entry->next] is written through NULL. *)
Lemma dictAddRaw_no_entry s d tbl k bs lk lv key x :
  dict_ok (kv_seed s) (kv_mem s) d tbl k bs ->
  heap_ok (kv_mem s) [] (addrs (concat bs)) lk lv ->
  key_at (kv_mem s) key x -> (length (concat bs) < fuel)%nat ->
  full s k bs = false -> assoc x (concat bs) = None ->
  dictAddRaw ty fuel d key s = Fault Segv.
Proof.
  intros Hd Hh Hx Hf Hfull Has. pose proof (bucket_range s d tbl k bs Hd x) as Hb.
  destruct (heap_alloc_none s _ _ _ Hh) as (f & m1 & l1 & Hfa & Hra & Hw1).
  unfold dictAddRaw. rewrite (bind_runs _ _ _ _ _ (rehash_if_rehashing_runs fuel s d tbl k bs Hd)).
  unfold dictHashKey. rewrite (bind_runs _ _ _ _ _ (key_hash_ok s key x Hx)).
  rewrite (bind_runs _ _ _ _ _ (dictKeyIndex_runs fuel s d tbl k bs Hd key x Hx Hf)).
  unfold key_index. rewrite Hfull, Has. cbn [fst snd].
  rewrite (proj2 (Z.eqb_neq (bucket _ _ _) (-1))) by lia.
  rewrite (bind_runs _ _ _ _ _ (dictIsRehashing_runs s d tbl k bs Hd)). cbv iota.
  rewrite Hfa, bind_assoc, bind_kload, (do_priv _ _ _ _ _ _ Hd) by (by eapply (dict_word s d tbl k bs Hd)).
  rewrite (bind_runs _ _ _ _ _ Hra).
  unfold slot. rewrite bind_assoc, bind_kload by (by eapply (dict_word2 s d tbl k bs Hd)).
  cbn [kv_mem upd]. rewrite Hw1, (do_table _ _ _ _ _ _ Hd), bind_ret.
  2:{ apply (do_heap _ _ _ _ _ _ Hd). left. unfold d_ht, ht_table, sizeof_dict. lia. }
  rewrite bind_kload by (by eapply (table_word s d tbl k bs Hd)). done.
Qed.

Lemma map_of_with_val e rest v :
  map_of (with_val e v :: rest) = <[e_k e := v]> (map_of (e :: rest)).
Proof. unfold map_of. cbn. by rewrite insert_insert_eq. Qed.

Lemma keeps_sub {A} (holds : gmap Z Z -> Z -> A -> Prop) m m' (l l' : list Z) :
  l' ⊆ l -> keeps holds m m' l -> keeps holds m m' l'.
Proof. intros Hl Hk p x Hp. apply Hk. by apply Hl. Qed.

Lemma kept_of s s' d k es xv :
  keeps val_at (kv_mem s) (kv_mem s') ((e_val <$> es) ++ xv) ->
  untouched (kv_mem s) (kv_mem s') d (d + sizeof_dict) k -> s' = upd s (kv_mem s') (kv_log s') ->
  kept s s' d (2 ^ k) (map_of es) xv.
Proof.
  intros Hk Hu Hs. pose proof (Z.pow_nonneg 2 k ltac:(lia)). split.
  2:{ split; [|done]. intros a Ha Hr. apply Hu; [done|unfold sizeof_dict in *; lia..]. }
  intros v y Hv. apply Hk, elem_of_app. destruct Hv as [Hv|[x Hx]]; [by right|left].
  rewrite map_of_lookup in Hx. destruct (assoc x es) as [e|] eqn:He; [|done].
  injection Hx as <-. apply assoc_Some in He as [He _]. by apply list_elem_of_fmap_2.
Qed.

(** ** [dictReplace] *)

Section replace.
Context (s : kv) (d k : Z) (bs : list (list (ent K))) (fe xk xv : list Z) (key : Z) (x : K) (val : Z).
#[local] Abbreviation tbl := (d + sizeof_dict).
Context (Hd : dict_ok (kv_seed s) (kv_mem s) d tbl k bs).
#[local] Abbreviation lk := ((e_keyp <$> concat bs) ++ key :: xk).
#[local] Abbreviation lv := ((e_val <$> concat bs) ++ val :: xv).
Context (Hx : key_at (kv_mem s) key x) (Hf : (length (concat bs) < fuel)%nat) (Hnf : full s k bs = false).

Lemma keys_in_all : keys_in lk (concat bs).
Proof. intros e He. apply elem_of_app. left. by apply list_elem_of_fmap_2. Qed.

(** The key is there: its value is replaced and the old one given back. *)
Lemma dictReplace_existing e :
  heap_ok (kv_mem s) fe (addrs (concat bs)) lk lv -> assoc x (concat bs) = Some e ->
  exists s', runs (dictReplace ty fuel d key val) s 0 s'
    /\ dict_rep s' d (2 ^ k) (<[x := val]> (map_of (concat bs))) fe (key :: xk) xv
    /\ kept s s' d (2 ^ k) (<[x := val]> (map_of (concat bs))) xv.
Proof.
  intros Hh Has. destruct (assoc_Some _ _ _ Has) as [He Hxe].
  destruct (entry_words s d tbl k bs Hd e He) as (Ha & Hal & _ & Hv & _).
  assert (forall j, 0 <= j < 24 -> aligned 8 j -> kaddr_ok (e_addr e + j) = true) as Ke by (intros; by apply (kaddr_ok_off _ 24)).
  pose proof (dictAddRaw_none fuel s d tbl k bs Hd key x Hx Hf) as Hadd. unfold key_index in Hadd.
  rewrite Hnf, Has in Hadd. specialize (Hadd eq_refl). cbn [snd] in Hadd.
  destruct (set_val_ok s d tbl k bs lk lv fe e val Hd keys_in_all Hh He) as (Hset & Hk1 & Hv1 & Hu1 & bs' & rest & Hd1 & Hp & Hp' & Hh1).
  set (m1 := <[e_addr e + de_val := val]> (kv_mem s)) in *. set (s1 := upd s m1 (kv_log s)).
  assert (heap_ok m1 fe (addrs (concat bs')) lk (e_val e :: (e_val <$> concat bs') ++ xv)) as Hh1'.
  { apply (heap_perm _ _ (addrs (concat bs')) _ lk _ lv); [done..| |done]. rewrite Hp, Hp'. cbn. solve_Permutation. }
  destruct (heap_free_val s1 fe _ _ _ _ Hh1') as (f & m2 & l2 & Hfv & Hrv & Hh2 & Hw2 & He2 & Hk2 & Hv2).
  assert (keys_in lk (concat bs')) as Hki.
  { intros e'. rewrite Hp', elem_of_cons. intros [->|He']; [by apply (keys_in_all e)|apply keys_in_all; rewrite Hp; by right]. }
  assert (dict_ok (kv_seed s) m2 d tbl k bs') as Hd2 by (eapply dict_ok_step; [exact Hd1|exact Hki|done]).
  exists (upd s m2 l2). split.
  - unfold runs, dictReplace. rewrite (bind_runs _ _ _ _ _ Hadd). cbn [fst snd].
    change (negb (0 =? 0)) with false. cbv iota zeta.
    rewrite !bind_kload, Hv by (by apply Ke). rewrite (bind_runs _ _ _ _ _ Hset), Hfv.
    rewrite bind_assoc, bind_kload by (by eapply (dict_word s d tbl k bs Hd)). cbn [kv_mem upd].
    rewrite (do_priv _ _ _ _ _ _ Hd1). by rewrite (bind_runs _ _ _ _ _ Hrv).
  - assert (<[x := val]> (map_of (concat bs)) = map_of (concat bs')) as ->.
    { rewrite (map_of_perm _ _ (do_nodup _ _ _ _ _ _ Hd1) Hp'), (map_of_perm _ _ (do_nodup _ _ _ _ _ _ Hd) Hp).
      by rewrite map_of_with_val, Hxe. }
    split; [exists k, bs'; split; [done|]; split; [done|]; split; [done|]|].
    + eapply heap_perm; [reflexivity| |reflexivity|exact Hh2]. by rewrite Hp, Hp'.
    + apply kept_of; [|eapply untouched_trans; [exact Hu1|by apply untouched_heap]|done].
      eapply keeps_trans; [|exact Hv2]. eapply keeps_sub; [|exact Hv1].
      intros v. rewrite Hp, Hp'. cbn. rewrite !elem_of_cons, !elem_of_app, !elem_of_cons. tauto.
Qed.

(** The key is new: the next free entry takes it. *)
Lemma dictAddRaw_set e fe' :
  heap_ok (kv_mem s) (e :: fe') (addrs (concat bs)) lk lv -> assoc x (concat bs) = None ->
  Z.of_nat (length (concat bs)) + 1 < 2 ^ 63 ->
  e <> 0 /\ exists s1 s', runs (dictAddRaw ty fuel d key) s (e, 0) s1 /\ runs (dictSetVal ty d e val) s1 tt s'
    /\ dict_rep s' d (2 ^ k) (<[x := val]> (map_of (concat bs))) fe' xk xv
    /\ kept s s' d (2 ^ k) (<[x := val]> (map_of (concat bs))) xv.
Proof.
  intros Hh Has Hcount. destruct (bucket_lookup s d tbl k bs Hd x) as (es & Hes & _).
  assert (key ∈ lk) as Hkey by (apply elem_of_app; right; left).
  destruct (dictAddRaw_new s d tbl k bs lk lv e fe' key x es Hd keys_in_all Hh Hkey Hx Hf Hnf Has Hcount Hes)
    as (m1 & l1 & v & Hadd & Hd1 & Hh1 & Hk1 & Hv1 & Hu1).
  set (e1 := mk_ent e key v x) in *. set (bs1 := <[_ := e1 :: es]> bs) in *. set (s1 := upd s m1 l1) in *.
  destruct (concat_insert bs _ es (e1 :: es) Hes) as (r0 & Hp0 & Hp1). fold bs1 in Hp1.
  assert (concat bs1 ≡ₚ e1 :: concat bs) as Hpb by (by rewrite Hp1, Hp0). clear Hp0 Hp1.
  assert (keys_in lk (concat bs1)) as Hki.
  { intros e'. rewrite Hpb, elem_of_cons. intros [->|He']; [done|by apply keys_in_all]. }
  assert (e1 ∈ concat bs1) as He1 by (rewrite Hpb; left).
  assert (heap_ok m1 fe' (addrs (concat bs1)) lk lv) as Hh1'.
  { apply (heap_perm _ _ (e :: addrs (concat bs)) _ lk _ lv); [by rewrite Hpb|done..]. }
  destruct (set_val_ok s1 d tbl k bs1 lk lv fe' e1 val Hd1 Hki Hh1' He1) as (Hset & Hk2 & Hv2 & Hu2 & bs' & rest & Hd2 & Hp & Hp' & Hh2).
  assert (rest ≡ₚ concat bs) as Hrest by (rewrite Hpb in Hp; by apply Permutation_cons_inv in Hp).
  destruct (heap_entry _ _ _ _ _ e Hh1 ltac:(left)) as (Ha & _). split; [lia|].
  exists s1. eexists. split; [exact Hadd|]. split; [exact Hset|].
  assert (<[x := val]> (map_of (concat bs)) = map_of (concat bs')) as ->.
  { rewrite (map_of_perm _ _ (do_nodup _ _ _ _ _ _ Hd2) Hp').
    by rewrite (map_of_perm _ _ (do_nodup _ _ _ _ _ _ Hd) (symmetry Hrest)). }
  split; [exists k, bs'; split; [done|]; split; [exact Hd2|]; split; [done|]|].
  - eapply heap_perm; [reflexivity|..|exact Hh2]; rewrite Hp', Hrest; cbn; solve_Permutation.
  - apply kept_of; [|by eapply untouched_trans|done]. apply (keeps_trans _ _ m1); (eapply keeps_sub; [|first [exact Hv1|exact Hv2]]);
      intros w; rewrite Hp', Hrest; cbn; rewrite !elem_of_cons, !elem_of_app, !elem_of_cons; tauto.
Qed.
End replace.

(** ** Deletion *)

Lemma heap_step_trans m1 m2 m3 le le' lk lk' lv lv' :
  heap_step m1 m2 le lk lv -> heap_step m2 m3 le' lk' lv' -> le' ⊆ le -> lk' ⊆ lk -> lv' ⊆ lv ->
  heap_step m1 m3 le' lk' lv'.
Proof.
  intros (W1 & E1 & K1 & V1) (W2 & E2 & K2 & V2) Hle Hlk Hlv. split; [|split; [|split]].
  - intros a Ha. by rewrite W2, W1.
  - intros e He i Hi. by rewrite (E2 e He i Hi), (E1 e (Hle e He) i Hi).
  - eapply keeps_trans; [|exact K2]. intros p x Hp. apply K1. by apply Hlk.
  - eapply keeps_trans; [|exact V2]. intros p x Hp. apply V1. by apply Hlv.
Qed.

(** Key, value and entry are given back. *)
Lemma delete_free_runs s d tbl k bs (e : ent K) (le fe lk lv : list Z) :
  dict_ok (kv_seed s) (kv_mem s) d tbl k bs ->
  forall m l, (forall a, d <= a < d + sizeof_dict -> ld m a = ld (kv_mem s) a) ->
  heap_ok m fe (e_addr e :: le) (e_keyp e :: lk) (e_val e :: lv) ->
  ld m (e_addr e + de_key) = e_keyp e -> ld m (e_addr e + de_val) = e_val e ->
  exists m' l', runs (dictFreeKey ty d (e_addr e);; dictFreeVal ty d (e_addr e);; _dictFreeEntry ty d (e_addr e))
      (upd s m l) tt (upd s m' l')
    /\ heap_ok m' (e_addr e :: fe) le lk lv /\ heap_step m m' le lk lv.
Proof.
  intros Hd m l Hhdr Hh Hkp Hv.
  destruct (heap_entry _ _ _ _ _ (e_addr e) Hh ltac:(left)) as (Ha & Hal & _).
  assert (forall j, 0 <= j < 24 -> aligned 8 j -> kaddr_ok (e_addr e + j) = true) as Ke by (intros; by apply (kaddr_ok_off _ 24)).
  assert (kaddr_ok (d + d_privdata) = true) as Kd by (by apply (dict_word s d tbl k bs Hd)).
  assert (forall a, d <= a < d + sizeof_dict -> ~ heap_word a) as Hnh by (intros; apply (do_heap _ _ _ _ _ _ Hd); by left).
  assert (d <= d + d_privdata < d + sizeof_dict) as Hpd by (unfold d_privdata, sizeof_dict; lia).
  assert (ld m (d + d_privdata) = priv) as Hp0 by (rewrite Hhdr by done; apply Hd).
  destruct (heap_free_key (upd s m l) _ _ _ _ _ Hh) as (fk & m1 & l1 & Hfk & Hrk & Hh1 & W1 & E1 & K1 & V1).
  destruct (heap_free_val (upd s m1 l1) _ _ _ _ _ Hh1) as (fv & m2 & l2 & Hfv & Hrv & Hh2 & W2 & E2 & K2 & V2).
  destruct (heap_free_entry (upd s m2 l2) _ _ _ _ _ Hh2) as (fe' & m3 & l3 & Hfe & Hre & Hh3 & W3 & E3 & K3 & V3).
  cbn [kv_mem upd] in *.
  assert (ld m1 (e_addr e + de_val) = e_val e) as Hv1.
  { rewrite (E1 (e_addr e) ltac:(left) de_val) by by vm_compute. done. }
  exists m3, l3. split; [|split; [done|]].
  - unfold runs, dictFreeKey, dictFreeVal, _dictFreeEntry. rewrite Hfk, Hfv, Hfe.
    rewrite !bind_assoc, bind_kload by done. rewrite bind_assoc, bind_kload by (by apply Ke). cbn [kv_mem upd].
    rewrite Hp0, Hkp, (bind_runs _ _ _ _ _ Hrk). rewrite bind_assoc, bind_kload by done.
    rewrite bind_assoc, bind_kload by (by apply Ke). cbn [kv_mem upd].
    rewrite W1, Hp0, Hv1, (bind_runs _ _ _ _ _ Hrv) by (by apply Hnh).
    rewrite bind_kload by done. cbn [kv_mem upd]. rewrite W2, W1, Hp0 by (by apply Hnh). exact Hre.
  - apply (heap_step_trans m m2 m3 (e_addr e :: le) le lk lk lv lv); [|done|by intros ??; right|done..].
    apply (heap_step_trans m m1 m2 (e_addr e :: le) (e_addr e :: le) lk lk (e_val e :: lv) lv); [done..|].
    by intros ??; right.
Qed.

(** The word that points to the entry behind [es1] on the chain from [link]. *)
Fixpoint del_link (link : Z) es1 : Z :=
  match es1 with [] => link | e :: es1' => del_link (e_addr e + de_next) es1' end.

(** What [dictGenericDelete] does with the entry found. *)
Definition delete_found (d : Z) (nofree : bool) (link he : Z) : cmd kv Z :=
  nx ← kload (he + de_next);
  kstore link nx;;
  _dictModed ty d link;;
  when (negb nofree) (dictFreeKey ty d he;; dictFreeVal ty d he;; _dictFreeEntry ty d he);;
  used ← kload (used_word d);
  kstore (used_word d) (u64 (used - 1));;
  mret he.

Lemma del_link_cases link es1 :
  (es1 = [] /\ del_link link es1 = link) \/ exists e, e ∈ es1 /\ del_link link es1 = e_addr e + de_next.
Proof.
  revert link. induction es1 as [|e es1 IH]; intros link; [by left|right]. cbn.
  destruct (IH (e_addr e + de_next)) as [[-> ->]|(e' & He' & ->)]; [exists e|exists e']; (split; [|done]); [left|by right].
Qed.

(** The search stops at the first entry with the key. *)
Lemma delete_chain_found s d key x p es1 e es2 n nofree link :
  kaddr_ok (d + d_privdata) = true -> ld (kv_mem s) (d + d_privdata) = priv ->
  key_at (kv_mem s) key x -> chain (kv_mem s) p (es1 ++ e :: es2) -> (length es1 < n)%nat ->
  (forall e', e' ∈ es1 -> e_k e' <> x) -> e_k e = x ->
  delete_chain ty n d 0 key nofree link p s = delete_found d nofree (del_link link es1) (e_addr e) s.
Proof.
  intros Kd Hp Hx Hc Hn Hne He. revert p n link Hc Hn.
  induction es1 as [|e1 es1 IH]; intros p n link Hc Hn; (destruct n as [|n]; [cbn in Hn; lia|]); cbn [app] in Hc.
  - pose proof (entry_word _ _ _ e 0 Hc ltac:(left) ltac:(lia) eq_refl) as K0.
    destruct Hc as (-> & Ha & Hal & Hkp & Hv & Hkey & Hc). cbn [delete_chain].
    rewrite (proj2 (Z.eqb_neq (e_addr e) 0)) by lia. rewrite bind_kload, Hkp by done.
    rewrite (bind_runs _ _ _ _ _ (same_key_runs s d key _ x _ Kd Hp Hx Hkey)).
    by rewrite bool_decide_true.
  - pose proof (entry_word _ _ _ e1 0 Hc ltac:(left) ltac:(lia) eq_refl) as K0.
    pose proof (entry_word _ _ _ e1 16 Hc ltac:(left) ltac:(lia) eq_refl) as K2.
    destruct Hc as (-> & Ha & Hal & Hkp & Hv & Hkey & Hc). cbn [delete_chain].
    rewrite (proj2 (Z.eqb_neq (e_addr e1) 0)) by lia. rewrite bind_kload, Hkp by done.
    rewrite (bind_runs _ _ _ _ _ (same_key_runs s d key _ x _ Kd Hp Hx Hkey)).
    rewrite bool_decide_false by (apply Hne; left). rewrite bind_kload by done.
    apply (IH ltac:(intros; apply Hne; by right)); [done|cbn in Hn; lia].
Qed.

Lemma delete_chain_missing s d key x p es n nofree link :
  kaddr_ok (d + d_privdata) = true -> ld (kv_mem s) (d + d_privdata) = priv ->
  key_at (kv_mem s) key x -> chain (kv_mem s) p es -> (length es < n)%nat -> assoc x es = None ->
  runs (delete_chain ty n d 0 key nofree link p) s 0 s.
Proof.
  intros Kd Hp Hx. revert p n link. induction es as [|e es IH]; intros p n link Hc Hn Has;
    (destruct n as [|n]; [cbn in Hn; lia|]).
  - cbn in Hc. subst p. done.
  - pose proof (entry_word _ _ _ e 0 Hc ltac:(left) ltac:(lia) eq_refl) as K0.
    pose proof (entry_word _ _ _ e 16 Hc ltac:(left) ltac:(lia) eq_refl) as K2.
    destruct Hc as (-> & Ha & Hal & Hkp & Hv & Hkey & Hc). cbn [delete_chain assoc] in *.
    rewrite (proj2 (Z.eqb_neq (e_addr e) 0)) by lia. unfold runs. rewrite bind_kload, Hkp by done.
    rewrite (bind_runs _ _ _ _ _ (same_key_runs s d key _ x _ Kd Hp Hx Hkey)).
    case_decide as He; [done|]. rewrite bool_decide_false, bind_kload by done.
    apply IH; [done|cbn in Hn; lia|done].
Qed.

(** The first of some entries in use and another one do not share words. *)
Lemma entries_apart (e1 e2 : ent K) (es : list (ent K)) i j :
  NoDup (addrs (e1 :: es)) ->
  (forall a b, a ∈ addrs (e1 :: es) -> b ∈ addrs (e1 :: es) -> a <> b -> a + sizeof_dictEntry <= b \/ b + sizeof_dictEntry <= a) ->
  e2 ∈ es -> 0 <= i < sizeof_dictEntry -> 0 <= j < sizeof_dictEntry -> e_addr e1 + i <> e_addr e2 + j.
Proof.
  intros Hnd Hap He Hi Hj. cbn in Hnd. apply list.NoDup_cons in Hnd as [Hnd _].
  assert (e_addr e2 ∈ addrs es) as Hin by (by apply list_elem_of_fmap_2).
  assert (e_addr e1 <> e_addr e2) as Hne by (intros Heq; apply Hnd; by rewrite Heq).
  specialize (Hap (e_addr e1) (e_addr e2) ltac:(left) ltac:(by right) Hne). lia.
Qed.

Lemma chain_unlink m link p es1 e es2 :
  chain m p (es1 ++ e :: es2) -> ld m link = p ->
  (forall e' i, e' ∈ es1 ++ e :: es2 -> 0 <= i < sizeof_dictEntry -> link <> e_addr e' + i) ->
  NoDup (addrs (es1 ++ e :: es2)) ->
  (forall a b, a ∈ addrs (es1 ++ e :: es2) -> b ∈ addrs (es1 ++ e :: es2) -> a <> b ->
     a + sizeof_dictEntry <= b \/ b + sizeof_dictEntry <= a) ->
  let m1 := <[del_link link es1 := ld m (e_addr e + de_next)]> m in
  (forall e', e' ∈ es1 ++ es2 -> key_at m (e_keyp e') (e_k e') -> key_at m1 (e_keyp e') (e_k e')) ->
  chain m1 (ld m1 link) (es1 ++ es2).
Proof.
  intros Hc Hl Hlink Hnd Hap m1 Hk. unfold m1 in *. clear m1. revert link p Hc Hl Hlink Hnd Hap Hk.
  induction es1 as [|e1 es1 IH]; intros link p Hc Hl Hlink Hnd Hap Hk; cbn [app del_link] in *.
  - destruct Hc as (-> & _ & _ & _ & _ & _ & Hc). rewrite ld_insert, Z.eqb_refl.
    eapply chain_frame; [exact Hc| |done]. intros e' He' i Hi. rewrite ld_insert.
    pose proof (Hlink e' i ltac:(by right) Hi). cases_cmp; done.
  - destruct Hc as (-> & Ha & Hal & Hkp & Hv & Hkey & Hc).
    set (m1 := <[del_link (e_addr e1 + de_next) es1 := ld m (e_addr e + de_next)]> m) in *.
    assert (forall a, a <> e_addr e1 + de_next ->
      (forall e', e' ∈ es1 ++ e :: es2 -> e_addr e' + de_next <> a) -> ld m1 a = ld m a) as Hm1.
    { intros a Ha1 Hae. unfold m1. rewrite ld_insert.
      destruct (del_link_cases (e_addr e1 + de_next) es1) as [[_ ->]|(e' & He' & ->)].
      - cases_cmp; done.
      - pose proof (Hae e' ltac:(apply elem_of_app; by left)). cases_cmp; done. }
    assert (forall i, 0 <= i < sizeof_dictEntry -> i <> de_next -> ld m1 (e_addr e1 + i) = ld m (e_addr e1 + i)) as He1.
    { intros i Hi Hne. apply Hm1; [lia|]. intros e' He' Heq. symmetry in Heq. revert Heq.
      by eapply entries_apart. }
    rewrite Hm1, Hl; [|by apply (Hlink e1); [left|by vm_compute]
      |intros e' He'; apply not_eq_sym, Hlink; [by right|by vm_compute]].
    cbn [chain]. rewrite (He1 de_key), (He1 de_val) by by vm_compute.
    repeat split; try done; [by apply Hk; [left|]|].
    apply (IH (e_addr e1 + de_next) (ld m (e_addr e1 + de_next))); try done.
    + intros e' i He' Hi. by eapply entries_apart.
    + cbn in Hnd. by apply list.NoDup_cons in Hnd as [_ ?].
    + intros a b Ha2 Hb2. apply Hap; by right.
    + intros e' He'. apply Hk. by right.
Qed.

Lemma nodup_fmap_inj {A B} (f : A -> B) (l : list A) a b : NoDup (f <$> l) -> a ∈ l -> b ∈ l -> f a = f b -> a = b.
Proof.
  induction l as [|c l IHl]; [by intros _ ?%not_elem_of_nil|]. cbn. intros [Hc Hnd]%list.NoDup_cons Ha Hb Hf.
  apply elem_of_cons in Ha as [->|Ha], Hb as [->|Hb]; [done|..].
  - exfalso. apply Hc. rewrite Hf. by apply list_elem_of_fmap_2.
  - exfalso. apply Hc. rewrite <- Hf. by apply list_elem_of_fmap_2.
  - by apply IHl.
Qed.

Lemma assoc_split x es e :
  assoc x es = Some e -> exists es1 es2, es = es1 ++ e :: es2 /\ (forall e', e' ∈ es1 -> e_k e' <> x) /\ e_k e = x.
Proof.
  induction es as [|e' es IH]; cbn; [done|]. case_decide as Hx.
  - intros [= ->]. exists [], es. split; [done|]. split; [by intros ? ?%not_elem_of_nil|done].
  - intros (es1 & es2 & -> & Hn & He)%IH. exists (e' :: es1), es2. split; [done|]. split; [|done].
    by intros e2 [->|He2]%elem_of_cons; [|apply Hn].
Qed.

Section delete.
Context (s : kv) (d tbl k : Z) (bs : list (list (ent K))) (fe xk xv : list Z).
Context (Hd : dict_ok (kv_seed s) (kv_mem s) d tbl k bs).
#[local] Abbreviation m := (kv_mem s).
Context (i : nat) (es1 es2 : list (ent K)) (e : ent K) (Hi : bs !! i = Some (es1 ++ e :: es2)).
#[local] Abbreviation bs' := (<[i := es1 ++ es2]> bs).
#[local] Abbreviation lk := ((e_keyp <$> concat bs') ++ xk).
#[local] Abbreviation lv := ((e_val <$> concat bs') ++ xv).
Context (Hh : heap_ok m fe (e_addr e :: addrs (concat bs')) (e_keyp e :: lk) (e_val e :: lv)).
#[local] Abbreviation lw := (del_link (tbl + 8 * Z.of_nat i) es1).
#[local] Abbreviation m1 := (<[lw := ld m (e_addr e + de_next)]> m).

Lemma delete_perm : concat bs ≡ₚ e :: concat bs'.
Proof.
  destruct (concat_insert bs i _ (es1 ++ es2) Hi) as (rest & Hp & Hp'). rewrite Hp, Hp'. solve_Permutation.
Qed.

Lemma delete_slot : 0 <= Z.of_nat i < 2 ^ k.
Proof. pose proof (lookup_lt_Some _ _ _ Hi). pose proof (do_len _ _ _ _ _ _ Hd). lia. Qed.

(** Different entries do not share words. *)
Lemma delete_apart e1 e2 j l :
  e1 ∈ concat bs -> e2 ∈ concat bs -> e1 <> e2 -> 0 <= j < sizeof_dictEntry -> 0 <= l < sizeof_dictEntry ->
  e_addr e1 + j <> e_addr e2 + l.
Proof.
  rewrite !delete_perm. intros H1 H2 Hne Hj Hl. destruct (heap_apart _ _ _ _ _ Hh) as [Hnd Hap].
  assert (e_addr e1 <> e_addr e2) as Ha by (intros Ha; by apply (nodup_fmap_inj e_addr (e :: concat bs')) in Ha).
  specialize (Hap (e_addr e1) (e_addr e2)). change (e_addr e :: addrs (concat bs')) with (addrs (e :: concat bs')) in Hap.
  specialize (Hap ltac:(by apply list_elem_of_fmap_2) ltac:(by apply list_elem_of_fmap_2) Ha). lia.
Qed.

Lemma in_concat e' : e' ∈ es1 ++ e :: es2 -> e' ∈ concat bs.
Proof. intros He'. apply elem_of_concat. by exists i, (es1 ++ e :: es2). Qed.

Lemma heap_not_concat e' j a : e' ∈ concat bs -> 0 <= j < sizeof_dictEntry -> ~ heap_word a -> e_addr e' + j <> a.
Proof.
  rewrite delete_perm. intros He' Hj Ha. eapply heap_entry_ne; [exact Hh| |done..].
  by apply (list_elem_of_fmap_2 e_addr (e :: concat bs')).
Qed.

(** The word written is the bucket or the [next] word of an entry before [e]. *)
Lemma m1_other a :
  a <> tbl + 8 * Z.of_nat i -> (forall e', e' ∈ es1 -> e_addr e' + de_next <> a) -> ld m1 a = ld m a.
Proof.
  intros Ha He. rewrite ld_insert. destruct (del_link_cases (tbl + 8 * Z.of_nat i) es1) as [[_ ->]|(e' & He' & ->)].
  - cases_cmp; done.
  - pose proof (He e' He'). cases_cmp; done.
Qed.

Lemma es1_in e' : e' ∈ es1 -> e' ∈ concat bs.
Proof. intros. apply in_concat, elem_of_app. by left. Qed.

Lemma m1_not_heap a : ~ heap_word a -> a <> tbl + 8 * Z.of_nat i -> ld m1 a = ld m a.
Proof.
  intros Ha Hne. apply m1_other; [done|]. intros e' He'. apply heap_not_concat; [by apply es1_in|by vm_compute|done].
Qed.

(** Entries other than those of [es1] keep their words. *)
Lemma m1_entry e' j :
  e' ∈ concat bs -> e' ∉ es1 -> 0 <= j < sizeof_dictEntry -> ld m1 (e_addr e' + j) = ld m (e_addr e' + j).
Proof.
  intros He' Hn Hj. apply m1_other.
  - apply heap_not_concat; [done..|]. eapply slot_not_heap; [done|apply delete_slot].
  - intros e2 He2. apply delete_apart; [by apply es1_in|done| |by vm_compute|done]. by intros ->.
Qed.

Context (Hne : forall e', e' ∈ es1 -> e_k e' <> e_k e).

Lemma m1_heap :
  heap_ok m1 fe (e_addr e :: addrs (concat bs')) (e_keyp e :: lk) (e_val e :: lv)
  /\ keeps key_at m m1 (e_keyp e :: lk) /\ keeps val_at m m1 (e_val e :: lv).
Proof.
  apply (heap_write _ _ _ _ _ _ Hh). intros a Ha Hout. apply m1_other.
  - intros ->. revert Ha. eapply slot_not_heap; [done|apply delete_slot].
  - intros e' He' <-. apply (Hout (e_addr e')); [|unfold de_next, sizeof_dictEntry; lia].
    apply (list_elem_of_fmap_2 e_addr (e :: concat bs')). rewrite <- delete_perm. by apply es1_in.
Qed.

Lemma m1_chain : chain m1 (ld m1 (tbl + 8 * Z.of_nat i)) (es1 ++ es2).
Proof.
  destruct (heap_apart _ _ _ _ _ Hh) as [Hnd Hap].
  assert (addrs (concat bs) ≡ₚ e_addr e :: addrs (concat bs')) as Hpa by (by rewrite delete_perm).
  destruct (concat_insert bs i _ [] Hi) as (rest & Hp & _). rewrite <- Hpa, Hp, fmap_app in Hnd.
  apply list.NoDup_app in Hnd as (Hnd & _ & _).
  eapply chain_unlink; [by apply (do_chain _ _ _ _ _ _ Hd)|done| |done|..].
  - intros e' j He' Hj. apply not_eq_sym, heap_not_concat; [by apply in_concat|done|].
    eapply slot_not_heap; [done|apply delete_slot].
  - intros a b Ha Hb. apply Hap; rewrite <- Hpa; [clear Hb; rename Ha into Hb|clear Ha];
      apply list_elem_of_fmap in Hb as (e' & -> & He'); by apply list_elem_of_fmap_2, in_concat.
  - intros e' He'. apply m1_heap. right. apply elem_of_app. left. apply list_elem_of_fmap_2.
    apply elem_of_concat. exists i, (es1 ++ es2). split; [|done].
    apply list_lookup_insert_eq. by eapply lookup_lt_Some.
Qed.

(** The memory after the callbacks, in [m4], and the update of [used]. *)
Section after.
Context (m4 : gmap Z Z) (fe4 : list Z).
Context (Hh4 : heap_ok m4 fe4 (addrs (concat bs')) lk lv) (Hst : heap_step m1 m4 (addrs (concat bs')) lk lv).
#[local] Abbreviation m5 := (<[used_word d := Z.of_nat (length (concat bs)) - 1]> m4).

Lemma m5_heap : heap_ok m5 fe4 (addrs (concat bs')) lk lv /\ keeps key_at m4 m5 lk /\ keeps val_at m4 m5 lv.
Proof.
  apply (heap_write _ _ _ _ _ _ Hh4). intros a Ha _. rewrite ld_insert.
  pose proof (used_not_heap s d tbl k bs Hd). destruct (Z.eqb_spec (used_word d) a) as [<-|]; done.
Qed.

Lemma m5_not_heap a : ~ heap_word a -> a <> used_word d -> ld m5 a = ld m1 a.
Proof. intros Ha Hu. rewrite ld_insert. destruct (Z.eqb_spec (used_word d) a); [done|]. by apply Hst. Qed.

Lemma m5_untouched : untouched m m5 d tbl k.
Proof.
  pose proof delete_slot. intros a Ha Hhd Ht. rewrite m5_not_heap; [|done|].
  - apply m1_not_heap; [done|]. lia.
  - intros ->. apply Hhd. unfold used_word, d_ht, ht_used, sizeof_dict. lia.
Qed.

(** Entries that stay and their keys are as in [m1]. *)
Lemma m5_entry e' :
  e' ∈ concat bs' ->
  same_words m1 m5 (e_addr e') sizeof_dictEntry /\ (key_at m1 (e_keyp e') (e_k e') -> key_at m5 (e_keyp e') (e_k e')).
Proof.
  intros He'. assert (e_addr e' ∈ addrs (concat bs')) as Hin by (by apply list_elem_of_fmap_2). split.
  - intros j Hj. rewrite ld_insert. destruct (Z.eqb_spec (used_word d) (e_addr e' + j)) as [Heq|].
    + exfalso. eapply heap_entry_ne; [exact Hh4|exact Hin|exact Hj| |symmetry; exact Heq]. by eapply used_not_heap.
    + by apply Hst.
  - intros Hkey. assert (e_keyp e' ∈ lk) by (apply elem_of_app; left; by apply list_elem_of_fmap_2).
    apply m5_heap; [done|]. by apply Hst.
Qed.

Lemma delete_dict_ok : dict_ok (kv_seed s) m5 d tbl k bs'.
Proof.
  pose proof delete_slot as Hsl. pose proof (do_heap _ _ _ _ _ _ Hd) as Hdh. pose proof (do_len _ _ _ _ _ _ Hd) as Hlen.
  assert (length (concat bs) = S (length (concat bs'))) as Hl by (by rewrite delete_perm).
  assert (forall e', e' ∈ es1 ++ es2 -> e' ∈ concat bs') as Hin.
  { intros e' He'. apply elem_of_concat. exists i, (es1 ++ es2). split; [|done].
    apply list_lookup_insert_eq. by eapply lookup_lt_Some. }
  eapply dict_ok_bucket; [done..| | | | | | | |].
  - intros a Ha Hu. rewrite m5_not_heap, m1_not_heap; try done; try (apply Hdh; by left).
    apply not_eq_sym. by eapply slot_ne_header.
  - rewrite ld_insert, Z.eqb_refl. lia.
  - pose proof (do_count _ _ _ _ _ _ Hd). lia.
  - intros j Hj Hjl. rewrite m5_not_heap, m1_not_heap; [done|apply Hdh; right; lia|lia|apply Hdh; right; lia|].
    eapply slot_ne_header; [done|lia|]. unfold used_word, d_ht, ht_used, sizeof_dict. lia.
  - rewrite m5_not_heap; [|apply Hdh; right; lia|].
    2:{ eapply slot_ne_header; [done|lia|]. unfold used_word, d_ht, ht_used, sizeof_dict. lia. }
    eapply chain_frame; [exact m1_chain|..]; intros e' He'; by apply m5_entry, Hin.
  - intros j esj e' Hj Hlj He'.
    assert (e' ∈ concat bs) as Hc by (apply elem_of_concat; by exists j, esj).
    assert (forall e2, e2 ∈ es1 ++ e :: es2 -> e' <> e2) as Hdiff.
    { intros e2 He2 ->. pose proof (do_bucket _ _ _ _ _ _ Hd j esj e2 Hlj He').
      pose proof (do_bucket _ _ _ _ _ _ Hd i _ e2 Hi He2). lia. }
    assert (e' ∈ concat bs') as Hc'.
    { apply elem_of_concat. exists j, esj. split; [|done]. by rewrite list_lookup_insert_ne. }
    destruct (m5_entry e' Hc') as [Hw Hkey]. split.
    + intros l Hl2. rewrite (Hw l Hl2). apply m1_entry; [done| |done].
      intros He2. apply (Hdiff e'); [apply elem_of_app; by left|done].
    + intros Hk0. apply Hkey, m1_heap; [|done]. right. apply elem_of_app. left. by apply list_elem_of_fmap_2.
  - intros e' He'. eapply (do_bucket _ _ _ _ _ _ Hd i); [done|]. rewrite elem_of_app in *. rewrite elem_of_cons. tauto.
  - pose proof (do_nodup _ _ _ _ _ _ Hd) as Hnd. rewrite delete_perm in Hnd. cbn in Hnd. by apply list.NoDup_cons in Hnd as [_ ?].
Qed.
End after.
End delete.

(** [dictGenericDelete] up to the search in the bucket. *)
Lemma dictGenericDelete_unfold s d tbl k bs key x nofree es :
  dict_ok (kv_seed s) (kv_mem s) d tbl k bs -> key_at (kv_mem s) key x ->
  let b := bucket (kv_seed s) k x in
  bs !! Z.to_nat b = Some es ->
  dictGenericDelete ty fuel d key nofree s =
    (if decide (concat bs = []) then Done (0, s)
     else (r0 ← delete_chain ty fuel d 0 key nofree (tbl + 8 * b) (ld (kv_mem s) (tbl + 8 * b));
           if negb (r0 =? 0) then mret r0
           else reh ← dictIsRehashing d; if negb reh then mret 0 else delete_table ty fuel d 1 key (u32 (key_hash (kv_seed s) x)) nofree) s).
Proof.
  intros Hd Hx b Hes. pose proof (bucket_range s d tbl k bs Hd x) as Hb.
  unfold dictGenericDelete. rewrite !bind_kload by (by apply (dict_word2 s d tbl k bs Hd)).
  rewrite (do_used _ _ _ _ _ _ Hd), (do_used1 _ _ _ _ _ _ Hd). case_decide as Hc.
  - by rewrite Hc.
  - destruct (Z.eqb_spec (Z.of_nat (length (concat bs))) 0) as [H0|H0].
    { exfalso. apply Hc, length_zero_iff_nil. lia. }
    cbn [andb]. rewrite (bind_runs _ _ _ _ _ (rehash_if_rehashing_runs fuel s d tbl k bs Hd)).
    unfold dictHashKey. rewrite (bind_runs _ _ _ _ _ (key_hash_ok s key x Hx)).
    unfold mbind at 1 2, cmd_bind at 1 2. f_equal. unfold delete_table.
    rewrite (bind_runs _ _ _ _ _ (bucket_of_runs s d tbl k bs Hd x)), (bind_runs _ _ _ _ _ (slot_runs s d tbl k bs Hd _ Hb)).
    by rewrite bind_kload by (by apply (table_word s d tbl k bs Hd)).
Qed.

Lemma dictDelete_missing s d tbl k bs key x :
  dict_ok (kv_seed s) (kv_mem s) d tbl k bs -> key_at (kv_mem s) key x -> (length (concat bs) < fuel)%nat ->
  assoc x (concat bs) = None -> runs (dictDelete ty fuel d key) s DICT_ERR s.
Proof.
  intros Hd Hx Hf Has. destruct (bucket_lookup s d tbl k bs Hd x) as (es & Hes & Hae).
  pose proof (bucket_range s d tbl k bs Hd x) as Hb. unfold runs, dictDelete, mbind, cmd_bind.
  rewrite (dictGenericDelete_unfold s d tbl k bs key x false es Hd Hx Hes). case_decide; [done|].
  rewrite (concat_split bs _ es Hes), !length_app in Hf.
  pose proof (do_chain _ _ _ _ _ _ Hd _ _ Hes) as Hc. rewrite Z2Nat.id in Hc by lia.
  rewrite (bind_runs _ _ _ _ _ (delete_chain_missing s d key x _ es fuel false _
    (dict_word s d tbl k bs Hd d_privdata ltac:(done) eq_refl) (do_priv _ _ _ _ _ _ Hd) Hx Hc ltac:(lia) ltac:(congruence))).
  change (negb (0 =? 0)) with false. cbv iota. by rewrite (bind_runs _ _ _ _ _ (dictIsRehashing_runs s d tbl k bs Hd)).
Qed.

(** Removing the entry of [x] from the chains removes [x] from the map. *)
Lemma map_of_delete (es es' : list (ent K)) e : NoDup (e_k <$> es) -> es ≡ₚ e :: es' -> delete (e_k e) (map_of es) = map_of es'.
Proof.
  intros Hnd Hp. rewrite (map_of_perm _ _ Hnd Hp). unfold map_of. cbn. rewrite delete_insert_id; [done|].
  change (list_to_map _) with (map_of es'). rewrite map_of_lookup. rewrite assoc_notin; [done|]. intros e' He' Hk'.
  rewrite Hp in Hnd. cbn in Hnd. apply list.NoDup_cons in Hnd as [Hnd _]. apply Hnd. rewrite <- Hk'. by apply list_elem_of_fmap_2.
Qed.

Lemma dictDelete_existing s d k bs fe xk xv key x e :
  dict_ok (kv_seed s) (kv_mem s) d (d + sizeof_dict) k bs ->
  heap_ok (kv_mem s) fe (addrs (concat bs)) ((e_keyp <$> concat bs) ++ xk) ((e_val <$> concat bs) ++ xv) ->
  key_at (kv_mem s) key x -> (length (concat bs) < fuel)%nat -> assoc x (concat bs) = Some e ->
  exists s', runs (dictDelete ty fuel d key) s DICT_OK s'
    /\ dict_rep s' d (2 ^ k) (delete x (map_of (concat bs))) (e_addr e :: fe) xk xv
    /\ kept s s' d (2 ^ k) (delete x (map_of (concat bs))) xv.
Proof.
  intros Hd Hh Hx Hf Has. set (tbl := d + sizeof_dict) in *.
  destruct (bucket_lookup s d tbl k bs Hd x) as (es & Hes & Hae).
  rewrite Has in Hae. destruct (assoc_split _ _ _ (symmetry Hae)) as (es1 & es2 & -> & Hne & Hxe).
  pose proof (bucket_range s d tbl k bs Hd x) as Hb. set (i := Z.to_nat (bucket (kv_seed s) k x)) in *.
  set (bs' := <[i := es1 ++ es2]> bs). pose proof (delete_perm bs i es1 es2 e Hes) as Hp. fold bs' in Hp.
  assert (tbl + 8 * Z.of_nat i = tbl + 8 * bucket (kv_seed s) k x) as Hslot by lia.
  set (lk := (e_keyp <$> concat bs') ++ xk). set (lv := (e_val <$> concat bs') ++ xv).
  assert (heap_ok (kv_mem s) fe (e_addr e :: addrs (concat bs')) (e_keyp e :: lk) (e_val e :: lv)) as Hh'.
  { eapply heap_perm; [..|exact Hh]; rewrite Hp; done. }
  assert (forall e', e' ∈ es1 -> e_k e' <> e_k e) as Hne' by (rewrite Hxe; done).
  set (lw := del_link (tbl + 8 * Z.of_nat i) es1). set (m1 := <[lw := ld (kv_mem s) (e_addr e + de_next)]> (kv_mem s)).
  destruct (m1_heap s d tbl k bs fe xk xv Hd i es1 es2 e Hes Hh') as (Hh1 & Hk1 & Hv1).
  assert (e ∈ concat bs) as Hein by (rewrite Hp; left).
  assert (e ∉ es1) as Hen by (intros Hin; by apply (Hne' e)).
  destruct (entry_words s d tbl k bs Hd e Hein) as (Ha & Hal & Hkp & Hv & Hkey).
  pose proof (m1_entry s d tbl k bs fe xk xv Hd i es1 es2 e Hes Hh' e) as Hme. fold bs' lw m1 in Hme, Hh1, Hk1, Hv1.
  assert (forall a, d <= a < d + sizeof_dict -> ld m1 a = ld (kv_mem s) a) as Hhdr.
  { intros a Hin. eapply m1_not_heap; [exact Hes|exact Hh'|apply (do_heap _ _ _ _ _ _ Hd); by left|].
    apply not_eq_sym. rewrite Hslot. by eapply slot_ne_header. }
  destruct (moded_runs s d tbl k bs Hd (upd s m1 (kv_log s)) lw) as [l1 Hmod].
  { cbn [kv_mem upd]. rewrite Hhdr by (unfold d_privdata, sizeof_dict; lia). apply Hd. }
  destruct (delete_free_runs s d tbl k bs e _ fe lk lv Hd m1 l1 Hhdr Hh1) as (m4 & l4 & Hrf & Hh4 & Hst4).
  { by rewrite Hme. }
  { by rewrite Hme. }
  pose proof (delete_dict_ok s d tbl k bs fe xk xv Hd i es1 es2 e Hes Hh' m4 (e_addr e :: fe) Hh4 Hst4) as Hd5.
  edestruct m5_heap as (Hh5 & _ & Hv5); [exact Hd|exact Hh4|]. fold bs' in Hd5.
  assert (kaddr_ok lw = true) as Klw.
  { unfold lw. destruct (del_link_cases (tbl + 8 * Z.of_nat i) es1) as [[_ ->]|(e' & He' & ->)].
    - rewrite Hslot. by apply (table_word s d tbl k bs Hd).
    - eapply entry_word; [by apply (do_chain _ _ _ _ _ _ Hd)|apply elem_of_app; by left|by vm_compute|done]. }
  assert (ld m4 (used_word d) = Z.of_nat (length (concat bs))) as Hu4.
  { rewrite (proj1 Hst4) by (by eapply used_not_heap).
    rewrite Hhdr by (unfold used_word, d_ht, ht_used, sizeof_dict; lia). apply Hd. }
  exists (upd s (<[used_word d := Z.of_nat (length (concat bs)) - 1]> m4) l4). split.
  - unfold runs, dictDelete. unfold mbind at 1, cmd_bind at 1.
    rewrite (dictGenericDelete_unfold s d tbl k bs key x false _ Hd Hx Hes), decide_False by (intros Hc; rewrite Hc in Hein; by apply not_elem_of_nil in Hein).
    pose proof (do_chain _ _ _ _ _ _ Hd _ _ Hes) as Hc. rewrite Hslot in Hc.
    pose proof (dict_word s d tbl k bs Hd d_privdata ltac:(done) eq_refl) as Kd.
    assert (length es1 < fuel)%nat as Hl1.
    { rewrite (concat_split bs _ _ Hes), !length_app in Hf. lia. }
    unfold mbind at 1, cmd_bind at 1.
    rewrite (delete_chain_found s d key x _ es1 e es2 fuel false _ Kd (do_priv _ _ _ _ _ _ Hd) Hx Hc Hl1 Hne Hxe).
    rewrite <- Hslot. fold lw. unfold delete_found.
    rewrite bind_kload by (by apply (kaddr_ok_off _ 24)). rewrite bind_kstore by done.
    change (s <| kv_mem := _ |>) with (upd s m1 (kv_log s)). rewrite (bind_runs _ _ _ _ _ Hmod).
    cbn [negb when]. change (upd (upd s m1 (kv_log s)) _ l1) with (upd s m1 l1). rewrite (bind_runs _ _ _ _ _ Hrf).
    rewrite bind_kload, bind_kstore by (by apply (dict_word2 s d tbl k bs Hd)). cbn [kv_mem upd]. rewrite Hu4.
    assert (0 < length (concat bs))%nat by (rewrite Hp; cbn; lia). pose proof (do_count _ _ _ _ _ _ Hd).
    rewrite u64_small by lia. unfold mret, cmd_ret. rewrite (proj2 (Z.eqb_neq (e_addr e) 0)) by lia. cbn [negb]. by rewrite (proj2 (Z.eqb_neq (e_addr e) 0)) by lia.
  - rewrite <- Hxe, (map_of_delete _ _ _ (do_nodup _ _ _ _ _ _ Hd) Hp).
    split; [by exists k, bs'|]. apply kept_of; [|by eapply m5_untouched|done].
    eapply keeps_trans; [|exact Hv5]. eapply keeps_trans; [|apply Hst4]. eapply keeps_sub; [|exact Hv1]. by intros v Hin; right.
Qed.

(** ** The operations on maps *)

Lemma not_full s k bs : Z.of_nat (length (concat bs)) < 2 ^ k -> full s k bs = false.
Proof. intros. unfold full. by rewrite (proj2 (Z.leb_gt _ _)). Qed.

(** [dictReplace] on a table that is not full. *)
Lemma dictReplace_spec s d cap M fe xk xv key x val :
  dict_rep s d cap M fe (key :: xk) (val :: xv) -> key_at (kv_mem s) key x ->
  (size M < fuel)%nat -> Z.of_nat (size M) < cap ->
  match M !! x, fe with
  | Some _, _ => exists s', runs (dictReplace ty fuel d key val) s 0 s'
      /\ dict_rep s' d cap (<[x := val]> M) fe (key :: xk) xv /\ kept s s' d cap (<[x := val]> M) xv
  | None, _ :: fe' => exists s', runs (dictReplace ty fuel d key val) s 1 s'
      /\ dict_rep s' d cap (<[x := val]> M) fe' xk xv /\ kept s s' d cap (<[x := val]> M) xv
  | None, [] => dictReplace ty fuel d key val s = Fault Segv
  end.
Proof.
  intros (k & bs & -> & Hd & -> & Hh) Hx Hf Hcap. rewrite map_of_size in Hf, Hcap by apply Hd.
  pose proof (not_full s k bs Hcap) as Hnf. rewrite map_of_lookup.
  destruct (assoc x (concat bs)) as [e|] eqn:Has; cbn [fmap option_fmap option_map].
  - by eapply dictReplace_existing.
  - destruct fe as [|e fe'].
    + unfold dictReplace, mbind, cmd_bind. by erewrite dictAddRaw_no_entry.
    + pose proof (do_k _ _ _ _ _ _ Hd). assert (2 ^ k <= 2 ^ 31) by (apply Z.pow_le_mono_r; lia).
      destruct (dictAddRaw_set s d k bs xk xv key x val Hd Hx Hf Hnf e fe' Hh Has ltac:(lia))
        as (Hne & s1 & s' & Hadd & Hset & Hrep).
      exists s'. split; [|done]. unfold runs, dictReplace. rewrite (bind_runs _ _ _ _ _ Hadd). cbn [fst snd].
      rewrite (proj2 (Z.eqb_neq e 0)) by lia. cbn [negb]. by rewrite (bind_runs _ _ _ _ _ Hset).
Qed.

(** C16: [dictReplace] is insert. On a dictionary that holds the map [M] in
    fewer keys than buckets, with a key and a value that are in use outside:
    - if [M] has the key, the value is replaced and the old value given back;
      the new key object stays outside, as the dictionary keeps its own;
    - if [M] does not have it and an entry is free, the entry is added;
    - if no entry is free, the process crashes on a NULL entry.
    The result is 0, 1 or a fault accordingly, the values in the new map hold
    what they held, and no word outside the dictionary and its heap changes. *)
Theorem dictReplace_insert s d cap M fe xk xv key x val :
  dict_rep s d cap M fe (key :: xk) (val :: xv) -> key_at (kv_mem s) key x ->
  (size M < fuel)%nat -> Z.of_nat (size M) < cap ->
  match M !! x, fe with
  | Some _, _ => exists s', runs (dictReplace ty fuel d key val) s 0 s'
      /\ dict_rep s' d cap (<[x := val]> M) fe (key :: xk) xv /\ kept s s' d cap (<[x := val]> M) xv
  | None, _ :: fe' => exists s', runs (dictReplace ty fuel d key val) s 1 s'
      /\ dict_rep s' d cap (<[x := val]> M) fe' xk xv /\ kept s s' d cap (<[x := val]> M) xv
  | None, [] => dictReplace ty fuel d key val s = Fault Segv
  end.
Proof. apply dictReplace_spec. Qed.

(** [dictAdd] inserts a new key, and answers [DICT_ERR] without changing
    anything when the key is there or the table may not grow further (as many
    keys as buckets, and resizing allowed, which [dictExpand] then refuses). *)
Theorem dictAdd_insert s d cap M fe xk xv key x val :
  dict_rep s d cap M fe (key :: xk) (val :: xv) -> key_at (kv_mem s) key x -> (size M < fuel)%nat ->
  (Z.of_nat (size M) < cap ->
     match M !! x, fe with
     | Some _, _ => runs (dictAdd ty fuel d key val) s DICT_ERR s
     | None, _ :: fe' => exists s', runs (dictAdd ty fuel d key val) s DICT_OK s'
         /\ dict_rep s' d cap (<[x := val]> M) fe' xk xv /\ kept s s' d cap (<[x := val]> M) xv
     | None, [] => dictAdd ty fuel d key val s = Fault Segv
     end)
  /\ (cap <= Z.of_nat (size M) -> kv_can_resize s = true -> runs (dictAdd ty fuel d key val) s DICT_ERR s).
Proof.
  intros (k & bs & -> & Hd & -> & Hh) Hx Hf. rewrite map_of_size in * by apply Hd.
  rewrite map_of_lookup. split.
  - intros Hcap. pose proof (not_full s k bs Hcap) as Hnf.
    destruct (assoc x (concat bs)) as [e|] eqn:Has; cbn [fmap option_fmap option_map].
    + pose proof (dictAddRaw_none fuel s d _ k bs Hd key x Hx Hf) as Hadd. unfold key_index in Hadd.
      rewrite Hnf, Has in Hadd. unfold runs, dictAdd. by rewrite (bind_runs _ _ _ _ _ (Hadd eq_refl)).
    + destruct fe as [|e fe'].
      * unfold dictAdd, mbind, cmd_bind. by erewrite dictAddRaw_no_entry.
      * pose proof (do_k _ _ _ _ _ _ Hd). assert (2 ^ k <= 2 ^ 31) by (apply Z.pow_le_mono_r; lia).
        destruct (dictAddRaw_set s d k bs xk xv key x val Hd Hx Hf Hnf e fe' Hh Has ltac:(lia))
          as (Hne & s1 & s' & Hadd & Hset & Hrep).
        exists s'. split; [|done]. unfold runs, dictAdd. rewrite (bind_runs _ _ _ _ _ Hadd). cbn [fst snd].
        rewrite (proj2 (Z.eqb_neq e 0)) by lia. by rewrite (bind_runs _ _ _ _ _ Hset).
  - intros Hcap Hcan. pose proof (dictAddRaw_none fuel s d _ k bs Hd key x Hx Hf) as Hadd.
    assert (full s k bs = true) as Hfl by (unfold full; by rewrite Hcan, (proj2 (Z.leb_le _ _) Hcap)).
    unfold key_index in Hadd. rewrite Hfl in Hadd. unfold runs, dictAdd. by rewrite (bind_runs _ _ _ _ _ (Hadd eq_refl)).
Qed.

(** [dictReplace] on a full table (as many keys as buckets) crashes, also
    when the key is there and only its value would change: [dictExpand]
    refuses to grow the table, [_dictKeyIndex] returns before it looks for
    the key, and [dictReplace] takes that as an existing entry and reads
    [*existing] through NULL. *)
Theorem dictReplace_full_crashes s d cap M fe xk xv key x val :
  dict_rep s d cap M fe xk xv -> key_at (kv_mem s) key x -> (size M < fuel)%nat ->
  cap <= Z.of_nat (size M) -> kv_can_resize s = true ->
  dictReplace ty fuel d key val s = Fault Segv.
Proof.
  intros (k & bs & -> & Hd & -> & Hh) Hx Hf Hcap Hcan. rewrite map_of_size in * by apply Hd.
  pose proof (dictAddRaw_none fuel s d _ k bs Hd key x Hx Hf) as Hadd.
  assert (full s k bs = true) as Hfl by (unfold full; by rewrite Hcan, (proj2 (Z.leb_le _ _) Hcap)).
  unfold key_index in Hadd. rewrite Hfl in Hadd. unfold dictReplace. by rewrite (bind_runs _ _ _ _ _ (Hadd eq_refl)).
Qed.

(** C17: [dictDelete] is delete. It unlinks the entry of the key, wherever it
    is on its chain, and gives back the key, the value and the entry, which is
    the next one to be used; a key that is not there is [DICT_ERR] and nothing
    changes. *)
Theorem dictDelete_delete s d cap M fe xk xv key x :
  dict_rep s d cap M fe xk xv -> key_at (kv_mem s) key x -> (size M < fuel)%nat ->
  match M !! x with
  | Some _ => exists s' e, runs (dictDelete ty fuel d key) s DICT_OK s'
      /\ dict_rep s' d cap (delete x M) (e :: fe) xk xv /\ kept s s' d cap (delete x M) xv
  | None => runs (dictDelete ty fuel d key) s DICT_ERR s
  end.
Proof.
  intros (k & bs & -> & Hd & -> & Hh) Hx Hf. rewrite map_of_size in Hf by apply Hd.
  rewrite map_of_lookup. destruct (assoc x (concat bs)) as [e|] eqn:Has; cbn [fmap option_fmap option_map].
  - destruct (dictDelete_existing s d k bs fe xk xv key x e Hd Hh Hx Hf Has) as (s' & Hr & Hrep). by exists s', (e_addr e).
  - by eapply dictDelete_missing.
Qed.
End dict.
