(* ===== verification/DictScan.v ===== *)
(** * DictScan: a full scan meets every entry once

    [dictScan] visits one bucket per call and returns the next cursor, which
    counts with reversed bits. Calling it from cursor 0 until it returns 0
    calls the function once for every entry of the dictionary. *)
From stdpp Require Import base gmap list numbers.
From Stdlib Require Import ZArith Lia.
From S2P Require Import Prelude Mem KvMem Siphash Dict DictBits DictSpec DictProofs.

(** The loop of a client: scan from [v] until the cursor is 0 again, with a
    function that notes the entry in the call log. *)
Definition note (_ de : Z) : cmd kv unit := wrap_log_write de sizeof_dictEntry.
Fixpoint scan_all (n fuel : nat) (d v : Z) : cmd kv unit :=
  match n with
  | O => fail NoFuel
  | S n' => v' ← dictScan fuel note None 0 d v; if v' =? 0 then mret tt else scan_all n' fuel d v'
  end.

(** The call log with the entries [es] noted, in this order. *)
Definition noted (es : list Z) (l : list kv_call) : list kv_call :=
  reverse ((fun e => CallLog e sizeof_dictEntry) <$> es) ++ l.

Lemma noted_app es1 es2 l : noted (es1 ++ es2) l = noted es2 (noted es1 l).
Proof. unfold noted. by rewrite fmap_app, reverse_app, <- app_assoc. Qed.

Section dict.
Context {ty : dictType} {priv : Z} {K V : Type} `{HD : DictHeap ty priv K V}.
Context (fuel : nat).
Implicit Types (m : gmap Z Z) (es : list (ent K)) (bs : list (list (ent K))) (s : kv).

Lemma scan_chain_runs s m l p es n :
  chain m p es -> (length es < n)%nat ->
  runs (scan_chain note 0 n p) (upd s m l) tt (upd s m (noted (e_addr <$> es) l)).
Proof.
  revert p l n. induction es as [|e es IH]; intros p l n Hc Hn; (destruct n as [|n]; [cbn in Hn; lia|]); unfold runs; cbn [scan_chain].
  - cbn in Hc. subst p. done.
  - destruct Hc as (-> & Ha & Hal & _ & _ & _ & Hc). rewrite (proj2 (Z.eqb_neq _ 0)) by lia.
    rewrite bind_kload by (by apply (kaddr_ok_off _ 24)). cbn [kv_mem upd].
    change (e_addr <$> e :: es) with ([e_addr e] ++ (e_addr <$> es)). rewrite noted_app. apply IH; [done|cbn in Hn; lia].
Qed.

Section ok.
Context (s : kv) (d tbl k : Z) (bs : list (list (ent K))).
Context (Hd : dict_ok (kv_seed s) (kv_mem s) d tbl k bs).
#[local] Abbreviation at_log l := (upd s (kv_mem s) l).

Lemma dict_ok_log l : dict_ok (kv_seed (at_log l)) (kv_mem (at_log l)) d tbl k bs.
Proof. exact Hd. Qed.

(** The bucket of a cursor. *)
Definition visited (n : Z) : list Z := e_addr <$> default [] (bs !! Z.to_nat (scan_cursor k n)).

Lemma dictScan_runs l n :
  concat bs <> [] -> (length (concat bs) < fuel)%nat -> 0 <= n ->
  runs (dictScan fuel note None 0 d (scan_cursor k n)) (at_log l) (scan_cursor k (n + 1)) (at_log (noted (visited n) l)).
Proof.
  intros Hne Hf Hn. pose proof (do_k _ _ _ _ _ _ Hd) as Hk. pose proof (scan_cursor_range k ltac:(lia) n) as Hr.
  pose proof (do_len _ _ _ _ _ _ Hd) as Hl.
  destruct (lookup_lt_is_Some_2 bs (Z.to_nat (scan_cursor k n)) ltac:(lia)) as [es Hes].
  assert (length es < fuel)%nat as Hfes.
  { eapply Nat.le_lt_trans; [|exact Hf]. rewrite (concat_split bs _ es Hes), !length_app. lia. }
  unfold runs, dictScan. rewrite (bind_runs _ _ _ _ _ (dictSize_runs (at_log l) d tbl k bs Hd)).
  rewrite (proj2 (Z.eqb_neq _ 0)) by (destruct (concat bs); [done|cbn; lia]).
  rewrite (bind_runs _ _ _ _ _ (dictIsRehashing_runs (at_log l) d tbl k bs Hd)). cbn [negb].
  rewrite bind_kload by (by apply (dict_word2 s d tbl k bs Hd)). cbn [kv_mem upd]. rewrite (do_mask _ _ _ _ _ _ Hd).
  assert (Z.land (scan_cursor k n) (2 ^ k - 1) = scan_cursor k n) as ->.
  { replace (2 ^ k - 1) with (Z.ones k) by (rewrite Z.ones_equiv; lia). rewrite Z.land_ones by lia. by apply Z.mod_small. }
  rewrite scan_advance_cursor by lia. unfold scan_bucket. rewrite bind_assoc.
  rewrite bind_kload by (by apply (dict_word2 s d tbl k bs Hd)). rewrite bind_assoc, bind_ret.
  rewrite bind_assoc, bind_kload by (by apply (dict_word2 s d tbl k bs Hd)). cbn [kv_mem upd]. rewrite (do_table _ _ _ _ _ _ Hd).
  rewrite bind_assoc, bind_kload by (by apply (table_word s d tbl k bs Hd)). cbn [kv_mem upd].
  pose proof (do_chain _ _ _ _ _ _ Hd _ _ Hes) as Hc. rewrite Z2Nat.id in Hc by lia.
  rewrite (bind_runs _ _ _ _ _ (scan_chain_runs s (kv_mem s) l _ es fuel Hc Hfes)).
  unfold visited. by rewrite Hes.
Qed.

(** From the cursor of step [i] on. *)
Lemma scan_all_runs j n l :
  concat bs <> [] -> (length (concat bs) < fuel)%nat -> (0 < j <= n)%nat -> Z.of_nat j <= 2 ^ k ->
  runs (scan_all n fuel d (scan_cursor k (2 ^ k - Z.of_nat j))) (at_log l) tt
    (at_log (noted (concat (visited <$> seqZ (2 ^ k - Z.of_nat j) (Z.of_nat j))) l)).
Proof.
  intros Hne Hf. pose proof (do_k _ _ _ _ _ _ Hd) as Hk. revert j l. induction n as [|n IH]; intros j l Hj Hjk; [lia|].
  unfold runs. cbn [scan_all].
  rewrite (bind_runs _ _ _ _ _ (dictScan_runs l (2 ^ k - Z.of_nat j) Hne Hf ltac:(lia))).
  rewrite seqZ_cons by lia. cbn [fmap list_fmap concat]. rewrite noted_app.
  replace (2 ^ k - Z.of_nat j + 1) with (2 ^ k - Z.of_nat (j - 1)) by lia.
  replace (Z.succ (2 ^ k - Z.of_nat j)) with (2 ^ k - Z.of_nat (j - 1)) by lia.
  replace (Z.pred (Z.of_nat j)) with (Z.of_nat (j - 1)) by lia.
  destruct (Z.eqb_spec (scan_cursor k (2 ^ k - Z.of_nat (j - 1))) 0) as [Hz|Hz].
  - apply (scan_cursor_zero k ltac:(lia)) in Hz; [|lia]. assert (j = 1%nat) as -> by lia. done.
  - apply IH; [|lia]. rewrite (scan_cursor_zero k ltac:(lia)) in Hz by lia. lia.
Qed.

Lemma visited_perm : concat (visited <$> seqZ 0 (2 ^ k)) ≡ₚ e_addr <$> concat bs.
Proof.
  pose proof (do_k _ _ _ _ _ _ Hd) as Hk. pose proof (do_len _ _ _ _ _ _ Hd) as Hl.
  transitivity (concat ((fun i => e_addr <$> default [] (bs !! Z.to_nat i)) <$> (scan_cursor k <$> seqZ 0 (2 ^ k)))).
  { rewrite <- list_fmap_compose. done. }
  rewrite scan_cursors_perm by lia. rewrite <- Hl.
  assert (forall l l' : list Z, l = l' -> l ≡ₚ l') as Heq by (by intros l ? <-). apply Heq.
  transitivity (concat ((fun es => e_addr <$> es) <$> bs)); [|symmetry; apply List.concat_map]. f_equal.
  apply list_eq. intros i. rewrite !list_lookup_fmap. destruct (lt_dec i (length bs)) as [Hi|Hi].
  - rewrite lookup_seqZ_lt by lia. cbn [fmap option_fmap option_map]. rewrite Z.add_0_l, Nat2Z.id.
    destruct (lookup_lt_is_Some_2 bs i Hi) as [es ->]. done.
  - rewrite lookup_seqZ_ge by lia. by rewrite (lookup_ge_None_2 bs i) by lia.
Qed.
End ok.

(** C37: a full scan is complete. On a dictionary that holds a map with at
    least one key, calling [dictScan] from cursor 0 until it returns 0 takes at
    most as many calls as there are buckets, changes nothing, and calls the
    function exactly once for each entry: the entries met are pairwise
    different, as many as there are keys, and hold every key with its value. *)
Theorem dictScan_visits_all s d cap (M : gmap K Z) fe xk xv n :
  dict_rep s d cap M fe xk xv -> M <> ∅ -> (size M < fuel)%nat -> cap <= Z.of_nat n ->
  exists es : list Z, runs (scan_all n fuel d 0) s tt (upd s (kv_mem s) (noted es (kv_log s)))
    /\ NoDup es /\ length es = size M
    /\ forall x v, M !! x = Some v ->
         exists e, e ∈ es /\ key_at (kv_mem s) (ld (kv_mem s) (e + de_key)) x /\ ld (kv_mem s) (e + de_val) = v.
Proof.
  intros (k & bs & -> & Hd & -> & Hh) Hne Hf Hn. rewrite map_of_size in Hf by apply Hd.
  pose proof (do_k _ _ _ _ _ _ Hd) as Hk. pose proof (Z.pow_pos_nonneg 2 k ltac:(lia) ltac:(lia)) as Hp.
  assert (concat bs <> []) as Hcb by (intros E; by rewrite E in Hne).
  pose proof (visited_perm s d _ k bs Hd) as Hperm.
  exists (concat (visited k bs <$> seqZ 0 (2 ^ k))). split; [|split; [|split]].
  - pose proof (scan_all_runs s d _ k bs Hd (Z.to_nat (2 ^ k)) n (kv_log s) Hcb Hf ltac:(lia) ltac:(lia)) as R.
    rewrite Z2Nat.id, Z.sub_diag, scan_cursor_0, upd_id in R by lia. exact R.
  - rewrite Hperm. by eapply heap_apart.
  - rewrite Hperm, length_fmap, map_of_size by apply Hd. done.
  - intros x v Hx. rewrite map_of_lookup in Hx. destruct (assoc x (concat bs)) as [e|] eqn:Has; [|done].
    injection Hx as <-. apply assoc_Some in Has as [He <-].
    destruct (entry_words s d _ k bs Hd e He) as (_ & _ & E1 & E2 & E3).
    exists (e_addr e). split; [rewrite Hperm; by apply list_elem_of_fmap_2|]. by rewrite E1.
Qed.
End dict.
