(* ===== verification/AllocDict.v ===== *)
(** * AllocDict: the dictionary of the key-value store (apps/kvstore/alloc_dict.c)

    A [Dict] whose entries, keys and values come from three [Alloc]
    allocators; keys are C strings. The callbacks report what they write. *)
From stdpp Require Import base gmap list numbers.
From Stdlib Require Import ZArith Lia.
From S2P Require Import Prelude Mem KvMem Alloc Siphash Dict.

(** [struct dictWrapper] *)
Definition dw_entryAllocator : Z := 0.
Definition dw_keyAllocator : Z := 8.
Definition dw_valAllocator : Z := 16.
Definition dw_d : Z := 24.
Definition sizeof_dictWrapper : Z := 32.

(** Gives [x] back to the allocator in the field [f] of the wrapper. *)
Definition destroy (f privdata x : Z) : cmd kv unit :=
  a ← kload (privdata + f);
  free_allocator a x;;
  wrap_log_write a sizeof_Allocator;;
  size ← kload (a + al_alloc_size);
  wrap_log_write x size.
Definition keyDestructor (privdata key : Z) : cmd kv unit := destroy dw_keyAllocator privdata key.
Definition valDestructor (privdata key : Z) : cmd kv unit := destroy dw_valAllocator privdata key.
Definition entryDestructor (privdata e : Z) : cmd kv unit := destroy dw_entryAllocator privdata e.

Definition entryConstructor (privdata : Z) : cmd kv Z :=
  a ← kload (privdata + dw_entryAllocator);
  entry ← alloc_allocator a;
  wrap_log_write a sizeof_Allocator;;
  wrap_log_write entry sizeof_dictEntry;;
  mret entry.

Definition entryModed (privdata entry : Z) : cmd kv unit := wrap_log_write entry 8.

(** Strings are at most [fuel] bytes long. *)
Section strings.
Context (fuel : nat).

Definition hashCallback (key : Z) : cmd kv Z := s ← kstring fuel key; dictGenHashFunction s.

Definition allocKey (w key : Z) : cmd kv Z :=
  a ← kload (w + dw_keyAllocator);
  dictKey ← alloc_allocator a;
  wrap_log_write a sizeof_Allocator;;
  s ← kstring fuel key;
  kput dictKey (s ++ [0]);;
  n ← kstrlen fuel dictKey;
  wrap_log_write dictKey n;;
  mret dictKey.

Definition allocVal (w val len : Z) : cmd kv Z :=
  a ← kload (w + dw_valAllocator);
  dictVal ← alloc_allocator a;
  wrap_log_write a sizeof_Allocator;;
  bs ← kbytes (Z.to_nat len) val;
  kput dictVal bs;;
  wrap_log_write dictVal len;;
  mret dictVal.

Definition compareCallback (privdata key1 key2 : Z) : cmd kv Z :=
  l1 ← kstrlen fuel key1;
  l2 ← kstrlen fuel key2;
  if negb (i32 l1 =? i32 l2) then mret 0
  else
    b1 ← kbytes (Z.to_nat l1) key1;
    b2 ← kbytes (Z.to_nat l1) key2;
    mret (if decide (b1 = b2) then 1 else 0).

Definition AllocDictType : dictType :=
  mk_dictType hashCallback None None (Some compareCallback) (Some keyDestructor) (Some valDestructor)
    (Some entryConstructor) (Some entryDestructor) (Some entryModed).

(** [type] is the address of [AllocDictType]. *)
Definition initDictWrapper
    (type space len entrySpace entrySize keySpace keyLen keySize valSpace valLen valSize : Z) : cmd kv Z :=
  wrap_log_write space sizeof_dictWrapper;;
  ea ← init_allocator entrySpace entrySize sizeof_dictEntry;
  kstore (space + dw_entryAllocator) ea;;
  wrap_log_write ea sizeof_Allocator;;
  ka ← init_allocator keySpace keySize keyLen;
  kstore (space + dw_keyAllocator) ka;;
  wrap_log_write ka sizeof_Allocator;;
  va ← init_allocator valSpace valSize valLen;
  kstore (space + dw_valAllocator) va;;
  wrap_log_write va sizeof_Allocator;;
  let dspace := space + sizeof_dictWrapper in
  d ← dictCreate type space dspace (len - sizeof_dictWrapper);
  kstore (space + dw_d) d;;
  wrap_log_write d sizeof_dict;;
  mret space.

Definition subscribeDict (space : Z) : Z := space.
End strings.
