(* ===== verification/AllocDictProofs.v ===== *)
(** * AllocDictProofs: the callbacks of the key-value store implement [DictHeap]

    Three allocators in three disjoint regions and C strings as keys: what
    [alloc_dict.c] gives the dictionary is what the dictionary relies on. *)
From stdpp Require Import base gmap list numbers.
From Stdlib Require Import ZArith Lia.
From S2P Require Import Prelude Mem KvMem Alloc Siphash KvStrings Dict DictSpec AllocDict.

(** ** Pools: an allocator within its region *)

(** All objects that fit into the region are free or in use. *)
Record pool (m : gmap Z Z) (a len sz : Z) (free live : list Z) : Prop := {
  po_alloc : allocator_ok m a sz free;
  po_apart : blocks_apart a sz (free ++ live);
  po_in b : b ∈ free ++ live -> a + sizeof_Allocator <= b /\ b + sz <= a + len;
  po_len : sizeof_Allocator <= len;
  po_count : Z.of_nat (length free + length live) = (len - sizeof_Allocator) / sz;
}.

Lemma allocator_ok_ext m m' a sz free :
  allocator_ok m a sz free -> same_words m m' a sizeof_Allocator -> (forall b, b ∈ free -> same_words m m' b sz) ->
  allocator_ok m' a sz free.
Proof.
  intros [Ha Hsz Hs Hl] Hw Hb. constructor; [done..| |].
  - rewrite Hw; [done|]. unfold al_alloc_size, sizeof_Allocator. lia.
  - rewrite Hw by (unfold al_head, sizeof_Allocator; lia).
    eapply free_list_ext; [|exact Hl]. intros b i Hin Hi. apply Hb; [done|lia].
Qed.

Lemma pool_perm m a len sz free live live' : live ≡ₚ live' -> pool m a len sz free live -> pool m a len sz free live'.
Proof.
  intros Hp [H1 H2 H3 H4 H5].
  constructor; [done|by eapply blocks_apart_perm; [|exact H2]; rewrite Hp|by setoid_rewrite <- Hp|done|by rewrite <- Hp].
Qed.

(** Writes outside the region or into objects in use. *)
Lemma pool_frame m m' a len sz free live :
  pool m a len sz free live ->
  (forall x, a <= x < a + len -> (forall b, b ∈ live -> ~ b <= x < b + sz) -> ld m' x = ld m x) ->
  pool m' a len sz free live.
Proof.
  intros [H1 H2 H3 H4 H5] Hw. constructor; [|done..]. eapply allocator_ok_ext; [exact H1|..].
  - intros i Hi. apply Hw; [lia|]. intros b Hb.
    pose proof (H3 b ltac:(apply elem_of_app; by right)). lia.
  - intros b Hb i Hi. assert (b ∈ free ++ live) as Hin by (apply elem_of_app; by left).
    pose proof (H3 b Hin). apply Hw; [unfold sizeof_Allocator in *; lia|].
    intros c Hc Hr. assert (c ∈ free ++ live) as Hin' by (apply elem_of_app; by right).
    pose proof (ba_nodup _ _ _ H2) as Hnd. apply list.NoDup_app in Hnd as (_ & Hd & _).
    assert (b <> c) as Hne by (intros ->; by apply (Hd c)).
    pose proof (ba_apart _ _ _ H2 b c Hin Hin' Hne). lia.
Qed.

(** Objects in use do not meet. *)
Lemma pool_live m a len sz free live b c :
  pool m a len sz free live -> b ∈ live -> c ∈ live -> b <> c -> b + sz <= c \/ c + sz <= b.
Proof. intros Hp Hb Hc. apply (ba_apart _ _ _ (po_apart _ _ _ _ _ _ Hp)); apply elem_of_app; by right. Qed.

Lemma pool_alloc s a len sz e free live :
  pool (kv_mem s) a len sz (e :: free) live ->
  exists m', runs (alloc_allocator a) s e (s <| kv_mem := m' |>) /\ pool m' a len sz free (e :: live)
    /\ (forall x, ~ a <= x < a + len -> ld m' x = ld (kv_mem s) x)
    /\ forall b, b ∈ live -> same_words (kv_mem s) m' b sz.
Proof.
  intros [H1 H2 H3 H4 H5]. destruct (alloc_allocator_spec s a sz (e :: free) live H1 H2) as (m' & Hr & Hok & Hw).
  cbn [tail] in *. exists m'. split; [done|]. assert (e :: free ++ live ≡ₚ free ++ e :: live) as Hp by solve_Permutation.
  split; [constructor; [done|by eapply blocks_apart_perm; [|exact H2]; rewrite <- Hp|by setoid_rewrite <- Hp|done|cbn in *; lia]|].
  unfold sizeof_Allocator in *. split.
  - intros x Hx. apply Hw; [lia|]. intros b Hb Hbx. pose proof (H3 b ltac:(right; apply elem_of_app; by left)). lia.
  - intros b Hb i Hi. pose proof (H3 b ltac:(right; apply elem_of_app; by right)). apply Hw; [lia|].
    intros c Hc Hr'. pose proof (ba_nodup _ _ _ H2) as Hnd. apply list.NoDup_cons in Hnd as [_ Hnd].
    apply list.NoDup_app in Hnd as (_ & Hd & _). assert (c <> b) as Hne by (intros ->; by apply (Hd b)).
    pose proof (ba_apart _ _ _ H2 c b ltac:(right; apply elem_of_app; by left) ltac:(right; apply elem_of_app; by right) Hne). lia.
Qed.

Lemma pool_alloc_none s a len sz live :
  pool (kv_mem s) a len sz [] live ->
  exists m', runs (alloc_allocator a) s 0 (s <| kv_mem := m' |>)
    /\ (forall x, ~ a <= x < a + len -> ld m' x = ld (kv_mem s) x).
Proof.
  intros [H1 H2 H3 H4 H5]. destruct (alloc_allocator_spec s a sz [] live H1 H2) as (m' & Hr & Hok & Hw).
  exists m'. split; [done|]. unfold sizeof_Allocator in *. intros x Hx. apply Hw; [lia|]. by intros b Hb%not_elem_of_nil.
Qed.

Lemma pool_free s a len sz p free live :
  pool (kv_mem s) a len sz free (p :: live) ->
  exists m', runs (free_allocator a p) s tt (s <| kv_mem := m' |>) /\ pool m' a len sz (p :: free) live
    /\ ld m' (a + al_alloc_size) = sz
    /\ (forall x, ~ a <= x < a + len -> ld m' x = ld (kv_mem s) x)
    /\ forall b, b ∈ live -> same_words (kv_mem s) m' b sz.
Proof.
  intros [H1 H2 H3 H4 H5]. assert (free ++ p :: live ≡ₚ p :: free ++ live) as Hp by solve_Permutation.
  assert (blocks_apart a sz (p :: free ++ live)) as H2' by (by eapply blocks_apart_perm).
  destruct (free_allocator_spec s a sz p free live H1 H2') as (m' & Hr & Hok & Hw).
  exists m'. split; [done|].
  split; [constructor; [done|done|by intros b; rewrite <- app_comm_cons, <- Hp; apply H3|done|cbn in *; lia]|].
  pose proof (ao_sz _ _ _ _ H1) as [Hsz _]. pose proof (H3 p ltac:(rewrite Hp; left)) as Hpin.
  unfold sizeof_Allocator in *. split; [apply Hok|]. split.
  - intros x Hx. apply Hw; lia.
  - intros b Hb i Hi. pose proof (H3 b ltac:(apply elem_of_app; right; by right)).
    pose proof (ba_nodup _ _ _ H2') as Hnd. apply list.NoDup_cons in Hnd as [Hn _].
    assert (b <> p) as Hne by (intros ->; apply Hn, elem_of_app; by right).
    pose proof (ba_apart _ _ _ H2' b p ltac:(right; apply elem_of_app; by right) ltac:(left) Hne).
    apply Hw; lia.
Qed.

(** The word of a byte of an object is a word of the object. *)
Lemma object_word m a len sz free live p b :
  pool m a len sz free live -> p ∈ live -> p <= b < p + sz -> p <= word_of b < p + sz.
Proof.
  intros Hpo Hp Hb. assert (p ∈ free ++ live) as Hin by (apply elem_of_app; by right).
  destruct (ba_ok _ _ _ (po_apart _ _ _ _ _ _ Hpo) p Hin) as [_ Hal].
  destruct (ao_sz _ _ _ _ (po_alloc _ _ _ _ _ _ Hpo)) as [_ Hsz]. destruct (word_of_spec b) as [Hr Hwa].
  destruct (aligned_exists 8 _ ltac:(lia) Hal) as [q Hq], (aligned_exists 8 _ ltac:(lia) Hsz) as [n Hn],
    (aligned_exists 8 _ ltac:(lia) Hwa) as [c Hc]. lia.
Qed.

Lemma same_word m m' p n a : same_words m m' p n -> p <= a < p + n -> ld m' a = ld m a.
Proof. intros H Ha. replace a with (p + (a - p)) by lia. apply H. lia. Qed.

(** ** The store's memory *)

(** The wrapper and the three regions: where they lie, the sizes of the
    regions, of a key and of a value. *)
Record layout := mk_layout {
  ly_w : Z;
  ly_ea : Z; ly_elen : Z;
  ly_ka : Z; ly_klen : Z; ly_ksz : Z;
  ly_va : Z; ly_vlen : Z; ly_vsz : Z;
}.

Definition apart (a n b m : Z) : Prop := a + n <= b \/ b + m <= a.

Record layout_ok (L : layout) : Prop := {
  lo_w : 4096 <= ly_w L /\ aligned 8 (ly_w L);
  lo_we : apart (ly_w L) sizeof_dictWrapper (ly_ea L) (ly_elen L);
  lo_wk : apart (ly_w L) sizeof_dictWrapper (ly_ka L) (ly_klen L);
  lo_wv : apart (ly_w L) sizeof_dictWrapper (ly_va L) (ly_vlen L);
  lo_ek : apart (ly_ea L) (ly_elen L) (ly_ka L) (ly_klen L);
  lo_ev : apart (ly_ea L) (ly_elen L) (ly_va L) (ly_vlen L);
  lo_kv : apart (ly_ka L) (ly_klen L) (ly_va L) (ly_vlen L);
  lo_ksz : ly_ksz L < 2 ^ 31;
}.

Definition in_region (a n x : Z) : Prop := a <= x < a + n.

(** The words of the callbacks: the wrapper and the regions. *)
Definition ad_word (L : layout) (x : Z) : Prop :=
  in_region (ly_w L) sizeof_dictWrapper x \/ in_region (ly_ea L) (ly_elen L) x
  \/ in_region (ly_ka L) (ly_klen L) x \/ in_region (ly_va L) (ly_vlen L) x.

Record ad_heap (L : layout) (m : gmap Z Z) (fe le lk lv : list Z) : Prop := {
  ah_ea : ld m (ly_w L + dw_entryAllocator) = ly_ea L;
  ah_ka : ld m (ly_w L + dw_keyAllocator) = ly_ka L;
  ah_va : ld m (ly_w L + dw_valAllocator) = ly_va L;
  ah_d : ld m (ly_w L + dw_d) = ly_w L + sizeof_dictWrapper;
  ah_entries : pool m (ly_ea L) (ly_elen L) sizeof_dictEntry fe le;
  ah_keys : exists fk, pool m (ly_ka L) (ly_klen L) (ly_ksz L) fk lk;
  ah_vals : exists fv, pool m (ly_va L) (ly_vlen L) (ly_vsz L) fv lv;
}.

Definition ad_key (L : layout) (m : gmap Z Z) (p : Z) (x : list Z) : Prop :=
  str_at m p x /\ Z.of_nat (length x) < ly_ksz L.

(** The bytes of a value, at most as many as the object has. *)
Definition ad_val (L : layout) (m : gmap Z Z) (v : Z) (bs : list Z) : Prop :=
  4096 <= v /\ bytes_at m v bs /\ Z.of_nat (length bs) <= ly_vsz L.

Section heap.
Context (L : layout) (HL : layout_ok L).
Implicit Types (m : gmap Z Z) (fe le lk lv : list Z).

(** A key (a value) in an object in use depends on the words of the object. *)
Lemma ad_key_frame m m' len free live p x :
  pool m (ly_ka L) len (ly_ksz L) free live -> p ∈ live ->
  same_words m m' p (ly_ksz L) -> ad_key L m p x -> ad_key L m' p x.
Proof.
  intros Hpo Hp Hw [Hs Hl]. split; [|done]. eapply str_at_frame; [exact Hs|]. intros a Ha.
  eapply same_word; [exact Hw|]. eapply object_word; [exact Hpo|done|lia].
Qed.

Lemma ad_val_frame m m' len free live p bs :
  pool m (ly_va L) len (ly_vsz L) free live -> p ∈ live ->
  same_words m m' p (ly_vsz L) -> ad_val L m p bs -> ad_val L m' p bs.
Proof.
  intros Hpo Hp Hw (Ha & Hb & Hl). split; [done|]. split; [|done]. eapply bytes_at_frame; [exact Hb|]. intros a Hr.
  eapply same_word; [exact Hw|]. eapply object_word; [exact Hpo|done|lia].
Qed.

(** The words outside one region, as seen from another. *)
Lemma ad_keys_kept m m' fe le lk lv :
  ad_heap L m fe le lk lv -> (forall p, p ∈ lk -> same_words m m' p (ly_ksz L)) ->
  keeps (ad_key L) m m' lk.
Proof. intros [_ _ _ _ _ [fk Hk] _] Hw p x Hp. eapply ad_key_frame; [exact Hk|done|by apply Hw]. Qed.

Lemma ad_vals_kept m m' fe le lk lv :
  ad_heap L m fe le lk lv -> (forall p, p ∈ lv -> same_words m m' p (ly_vsz L)) ->
  keeps (ad_val L) m m' lv.
Proof. intros [_ _ _ _ _ _ [fv Hv]] Hw p x Hp. eapply ad_val_frame; [exact Hv|done|by apply Hw]. Qed.

Lemma ad_val_word m fe le lk lv p i :
  ad_heap L m fe le lk lv -> p ∈ lv -> 0 <= i < ly_vsz L -> in_region (ly_va L) (ly_vlen L) (p + i).
Proof.
  intros [_ _ _ _ _ _ [fv Hv]] Hp Hi. pose proof (po_in _ _ _ _ _ _ Hv p ltac:(apply elem_of_app; by right)).
  unfold in_region, sizeof_Allocator in *. lia.
Qed.

Lemma ad_key_word m fe le lk lv p i :
  ad_heap L m fe le lk lv -> p ∈ lk -> 0 <= i < ly_ksz L -> in_region (ly_ka L) (ly_klen L) (p + i).
Proof.
  intros [_ _ _ _ _ [fk Hk] _] Hp Hi. pose proof (po_in _ _ _ _ _ _ Hk p ltac:(apply elem_of_app; by right)).
  unfold in_region, sizeof_Allocator in *. lia.
Qed.

Lemma ad_entry_word m fe le lk lv e i :
  ad_heap L m fe le lk lv -> e ∈ le -> 0 <= i < sizeof_dictEntry -> in_region (ly_ea L) (ly_elen L) (e + i).
Proof.
  intros [_ _ _ _ Hp _ _] He Hi. pose proof (po_in _ _ _ _ _ _ Hp e ltac:(apply elem_of_app; by right)).
  unfold in_region, sizeof_Allocator in *. lia.
Qed.

Lemma wrapper_word i : 0 <= i < sizeof_dictWrapper -> aligned 8 i -> kaddr_ok (ly_w L + i) = true.
Proof. apply kaddr_ok_off. apply HL. Qed.

(** *** Objects *)

Lemma destroy_runs s f a len sz p free live :
  ld (kv_mem s) (ly_w L + f) = a -> 0 <= f < sizeof_dictWrapper -> aligned 8 f ->
  pool (kv_mem s) a len sz free (p :: live) ->
  exists m' l', runs (destroy f (ly_w L) p) s tt (upd s m' l') /\ pool m' a len sz (p :: free) live
    /\ (forall x, ~ in_region a len x -> ld m' x = ld (kv_mem s) x)
    /\ forall b, b ∈ live -> same_words (kv_mem s) m' b sz.
Proof.
  intros Ha Hf Hal Hp. destruct (pool_free s a len sz p free live Hp) as (m' & Hr & Hp' & Hs & Hw & Hb).
  exists m', (CallLog p sz :: CallLog a sizeof_Allocator :: kv_log s). split; [|done].
  unfold runs, destroy. rewrite bind_kload, Ha by (by apply wrapper_word).
  unfold mbind at 1, cmd_bind at 1. rewrite Hr. unfold mbind at 1, cmd_bind at 1, wrap_log_write at 1, modify at 1.
  rewrite bind_kload. 2:{ apply (kaddr_ok_off a 24); [apply (po_alloc _ _ _ _ _ _ Hp)|by vm_compute|done]. }
  unfold wrap_log_write, modify. cbn. by rewrite Hs.
Qed.

(** Regions of the layout do not meet. *)
Ltac regions := destruct HL; unfold ad_word, in_region, apart, dw_d, sizeof_dictWrapper, dw_entryAllocator, dw_keyAllocator, dw_valAllocator in *.

(** Writes to entries in use and outside the heap. *)
Lemma ad_heap_write m m' fe le lk lv :
  ad_heap L m fe le lk lv ->
  (forall x, ad_word L x -> (forall e, e ∈ le -> ~ e <= x < e + sizeof_dictEntry) -> ld m' x = ld m x) ->
  ad_heap L m' fe le lk lv /\ keeps (ad_key L) m m' lk /\ keeps (ad_val L) m m' lv.
Proof.
  intros Hh Hw.
  assert (forall x, ad_word L x -> ~ in_region (ly_ea L) (ly_elen L) x -> ld m' x = ld m x) as Hout.
  { intros x Hx Hn. apply Hw; [done|]. intros e He Hr. apply Hn.
    replace x with (e + (x - e)) by lia. eapply ad_entry_word; [exact Hh|done|lia]. }
  split; [|split].
  - destruct Hh as [H1 H2 H3 H0 H4 [fk H5] [fv H6]]. constructor.
    1-4: rewrite Hout; [done|regions; lia..].
    + eapply pool_frame; [exact H4|]. intros x Hx Hn. apply Hw; [|done]. regions. lia.
    + exists fk. eapply pool_frame; [exact H5|]. intros x Hx _. apply Hout; regions; lia.
    + exists fv. eapply pool_frame; [exact H6|]. intros x Hx _. apply Hout; regions; lia.
  - eapply ad_keys_kept; [exact Hh|]. intros p Hp i Hi. pose proof (ad_key_word _ _ _ _ _ p i Hh Hp Hi).
    apply Hout; regions; lia.
  - eapply ad_vals_kept; [exact Hh|]. intros p Hp i Hi. pose proof (ad_val_word _ _ _ _ _ p i Hh Hp Hi).
    apply Hout; regions; lia.
Qed.

(** A change inside the region of the entries, of the keys, of the values. *)
Lemma ad_heap_entries m m' fe le lk lv fe' le' :
  ad_heap L m fe le lk lv -> pool m' (ly_ea L) (ly_elen L) sizeof_dictEntry fe' le' ->
  (forall x, ~ in_region (ly_ea L) (ly_elen L) x -> ld m' x = ld m x) ->
  ad_heap L m' fe' le' lk lv /\ (forall x, ~ ad_word L x -> ld m' x = ld m x)
  /\ keeps (ad_key L) m m' lk /\ keeps (ad_val L) m m' lv.
Proof.
  intros Hh Hp Hw. split; [|split; [|split]].
  - destruct Hh as [H1 H2 H3 H0 H4 [fk H5] [fv H6]]. constructor; [rewrite Hw; [done|regions; lia]..|done| |].
    + exists fk. eapply pool_frame; [exact H5|]. intros x Hx _. apply Hw; regions; lia.
    + exists fv. eapply pool_frame; [exact H6|]. intros x Hx _. apply Hw; regions; lia.
  - intros x Hx. apply Hw. intros Hr. apply Hx. right. by left.
  - eapply ad_keys_kept; [exact Hh|]. intros p Hin i Hi. pose proof (ad_key_word _ _ _ _ _ p i Hh Hin Hi).
    apply Hw; regions; lia.
  - eapply ad_vals_kept; [exact Hh|]. intros p Hin i Hi. pose proof (ad_val_word _ _ _ _ _ p i Hh Hin Hi).
    apply Hw; regions; lia.
Qed.

Lemma ad_heap_keys m m' fe le lk lk' l lv fk' :
  ad_heap L m fe le lk lv -> pool m' (ly_ka L) (ly_klen L) (ly_ksz L) fk' lk' -> l ⊆ lk ->
  (forall x, ~ in_region (ly_ka L) (ly_klen L) x -> ld m' x = ld m x) ->
  (forall b, b ∈ l -> same_words m m' b (ly_ksz L)) ->
  ad_heap L m' fe le lk' lv /\ (forall x, ~ ad_word L x -> ld m' x = ld m x)
  /\ (forall e, e ∈ le -> same_words m m' e sizeof_dictEntry)
  /\ keeps (ad_key L) m m' l /\ keeps (ad_val L) m m' lv.
Proof.
  intros Hh Hp Hll Hw Hb. split; [|split; [|split; [|split]]].
  - destruct Hh as [H1 H2 H3 H0 H4 _ [fv H6]]. constructor; [rewrite Hw; [done|regions; lia]..| |by exists fk'|].
    + eapply pool_frame; [exact H4|]. intros x Hx _. apply Hw; regions; lia.
    + exists fv. eapply pool_frame; [exact H6|]. intros x Hx _. apply Hw; regions; lia.
  - intros x Hx. apply Hw. intros Hr. apply Hx. right. right. by left.
  - intros e He i Hi. pose proof (ad_entry_word _ _ _ _ _ e i Hh He Hi). apply Hw; regions; lia.
  - intros q x Hq Hk. destruct Hh as [_ _ _ _ _ [fk H5] _].
    eapply ad_key_frame; [exact H5|by apply Hll|by apply Hb|done].
  - eapply ad_vals_kept; [exact Hh|]. intros q Hq i Hi. pose proof (ad_val_word _ _ _ _ _ q i Hh Hq Hi).
    apply Hw; regions; lia.
Qed.

Lemma ad_heap_vals m m' fe le lk lv lv' l fv' :
  ad_heap L m fe le lk lv -> pool m' (ly_va L) (ly_vlen L) (ly_vsz L) fv' lv' -> l ⊆ lv ->
  (forall x, ~ in_region (ly_va L) (ly_vlen L) x -> ld m' x = ld m x) ->
  (forall b, b ∈ l -> same_words m m' b (ly_vsz L)) ->
  ad_heap L m' fe le lk lv' /\ (forall x, ~ ad_word L x -> ld m' x = ld m x)
  /\ (forall e, e ∈ le -> same_words m m' e sizeof_dictEntry)
  /\ keeps (ad_key L) m m' lk /\ keeps (ad_val L) m m' l.
Proof.
  intros Hh Hp Hll Hw Hb. split; [|split; [|split; [|split]]].
  - destruct Hh as [H1 H2 H3 H0 H4 [fk H5] _]. constructor; [rewrite Hw; [done|regions; lia]..| | |by exists fv'].
    + eapply pool_frame; [exact H4|]. intros x Hx _. apply Hw; regions; lia.
    + exists fk. eapply pool_frame; [exact H5|]. intros x Hx _. apply Hw; regions; lia.
  - intros x Hx. apply Hw. intros Hr. apply Hx. right. right. by right.
  - intros e He i Hi. pose proof (ad_entry_word _ _ _ _ _ e i Hh He Hi). apply Hw; regions; lia.
  - eapply ad_keys_kept; [exact Hh|]. intros q Hq i Hi. pose proof (ad_key_word _ _ _ _ _ q i Hh Hq Hi).
    apply Hw; regions; lia.
  - intros q x Hq Hk. destruct Hh as [_ _ _ _ _ _ [fv H6]].
    eapply ad_val_frame; [exact H6|by apply Hll|by apply Hb|done].
Qed.

Lemma entryConstructor_runs s e m' :
  ld (kv_mem s) (ly_w L + dw_entryAllocator) = ly_ea L ->
  runs (alloc_allocator (ly_ea L)) s e (s <| kv_mem := m' |>) ->
  runs (entryConstructor (ly_w L)) s e
    (upd s m' (CallLog e sizeof_dictEntry :: CallLog (ly_ea L) sizeof_Allocator :: kv_log s)).
Proof.
  intros Ha Hr. unfold runs, entryConstructor. rewrite bind_kload, Ha by (by apply wrapper_word).
  unfold mbind, cmd_bind. by rewrite Hr.
Qed.

(** ** The callbacks *)

Context (fuel : nat) (Hfuel : ly_ksz L <= Z.of_nat fuel).

(** *** Keys *)

Lemma ad_hash_ok s p x :
  ad_key L (kv_mem s) p x -> runs (dt_hashFunction (AllocDictType fuel) p) s (siphash x (kv_seed s)) s.
Proof.
  intros [Hs Hl]. unfold runs. cbn [dt_hashFunction AllocDictType]. unfold hashCallback.
  pose proof (kstring_runs s fuel p x Hs ltac:(lia)) as Hr. unfold mbind, cmd_bind. by rewrite Hr.
Qed.

Lemma ad_compare_ok s p q x y :
  ad_key L (kv_mem s) p x -> ad_key L (kv_mem s) q y ->
  exists f r, dt_keyCompare (AllocDictType fuel) = Some f /\ runs (f (ly_w L) p q) s r s /\ (r <> 0 <-> x = y).
Proof.
  intros [Hx Hlx] [Hy Hly]. eexists _, (if decide (x = y) then 1 else 0). split; [reflexivity|]. pose proof (lo_ksz L HL).
  split; [|by case_decide; split]. unfold runs, compareCallback.
  pose proof (kstrlen_runs s fuel p x Hx ltac:(lia)) as Hr1. pose proof (kstrlen_runs s fuel q y Hy ltac:(lia)) as Hr2.
  unfold mbind, cmd_bind. rewrite Hr1, Hr2, !i32_small by lia.
  destruct (Z.eqb_spec (Z.of_nat (length x)) (Z.of_nat (length y))) as [Hl|Hl]; cbn [negb].
  - destruct Hx as (Hp & Hbx & _), Hy as (Hq & Hby & _). rewrite Nat2Z.id.
    assert (forall m a l, bytes_at m a (l ++ [0]) -> bytes_at m a l) as Happ
      by (intros m a l Hb i c Hi; apply Hb; by apply lookup_app_l_Some).
    rewrite (kbytes_runs s p x Hp (Happ _ _ _ Hbx)).
    replace (length x) with (length y) by lia. by rewrite (kbytes_runs s q y Hq (Happ _ _ _ Hby)).
  - rewrite decide_False; [done|]. by intros ->.
Qed.

Lemma ad_alloc s e fe le lk lv :
  ad_heap L (kv_mem s) (e :: fe) le lk lv ->
  exists f m' l', dt_entryAlloc (AllocDictType fuel) = Some f /\ runs (f (ly_w L)) s e (upd s m' l')
    /\ ad_heap L m' fe (e :: le) lk lv
    /\ (forall x, ~ ad_word L x -> ld m' x = ld (kv_mem s) x)
    /\ (forall e', e' ∈ le -> same_words (kv_mem s) m' e' sizeof_dictEntry)
    /\ keeps (ad_key L) (kv_mem s) m' lk /\ keeps (ad_val L) (kv_mem s) m' lv.
Proof.
  intros Hh. pose proof Hh as [H1 _ _ _ H4 _ _].
  destruct (pool_alloc s _ _ _ e fe le H4) as (m' & Hr & Hp & Hw & Hb).
  destruct (ad_heap_entries _ _ _ _ _ _ _ _ Hh Hp Hw) as (Hh' & Hx & Hk & Hv).
  eexists _, m', _. split; [reflexivity|]. split; [by apply entryConstructor_runs|]. done.
Qed.

Lemma ad_alloc_none s le lk lv :
  ad_heap L (kv_mem s) [] le lk lv ->
  exists f m' l', dt_entryAlloc (AllocDictType fuel) = Some f /\ runs (f (ly_w L)) s 0 (upd s m' l')
    /\ forall x, ~ ad_word L x -> ld m' x = ld (kv_mem s) x.
Proof.
  intros [H1 _ _ _ H4 _ _]. destruct (pool_alloc_none s _ _ _ le H4) as (m' & Hr & Hw).
  eexists _, m', _. split; [reflexivity|]. split; [by apply entryConstructor_runs|].
  intros x Hx. apply Hw. intros Hin. apply Hx. right. by left.
Qed.

Lemma ad_free_entry s fe e le lk lv :
  ad_heap L (kv_mem s) fe (e :: le) lk lv ->
  exists f m' l', dt_entryDestructor (AllocDictType fuel) = Some f /\ runs (f (ly_w L) e) s tt (upd s m' l')
    /\ ad_heap L m' (e :: fe) le lk lv
    /\ (forall x, ~ ad_word L x -> ld m' x = ld (kv_mem s) x)
    /\ (forall e', e' ∈ le -> same_words (kv_mem s) m' e' sizeof_dictEntry)
    /\ keeps (ad_key L) (kv_mem s) m' lk /\ keeps (ad_val L) (kv_mem s) m' lv.
Proof.
  intros Hh. pose proof Hh as [H1 _ _ _ H4 _ _].
  destruct (destroy_runs s dw_entryAllocator _ _ _ e fe le H1 ltac:(done) eq_refl H4) as (m' & l' & Hr & Hp & Hw & Hb).
  destruct (ad_heap_entries _ _ _ _ _ _ _ _ Hh Hp Hw) as (Hh' & Hx & Hk & Hv).
  by eexists _, m', l'.
Qed.

Lemma ad_free_key s fe le p lk lv :
  ad_heap L (kv_mem s) fe le (p :: lk) lv ->
  exists f m' l', dt_keyDestructor (AllocDictType fuel) = Some f /\ runs (f (ly_w L) p) s tt (upd s m' l')
    /\ ad_heap L m' fe le lk lv
    /\ (forall x, ~ ad_word L x -> ld m' x = ld (kv_mem s) x)
    /\ (forall e', e' ∈ le -> same_words (kv_mem s) m' e' sizeof_dictEntry)
    /\ keeps (ad_key L) (kv_mem s) m' lk /\ keeps (ad_val L) (kv_mem s) m' lv.
Proof.
  intros Hh. pose proof Hh as [_ H2 _ _ _ [fk H5] _].
  destruct (destroy_runs s dw_keyAllocator _ _ _ p fk lk H2 ltac:(done) eq_refl H5) as (m' & l' & Hr & Hp & Hw & Hb).
  eexists _, m', l'. split; [reflexivity|]. split; [exact Hr|].
  eapply (ad_heap_keys _ _ _ _ _ lk lk); [exact Hh|exact Hp|by intros ??; right|done..].
Qed.

Lemma ad_free_val s fe le lk v lv :
  ad_heap L (kv_mem s) fe le lk (v :: lv) ->
  exists f m' l', dt_valDestructor (AllocDictType fuel) = Some f /\ runs (f (ly_w L) v) s tt (upd s m' l')
    /\ ad_heap L m' fe le lk lv
    /\ (forall x, ~ ad_word L x -> ld m' x = ld (kv_mem s) x)
    /\ (forall e', e' ∈ le -> same_words (kv_mem s) m' e' sizeof_dictEntry)
    /\ keeps (ad_key L) (kv_mem s) m' lk /\ keeps (ad_val L) (kv_mem s) m' lv.
Proof.
  intros Hh. pose proof Hh as [_ _ H3 _ _ _ [fv H6]].
  destruct (destroy_runs s dw_valAllocator _ _ _ v fv lv H3 ltac:(done) eq_refl H6) as (m' & l' & Hr & Hp & Hw & Hb).
  eexists _, m', l'. split; [reflexivity|]. split; [exact Hr|].
  eapply (ad_heap_vals _ _ _ _ _ _ lv lv); [exact Hh|exact Hp|by intros ??; right|done..].
Qed.

Lemma ad_perm m fe le le' lk lk' lv lv' :
  le ≡ₚ le' -> lk ≡ₚ lk' -> lv ≡ₚ lv' -> ad_heap L m fe le lk lv -> ad_heap L m fe le' lk' lv'.
Proof.
  intros He Hk Hv [H1 H2 H3 H0 H4 [fk H5] [fv H6]].
  constructor; [done..|by eapply pool_perm|exists fk; by eapply pool_perm|exists fv; by eapply pool_perm].
Qed.

Lemma ad_entry m fe le lk lv e :
  ad_heap L m fe le lk lv -> e ∈ le ->
  4096 <= e /\ aligned 8 e /\ forall i, 0 <= i < sizeof_dictEntry -> ad_word L (e + i).
Proof.
  intros Hh He. destruct (ba_ok _ _ _ (po_apart _ _ _ _ _ _ (ah_entries _ _ _ _ _ _ Hh)) e) as [Ha Hal].
  { apply elem_of_app. by right. }
  repeat split; [done..|]. intros i Hi. right. left. by eapply ad_entry_word.
Qed.

Lemma ad_entries_apart m fe le lk lv :
  ad_heap L m fe le lk lv ->
  NoDup le /\ forall e e', e ∈ le -> e' ∈ le -> e <> e' -> e + sizeof_dictEntry <= e' \/ e' + sizeof_dictEntry <= e.
Proof.
  intros [_ _ _ _ H4 _ _]. split.
  - pose proof (ba_nodup _ _ _ (po_apart _ _ _ _ _ _ H4)) as Hnd. by apply list.NoDup_app in Hnd as (_ & _ & ?).
  - intros e e'. by eapply pool_live.
Qed.

(** The callbacks of [AllocDictType] implement the interface of the dictionary. *)
#[export] Instance alloc_dict_heap : DictHeap (AllocDictType fuel) (ly_w L) (list Z) (list Z) := {|
  key_at := ad_key L;
  val_at := ad_val L;
  key_hash seed x := siphash x seed;
  heap_ok := ad_heap L;
  heap_word := ad_word L;
  key_unique m p x y Hx Hy := str_at_unique m p x y (proj1 Hx) (proj1 Hy);
  key_hash_ok := ad_hash_ok;
  key_compare_ok := ad_compare_ok;
  no_keyDup := eq_refl;
  no_valDup := eq_refl;
  moded_ok s a := ex_intro _ _ (ex_intro _ _ (conj eq_refl eq_refl));
  heap_perm := ad_perm;
  heap_entry := ad_entry;
  heap_apart := ad_entries_apart;
  heap_write := ad_heap_write;
  heap_alloc := ad_alloc;
  heap_alloc_none := ad_alloc_none;
  heap_free_val := ad_free_val;
  heap_free_key := ad_free_key;
  heap_free_entry := ad_free_entry;
|}.
End heap.
