(* ===== verification/KvStore.v ===== *)
(** * KvStore: the key-value store application (apps/kvstore/main.c)

    [update] and [get] on a dictionary, the parsing of the operation files
    and the loops that run them. [fuel] bounds the lengths of strings, chains
    and operation lists. The start-up in [main] (arguments, creating and
    attaching the areas, waiting for the other workers) is not modelled
    here. *)
From stdpp Require Import base gmap list numbers.
From Stdlib Require Import ZArith Lia.
From S2P Require Import Prelude Mem KvMem Alloc Siphash Dict AllocDict.

Definition KEY_SIZE : Z := 64.
Definition VALUE_SIZE : Z := 256.
Definition REGION_SIZE : Z := 250 * 1024 * 1024.

Inductive kvop := GET | UPDATE.
#[export] Instance kvop_eq_dec : EqDecision kvop.
Proof. solve_decision. Defined.

(** [struct operation], without the [next] field: the operations of a file
    are a list. *)
Record operation := mk_operation {
  op_server : Z;
  op_op : kvop;
  op_key : Z;
  op_value : Z;
  op_line : Z;
}.

Record results := mk_results { n_ops : Z; n_writes : Z; n_reads : Z; n_remote_writes : Z }.
#[export] Instance eta_results : Eta results := fun r =>
  mk_results (n_ops r) (n_writes r) (n_reads r) (n_remote_writes r).

Section kvstore.
Context (fuel : nat).
#[local] Abbreviation ty := (AllocDictType fuel).

(** ** Operations *)

Definition update (w key value : Z) : cmd kv Z :=
  dictKey ← allocKey fuel w key;
  n ← kstrlen fuel value;
  dictVal ← allocVal w value n;
  d ← kload (w + dw_d);
  dictReplace ty fuel d dictKey dictVal;;
  mret 0.

(** The pair lies at [kv], the key first. *)
Definition update_byval (w kv : Z) : cmd KvMem.kv Z := update w kv (kv + KEY_SIZE).

Definition get (w key : Z) : cmd kv Z :=
  len ← kstrlen fuel key;
  c ← kload8 (key + i32 len - 1);
  when (c =? 10) (kstore8 (key + i32 len - 1) 0);;
  d ← kload (w + dw_d);
  dictFind ty fuel d key.

(** ** Operation files *)

(** [strtok(p, " ")]: the token, NULL at the end, and where the next call
    starts. *)
Fixpoint skip_spaces (n : nat) (p : Z) : cmd kv Z :=
  match n with
  | O => fail NoFuel
  | S n' => c ← kload8 p; if c =? 32 then skip_spaces n' (p + 1) else mret p
  end.
Fixpoint token_end (n : nat) (p : Z) : cmd kv Z :=
  match n with
  | O => fail NoFuel
  | S n' => c ← kload8 p; if (c =? 0) || (c =? 32) then mret p else token_end n' (p + 1)
  end.
Definition strtok (p : Z) : cmd kv (Z * Z) :=
  tok ← skip_spaces fuel p;
  c ← kload8 tok;
  if c =? 0 then mret (0, tok)
  else
    e ← token_end fuel tok;
    c ← kload8 e;
    if c =? 0 then mret (tok, e)
    else kstore8 e 0;; mret (tok, e + 1).

(** [atoi] of a string: white space, a sign, digits. *)
Definition is_space (c : Z) : bool := (c =? 32) || ((9 <=? c) && (c <=? 13)).
Definition is_digit (c : Z) : bool := (48 <=? c) && (c <=? 57).
Fixpoint digits (acc : Z) (s : list Z) : Z :=
  match s with
  | c :: s' => if is_digit c then digits (10 * acc + (c - 48)) s' else acc
  | [] => acc
  end.
Fixpoint atoi (s : list Z) : Z :=
  match s with
  | [] => 0
  | c :: s' =>
      if is_space c then atoi s'
      else if c =? 45 then i32 (- digits 0 s')
      else if c =? 43 then i32 (digits 0 s')
      else i32 (digits 0 s)
  end.

Definition str_UPDATE : list Z := [85; 80; 68; 65; 84; 69].
Definition str_GET : list Z := [71; 69; 84].

(** NULL, for a line with another operation, is [None]. *)
Definition parse_line (line len : Z) : cmd kv (option operation) :=
  kstore8 (line + len - 1) 0;;
  r ← strtok line;
  let '(out, rest) := r in
  srv ← kstring fuel out;
  let server := atoi srv in
  r ← strtok rest;
  let '(op, rest) := r in
  r ← strtok rest;
  let '(key, rest) := r in
  o ← kstring fuel op;
  if decide (o = str_UPDATE) then
    r ← strtok rest;
    mret (Some (mk_operation server UPDATE key r.1 line))
  else if decide (o = str_GET) then mret (Some (mk_operation server GET key 0 line))
  else mret None.

(** The lines of the file, as [getline] left them: a buffer and the number
    of characters read. *)
Fixpoint parse_file (lines : list (Z * Z)) : cmd kv (list operation) :=
  match lines with
  | [] => mret []
  | (buf, nread) :: lines' =>
      kstore8 (buf + nread - 1) 0;;
      parsed ← parse_line buf nread;
      ops ← parse_file lines';
      mret (match parsed with Some op => op :: ops | None => ops end)
  end.

Fixpoint load_ops (id : Z) (loads : list operation) (w : Z) : cmd kv unit :=
  match loads with
  | [] => mret tt
  | current :: loads' =>
      (if decide (op_op current = UPDATE) then mret tt else fail AssertFail);;
      when (op_server current =? id) (update w (op_key current) (op_value current);; mret tt);;
      load_ops id loads' w
  end.
Definition load_data (id : Z) (loads : list operation) (d w : Z) : cmd kv unit :=
  tasvir_call (CallAreaActivate d false);;
  tasvir_call (CallActivate false);;
  load_ops id loads w;;
  tasvir_call (CallActivate true);;
  tasvir_call (CallAreaActivate d true).

(** [w[i]], [d[i]] *)
Definition index (l : list Z) (i : Z) : cmd kv Z :=
  if i <? 0 then fail OutOfBounds
  else match l !! Z.to_nat i with Some x => mret x | None => fail OutOfBounds end.

Fixpoint access_loop (id : Z) (acs : list operation) (w d : list Z) (r : results) : cmd kv results :=
  match acs with
  | [] => mret r
  | current :: acs' =>
      r ← match op_op current with
          | UPDATE =>
              let r := r <| n_writes := u64 (n_writes r + 1) |> in
              if op_server current =? id then
                wi ← index w id;
                update wi (op_key current) (op_value current);; mret r
              else
                let r := r <| n_remote_writes := u64 (n_remote_writes r + 1) |> in
                k ← kbytes (Z.to_nat KEY_SIZE) (op_key current);
                v ← kbytes (Z.to_nat VALUE_SIZE) (op_value current);
                ds ← index d (op_server current);
                ws ← index w (op_server current);
                tasvir_call (CallRpc ds ws k v);; mret r
          | GET =>
              let r := r <| n_reads := u64 (n_reads r + 1) |> in
              ws ← index w (op_server current);
              get ws (op_key current);; mret r
          end;
      let r := r <| n_ops := u64 (n_ops r + 1) |> in
      tasvir_call CallService;;
      access_loop id acs' w d r
  end.

(** Worker 0 only serves and never returns. *)
Definition run_access (id : Z) (acs : list operation) (w d : list Z) (r : results) : cmd kv (Z * results) :=
  if id =? 0 then fail NoFuel
  else r ← access_loop id acs w d r; mret (0, r).
End kvstore.

(** ** Time *)

Record timespec := mk_timespec { tv_sec : Z; tv_nsec : Z }.
Definition timespec_diff (start stop : timespec) : timespec :=
  if tv_nsec stop - tv_nsec start <? 0 then
    mk_timespec (tv_sec stop - tv_sec start - 1) (tv_nsec stop - tv_nsec start + 1000000000)
  else mk_timespec (tv_sec stop - tv_sec start) (tv_nsec stop - tv_nsec start).
