(* ===== verification/KvStoreProofs.v ===== *)
(** * KvStoreProofs: the key-value store is a map from strings to strings

    [store_rep]: the memory of the store stands for a map from keys to the
    bytes of their values. [initDictWrapper] sets up the empty map, [update]
    inserts, [get] looks up. *)
From stdpp Require Import base gmap list numbers.
From Stdlib Require Import ZArith Lia.
From S2P Require Import Prelude Mem KvMem Alloc Siphash KvStrings Dict DictBits DictSpec DictProofs DictUpdate.
From S2P Require Import AllocDict AllocDictProofs KvStore.

(** ** Allocating and filling an object *)

Lemma pool_alloc_put s a len sz p free live bs l1 :
  pool (kv_mem s) a len sz (p :: free) live -> Forall (fun c => 0 <= c < 256) bs -> Z.of_nat (length bs) <= sz ->
  exists m1 m2, runs (alloc_allocator a) s p (s <| kv_mem := m1 |>)
    /\ runs (kput p bs) (upd s m1 l1) tt (upd s m2 l1)
    /\ pool m2 a len sz free (p :: live) /\ 4096 <= p /\ bytes_at m2 p bs
    /\ (forall x, ~ in_region a len x -> ld m1 x = ld (kv_mem s) x /\ ld m2 x = ld (kv_mem s) x)
    /\ forall b, b ∈ live -> same_words (kv_mem s) m2 b sz.
Proof.
  intros Hp Hbs Hl. destruct (pool_alloc s a len sz p free live Hp) as (m1 & Hr & Hp1 & Hw1 & Hb1).
  assert (p ∈ p :: live) as Hin by left.
  destruct (ba_ok _ _ _ (po_apart _ _ _ _ _ _ Hp1) p ltac:(apply elem_of_app; by right)) as [Hpa _].
  destruct (kput_runs (upd s m1 l1) p bs Hpa Hbs) as (m2 & Hr2 & Hb2 & _ & Hw2). cbn [kv_mem upd] in *.
  assert (forall x, ~ p <= x < p + sz -> ld m2 x = ld m1 x) as Hout.
  { intros x Hx. apply Hw2. intros b Hb ->. apply Hx. eapply object_word; [exact Hp1|done|lia]. }
  pose proof (po_in _ _ _ _ _ _ Hp1 p ltac:(apply elem_of_app; by right)) as Hpin.
  exists m1, m2. split; [done|]. split; [exact Hr2|]. split; [|split; [done|split; [done|split]]].
  - eapply pool_frame; [exact Hp1|]. intros x Hx Hn. apply Hout. by apply Hn.
  - intros x Hx. unfold in_region, sizeof_Allocator in *. rewrite Hout by lia. split; by apply Hw1.
  - intros b Hb i Hi. rewrite <- (Hb1 b Hb i Hi).
    pose proof (ba_nodup _ _ _ (po_apart _ _ _ _ _ _ Hp1)) as Hnd. apply list.NoDup_app in Hnd as (_ & _ & Hnd).
    apply list.NoDup_cons in Hnd as [Hnd _]. assert (b <> p) as Hne by (by intros ->).
    pose proof (pool_live _ _ _ _ _ _ b p Hp1 ltac:(by right) ltac:(left) Hne). apply Hout. lia.
Qed.

(** ** The dictionary of the store *)

Section store.
Context (L : layout) (HL : layout_ok L) (fuel : nat) (Hfuel : ly_ksz L <= Z.of_nat fuel).
#[local] Instance store_heap : DictHeap (AllocDictType fuel) (ly_w L) (list Z) (list Z) := alloc_dict_heap L HL fuel Hfuel.
Implicit Types (s : kv) (x : list Z) (P : gmap (list Z) Z) (M : gmap (list Z) (list Z)).
#[local] Abbreviation w := (ly_w L).

(** Objects that fit into the regions. *)
Definition n_entries : Z := (ly_elen L - sizeof_Allocator) / sizeof_dictEntry.
Definition n_keys : Z := (ly_klen L - sizeof_Allocator) / ly_ksz L.
Definition n_vals : Z := (ly_vlen L - sizeof_Allocator) / ly_vsz L.

(** A change within the regions of the keys and the values. *)
Lemma dict_ok_regions seed m m' d tbl k bs fe lk lv :
  dict_ok seed m d tbl k bs -> ad_heap L m fe (e_addr <$> concat bs) lk lv ->
  (forall a, ~ in_region (ly_ka L) (ly_klen L) a -> ~ in_region (ly_va L) (ly_vlen L) a -> ld m' a = ld m a) ->
  keeps (ad_key L) m m' (e_keyp <$> concat bs) -> dict_ok seed m' d tbl k bs.
Proof.
  intros Hd Hh Hw Hk. eapply dict_ok_heap; [exact Hd|..].
  - intros a Ha. apply Hw; intros Hin; apply Ha; right; right; [by left|by right].
  - intros e He. split.
    + intros i Hi. pose proof (ad_entry_word L _ _ _ _ _ (e_addr e) i Hh ltac:(by apply list_elem_of_fmap_2) Hi) as Hr.
      destruct HL; unfold in_region, apart in *; apply Hw; lia.
    + apply Hk. by apply list_elem_of_fmap_2.
Qed.

(** The bytes from [p] on do not lie in words of the allocators. *)
Definition outside (p n : Z) : Prop := forall a, p <= a < p + n -> ~ ad_word L (word_of a).

Lemma str_bytes m p x : str_at m p x -> Forall (fun c => 0 <= c < 256) (x ++ [0]).
Proof.
  intros (_ & Hb & _). apply Forall_lookup. intros i c Hi. rewrite <- (Hb i c Hi). apply byte_range.
Qed.

Lemma dict_rep_size s d cap P fe xk xv :
  dict_rep s d cap P fe xk xv ->
  exists le lk lv, ad_heap L (kv_mem s) fe le lk lv /\ length le = size P
    /\ length lk = (size P + length xk)%nat /\ length lv = (size P + length xv)%nat.
Proof.
  intros (k & bs & -> & Hd & -> & Hh). eexists _, _, _. split; [exact Hh|].
  rewrite map_of_size by apply Hd. rewrite !length_app, !length_fmap. done.
Qed.

Lemma allocKey_runs s d cap P fe xk xv kp x :
  dict_rep s d cap P fe xk xv -> ad_key L (kv_mem s) kp x -> outside kp (Z.of_nat (length x) + 1) ->
  Z.of_nat (size P + length xk) < n_keys ->
  exists p m' l', runs (allocKey fuel w kp) s p (upd s m' l') /\ dict_rep (upd s m' l') d cap P fe (p :: xk) xv
    /\ ad_key L m' p x /\ (forall a, ~ in_region (ly_ka L) (ly_klen L) a -> ld m' a = ld (kv_mem s) a)
    /\ kept s (upd s m' l') d cap P xv.
Proof.
  intros (k & bs & -> & Hd & -> & Hh) [Hs Hl] Hout Hn. rewrite map_of_size in Hn by apply Hd.
  pose proof Hh as [H1 H2 H3 H0 H4 [fk H5] [fv H6]].
  destruct fk as [|p fk]; [exfalso; pose proof (po_count _ _ _ _ _ _ H5) as Hc; unfold n_keys in Hn;
    rewrite length_app, length_fmap in Hc; cbn [length] in Hc; lia|].
  set (l1 := CallLog (ly_ka L) sizeof_Allocator :: kv_log s).
  destruct (pool_alloc_put s _ _ _ p fk _ (x ++ [0]) l1 H5 (str_bytes _ _ _ Hs)) as
    (m1 & m2 & Hr & Hput & Hp2 & Hpa & Hb2 & Hw & Hlive); [rewrite length_app; cbn; lia|].
  assert (str_at m1 kp x) as Hs1.
  { eapply str_at_frame; [exact Hs|]. intros a Ha. apply Hw. intros Hin. apply (Hout a); [lia|]. right. right. by left. }
  assert (str_at m2 p x) as Hs2 by (split; [done|]; split; [done|]; apply Hs).
  destruct (ad_heap_keys L HL _ m2 _ _ _ _ _ _ _ Hh Hp2 ltac:(reflexivity) (fun a Ha => proj2 (Hw a Ha)) Hlive)
    as (Hh2 & _ & _ & Hkeep & Hvals).
  exists p, m2, (CallLog p (Z.of_nat (length x)) :: l1). split; [|split; [|split; [by split|split]]].
  - unfold runs, allocKey. rewrite bind_kload, H2 by (by apply (wrapper_word L HL)).
    unfold mbind at 1, cmd_bind at 1. rewrite Hr. unfold mbind at 1, cmd_bind at 1. unfold wrap_log_write at 1, modify at 1.
    change (_ <| kv_log := _ |>) with (upd s m1 l1).
    rewrite (bind_runs _ _ _ _ _ (kstring_runs (upd s m1 l1) fuel kp x Hs1 ltac:(lia))).
    rewrite (bind_runs _ _ _ _ _ Hput).
    rewrite (bind_runs _ _ _ _ _ (kstrlen_runs (upd s m2 l1) fuel p x Hs2 ltac:(lia))). done.
  - exists k, bs. split; [done|]. split; [|split; [done|]].
    + eapply dict_ok_regions; [exact Hd|exact Hh| |eapply keeps_sub; [|exact Hkeep]; by intros q; rewrite elem_of_app; left].
      intros a Ha _. by apply Hw.
    + eapply ad_perm; [reflexivity| |reflexivity|exact Hh2]. solve_Permutation.
  - intros a Ha. by apply Hw.
  - apply kept_of; [done| |done]. apply untouched_heap. intros a Ha. apply Hw. intros Hin. apply Ha. right. right. by left.
Qed.

Lemma allocVal_runs s d cap P fe xk xv vp bytes :
  dict_rep s d cap P fe xk xv -> ad_val L (kv_mem s) vp bytes -> outside vp (Z.of_nat (length bytes)) ->
  Z.of_nat (size P + length xv) < n_vals ->
  exists p m' l', runs (allocVal w vp (Z.of_nat (length bytes))) s p (upd s m' l')
    /\ dict_rep (upd s m' l') d cap P fe xk (p :: xv)
    /\ ad_val L m' p bytes /\ keeps (ad_key L) (kv_mem s) m' xk
    /\ kept s (upd s m' l') d cap P xv.
Proof.
  intros (k & bs & -> & Hd & -> & Hh) (Hva & Hb & Hl) Hout Hn. rewrite map_of_size in Hn by apply Hd.
  pose proof Hh as [H1 H2 H3 H0 H4 [fk H5] [fv H6]].
  destruct fv as [|p fv]; [exfalso; pose proof (po_count _ _ _ _ _ _ H6) as Hc; unfold n_vals in Hn;
    rewrite length_app, length_fmap in Hc; cbn [length] in Hc; lia|].
  set (l1 := CallLog (ly_va L) sizeof_Allocator :: kv_log s).
  assert (Forall (fun c => 0 <= c < 256) bytes) as Hrange.
  { apply Forall_lookup. intros i c Hi. rewrite <- (Hb i c Hi). apply byte_range. }
  destruct (pool_alloc_put s _ _ _ p fv _ bytes l1 H6 Hrange Hl) as (m1 & m2 & Hr & Hput & Hp2 & Hpa & Hb2 & Hw & Hlive).
  assert (bytes_at m1 vp bytes) as Hb1.
  { eapply bytes_at_frame; [exact Hb|]. intros a Ha. apply Hw. intros Hin. apply (Hout a); [lia|]. right. right. by right. }
  destruct (ad_heap_vals L HL _ m2 _ _ _ _ _ _ _ Hh Hp2 ltac:(reflexivity) (fun a Ha => proj2 (Hw a Ha)) Hlive)
    as (Hh2 & _ & _ & Hkeep & Hvals).
  exists p, m2, (CallLog p (Z.of_nat (length bytes)) :: l1). split; [|split; [|split; [done|split]]].
  - unfold runs, allocVal. rewrite bind_kload, H3 by (by apply (wrapper_word L HL)).
    unfold mbind at 1, cmd_bind at 1. rewrite Hr. unfold mbind at 1, cmd_bind at 1. unfold wrap_log_write at 1, modify at 1.
    change (_ <| kv_log := _ |>) with (upd s m1 l1). rewrite Nat2Z.id.
    rewrite (bind_runs _ _ _ _ _ (kbytes_runs (upd s m1 l1) vp bytes Hva Hb1)).
    by rewrite (bind_runs _ _ _ _ _ Hput).
  - exists k, bs. split; [done|]. split; [|split; [done|]].
    + eapply dict_ok_regions; [exact Hd|exact Hh| |eapply keeps_sub; [|exact Hkeep]; by intros q; rewrite elem_of_app; left].
      intros a _ Ha. by apply Hw.
    + eapply ad_perm; [reflexivity|reflexivity| |exact Hh2]. solve_Permutation.
  - eapply keeps_sub; [|exact Hkeep]. intros q Hq. apply elem_of_app. by right.
  - apply kept_of; [done| |done]. apply untouched_heap. intros a Ha. apply Hw. intros Hin. apply Ha. right. right. by right.
Qed.

(** ** The store *)

(** The dictionary lies behind the wrapper. *)
#[local] Abbreviation d := (w + sizeof_dictWrapper).

(** The store holds the map [M]: the dictionary maps every key to a value
    object with the bytes [M] has. [xk]: key objects that are in use but not
    in the dictionary. *)
Definition store_rep s (cap : Z) M (xk : list Z) : Prop :=
  exists P fe, dict_rep s d cap P fe xk [] /\ map_Forall2 (fun _ p bytes => ad_val L (kv_mem s) p bytes) P M.

(** A string of the process, apart from the store: its bytes. *)
Definition private_str s (cap p : Z) x : Prop :=
  str_at (kv_mem s) p x
  /\ forall a, p <= a < p + Z.of_nat (length x) + 1 ->
       ~ ad_word L (word_of a) /\ ~ d <= word_of a < d + sizeof_dict + 8 * cap.

Lemma store_size s P M :
  map_Forall2 (fun _ p bytes => ad_val L (kv_mem s) p bytes) P M -> size P = size M.
Proof. intros HP. rewrite <- !size_dom. by rewrite (map_Forall2_dom_L _ _ _ HP). Qed.

Lemma private_str_kept s s' cap P xv p x :
  kept s s' d cap P xv -> private_str s cap p x -> private_str s' cap p x.
Proof.
  intros (_ & Hu & _) [Hs Hr]. split; [|done]. eapply str_at_frame; [exact Hs|]. intros a Ha.
  apply Hu; apply Hr; lia.
Qed.

(** The values of other keys hold what they held. *)
Lemma store_vals s s' P M x q bytes :
  map_Forall2 (fun _ p bytes => ad_val L (kv_mem s) p bytes) P M ->
  (forall y p, y <> x -> P !! y = Some p -> forall v, ad_val L (kv_mem s) p v -> ad_val L (kv_mem s') p v) ->
  ad_val L (kv_mem s') q bytes ->
  map_Forall2 (fun _ p bytes => ad_val L (kv_mem s') p bytes) (<[x := q]> P) (<[x := bytes]> M).
Proof.
  intros HP Hk Hq y. specialize (HP y). destruct (decide (y = x)) as [->|Hne].
  - rewrite !lookup_insert_eq. by constructor.
  - rewrite !lookup_insert_ne by done. specialize (Hk y). destruct HP; constructor. by apply Hk.
Qed.

Lemma kept_val s s' cap P xv p v :
  kept s s' d cap P xv -> (p ∈ xv \/ exists y, P !! y = Some p) -> ad_val L (kv_mem s) p v -> ad_val L (kv_mem s') p v.
Proof. intros [Hk _]. apply Hk. Qed.

(** [update] up to the call of [dictReplace]: a key object and a value object
    hold the strings. *)
Lemma update_prepares s cap M P fe xk kp x vp v :
  dict_rep s d cap P fe xk [] -> map_Forall2 (fun _ p bytes => ad_val L (kv_mem s) p bytes) P M ->
  private_str s cap kp x -> Z.of_nat (length x) < ly_ksz L ->
  private_str s cap vp v -> Z.of_nat (length v) <= ly_vsz L -> (length v < fuel)%nat ->
  Z.of_nat (size M + length xk) < n_keys -> Z.of_nat (size M) < n_vals ->
  exists p q s2,
    (forall f : Z -> Z -> cmd kv Z, (dictKey ← allocKey fuel w kp; n ← kstrlen fuel vp; dictVal ← allocVal w vp n; f dictKey dictVal) s = f p q s2)
    /\ dict_rep s2 d cap P fe (p :: xk) [q] /\ ad_key L (kv_mem s2) p x /\ ad_val L (kv_mem s2) q v
    /\ (forall y p' v', P !! y = Some p' -> ad_val L (kv_mem s) p' v' -> ad_val L (kv_mem s2) p' v')
    /\ (forall p' y, private_str s cap p' y -> private_str s2 cap p' y) /\ kv_can_resize s2 = kv_can_resize s.
Proof.
  intros Hd HP Hkp Hx Hvp Hv Hvf Hnk Hnv. rewrite <- (store_size _ _ _ HP) in *.
  destruct (allocKey_runs s d cap P fe xk [] kp x Hd) as (p & m1 & l1 & Hr1 & Hd1 & Hk1 & Hw1 & Hkept1).
  { split; [apply Hkp|done]. }
  { intros a Ha. apply Hkp. lia. }
  { lia. }
  set (s1 := upd s m1 l1) in *.
  pose proof (private_str_kept _ _ _ _ _ _ _ Hkept1 Hvp) as [Hs1 Hr1v].
  destruct (allocVal_runs s1 d cap P fe (p :: xk) [] vp v Hd1) as (q & m2 & l2 & Hr2 & Hd2 & Hv2 & Hk2 & Hkept2).
  { destruct Hs1 as (Ha & Hb & _). split; [done|]. split; [|done]. intros i c Hi. apply Hb. by apply lookup_app_l_Some. }
  { intros a Ha. apply Hr1v. lia. }
  { cbn. lia. }
  exists p, q, (upd s1 m2 l2). split; [|split; [done|split; [apply Hk2; [left|done]|split; [done|split; [|split]]]]].
  - intros f. rewrite (bind_runs _ _ _ _ _ Hr1), (bind_runs _ _ _ _ _ (kstrlen_runs s1 fuel vp v Hs1 Hvf)).
    by rewrite (bind_runs _ _ _ _ _ Hr2).
  - intros y p' v' Hy Hv'. eapply kept_val; [exact Hkept2|right; by exists y|]. eapply kept_val; [exact Hkept1|right; by exists y|done].
  - intros p' y Hp'. eapply private_str_kept; [exact Hkept2|]. by eapply private_str_kept.
  - done.
Qed.

(** [update] inserts. On a store that holds the map [M], with room for
    another key object, value object, entry and key, [update] of a key and a
    value makes it hold [M] with the value of the key replaced by the bytes of
    the new value, and touches no other memory of the process. When the key
    was there already, the key object allocated for it stays in use for good:
    it is neither in the dictionary nor given back. *)
Lemma update_runs s cap M xk kp x vp v :
  store_rep s cap M xk -> private_str s cap kp x -> Z.of_nat (length x) < ly_ksz L ->
  private_str s cap vp v -> Z.of_nat (length v) <= ly_vsz L -> (length v < fuel)%nat -> (size M < fuel)%nat ->
  Z.of_nat (size M + length xk) < n_keys -> Z.of_nat (size M) < n_vals ->
  Z.of_nat (size M) < n_entries -> Z.of_nat (size M) < cap ->
  exists s' xk', runs (update fuel w kp vp) s 0 s' /\ store_rep s' cap (<[x := v]> M) xk'
    /\ length xk' = (length xk + match M !! x with Some _ => 1 | None => 0 end)%nat
    /\ (forall p y, private_str s cap p y -> private_str s' cap p y) /\ kv_can_resize s' = kv_can_resize s.
Proof.
  intros (P & fe & Hd & HP) Hkp Hx Hvp Hv Hvf Hf Hnk Hnv Hne Hcap.
  destruct (update_prepares s cap M P fe xk kp x vp v Hd HP Hkp Hx Hvp Hv Hvf Hnk Hnv)
    as (p & q & s2 & Hrun & Hd2 & Hk2 & Hv2 & Hvals & Hpriv & Hcan).
  pose proof (store_size _ _ _ HP) as Hsz. rewrite <- Hsz in *.
  pose proof (dictReplace_spec fuel s2 d cap P fe xk [] p x q Hd2 Hk2 Hf Hcap) as Hrep.
  destruct (dict_rep_size _ _ _ _ _ _ _ Hd2) as (le & lk & lv & Hh2 & Hle & _).
  assert (forall r s', runs (dictReplace (AllocDictType fuel) fuel d p q) s2 r s' -> runs (update fuel w kp vp) s 0 s') as Hup.
  { intros r s' Hr. unfold runs, update. rewrite Hrun.
    rewrite bind_kload, (ah_d _ _ _ _ _ _ Hh2) by (by apply (wrapper_word L HL)).
    by rewrite (bind_runs _ _ _ _ _ Hr). }
  assert (forall s' fe' xk', dict_rep s' d cap (<[x := q]> P) fe' xk' [] -> kept s2 s' d cap (<[x := q]> P) [] ->
    store_rep s' cap (<[x := v]> M) xk' /\ (forall p y, private_str s cap p y -> private_str s' cap p y)
    /\ kv_can_resize s' = kv_can_resize s) as Hst.
  { intros s' fe' xk' Hd' Hkept. split; [|split].
    - exists (<[x := q]> P), fe'. split; [done|]. apply (store_vals s); [done|..].
      + intros y p' Hne' Hy v' Hv'. eapply kept_val; [exact Hkept| |by eapply Hvals]. right. exists y. by rewrite lookup_insert_ne.
      + eapply kept_val; [exact Hkept| |done]. right. exists x. by rewrite lookup_insert_eq.
    - intros p' y Hp'. eapply private_str_kept; [exact Hkept|]. by apply Hpriv.
    - destruct Hkept as (_ & _ & ->). done. }
  pose proof (HP x) as HPx. inversion HPx as [p0 v0 _ EP EM|EP EM]; rewrite <- EP in Hrep.
  - destruct Hrep as (s' & Hr & Hd' & Hkept). exists s', (p :: xk). destruct (Hst _ _ _ Hd' Hkept) as (? & ? & ?).
    split; [by eapply Hup|]. split; [done|]. split; [cbn; lia|done].
  - destruct fe as [|e fe'].
    { exfalso. pose proof (po_count _ _ _ _ _ _ (ah_entries _ _ _ _ _ _ Hh2)) as Hc. unfold n_entries in Hne. cbn in Hc. lia. }
    destruct Hrep as (s' & Hr & Hd' & Hkept). exists s', xk. destruct (Hst _ _ _ Hd' Hkept) as (? & ? & ?).
    split; [by eapply Hup|]. split; [done|]. split; [lia|done].
Qed.

(** [get] looks up. On a store that holds the map [M] it changes nothing
    (the key does not end in a newline, which [get] would cut off) and returns
    NULL for a key that [M] does not have, otherwise an entry whose value
    points to the bytes of the value. *)
Lemma get_runs s cap M xk kp x c :
  store_rep s cap M xk -> str_at (kv_mem s) kp (x ++ [c]) -> c <> 10 ->
  Z.of_nat (length (x ++ [c])) < ly_ksz L -> (size M < fuel)%nat ->
  exists he, runs (get fuel w kp) s he s
    /\ match M !! (x ++ [c]) with
       | Some v => he <> 0 /\ bytes_at (kv_mem s) (ld (kv_mem s) (he + de_val)) v
       | None => he = 0
       end.
Proof.
  intros (P & fe & Hd & HP) Hs Hc Hl Hf. pose proof (store_size _ _ _ HP) as Hsz. rewrite <- Hsz in Hf.
  destruct (dictFind_spec fuel s d cap P fe xk [] kp (x ++ [c]) Hd (conj Hs Hl) Hf) as [(he & Hr & Hv) _].
  destruct (dict_rep_size _ _ _ _ _ _ _ Hd) as (le & lk & lv & Hh & _).
  exists he. split.
  - unfold runs, get. rewrite (bind_runs _ _ _ _ _ (kstrlen_runs s fuel kp _ Hs ltac:(lia))).
    pose proof (lo_ksz L HL). rewrite i32_small, length_app by lia. cbn [length].
    unfold mbind at 1, cmd_bind at 1. rewrite kload8_ok by (destruct Hs; lia).
    assert (byte (kv_mem s) (kp + Z.of_nat (length x + 1) - 1) = c) as ->.
    { destruct Hs as (_ & Hb & _). replace (kp + Z.of_nat (length x + 1) - 1) with (kp + Z.of_nat (length x)) by lia.
      apply Hb. rewrite <- app_assoc. by apply list_lookup_middle. }
    rewrite (proj2 (Z.eqb_neq c 10)) by done. cbn [when]. rewrite bind_ret.
    rewrite bind_kload, (ah_d _ _ _ _ _ _ Hh) by (by apply (wrapper_word L HL)). exact Hr.
  - pose proof (HP (x ++ [c])) as HPx. inversion HPx as [p0 v0 Hval EP EM|EP EM]; rewrite <- EP in Hv; [|done].
    destruct Hv as [Hne ->]. split; [done|]. apply Hval.
Qed.

(** Once as many key objects are in use as fit into the key region,
    counting those that earlier updates of present keys left behind, every
    [update] crashes: [allocKey] copies the key to NULL. *)
Lemma update_exhausted s cap M xk kp x vp :
  store_rep s cap M xk -> private_str s cap kp x -> Z.of_nat (length x) < ly_ksz L ->
  Z.of_nat (size M + length xk) = n_keys ->
  update fuel w kp vp s = Fault Segv.
Proof.
  intros (P & fe & Hd & HP) [Hs Hr] Hl Hn. rewrite <- (store_size _ _ _ HP) in Hn.
  destruct (dict_rep_size _ _ _ _ _ _ _ Hd) as (le & lk & lv & Hh & _ & Hlk & _).
  pose proof (ah_ka _ _ _ _ _ _ Hh) as H2. destruct (ah_keys _ _ _ _ _ _ Hh) as [fk H5].
  destruct fk as [|p fk].
  - destruct (pool_alloc_none s _ _ _ lk H5) as (m1 & Hal & Hw). set (s1 := upd s m1 (CallLog (ly_ka L) sizeof_Allocator :: kv_log s)).
    assert (str_at (kv_mem s1) kp x) as Hs1.
    { eapply str_at_frame; [exact Hs|]. intros a Ha. apply Hw. intros Hin. apply (proj1 (Hr a ltac:(lia))). right. right. by left. }
    assert (allocKey fuel w kp s = Fault Segv) as Hk.
    { unfold allocKey. rewrite bind_kload, H2, (bind_runs _ _ _ _ _ Hal) by (by apply (wrapper_word L HL)).
      transitivity ((k ← kstring fuel kp; kput 0 (k ++ [0]);; n ← kstrlen fuel 0; wrap_log_write 0 n;; mret 0) s1); [done|].
      rewrite (bind_runs _ _ _ _ _ (kstring_runs s1 fuel kp x Hs1 ltac:(lia))). by destruct x. }
    unfold update, mbind, cmd_bind. by rewrite Hk.
  - exfalso. pose proof (po_count _ _ _ _ _ _ H5) as Hc. unfold n_keys in Hn. cbn in Hc. lia.
Qed.
End store.
