(* ===== verification/KvInit.v ===== *)
(** * KvInit: a new store is empty

    [initDictWrapper] on zeroed memory sets up the allocators and a dictionary
    that hold the empty map. *)
From stdpp Require Import base gmap list numbers.
From Stdlib Require Import ZArith Lia.
From S2P Require Import Prelude Mem KvMem Alloc Siphash KvStrings Dict DictBits DictSpec DictProofs DictUpdate.
From S2P Require Import AllocDict AllocDictProofs KvStore KvStoreProofs.

Lemma pool_init s a len obj sz :
  4096 <= a /\ aligned 8 a -> 0 <= obj < 2 ^ 62 -> aligned 8 obj -> len < 2 ^ 64 ->
  sz = Z.max obj sizeof_FreeNode -> sizeof_Allocator + sz <= len ->
  exists m' objs, runs (init_allocator a len obj) s a (s <| kv_mem := m' |>) /\ pool m' a len sz objs []
    /\ forall x, ~ in_region a len x -> ld m' x = ld (kv_mem s) x.
Proof.
  intros Ha Ho Hao Hlen Hsz Hl. assert (16 <= sz) as Hsz16 by (unfold sizeof_FreeNode in *; lia).
  pose proof (Z.div_mod (len - sizeof_Allocator) sz ltac:(lia)) as Hdm.
  pose proof (Z.mod_pos_bound (len - sizeof_Allocator) sz ltac:(lia)) as Hmod.
  set (q := (len - sizeof_Allocator) / sz) in *.
  assert (1 <= q) as Hq by (apply Z.div_le_lower_bound; lia).
  assert (Z.of_nat (S (Z.to_nat (q - 1))) = q) as Hn by lia.
  destruct (init_allocator_spec s a sz len obj (Z.to_nat (q - 1)) Ha Hsz Ho Hao Hlen) as (m' & Hr & [Hok Hap] & Hw); [rewrite Hn; lia|].
  cbn [fst snd] in *. exists m', (carve (S (Z.to_nat (q - 1))) (a + sizeof_Allocator) sz). split; [done|]. split.
  - constructor; [exact Hok|exact Hap| | |].
    + rewrite app_nil_r. intros b (i & Hi & ->)%carve_elem. split; nia.
    + lia.
    + rewrite length_carve. cbn [length]. unfold q. lia.
  - intros x Hx. apply Hw. unfold in_region, sizeof_Allocator in *. lia.
Qed.

(** ** [dictCreate] *)

(** Stores one after the other. *)
Definition puts (m : gmap Z Z) (d : Z) (l : list (Z * Z)) : gmap Z Z :=
  fold_left (fun m p => <[d + fst p := snd p]> m) l m.

Lemma bind_kstore_upd {B} (k : unit -> cmd kv B) s m l a v :
  kaddr_ok a = true -> (kstore a v ≫= k) (upd s m l) = k tt (upd s (<[a := v]> m) l).
Proof. intros H. by rewrite bind_kstore. Qed.

(** The words [_dictInit] and [_dictCreate] write. *)
Definition init_words (type priv : Z) : list (Z * Z) :=
  [(16, 0); (24, 0); (32, 0); (40, 0); (48, 0); (56, 0); (64, 0); (72, 0); (0, type); (8, priv); (80, u64 (-1)); (88, 0)].
Definition create_words (area size : Z) : list (Z * Z) := [(16, area); (24, size); (32, size - 1); (40, 0)].

Section create.
Context (s : kv) (d : Z) (Hd : 4096 <= d /\ aligned 8 d).

Lemma header_word i : 0 <= i < 96 -> aligned 8 i -> kaddr_ok (d + i) = true.
Proof. by apply kaddr_ok_off. Qed.

Lemma dictInit_runs m l type priv :
  runs (_dictInit d type priv) (upd s m l) DICT_OK (upd s (puts m d (init_words type priv)) l).
Proof.
  unfold runs, _dictInit, _dictReset. rewrite <- !Z.add_assoc, !bind_assoc.
  repeat (rewrite bind_kstore_upd by (apply header_word; [by vm_compute|reflexivity]); rewrite ?bind_assoc).
  reflexivity.
Qed.

Lemma dictCreate_table m l size area k :
  2 <= k < 64 -> size < 2 ^ 64 -> 2 ^ k <= size / 8 < 2 ^ (k + 1) ->
  runs (_dictCreate d size area) (upd s m l) DICT_OK (upd s (puts m d (create_words area (2 ^ k))) l).
Proof.
  intros Hk Hs Hsz. assert (2 ^ 2 <= 2 ^ k) as H4 by (apply Z.pow_le_mono_r; lia). change (2 ^ 2) with 4 in H4.
  pose proof (Z.div_mod size 8 ltac:(lia)). pose proof (Z.mod_pos_bound size 8 ltac:(lia)).
  unfold runs, _dictCreate, _dictPrevPower, DICT_HT_INITIAL_SIZE. rewrite (proj2 (Z.leb_le 4 _)) by lia.
  rewrite bind_ret, prev_power_log2 by lia.
  assert (Z.log2 (size / 8) = k) as -> by (apply Z.log2_unique; [lia|]; unfold Z.succ; lia).
  rewrite (proj2 (Z.ltb_ge (2 ^ k) 4)) by lia. rewrite <- !Z.add_assoc.
  repeat (rewrite bind_kstore_upd by (apply header_word; [by vm_compute|reflexivity])).
  reflexivity.
Qed.

(** The memory of a new dictionary: header and, behind it, the table. *)
Definition new_dict (m : gmap Z Z) (type priv size : Z) : gmap Z Z :=
  puts (puts m d (init_words type priv)) d (create_words (d + sizeof_dict) size).

Lemma dictCreate_runs m l type priv size k :
  2 <= k < 64 -> size < 2 ^ 64 -> 2 ^ k <= (size - sizeof_dict) / 8 < 2 ^ (k + 1) ->
  runs (dictCreate type priv d size) (upd s m l) d (upd s (new_dict m type priv (2 ^ k)) l).
Proof.
  intros Hk Hs Hsz. assert (2 ^ 2 <= 2 ^ k) as H4 by (apply Z.pow_le_mono_r; lia). change (2 ^ 2) with 4 in H4.
  pose proof (Z.div_mod (size - sizeof_dict) 8 ltac:(lia)). pose proof (Z.mod_pos_bound (size - sizeof_dict) 8 ltac:(lia)).
  unfold runs, dictCreate. rewrite (proj2 (Z.ltb_ge size sizeof_dict)) by (unfold sizeof_dict in *; lia).
  cbv zeta. rewrite (proj2 (Z.ltb_ge _ DICT_HT_INITIAL_SIZE)) by (unfold DICT_HT_INITIAL_SIZE; lia).
  rewrite (bind_runs _ _ _ _ _ (dictInit_runs m l type priv)).
  rewrite (bind_runs _ _ _ _ _ (dictCreate_table _ l (size - sizeof_dict) (d + sizeof_dict) k Hk ltac:(unfold sizeof_dict in *; lia) Hsz)).
  reflexivity.
Qed.

Lemma new_dict_header m type priv size :
  let m' := new_dict m type priv size in
  ld m' (d + 8) = priv /\ ld m' (d + 16) = d + sizeof_dict /\ ld m' (d + 24) = size /\ ld m' (d + 32) = size - 1
  /\ ld m' (d + 40) = 0 /\ ld m' (d + 72) = 0 /\ ld m' (d + 80) = 2 ^ 64 - 1.
Proof.
  cbv zeta. unfold new_dict, puts, init_words, create_words. cbn [fold_left fst snd].
  repeat split; rewrite !ld_insert; cases_cmp; done.
Qed.

Lemma new_dict_other m type priv size a :
  ~ d <= a < d + sizeof_dict -> ld (new_dict m type priv size) a = ld m a.
Proof.
  unfold sizeof_dict. intros Ha. unfold new_dict, puts, init_words, create_words. cbn [fold_left fst snd].
  rewrite !ld_insert. cases_cmp; done.
Qed.
End create.

(** ** [initDictWrapper] *)

Record new_store (L : layout) (keyLen valLen len k : Z) (m : gmap Z Z) : Prop := {
  ns_layout : layout_ok L;
  ns_ea : 4096 <= ly_ea L /\ aligned 8 (ly_ea L);
  ns_ka : 4096 <= ly_ka L /\ aligned 8 (ly_ka L);
  ns_va : 4096 <= ly_va L /\ aligned 8 (ly_va L);
  ns_key : 0 <= keyLen < 2 ^ 62 /\ aligned 8 keyLen /\ ly_ksz L = Z.max keyLen sizeof_FreeNode;
  ns_val : 0 <= valLen < 2 ^ 62 /\ aligned 8 valLen /\ ly_vsz L = Z.max valLen sizeof_FreeNode;
  ns_elen : sizeof_Allocator + sizeof_dictEntry <= ly_elen L < 2 ^ 64;
  ns_klen : sizeof_Allocator + ly_ksz L <= ly_klen L < 2 ^ 64;
  ns_vlen : sizeof_Allocator + ly_vsz L <= ly_vlen L < 2 ^ 64;
  ns_k : 2 <= k <= 31 /\ 2 ^ k <= (len - sizeof_dictWrapper - sizeof_dict) / 8 < 2 ^ (k + 1);
  ns_len : len < 2 ^ 64;
  ns_we : apart (ly_w L) len (ly_ea L) (ly_elen L);
  ns_wk : apart (ly_w L) len (ly_ka L) (ly_klen L);
  ns_wv : apart (ly_w L) len (ly_va L) (ly_vlen L);
  ns_zero a : ly_w L <= a < ly_w L + len -> ld m a = 0;
}.

Section init.
Context (L : layout) (keyLen valLen len k type : Z) (s : kv) (fuel : nat) (Hfuel : ly_ksz L <= Z.of_nat fuel).
Context (Hn : new_store L keyLen valLen len k (kv_mem s)).
#[local] Abbreviation w := (ly_w L).
#[local] Abbreviation d := (w + sizeof_dictWrapper).

Lemma bind_log {B} (c : unit -> cmd kv B) m l a n :
  (wrap_log_write a n ≫= c) (upd s m l) = c tt (upd s m (CallLog a n :: l)).
Proof. done. Qed.

(** One allocator is set up and its address stored in the wrapper. *)
Lemma init_pool_runs m l a n obj sz f :
  4096 <= a /\ aligned 8 a -> 0 <= obj < 2 ^ 62 -> aligned 8 obj -> n < 2 ^ 64 ->
  sz = Z.max obj sizeof_FreeNode -> sizeof_Allocator + sz <= n -> 0 <= f < sizeof_dictWrapper ->
  apart w sizeof_dictWrapper a n ->
  exists m1 objs, runs (init_allocator a n obj) (upd s m l) a (upd s m1 l)
    /\ pool (<[w + f := a]> m1) a n sz objs []
    /\ forall y, ~ in_region a n y -> y <> w + f -> ld (<[w + f := a]> m1) y = ld m y.
Proof.
  intros Ha Ho Hao Hlen Hsz Hl Hf Hap.
  destruct (pool_init (upd s m l) a n obj sz Ha Ho Hao Hlen Hsz Hl) as (m1 & objs & Hr & Hp & Hw).
  exists m1, objs. split; [done|]. split.
  - eapply pool_frame; [exact Hp|]. intros y Hy _. rewrite ld_insert. unfold apart in Hap. cases_cmp; done.
  - intros y Hy Hne. rewrite ld_insert. cases_cmp. by apply Hw.
Qed.

Lemma concat_nils (n : nat) : concat (replicate n ([] : list (ent (list Z)))) = [].
Proof. induction n; [done|]. cbn. done. Qed.

Lemma table_fits : sizeof_dictWrapper + sizeof_dict + 8 * 2 ^ k <= len.
Proof.
  destruct (ns_k _ _ _ _ _ _ Hn) as [_ [Hk _]].
  pose proof (Z.div_mod (len - sizeof_dictWrapper - sizeof_dict) 8 ltac:(lia)).
  pose proof (Z.mod_pos_bound (len - sizeof_dictWrapper - sizeof_dict) 8 ltac:(lia)). lia.
Qed.

#[local] Instance init_heap : DictHeap (AllocDictType fuel) w (list Z) (list Z) :=
  alloc_dict_heap L (ns_layout _ _ _ _ _ _ Hn) fuel Hfuel.

(** A dictionary whose header is new and whose buckets are empty. *)
Lemma new_dict_ok seed m0 :
  (forall a, d <= a < w + len -> ld m0 a = 0) ->
  dict_ok seed (new_dict d m0 type w (2 ^ k)) d (d + sizeof_dict) k (replicate (Z.to_nat (2 ^ k)) []).
Proof.
  intros Hz. pose proof (ns_k _ _ _ _ _ _ Hn) as [Hk _]. pose proof table_fits as Hfit.
  destruct (lo_w _ (ns_layout _ _ _ _ _ _ Hn)) as [Hw Hwa].
  pose proof (Z.pow_pos_nonneg 2 k ltac:(lia) ltac:(lia)) as Hp.
  destruct (new_dict_header d m0 type w (2 ^ k)) as (H8 & H16 & H24 & H32 & H40 & H72 & H80).
  assert (4096 <= d /\ aligned 8 d) as Hd by (unfold sizeof_dictWrapper; split; [lia|align]).
  assert (d = w + 32) as Ed by done. remember d as dd eqn:Edd. clear Edd.
  assert (forall i j : Z, dd + i + j = dd + (i + j)) as Hadd by lia.
  constructor; rewrite ?concat_nils, ?Hadd; unfold sizeof_dictWrapper, sizeof_dict in *; try done.
  - split; [lia|]. destruct Hd. align.
  - rewrite length_replicate. lia.
  - intros i es [-> Hi]%lookup_replicate. cbn [chain]. rewrite new_dict_other by (unfold sizeof_dict; lia).
    apply Hz. lia.
  - intros i es e [-> Hi]%lookup_replicate. by intros ?%not_elem_of_nil.
  - constructor.
  - lia.
  - intros x Hx. pose proof (ns_we _ _ _ _ _ _ Hn). pose proof (ns_wk _ _ _ _ _ _ Hn). pose proof (ns_wv _ _ _ _ _ _ Hn).
    cbn [heap_word init_heap alloc_dict_heap]. unfold ad_word, in_region, apart, sizeof_dictWrapper in *. lia.
Qed.

(** The three pools after their set-up, with the wrapper's pointers to them:
    [m5] differs from the memory after the last set-up in the dictionary. *)
Lemma init_pools m1 m2 m3 m5 fe fk fv :
  pool (<[w + dw_entryAllocator := ly_ea L]> m1) (ly_ea L) (ly_elen L) sizeof_dictEntry fe [] ->
  pool (<[w + dw_keyAllocator := ly_ka L]> m2) (ly_ka L) (ly_klen L) (ly_ksz L) fk [] ->
  pool (<[w + dw_valAllocator := ly_va L]> m3) (ly_va L) (ly_vlen L) (ly_vsz L) fv [] ->
  (forall y, ~ in_region (ly_ka L) (ly_klen L) y -> y <> w + dw_keyAllocator ->
     ld (<[w + dw_keyAllocator := ly_ka L]> m2) y = ld (<[w + dw_entryAllocator := ly_ea L]> m1) y) ->
  (forall y, ~ in_region (ly_va L) (ly_vlen L) y -> y <> w + dw_valAllocator ->
     ld (<[w + dw_valAllocator := ly_va L]> m3) y = ld (<[w + dw_keyAllocator := ly_ka L]> m2) y) ->
  (forall a, ~ d <= a < d + sizeof_dict -> a <> w + dw_d -> ld m5 a = ld (<[w + dw_valAllocator := ly_va L]> m3) a) ->
  ld m5 (w + dw_d) = d -> ad_heap L m5 fe [] [] [].
Proof.
  set (m1' := <[w + dw_entryAllocator := _]> m1). set (m2' := <[w + dw_keyAllocator := _]> m2). set (m3' := <[w + dw_valAllocator := _]> m3).
  intros P1 P2 P3 W2 W3 W5 Hd. pose proof table_fits as Hfit. pose proof Hn as [HL _ _ _ (Hk1 & Hk2 & Hk3) (Hv1 & Hv2 & Hv3) He Hkl Hvl [Hk _] Hlen We Wk Wv _].
  pose proof (Z.pow_pos_nonneg 2 k ltac:(lia) ltac:(lia)) as Hpk.
  destruct HL. unfold apart in *. unfold sizeof_dictWrapper, sizeof_dict in *.
  assert (forall a, w <= a < w + 24 -> ld m5 a = ld m3' a) as Ww by (intros; apply W5; unfold dw_d; lia).
  constructor.
  - rewrite Ww, W3, W2 by (unfold in_region, dw_entryAllocator, dw_keyAllocator, dw_valAllocator in *; lia).
    unfold m1'. by rewrite ld_insert, Z.eqb_refl.
  - rewrite Ww, W3 by (unfold in_region, dw_entryAllocator, dw_keyAllocator, dw_valAllocator in *; lia).
    unfold m2'. by rewrite ld_insert, Z.eqb_refl.
  - rewrite Ww by (unfold dw_valAllocator in *; lia). unfold m3'. by rewrite ld_insert, Z.eqb_refl.
  - exact Hd.
  - eapply pool_frame; [exact P1|]. intros x Hx _.
    rewrite W5, W3, W2 by (unfold in_region, dw_d, dw_keyAllocator, dw_valAllocator in *; lia). done.
  - exists fk. eapply pool_frame; [exact P2|]. intros x Hx _.
    rewrite W5, W3 by (unfold in_region, dw_d, dw_valAllocator in *; lia). done.
  - exists fv. eapply pool_frame; [exact P3|]. intros x Hx _. apply W5; unfold dw_d; lia.
Qed.

(** [initDictWrapper] on zeroed memory makes an empty store: it returns
    its space, all objects are free, and the dictionary behind the wrapper
    holds the empty map in the largest power of two of buckets that fits. *)
Lemma initDictWrapper_runs :
  exists s', runs (initDictWrapper type w len (ly_ea L) (ly_elen L) (ly_ka L) keyLen (ly_klen L) (ly_va L) valLen (ly_vlen L)) s w s'
    /\ store_rep L (ns_layout _ _ _ _ _ _ Hn) fuel Hfuel s' (2 ^ k) ∅ []
    /\ (forall a, ~ ad_word L a -> ~ d <= a < d + sizeof_dict -> ld (kv_mem s') a = ld (kv_mem s) a)
    /\ kv_can_resize s' = kv_can_resize s.
Proof.
  pose proof Hn as [HL Ha1 Ha2 Ha3 (Hk1 & Hk2 & Hk3) (Hv1 & Hv2 & Hv3) He Hkl Hvl [Hk Hkk] Hlen We Wk Wv Hz].
  pose proof table_fits as Hfit.
  set (l0 := CallLog w sizeof_dictWrapper :: kv_log s).
  destruct (init_pool_runs (kv_mem s) l0 (ly_ea L) (ly_elen L) sizeof_dictEntry sizeof_dictEntry dw_entryAllocator)
    as (m1 & fe & R1 & P1 & W1); try done; try apply He; [apply (lo_we _ HL)|].
  set (m1' := <[w + dw_entryAllocator := ly_ea L]> m1) in *.
  destruct (init_pool_runs m1' (CallLog (ly_ea L) sizeof_Allocator :: l0) (ly_ka L) (ly_klen L) keyLen (ly_ksz L) dw_keyAllocator)
    as (m2 & fk & R2 & P2 & W2); try done; try apply Hkl; [apply (lo_wk _ HL)|].
  set (m2' := <[w + dw_keyAllocator := ly_ka L]> m2) in *.
  set (l2 := CallLog (ly_ka L) sizeof_Allocator :: CallLog (ly_ea L) sizeof_Allocator :: l0).
  destruct (init_pool_runs m2' l2 (ly_va L) (ly_vlen L) valLen (ly_vsz L) dw_valAllocator)
    as (m3 & fv & R3 & P3 & W3); try done; try apply Hvl; [apply (lo_wv _ HL)|].
  set (m3' := <[w + dw_valAllocator := ly_va L]> m3) in *. set (l3 := CallLog (ly_va L) sizeof_Allocator :: l2).
  pose proof (dictCreate_runs s d ltac:(destruct (lo_w _ HL); unfold sizeof_dictWrapper; split; [lia|align])
    m3' l3 type w (len - sizeof_dictWrapper) k ltac:(lia) ltac:(unfold sizeof_dictWrapper; lia) Hkk) as R4.
  set (m4 := new_dict d m3' type w (2 ^ k)) in *.
  set (m5 := <[w + dw_d := d]> m4).
  assert (forall a, ~ d <= a < d + sizeof_dict -> a <> w + dw_d -> ld m5 a = ld m3' a) as W5.
  { intros a Hd Hne. unfold m5, m4. rewrite ld_insert. cases_cmp. by apply new_dict_other. }
  assert (forall a, ~ ad_word L a -> ~ d <= a < d + sizeof_dict -> ld m5 a = ld (kv_mem s) a) as Wout.
  { intros a Hna Hd. unfold ad_word, in_region in Hna. rewrite W5, W3, W2, W1;
      unfold in_region, sizeof_dictWrapper, dw_d, dw_entryAllocator, dw_keyAllocator, dw_valAllocator in *; try lia; done. }
  assert (ad_heap L m5 fe [] [] []) as Hh.
  { eapply (init_pools m1 m2 m3 m5); [exact P1|exact P2|exact P3|exact W2|exact W3|exact W5|]. unfold m5. by rewrite ld_insert, Z.eqb_refl. }
  exists (upd s m5 (CallLog d sizeof_dict :: l3)). split; [|split; [|by split]].
  - unfold runs, initDictWrapper. rewrite <- (upd_id s) at 1.
    assert (forall f, 0 <= f < sizeof_dictWrapper -> aligned 8 f -> kaddr_ok (w + f) = true) as Kw
      by (intros; apply (kaddr_ok_off w sizeof_dictWrapper); [apply HL|done..]).
    rewrite bind_log, (bind_runs _ _ _ _ _ R1), bind_kstore_upd, bind_log by (by apply Kw).
    rewrite (bind_runs _ _ _ _ _ R2), bind_kstore_upd, bind_log by (by apply Kw).
    rewrite (bind_runs _ _ _ _ _ R3), bind_kstore_upd, bind_log by (by apply Kw). cbv zeta.
    rewrite (bind_runs _ _ _ _ _ R4), bind_kstore_upd, bind_log by (by apply Kw). done.
  - exists ∅, fe. split; [|by apply map_Forall2_empty].
    exists k, (replicate (Z.to_nat (2 ^ k)) []). rewrite concat_nils. split; [done|]. split; [|by split].
    eapply dict_ok_heap; [apply (new_dict_ok _ m3')|..].
    + intros a Ha. rewrite W3, W2, W1; [by apply Hz; unfold sizeof_dictWrapper in *; lia|..];
        unfold in_region, apart, sizeof_dictWrapper, dw_entryAllocator, dw_keyAllocator, dw_valAllocator in *; lia.
    + intros a Ha. cbn [kv_mem upd]. unfold m5, m4. rewrite ld_insert.
      destruct (Z.eqb_spec (w + dw_d) a) as [<-|]; [|done]. exfalso. apply Ha. left.
      unfold in_region, dw_d, sizeof_dictWrapper. lia.
    + rewrite concat_nils. by intros e ?%not_elem_of_nil.
Qed.
End init.
