(* ===== verification/KvRoundtrip.v ===== *)
(** * KvRoundtrip: the key-value store from its creation on

    [kv_roundtrip]: a store that is set up and then updated any number of
    times answers [get] with the last value of the key.
    [overwrites_exhaust_keys]: updating one key over and over crashes it. A
    small store serves as the example on which the theorems are run. *)
From stdpp Require Import base gmap list numbers.
From Stdlib Require Import ZArith Lia.
From S2P Require Import Prelude Mem KvMem Alloc Siphash KvStrings Dict DictBits DictSpec DictProofs DictUpdate.
From S2P Require Import AllocDict AllocDictProofs KvStore KvStoreProofs KvInit.

(** An update: pointers to key and value, and the strings there. *)
Record kv_update := mk_update { u_kp : Z; u_key : list Z; u_vp : Z; u_val : list Z }.

Definition run_updates (fuel : nat) (w : Z) (us : list kv_update) : cmd kv unit :=
  for_each us (fun u => update fuel w (u_kp u) (u_vp u);; mret tt).

(** The map after the updates. *)
Definition apply_updates (us : list kv_update) (M : gmap (list Z) (list Z)) : gmap (list Z) (list Z) :=
  fold_left (fun M u => <[u_key u := u_val u]> M) us M.

Lemma size_insert_le (M : gmap (list Z) (list Z)) x v : (size (<[x := v]> M) <= S (size M))%nat.
Proof. rewrite map_size_insert. destruct (M !! x); cbn; lia. Qed.

Lemma apply_updates_size us M : (size (apply_updates us M) <= size M + length us)%nat.
Proof.
  revert M. induction us as [|u us IH]; intros M; cbn; [lia|]. etransitivity; [apply IH|].
  pose proof (size_insert_le M (u_key u) (u_val u)). lia.
Qed.

Section store.
Context (L : layout) (HL : layout_ok L) (fuel : nat) (Hfuel : ly_ksz L <= Z.of_nat fuel).
Implicit Types (s : kv) (M : gmap (list Z) (list Z)).
#[local] Abbreviation w := (ly_w L).
#[local] Abbreviation n_k := (n_keys L).
#[local] Abbreviation rep := (store_rep L HL fuel Hfuel).

(** The strings of an update, within the sizes of the objects. *)
Definition update_ok s cap u : Prop :=
  private_str L s cap (u_kp u) (u_key u) /\ Z.of_nat (length (u_key u)) < ly_ksz L
  /\ private_str L s cap (u_vp u) (u_val u) /\ Z.of_nat (length (u_val u)) <= ly_vsz L /\ (length (u_val u) < fuel)%nat.

(** Any number of updates, while there is room for as many new keys. *)
Lemma run_updates_runs us s cap M xk :
  rep s cap M xk -> (forall u, u ∈ us -> update_ok s cap u) ->
  (size M + length us <= fuel)%nat -> Z.of_nat (size M + length xk + length us) <= n_k ->
  Z.of_nat (size M + length us) <= n_vals L -> Z.of_nat (size M + length us) <= n_entries L ->
  Z.of_nat (size M + length us) <= cap ->
  exists s' xk', runs (run_updates fuel w us) s tt s' /\ rep s' cap (apply_updates us M) xk'
    /\ (forall p y, private_str L s cap p y -> private_str L s' cap p y) /\ kv_can_resize s' = kv_can_resize s
    /\ (size (apply_updates us M) + length xk' <= size M + length xk + length us)%nat.
Proof.
  revert s M xk. induction us as [|u us IH]; intros s M xk Hr Hu Hf Hk Hv He Hc; cbn [length] in *.
  - exists s, xk. cbn. split; [done|split; [done|split; [done|split; [done|lia]]]].
  - destruct (Hu u ltac:(left)) as (Hkp & Hlx & Hvp & Hlv & Hlf).
    destruct (update_runs L HL fuel Hfuel s cap M xk _ _ _ _ Hr Hkp Hlx Hvp Hlv Hlf) as (s1 & xk1 & R1 & Hr1 & Hxk & Hp1 & Hcan1); try lia.
    assert (size (<[u_key u := u_val u]> M) + length xk1 <= S (size M + length xk))%nat as Hsz.
    { rewrite map_size_insert, Hxk. destruct (M !! u_key u); cbn; lia. }
    pose proof (size_insert_le M (u_key u) (u_val u)).
    destruct (IH s1 _ xk1 Hr1) as (s2 & xk2 & R2 & Hr2 & Hp2 & Hcan2 & Hn2); try lia.
    { intros u' Hin. destruct (Hu u' ltac:(by right)) as (? & ? & ? & ? & ?).
      split; [by apply Hp1|]. split; [done|]. split; [by apply Hp1|done]. }
    exists s2, xk2. split; [|split; [done|split; [intros; by apply Hp2, Hp1|split; [congruence|cbn [apply_updates fold_left]; unfold apply_updates in *; lia]]]].
    unfold runs, run_updates. cbn [for_each]. rewrite bind_assoc, (bind_runs _ _ _ _ _ R1). exact R2.
Qed.

(** Overwriting a key [n] times leaves [n] key objects behind. *)
Lemma overwrite_runs n s cap M xk u v0 :
  rep s cap M xk -> update_ok s cap u -> M !! u_key u = Some v0 -> (size M < fuel)%nat ->
  Z.of_nat (size M + length xk + n) <= n_k -> Z.of_nat (size M) < n_vals L ->
  Z.of_nat (size M) < n_entries L -> Z.of_nat (size M) < cap ->
  exists s' M' xk', runs (run_updates fuel w (replicate n u)) s tt s' /\ rep s' cap M' xk' /\ size M' = size M
    /\ length xk' = (length xk + n)%nat /\ forall p y, private_str L s cap p y -> private_str L s' cap p y.
Proof.
  revert s M xk v0. induction n as [|n IH]; intros s M xk v0 Hr Hu Hx Hf Hk Hv He Hc; cbn [replicate] in *.
  - exists s, M, xk. split; [done|split; [done|split; [done|split; [lia|done]]]].
  - pose proof Hu as (Hkp & Hlx & Hvp & Hlv & Hlf).
    destruct (update_runs L HL fuel Hfuel s cap M xk _ _ _ _ Hr Hkp Hlx Hvp Hlv Hlf) as (s1 & xk1 & R1 & Hr1 & Hxk & Hp1 & Hcan1); try lia.
    rewrite Hx in Hxk. assert (size (<[u_key u := u_val u]> M) = size M) as Hsz by (by rewrite map_size_insert, Hx).
    destruct (IH s1 _ xk1 (u_val u) Hr1) as (s2 & M2 & xk2 & R2 & Hr2 & Hs2 & Hx2 & Hp2); rewrite ?Hsz; try lia; [|by rewrite lookup_insert_eq|].
    { split; [by apply Hp1|]. split; [done|]. split; [by apply Hp1|done]. }
    exists s2, M2, xk2. split; [|split; [done|split; [lia|split; [lia|intros; by apply Hp2, Hp1]]]].
    unfold runs, run_updates. cbn [for_each]. rewrite bind_assoc, (bind_runs _ _ _ _ _ R1). exact R2.
Qed.
End store.

(** Set up, updated and asked. *)
Lemma kv_session L keyLen valLen len k type s fuel us kp x c :
  new_store L keyLen valLen len k (kv_mem s) -> ly_ksz L <= Z.of_nat fuel ->
  (forall u, u ∈ us -> update_ok L fuel s (2 ^ k) u) ->
  private_str L s (2 ^ k) kp (x ++ [c]) -> c <> 10 -> Z.of_nat (length (x ++ [c])) < ly_ksz L ->
  (length us < fuel)%nat -> Z.of_nat (length us) <= n_keys L -> Z.of_nat (length us) <= n_vals L ->
  Z.of_nat (length us) <= n_entries L -> Z.of_nat (length us) <= 2 ^ k ->
  exists he s', runs (w ← initDictWrapper type (ly_w L) len (ly_ea L) (ly_elen L) (ly_ka L) keyLen (ly_klen L)
                                         (ly_va L) valLen (ly_vlen L);
                     run_updates fuel w us;; get fuel w kp) s he s'
    /\ match apply_updates us ∅ !! (x ++ [c]) with
       | Some v => he <> 0 /\ bytes_at (kv_mem s') (ld (kv_mem s') (he + de_val)) v
       | None => he = 0
       end.
Proof.
  intros Hn Hfuel Hus Hkp Hc Hlx Hf Hk Hv He Hcap.
  destruct (initDictWrapper_runs L keyLen valLen len k type s fuel Hfuel Hn) as (s1 & R1 & Hr1 & W1 & _).
  assert (forall p y, private_str L s (2 ^ k) p y -> private_str L s1 (2 ^ k) p y) as Hpriv.
  { intros p y [Hs Hr]. split; [|done]. eapply str_at_frame; [exact Hs|]. intros a Ha.
    pose proof (Z.pow_nonneg 2 k ltac:(lia)). apply W1; [apply Hr; lia|]. destruct (Hr a ltac:(lia)) as [_ Hd]. lia. }
  destruct (run_updates_runs L _ fuel Hfuel us s1 (2 ^ k) ∅ [] Hr1) as (s2 & xk2 & R2 & Hr2 & Hp2 & _ & _);
    rewrite ?map_size_empty; cbn [length Nat.add]; try lia.
  { intros u Hu. destruct (Hus u Hu) as (? & ? & ? & ? & ?). split; [by apply Hpriv|]. split; [done|]. split; [by apply Hpriv|done]. }
  pose proof (apply_updates_size us ∅) as Hsz. rewrite map_size_empty in Hsz.
  destruct (get_runs L _ fuel Hfuel s2 (2 ^ k) _ xk2 kp x c Hr2) as (he & R3 & Hres); try done; try lia.
  { apply Hp2, Hpriv, Hkp. }
  exists he, s2. split; [|done]. unfold runs. rewrite (bind_runs _ _ _ _ _ R1), (bind_runs _ _ _ _ _ R2). exact R3.
Qed.

(** C15: the store is a map, as long as its pools last. On zeroed memory with a
    valid layout, setting the store up with [initDictWrapper] and running a
    list of [update]s succeeds if the list is no longer than there are key
    objects, value objects, entries and initial buckets; [get] of a key, which
    does not end in a newline, then returns NULL if the key was not updated,
    and otherwise an entry that points to the bytes of the last value. An
    overwrite counts too, as [overwrites_exhaust_keys] below shows. *)
Theorem kv_roundtrip L keyLen valLen len k type s fuel us kp x c :
  new_store L keyLen valLen len k (kv_mem s) -> ly_ksz L <= Z.of_nat fuel ->
  (forall u, u ∈ us -> update_ok L fuel s (2 ^ k) u) ->
  private_str L s (2 ^ k) kp (x ++ [c]) -> c <> 10 -> Z.of_nat (length (x ++ [c])) < ly_ksz L ->
  (length us < fuel)%nat -> Z.of_nat (length us) <= n_keys L -> Z.of_nat (length us) <= n_vals L ->
  Z.of_nat (length us) <= n_entries L -> Z.of_nat (length us) <= 2 ^ k ->
  exists he s', runs (w ← initDictWrapper type (ly_w L) len (ly_ea L) (ly_elen L) (ly_ka L) keyLen (ly_klen L)
                                         (ly_va L) valLen (ly_vlen L);
                     run_updates fuel w us;; get fuel w kp) s he s'
    /\ match apply_updates us ∅ !! (x ++ [c]) with
       | Some v => he <> 0 /\ bytes_at (kv_mem s') (ld (kv_mem s') (he + de_val)) v
       | None => he = 0
       end.
Proof. apply kv_session. Qed.

(** Updates of a key that is there use up the key objects. With room for
    [n] more key objects, [n] updates of the same key succeed and the next one
    crashes, although the store holds no more keys than before: [update]
    allocates a key object each time, and [dictReplace] neither keeps nor
    frees it. *)
Theorem overwrites_exhaust_keys L (HL : layout_ok L) fuel (Hfuel : ly_ksz L <= Z.of_nat fuel) s cap M xk u v0 n :
  store_rep L HL fuel Hfuel s cap M xk -> update_ok L fuel s cap u -> M !! u_key u = Some v0 -> (size M < fuel)%nat ->
  Z.of_nat (size M + length xk + n) = n_keys L -> Z.of_nat (size M) < n_vals L ->
  Z.of_nat (size M) < n_entries L -> Z.of_nat (size M) < cap ->
  (exists s' M' xk', runs (run_updates fuel (ly_w L) (replicate n u)) s tt s'
     /\ store_rep L HL fuel Hfuel s' cap M' xk' /\ size M' = size M)
  /\ run_updates fuel (ly_w L) (replicate n u ++ [u]) s = Fault Segv.
Proof.
  intros Hr Hu Hx Hf Hk Hv He Hc.
  destruct (overwrite_runs L HL fuel Hfuel n s cap M xk u v0) as (s' & M' & xk' & R & Hr' & Hsz & Hxk & Hp); try done; try lia.
  split; [by exists s', M', xk'|]. unfold run_updates. rewrite for_each_app.
  unfold run_updates in R. rewrite (bind_runs _ _ _ _ _ R). cbn [for_each]. destruct Hu as (Hkp & Hlx & _).
  unfold mbind, cmd_bind. by rewrite (update_exhausted L HL fuel Hfuel s' cap M' xk' _ _ _ Hr' (Hp _ _ Hkp) Hlx ltac:(lia)).
Qed.

