(* ===== verification/KvDemo.v ===== *)
(** * KvDemo: a small key-value store

    Four buckets, room for ten entries, keys and values of 64 bytes: the
    example on which the theorems about dictionary and store are run. *)
From stdpp Require Import base gmap list numbers.
From Stdlib Require Import ZArith Lia.
From S2P Require Import Prelude Mem KvMem Alloc Siphash KvStrings Dict DictBits DictSpec DictProofs DictUpdate DictScan.
From S2P Require Import AllocDict AllocDictProofs KvStore KvStoreProofs KvInit KvRoundtrip.

(** ** The store and the strings of the process *)

Definition demo_layout : layout := mk_layout 8192 16384 264 20480 664 64 24576 664 64.

(** "abc", "xyz", "p", "q", "r" and "s". *)
Definition str_abc : list Z := [97; 98; 99].
Definition str_xyz : list Z := [120; 121; 122].
Definition demo : kv :=
  mk_kv (<[40960 := 0x636261]> (<[40968 := 0x7a7978]> (<[40976 := 112]> (<[40984 := 113]> (<[40992 := 114]> (<[41000 := 115]> ∅))))))
    [] true [] [] [].

Definition demo_strings : list (Z * list Z) :=
  [(40960, str_abc); (40968, str_xyz); (40976, [112]); (40984, [113]); (40992, [114]); (41000, [115])].

Lemma demo_new_store : new_store demo_layout 64 64 160 2 (kv_mem demo).
Proof.
  constructor; try (by vm_compute); try (vm_compute; intuition congruence).
  - constructor; try (by vm_compute); try (vm_compute; intuition congruence).
  - intros a Ha. unfold demo, kv_mem. change (ly_w demo_layout) with 8192 in Ha. rewrite !ld_insert. cases_cmp. done.
Qed.

Definition demo_layout_ok : layout_ok demo_layout := ns_layout _ _ _ _ _ _ demo_new_store.

Lemma demo_fuel : ly_ksz demo_layout <= Z.of_nat 64.
Proof. by vm_compute. Qed.

Lemma demo_str p x : (p, x) ∈ demo_strings -> private_str demo_layout demo (2 ^ 2) p x.
Proof.
  intros Hp. unfold demo_strings in Hp. rewrite !elem_of_cons in Hp. split.
  - destruct Hp as [E|[E|[E|[E|[E|[E|[]%not_elem_of_nil]]]]]]; injection E as -> ->;
      (split; [lia|]; split; [|unfold str_abc, str_xyz; repeat constructor; lia]);
      intros [|[|[|[|i]]]] c Hc; cbn in Hc; try done; injection Hc as <-; reflexivity.
  - assert (40960 <= p < 41001 /\ (length x <= 3)%nat) as [Hr Hl].
    { destruct Hp as [E|[E|[E|[E|[E|[E|[]%not_elem_of_nil]]]]]]; injection E as -> ->; cbn; lia. }
    intros a Ha. destruct (word_of_spec a) as [Hw _].
    unfold ad_word, in_region, demo_layout, sizeof_dictWrapper, sizeof_dict. cbn. lia.
Qed.

(** The updates "abc" -> "xyz", "p" -> "abc", "q" -> "abc" and "r" -> "abc". *)
Definition demo_updates : list kv_update :=
  [mk_update 40960 str_abc 40968 str_xyz; mk_update 40976 [112] 40960 str_abc;
   mk_update 40984 [113] 40960 str_abc; mk_update 40992 [114] 40960 str_abc].

Lemma demo_updates_ok u : u ∈ demo_updates -> update_ok demo_layout 64 demo (2 ^ 2) u.
Proof.
  intros Hu. unfold demo_updates in Hu. rewrite !elem_of_cons in Hu.
  destruct Hu as [->|[->|[->|[->|[]%not_elem_of_nil]]]];
    (split; [apply demo_str; vm_compute; set_solver|]; split; [by vm_compute|];
     split; [apply demo_str; vm_compute; set_solver|]; split; [by vm_compute|cbn; lia]).
Qed.

(** ** The store after some of the updates *)

#[local] Instance demo_heap : DictHeap (AllocDictType 64) (ly_w demo_layout) (list Z) (list Z) :=
  alloc_dict_heap demo_layout demo_layout_ok 64 demo_fuel.
#[local] Abbreviation d := (ly_w demo_layout + sizeof_dictWrapper).
#[local] Abbreviation rep := (store_rep demo_layout demo_layout_ok 64 demo_fuel).

(** Set the store up and run the first [n] updates. *)
Definition demo_run (n : nat) : cmd kv unit :=
  w ← initDictWrapper 1 8192 160 16384 264 20480 64 664 24576 64 664; run_updates 64 w (take n demo_updates).

Definition demo_at (n : nat) : kv := match demo_run n demo with Done (_, s) => s | _ => demo end.

Lemma demo_store n :
  (n <= 4)%nat ->
  exists xk, rep (demo_at n) (2 ^ 2) (apply_updates (take n demo_updates) ∅) xk /\ kv_can_resize (demo_at n) = true
    /\ (size (apply_updates (take n demo_updates) ∅) + length xk <= 4)%nat
    /\ forall p x, (p, x) ∈ demo_strings -> private_str demo_layout (demo_at n) (2 ^ 2) p x.
Proof.
  intros Hn. assert (length (take n demo_updates) <= 4)%nat as Hlen by (rewrite length_take; lia).
  destruct (initDictWrapper_runs demo_layout 64 64 160 2 1 demo 64 demo_fuel demo_new_store) as (s1 & R1 & Hr1 & W1 & Hc1).
  assert (forall p x, private_str demo_layout demo (2 ^ 2) p x -> private_str demo_layout s1 (2 ^ 2) p x) as Hpriv.
  { intros p x [Hs Hr]. split; [|done]. eapply str_at_frame; [exact Hs|]. intros a Ha.
    destruct (Hr a ltac:(lia)) as [Ho Hd]. apply W1; [done|]. lia. }
  destruct (run_updates_runs demo_layout demo_layout_ok 64 demo_fuel (take n demo_updates) s1 (2 ^ 2) ∅ [])
    as (s2 & xk2 & R2 & Hr2 & Hp2 & Hc2 & Hn2); rewrite ?map_size_empty; cbn [length Nat.add]; try (cbn; lia).
  { exact Hr1. }
  { intros u Hu. apply elem_of_take in Hu as (i & Hi & _). apply list_elem_of_lookup_2 in Hi.
    destruct (demo_updates_ok u Hi) as (? & ? & ? & ? & ?).
    split; [by apply Hpriv|]. split; [done|]. split; [by apply Hpriv|done]. }
  { change (n_keys demo_layout) with 10. lia. }
  { change (n_vals demo_layout) with 10. lia. }
  { change (n_entries demo_layout) with 10. lia. }
  assert (demo_at n = s2) as ->.
  { unfold demo_at, demo_run.
    change 8192 with (ly_w demo_layout). change 16384 with (ly_ea demo_layout). change 264 with (ly_elen demo_layout).
    change 20480 with (ly_ka demo_layout). change 664 with (ly_klen demo_layout) at 1.
    change 24576 with (ly_va demo_layout). change 664 with (ly_vlen demo_layout) at 1.
    rewrite (bind_runs _ _ _ _ _ R1). unfold runs in R2. by rewrite R2. }
  exists xk2. split; [done|]. split; [by rewrite Hc2, Hc1|].
  split; [rewrite map_size_empty in Hn2; cbn [length] in Hn2; lia|]. intros p x Hp. by apply Hp2, Hpriv, demo_str.
Qed.

#[local] Opaque demo_at.

(** The dictionary of the store, with the same keys. *)
Lemma demo_dict n :
  (n <= 4)%nat ->
  exists P fe xk, dict_rep (demo_at n) d (2 ^ 2) P fe xk [] /\ kv_can_resize (demo_at n) = true
    /\ size P = size (apply_updates (take n demo_updates) ∅)
    /\ (forall x, is_Some (apply_updates (take n demo_updates) ∅ !! x) -> is_Some (P !! x))
    /\ forall p x, (p, x) ∈ demo_strings -> key_at (kv_mem (demo_at n)) p x.
Proof.
  intros Hn. destruct (demo_store n Hn) as (xk & (P & fe & Hd & HP) & Hc & _ & Hp).
  exists P, fe, xk. split; [done|]. split; [done|]. split; [by eapply store_size|]. split.
  - intros x [v Hv]. pose proof (HP x) as Hx. rewrite Hv in Hx. inversion Hx. by eexists.
  - intros p x Hin. split; [by apply Hp|]. unfold demo_strings in Hin. rewrite !elem_of_cons in Hin.
    by destruct Hin as [E|[E|[E|[E|[E|[E|[]%not_elem_of_nil]]]]]]; injection E as -> ->.
Qed.

(** One key is in the dictionary, and [update] of a string has copied key and
    value. *)
Lemma demo_prepared p x :
  (p, x) ∈ demo_strings ->
  exists s key val P fe xk, dict_rep s d (2 ^ 2) P (fe : list Z) (key :: xk) [val] /\ key_at (kv_mem s) key x
    /\ size P = 1%nat /\ is_Some (P !! str_abc) /\ (9 <= length fe)%nat.
Proof.
  intros Hin. destruct (demo_store 1 ltac:(lia)) as (xk & Hr & Hc & Hn & Hp). pose proof Hr as (P & fe & Hd & HP).
  assert (size (apply_updates (take 1 demo_updates) ∅) = 1%nat) as Hsz by reflexivity.
  assert ((length x <= 3)%nat) as Hl.
  { unfold demo_strings in Hin. rewrite !elem_of_cons in Hin.
    destruct Hin as [E|[E|[E|[E|[E|[E|[]%not_elem_of_nil]]]]]]; injection E as -> ->; cbn; lia. }
  change (ly_ksz demo_layout) with 64 in *.
  destruct (update_prepares demo_layout demo_layout_ok 64 demo_fuel (demo_at 1) (2 ^ 2) _ P fe xk p x p x Hd HP)
    as (key & val & s & _ & Hd' & Hk & _); try (by apply Hp); try (cbn; lia).
  { change (n_keys demo_layout) with 10. lia. }
  { change (n_vals demo_layout) with 10. lia. }
  exists s, key, val, P, fe, xk. split; [done|]. split; [done|]. rewrite (store_size _ _ _ _ HP). split; [done|]. split.
  - pose proof (HP str_abc) as Hx. cbn in Hx. rewrite lookup_insert_eq in Hx. inversion Hx. by eexists.
  - destruct (dict_rep_size demo_layout demo_layout_ok 64 demo_fuel _ _ _ _ _ _ _ Hd') as (le & lk & lv & Hh & Hle & _).
    pose proof (po_count _ _ _ _ _ _ (ah_entries _ _ _ _ _ _ Hh)) as Hcnt.
    rewrite (store_size _ _ _ _ HP) in Hle.
    change ((ly_elen demo_layout - sizeof_Allocator) / sizeof_dictEntry) with 10 in Hcnt. lia.
Qed.

Lemma size_1_other (P : gmap (list Z) Z) x y : size P = 1%nat -> is_Some (P !! x) -> y <> x -> P !! y = None.
Proof.
  intros Hs [v Hx] Hne. assert (size (delete x P) = 0%nat) as Hd by (rewrite map_size_delete, Hx; lia).
  apply map_size_empty_inv in Hd. rewrite <- (lookup_delete_ne P x y) by done. by rewrite Hd, lookup_empty.
Qed.

(** ** The theorems on the example *)

(** "abc" is found. *)
Lemma dictFind_lookup_witness :
  exists he v, runs (dictFind (AllocDictType 64) 64 8224 40960) (demo_at 1) he (demo_at 1)
    /\ he <> 0 /\ ld (kv_mem (demo_at 1)) (he + de_val) = v
    /\ runs (dictFetchValue (AllocDictType 64) 64 8224 40960) (demo_at 1) v (demo_at 1).
Proof.
  destruct (demo_dict 1 ltac:(lia)) as (P & fe & xk & Hd & _ & Hsz & Hin & Hk).
  assert (size (apply_updates (take 1 demo_updates) ∅) = 1%nat) as H1 by reflexivity.
  destruct (Hin str_abc) as [v Hv]; [by eexists|].
  destruct (dictFind_lookup 64 (demo_at 1) 8224 (2 ^ 2) P fe xk [] 40960 str_abc Hd) as [(he & Hr & Hm) Hf].
  { apply Hk. left. }
  { lia. }
  rewrite Hv in Hm, Hf. destruct Hm as [Hne Hl]. exists he, v.
  split; [exact Hr|]. split; [exact Hne|]. split; [exact Hl|exact Hf].
Defined.

(** "abc" is there and gets another value; "p" is new. *)
Lemma dictReplace_insert_witness :
  (exists s key val s', runs (dictReplace (AllocDictType 64) 64 8224 key val) s 0 s')
  /\ exists s key val s', runs (dictReplace (AllocDictType 64) 64 8224 key val) s 1 s'.
Proof.
  destruct (demo_prepared 40960 str_abc ltac:(left)) as (s & key & val & P & fe & xk & Hd & Hk & Hsz & [v Hv] & _).
  pose proof (dictReplace_insert 64 s 8224 (2 ^ 2) P fe xk [] key str_abc val Hd Hk ltac:(lia) ltac:(lia)) as H.
  rewrite Hv in H. destruct H as (s' & Hr & _). split; [by exists s, key, val, s'|].
  destruct (demo_prepared 40976 [112] ltac:(right; right; left)) as (t & key' & val' & P' & fe' & xk' & Hd' & Hk' & Hsz' & Hs' & Hfe).
  pose proof (dictReplace_insert 64 t 8224 (2 ^ 2) P' fe' xk' [] key' [112] val' Hd' Hk' ltac:(lia) ltac:(lia)) as H.
  assert (P' !! [112] = None) as Hnone by (by apply (size_1_other P' str_abc)). rewrite Hnone in H.
  destruct fe' as [|e fe']; [cbn in Hfe; lia|]. destruct H as (t' & Hr' & _). by exists t, key', val', t'.
Defined.

(** "p" is new, "abc" is not; on the full table "s" is refused. *)
Lemma dictAdd_insert_witness :
  (exists s key val s', runs (dictAdd (AllocDictType 64) 64 8224 key val) s DICT_OK s')
  /\ exists s key val, runs (dictAdd (AllocDictType 64) 64 8224 key val) s DICT_ERR s.
Proof.
  destruct (demo_prepared 40976 [112] ltac:(right; right; left)) as (s & key & val & P & fe & xk & Hd & Hk & Hsz & Hs & Hfe).
  pose proof (proj1 (dictAdd_insert 64 s 8224 (2 ^ 2) P fe xk [] key [112] val Hd Hk ltac:(lia)) ltac:(lia)) as H.
  assert (P !! [112] = None) as Hnone by (by apply (size_1_other P str_abc)). rewrite Hnone in H.
  destruct fe as [|e fe]; [cbn in Hfe; lia|]. destruct H as (s' & Hr & _). split; [by exists s, key, val, s'|].
  destruct (demo_prepared 40960 str_abc ltac:(left)) as (t & key' & val' & P' & fe' & xk' & Hd' & Hk' & Hsz' & [v Hv] & _).
  pose proof (proj1 (dictAdd_insert 64 t 8224 (2 ^ 2) P' fe' xk' [] key' str_abc val' Hd' Hk' ltac:(lia)) ltac:(lia)) as H.
  rewrite Hv in H. by exists t, key', val'.
Defined.

(** Four keys in four buckets: replacing the value of "abc" crashes. *)
Lemma dictReplace_full_crashes_witness :
  size (apply_updates demo_updates ∅) = 4%nat /\ dictReplace (AllocDictType 64) 64 8224 40960 40968 (demo_at 4) = Fault Segv.
Proof.
  split; [reflexivity|]. destruct (demo_dict 4 ltac:(lia)) as (P & fe & xk & Hd & Hc & Hsz & _ & Hk).
  assert (size (apply_updates (take 4 demo_updates) ∅) = 4%nat) as H4 by reflexivity.
  apply (dictReplace_full_crashes 64 (demo_at 4) 8224 (2 ^ 2) P fe xk [] 40960 str_abc 40968 Hd); [|lia|lia|done].
  apply Hk. left.
Defined.

(** "abc" is deleted. *)
Lemma dictDelete_delete_witness :
  exists s', runs (dictDelete (AllocDictType 64) 64 8224 40960) (demo_at 2) DICT_OK s'.
Proof.
  destruct (demo_dict 2 ltac:(lia)) as (P & fe & xk & Hd & _ & Hsz & Hin & Hk).
  assert (size (apply_updates (take 2 demo_updates) ∅) = 2%nat) as H2 by reflexivity.
  destruct (Hin str_abc) as [v Hv]; [by eexists|].
  pose proof (dictDelete_delete 64 (demo_at 2) 8224 (2 ^ 2) P fe xk [] 40960 str_abc Hd) as H. rewrite Hv in H.
  destruct H as (s' & e & Hr & _); [apply Hk; left|lia|]. by exists s'.
Defined.

(** The scan of the store with two keys meets two entries. *)
Lemma dictScan_visits_all_witness :
  exists es : list Z, runs (scan_all 4 64 8224 0) (demo_at 2) tt (upd (demo_at 2) (kv_mem (demo_at 2)) (noted es (kv_log (demo_at 2))))
    /\ NoDup es /\ length es = 2%nat.
Proof.
  destruct (demo_dict 2 ltac:(lia)) as (P & fe & xk & Hd & _ & Hsz & _).
  assert (size (apply_updates (take 2 demo_updates) ∅) = 2%nat) as H2 by reflexivity.
  destruct (dictScan_visits_all 64 (demo_at 2) 8224 (2 ^ 2) P fe xk [] 4 Hd) as (es & Hr & Hnd & Hl & _).
  - intros ->. rewrite map_size_empty in Hsz. lia.
  - lia.
  - lia.
  - exists es. split; [exact Hr|]. split; [exact Hnd|]. lia.
Defined.

(** Set up, updated and asked for "abc". *)
Lemma kv_roundtrip_witness :
  exists he s', runs (w ← initDictWrapper 1 8192 160 16384 264 20480 64 664 24576 64 664;
                     run_updates 64 w demo_updates;; get 64 w 40960) demo he s'
    /\ he <> 0 /\ bytes_at (kv_mem s') (ld (kv_mem s') (he + de_val)) str_xyz.
Proof.
  apply (kv_roundtrip demo_layout 64 64 160 2 1 demo 64 demo_updates 40960 [97; 98] 99 demo_new_store).
  - by vm_compute.
  - apply demo_updates_ok.
  - apply demo_str. left.
  - done.
  - by vm_compute.
  - cbn. lia.
  - by vm_compute.
  - by vm_compute.
  - by vm_compute.
  - by vm_compute.
Defined.

(** With "abc" in the store and at most three other key objects in use,
    updating "abc" often enough crashes. *)
Lemma overwrites_exhaust_keys_witness :
  exists n, run_updates 64 8192 (replicate n (mk_update 40960 str_abc 40968 str_xyz) ++ [mk_update 40960 str_abc 40968 str_xyz])
              (demo_at 1) = Fault Segv.
Proof.
  destruct (demo_store 1 ltac:(lia)) as (xk & Hr & _ & Hn & Hp).
  assert (size (apply_updates (take 1 demo_updates) ∅) = 1%nat) as H1 by reflexivity.
  exists (9 - length xk)%nat.
  apply (overwrites_exhaust_keys demo_layout demo_layout_ok 64 demo_fuel (demo_at 1) (2 ^ 2)
           (apply_updates (take 1 demo_updates) ∅) xk (mk_update 40960 str_abc 40968 str_xyz) str_xyz (9 - length xk) Hr).
  - split; [apply Hp; left|]. split; [by vm_compute|]. split; [apply Hp; right; left|]. split; [by vm_compute|cbn; lia].
  - reflexivity.
  - lia.
  - change (n_keys demo_layout) with 10. lia.
  - by vm_compute.
  - by vm_compute.
  - by vm_compute.
Defined.
