(* ===== verification/KvLog.v ===== *)
(** * KvLog: what the key-value store reports to Tasvir

    Readers on other threads and nodes see a change of the store only if the
    line it is in is passed to [tasvir_log]. [update_not_reported]: the
    routines of dict.c report buckets, entries and objects, but neither the
    number of keys nor the new value pointer of an entry that is there. *)
From stdpp Require Import base gmap list numbers.
From Stdlib Require Import ZArith Lia.
From S2P Require Import Prelude Mem KvMem Alloc Siphash KvStrings Dict AllocDict KvStore AllocDictProofs KvStoreProofs KvInit KvRoundtrip KvDemo.

(** The call reports the line of the word [a]. *)
Definition reports (a : Z) (c : kv_call) : bool :=
  match c with
  | CallLog p n => (0 <? n) && (p / 64 <=? a / 64) && (a / 64 <=? (p + n - 1) / 64)
  | _ => false
  end.

(** Between [s] and [s'] the word [a] changed and no call reported its line. *)
Definition changed_silently (s s' : kv) (a : Z) : bool :=
  negb (ld (kv_mem s) a =? ld (kv_mem s') a)
  && forallb (fun c => negb (reports a c)) (take (length (kv_log s') - length (kv_log s)) (kv_log s')).

(** The number of keys, and the value of the first entry, of the store of [KvDemo]. *)
Definition demo_used : Z := ly_w demo_layout + sizeof_dictWrapper + d_ht 0 + ht_used.
Definition demo_entry_val : Z := ly_ea demo_layout + sizeof_Allocator + de_val.

(** [update] changes words it does not report. On a store with the key
    "abc", adding the key "p" changes the dictionary's count of keys, and a new
    value for "abc" changes the value pointer in the entry; in neither run is
    the line of that word passed to [tasvir_log], so readers keep the old count
    and the pointer to an object that has been given back. *)
Theorem update_not_reported :
  (exists s', runs (update 64 8192 40976 40968) (demo_at 1) 0 s' /\ changed_silently (demo_at 1) s' demo_used = true)
  /\ exists s', runs (update 64 8192 40960 40976) (demo_at 1) 0 s' /\ changed_silently (demo_at 1) s' demo_entry_val = true.
Proof.
  split.
  - exists (match update 64 8192 40976 40968 (demo_at 1) with Done (_, s) => s | _ => demo end). split; vm_compute; reflexivity.
  - exists (match update 64 8192 40960 40976 (demo_at 1) with Done (_, s) => s | _ => demo end). split; vm_compute; reflexivity.
Qed.
