(* ===== verification/KvMain.v ===== *)
(** * KvMain: the store the program sets up (apps/kvstore/main.c)

    [main] divides the data of its area into four regions of 250 MiB, for the
    table, the entries, the keys and the values. The hypotheses of the theorems
    on the store hold for this layout, and the value region fills up first. *)
From stdpp Require Import base gmap list numbers.
From Stdlib Require Import ZArith Lia.
From S2P Require Import Prelude Mem KvMem Alloc Siphash KvStrings Dict DictBits DictSpec DictProofs DictUpdate DictScan.
From S2P Require Import AllocDict AllocDictProofs KvStore KvStoreProofs KvInit KvRoundtrip KvDemo.

(** The set-up in [main], on the data of the new area. *)
Definition kv_setup (type data : Z) : cmd kv Z :=
  let dict := data in
  let entry := data + REGION_SIZE in
  let key := data + 2 * REGION_SIZE in
  let val := data + 3 * REGION_SIZE in
  initDictWrapper type dict REGION_SIZE entry REGION_SIZE key KEY_SIZE REGION_SIZE val VALUE_SIZE REGION_SIZE.

Definition main_layout (data : Z) : layout :=
  mk_layout data (data + REGION_SIZE) REGION_SIZE (data + 2 * REGION_SIZE) REGION_SIZE KEY_SIZE
    (data + 3 * REGION_SIZE) REGION_SIZE VALUE_SIZE.

(** The table has 2^24 buckets. *)
Lemma main_new_store data m :
  4096 <= data -> aligned 8 data -> (forall a, data <= a < data + REGION_SIZE -> ld m a = 0) ->
  new_store (main_layout data) KEY_SIZE VALUE_SIZE REGION_SIZE 24 m.
Proof.
  intros Hd Ha Hz. unfold REGION_SIZE in *. assert (forall i, aligned 8 i -> aligned 8 (data + i)) as Hal by (intros; align).
  constructor; cbn [main_layout ly_w ly_ea ly_ka ly_va ly_elen ly_klen ly_vlen ly_ksz ly_vsz];
    unfold apart, REGION_SIZE, sizeof_dictWrapper; try (by vm_compute); try lia; try (split; [lia|by apply Hal]).
  - constructor; cbn [main_layout ly_w ly_ea ly_ka ly_va ly_elen ly_klen ly_vlen ly_ksz ly_vsz];
      unfold apart, REGION_SIZE, sizeof_dictWrapper, KEY_SIZE; try lia. done.
Qed.

Lemma main_capacity data :
  n_vals (main_layout data) = 1023999 /\ n_keys (main_layout data) = 4095999 /\ 1023999 <= n_entries (main_layout data).
Proof. by vm_compute. Qed.


Lemma main_demo_str p x : (p, x) ∈ demo_strings -> private_str (main_layout (2 ^ 30)) demo (2 ^ 24) p x.
Proof.
  intros Hp. split; [by apply demo_str|].
  assert (40960 <= p < 41001 /\ (length x <= 3)%nat) as [Hr Hl].
  { unfold demo_strings in Hp. rewrite !elem_of_cons in Hp.
    destruct Hp as [E|[E|[E|[E|[E|[E|[]%not_elem_of_nil]]]]]]; injection E as -> ->; cbn; lia. }
  intros a Hra. destruct (word_of_spec a) as [Hw _].
  unfold ad_word, in_region, main_layout, sizeof_dictWrapper, sizeof_dict, REGION_SIZE. cbn. lia.
Qed.

