(* ===== verification/Cuckoo.v ===== *)
(** * Cuckoo: the hash table in an area (apps/cuckoo-map/cuckoo_map.h)

    A table lies in one piece of memory: the header, the stack of free entry
    indices, the entries, the buckets. A bucket has four slots, each a hash
    value, 0 if the slot is empty, and the index of an entry; a key is in one of
    two buckets, which its hash value determines. Every write is reported to
    the marker [M], for tables in areas [tasvir_log_write].

    [Push] increments [head_] before it stores, so the stack uses the words 1
    to [size_], and the last of them is not a word of the stack but the first
    one of entry 0. [stck_get] and [stck_set] model this overlap.

    [AddEntry] has a loop the code bounds in no way; its definition takes the
    number of iterations as fuel. *)
From stdpp Require Import base gmap list numbers.
From Stdlib Require Import ZArith Lia.
From S2P Require Import Prelude.

(** ** Template parameters *)

(** What the table needs of keys and values: the hash function [H], the
    comparison [E] and [operator!=] of the keys, [Entry()], the first four
    bytes of a key in memory, and the size of an entry. *)
Class CuckooTypes (K V : Type) := {
  hasher : K -> Z;
  equal : K -> K -> bool;
  differ : K -> K -> bool;
  key0 : K;
  value0 : V;
  word0 : K -> Z;
  set_word0 : Z -> K -> K;
  sizeof_Entry : Z;
}.

(** What its theorems assume of them. *)
Class CuckooLaws (K V : Type) `{CuckooTypes K V} := {
  equal_spec (a b : K) : equal a b = true <-> a = b;
  differ_spec (a b : K) : differ a b = true <-> a <> b;
  word0_set (i : Z) (a : K) : 0 <= i < 2 ^ 32 -> word0 (set_word0 i a) = i;
  sizeof_Entry_range : 4 <= sizeof_Entry < 2 ^ 31;
}.

(** ** The table *)

Record TrivialPair (K V : Type) := mk_entry { first : K; second : V }.
Arguments mk_entry {K V}.
Arguments first {K V}.
Arguments second {K V}.
Abbreviation Entry := TrivialPair.

Record Bucket := mk_bucket { hash_values : list Z; entry_indices : list Z }.
#[export] Instance eta_Bucket : Eta Bucket := fun r => mk_bucket (hash_values r) (entry_indices r).

(** The fields of the header and of the stack, pointers as addresses; the
    memory of the stack, the entries and the buckets; the calls of the
    marker, last first. *)
Record CuckooMap (K V : Type) := mk_cuckoo {
  this : Z;
  bucket_mask_ : Z;
  num_entries_ : Z;
  alloc_num_buckets_ : Z;
  alloc_num_entries_ : Z;
  free_entry_indices_ : Z;
  buckets_ : Z;
  entries_ : Z;
  head_ : Z;
  size_ : Z;
  stck_ : Z;
  stack_mem : list Z;
  entry_mem : list (Entry K V);
  bucket_mem : list Bucket;
  marks : list (Z * Z);
}.
Arguments mk_cuckoo {K V}.
Arguments this {K V}.
Arguments bucket_mask_ {K V}.
Arguments num_entries_ {K V}.
Arguments alloc_num_buckets_ {K V}.
Arguments alloc_num_entries_ {K V}.
Arguments free_entry_indices_ {K V}.
Arguments buckets_ {K V}.
Arguments entries_ {K V}.
Arguments head_ {K V}.
Arguments size_ {K V}.
Arguments stck_ {K V}.
Arguments stack_mem {K V}.
Arguments entry_mem {K V}.
Arguments bucket_mem {K V}.
Arguments marks {K V}.
#[export] Instance eta_CuckooMap K V : Eta (CuckooMap K V) := fun r =>
  mk_cuckoo (this r) (bucket_mask_ r) (num_entries_ r) (alloc_num_buckets_ r) (alloc_num_entries_ r)
    (free_entry_indices_ r) (buckets_ r) (entries_ r) (head_ r) (size_ r) (stck_ r)
    (stack_mem r) (entry_mem r) (bucket_mem r) (marks r).

Definition sizeof_CuckooMap : Z := 48.
Definition sizeof_EntryStack : Z := 24.
Definition sizeof_EntryIndex : Z := 4.
Definition sizeof_Bucket : Z := 32.
Definition off_num_entries : Z := 8.

Definition kEntriesPerBucket : Z := 4.
Definition kMaxCuckooPath : nat := 3.
Definition kInvalidEntryIdx : Z := 2 ^ 32 - 1.

Definition Bucket0 : Bucket := mk_bucket [0; 0; 0; 0] [0; 0; 0; 0].

(** ** Hash values *)

Definition HashSecondary (primary : Z) : Z :=
  let tag := Z.shiftr primary 12 in Z.lxor primary (u32 ((tag + 1) * 0x5bd1e995)).

Section cuckoo.
Context {K V : Type} `{CuckooTypes K V}.
#[local] Abbreviation table := (CuckooMap K V).

Definition Hash (key : K) : Z := u32 (Z.lor (hasher key) (Z.shiftl 1 31)).

Definition Eq (lhs rhs : K) : bool := equal lhs rhs.

Definition Entry0 : Entry K V := mk_entry key0 value0.

(** ** Memory *)

(** [M()(address, size)] *)
Definition mark (address size : Z) : cmd table unit := modify (fun s => s <| marks := (address, size) :: marks s |>).

Definition load {A} (l : list A) (i : Z) : cmd table A :=
  match l !! Z.to_nat i with Some x => mret x | None => fail OutOfBounds end.

Definition get_bucket (b : Z) : cmd table Bucket := l ← gets bucket_mem; load l b.

Definition set_bucket (b : Z) (f : Bucket -> Bucket) : cmd table unit :=
  bu ← get_bucket b; modify (fun s => s <| bucket_mem := <[Z.to_nat b := f bu]> (bucket_mem s) |>).

Definition get_entry (idx : Z) : cmd table (Entry K V) := l ← gets entry_mem; load l idx.

Definition set_entry (idx : Z) (e : Entry K V) : cmd table unit :=
  _ ← get_entry idx; modify (fun s => s <| entry_mem := <[Z.to_nat idx := e]> (entry_mem s) |>).

(** [hash_values[i]] and [entry_indices[i]] of bucket [b] *)
Definition hash_value (b i : Z) : cmd table Z := bu ← get_bucket b; load (hash_values bu) i.
Definition entry_index (b i : Z) : cmd table Z := bu ← get_bucket b; load (entry_indices bu) i.

Definition set_hash_value (b i h : Z) : cmd table unit :=
  _ ← hash_value b i; set_bucket b (fun bu => bu <| hash_values := <[Z.to_nat i := h]> (hash_values bu) |>).
Definition set_entry_index (b i idx : Z) : cmd table unit :=
  _ ← entry_index b i; set_bucket b (fun bu => bu <| entry_indices := <[Z.to_nat i := idx]> (entry_indices bu) |>).

(** [stck_[i]]: the word after the last one is the first of entry 0. *)
Definition stck_get (i : Z) : cmd table Z :=
  l ← gets stack_mem;
  if i =? Z.of_nat (length l) then e ← get_entry 0; mret (word0 (first e)) else load l i.

Definition stck_set (i x : Z) : cmd table unit :=
  l ← gets stack_mem;
  if i =? Z.of_nat (length l) then e ← get_entry 0; set_entry 0 (mk_entry (set_word0 x (first e)) (second e))
  else _ ← load l i; modify (fun s => s <| stack_mem := <[Z.to_nat i := x]> l |>).

(** ** The stack of free entries *)

Definition BytesForEntries (entries : Z) : Z := u64 (sizeof_EntryStack + entries * sizeof_EntryIndex).

Definition addr_head (s : table) : Z := free_entry_indices_ s.
Definition addr_stck (s : table) (i : Z) : Z := stck_ s + sizeof_EntryIndex * i.

Definition EntryStack_Create (area area_size entries : Z) : cmd table bool :=
  if area_size <? BytesForEntries entries then mret false
  else
    modify (fun s => s <| head_ := 0 |> <| size_ := entries |> <| stck_ := area + sizeof_EntryStack |>);;
    mark area sizeof_EntryStack;;
    mret true.

Definition PushNoLog (entry : Z) : cmd table bool :=
  s ← getw;
  if size_ s <=? head_ s then mret false
  else
    modify (fun s => s <| head_ := head_ s + 1 |>);;
    stck_set (head_ s + 1) entry;;
    mret true.

Definition Push (entry : Z) : cmd table bool :=
  s ← getw;
  if size_ s <=? head_ s then mret false
  else
    modify (fun s => s <| head_ := head_ s + 1 |>);;
    stck_set (head_ s + 1) entry;;
    mark (addr_stck s (head_ s + 1)) 8;;
    mark (addr_head s) 8;;
    mret true.

Definition InvalidateStack : cmd table unit :=
  s ← getw;
  mark (addr_head s) 8;;
  mark (stck_ s) (size_ s * 8).

Definition Top : cmd table Z := h ← gets head_; stck_get h.

Definition Pop : cmd table bool :=
  s ← getw;
  if head_ s =? 0 then mret false
  else
    modify (fun s => s <| head_ := head_ s - 1 |>);;
    mark (addr_head s) 8;;
    mret true.

Definition Stack_Clear : cmd table unit :=
  s ← getw;
  modify (fun s => s <| head_ := 0 |>);;
  mark (addr_head s) 8.

Definition Empty : cmd table bool := h ← gets head_; mret (h =? 0).

Definition PushFreeEntryIndex (idx : Z) : cmd table unit := _ ← Push idx; mret tt.

Definition PopFreeEntryIndex : cmd table Z :=
  empty ← Empty;
  if (empty : bool) then mret kInvalidEntryIdx
  else idx ← Top; _ ← Pop; mret idx.

(** ** Creation *)

Definition Size (entries buckets : Z) : Z :=
  u64 (sizeof_CuckooMap + BytesForEntries entries + sizeof_Entry * entries + sizeof_Bucket * buckets).

(** [memset] of [n] elements to zero *)
Definition memset0 {A} (zero : A) (n : Z) (l : list A) : cmd table (list A) :=
  if n <=? Z.of_nat (length l) then mret (replicate (Z.to_nat n) zero ++ drop (Z.to_nat n) l) else fail OutOfBounds.

Definition Clear : cmd table unit :=
  Stack_Clear;;
  s ← getw;
  bs ← memset0 Bucket0 (alloc_num_buckets_ s) (bucket_mem s);
  modify (fun s => s <| bucket_mem := bs |>);;
  es ← memset0 Entry0 (alloc_num_entries_ s) (entry_mem s);
  modify (fun s => s <| entry_mem := es |> <| num_entries_ := 0 |> <| bucket_mask_ := u32 (alloc_num_buckets_ s - 1) |>);;
  for_each (rev (seqZ 0 (alloc_num_entries_ s))) (fun i => _ ← PushNoLog i; mret tt);;
  InvalidateStack;;
  mark (this s) (Size (alloc_num_entries_ s) (alloc_num_buckets_ s)).

(** [Create]: false for [nullptr]. The memory of the three arrays is what the
    area holds at their places. *)
Definition Create (area area_size entries buckets : Z) : cmd table bool :=
  if area_size <? Size entries buckets then mret false
  else if (buckets =? 0) || (entries =? 0) || negb (Z.land buckets (buckets - 1) =? 0) || (entries <? buckets)
  then mret false
  else
    let estack := area + sizeof_CuckooMap in
    ok ← EntryStack_Create estack (area_size - sizeof_CuckooMap) entries;
    if negb ok then mret false
    else
      let entry_array := estack + BytesForEntries entries in
      modify (fun s =>
        s <| this := area |> <| free_entry_indices_ := estack |> <| entries_ := entry_array |>
          <| buckets_ := entry_array + sizeof_Entry * entries |>
          <| alloc_num_buckets_ := i32 buckets |> <| alloc_num_entries_ := i32 entries |>
          <| num_entries_ := 0 |> <| bucket_mask_ := u32 (buckets - 1) |>);;
      Clear;;
      mret true.

Definition Count : cmd table Z := gets num_entries_.

(** ** Buckets *)

(** The first [i] of the list with [f i], -1 if there is none. *)
Fixpoint find_slot (f : Z -> cmd table bool) (slots : list Z) : cmd table Z :=
  match slots with
  | [] => mret (-1)
  | i :: slots' => b ← f i; if (b : bool) then mret i else find_slot f slots'
  end.

Definition FindEmptySlot (b : Z) : cmd table Z :=
  find_slot (fun i => h ← hash_value b i; mret (h =? 0)) (seqZ 0 kEntriesPerBucket).

Definition FindSlot (b primary : Z) (key : K) : cmd table Z :=
  find_slot (fun i =>
    h ← hash_value b i;
    if h =? primary then idx ← entry_index b i; entry ← get_entry idx; mret (Eq (first entry) key)
    else mret false) (seqZ 0 kEntriesPerBucket).

Definition GetFromBucket (primary b : Z) (key : K) : cmd table Z :=
  slot_idx ← FindSlot b primary key;
  if slot_idx =? -1 then mret kInvalidEntryIdx else entry_index b slot_idx.

Definition addr_bucket (s : table) (b : Z) : Z := buckets_ s + sizeof_Bucket * b.
Definition addr_entry (s : table) (idx : Z) : Z := entries_ s + sizeof_Entry * idx.

(** [nullptr] is [None], [&entries_[idx]] is [Some idx]. *)
Definition AddToBucket (b : Z) (key : K) (value : V) : cmd table (option Z) :=
  slot_idx ← FindEmptySlot b;
  if slot_idx =? -1 then mret None
  else
    free_idx ← PopFreeEntryIndex;
    if free_idx =? kInvalidEntryIdx then mret None
    else
      set_hash_value b slot_idx (Hash key);;
      set_entry_index b slot_idx free_idx;;
      s ← getw;
      mark (addr_bucket s b) sizeof_Bucket;;
      set_entry free_idx (mk_entry key value);;
      mark (addr_entry s free_idx) sizeof_Entry;;
      modify (fun s => s <| num_entries_ := u64 (num_entries_ s + 1) |>);;
      mret (Some free_idx).

Definition RemoveFromBucket (primary b : Z) (key : K) : cmd table bool :=
  slot_idx ← FindSlot b primary key;
  if slot_idx =? -1 then mret false
  else
    set_hash_value b slot_idx 0;;
    s ← getw;
    mark (buckets_ s) sizeof_Bucket;;
    idx ← entry_index b slot_idx;
    set_entry idx Entry0;;
    mark (addr_entry s idx) sizeof_Entry;;
    mark (this s + off_num_entries) 8;;
    PushFreeEntryIndex idx;;
    modify (fun s => s <| num_entries_ := u64 (num_entries_ s - 1) |>);;
    mret true.

(** [MakeSpace] moves slot [i] of bucket [index] to the empty slot [j] of
    [alt_index]. *)
Definition move_slot (index i alt_index j : Z) : cmd table Z :=
  h ← hash_value index i;
  set_hash_value alt_index j h;;
  idx ← entry_index index i;
  set_entry_index alt_index j idx;;
  set_hash_value index i 0;;
  s ← getw;
  mark (addr_bucket s alt_index) sizeof_Bucket;;
  mark (addr_bucket s index) sizeof_Bucket;;
  mret i.

(** The loop of [MakeSpace] over the slots of bucket [index], with the
    recursive call as a parameter. *)
Fixpoint make_space_slots (make_space : Z -> cmd table Z) (index : Z) (slots : list Z) : cmd table Z :=
  match slots with
  | [] => mret (-1)
  | i :: slots' =>
      idx ← entry_index index i;
      entry ← get_entry idx;
      mask ← gets bucket_mask_;
      h ← hash_value index i;
      let pri := Hash (first entry) in
      let sec := HashSecondary pri in
      if negb (pri =? h) && negb (sec =? h) then mret (-1)
      else
        let alt_index := if pri =? h then Z.land sec mask else Z.land pri mask in
        j ← FindEmptySlot alt_index;
        j ← (if j =? -1 then make_space alt_index else mret j);
        if 0 <=? j then
          move_slot index i alt_index j
        else make_space_slots make_space index slots'
  end.

(** [MakeSpace(index, kMaxCuckooPath - left)] *)
Fixpoint MakeSpace (left : nat) (index : Z) : cmd table Z :=
  match left with
  | O => mret (-1)
  | S left' => _ ← get_bucket index; make_space_slots (MakeSpace left') index (seqZ 0 kEntriesPerBucket)
  end.

(** Each [goto again] takes one unit of fuel. *)
Fixpoint AddEntry (fuel : nat) (primary secondary : Z) (key : K) (value : V) : cmd table (option Z) :=
  match fuel with
  | O => fail NoFuel
  | S fuel' =>
      mask ← gets bucket_mask_;
      let primary_bucket_index := Z.land primary mask in
      entry ← AddToBucket primary_bucket_index key value;
      match entry with
      | Some idx => mret (Some idx)
      | None =>
          let secondary_bucket_index := Z.land secondary mask in
          entry ← AddToBucket secondary_bucket_index key value;
          match entry with
          | Some idx => mret (Some idx)
          | None =>
              r ← MakeSpace kMaxCuckooPath primary_bucket_index;
              if 0 <=? r then AddEntry fuel' primary secondary key value
              else
                r ← MakeSpace kMaxCuckooPath secondary_bucket_index;
                if 0 <=? r then AddEntry fuel' primary secondary key value
                else mret None
          end
      end
  end.

(** ** Operations *)

Definition FindWithHash (primary : Z) (key : K) : cmd table Z :=
  mask ← gets bucket_mask_;
  ret ← GetFromBucket primary (Z.land primary mask) key;
  if negb (ret =? kInvalidEntryIdx) then mret ret
  else GetFromBucket primary (Z.land (HashSecondary primary) mask) key.

Definition Insert (fuel : nat) (key : K) (value : V) : cmd table (option Z) :=
  let primary := Hash key in
  idx ← FindWithHash primary key;
  if negb (idx =? kInvalidEntryIdx) then
    entry ← get_entry idx;
    if differ (first entry) key then fail Abort
    else
      set_entry idx (mk_entry (first entry) value);;
      s ← getw;
      mark (addr_entry s idx) sizeof_Entry;;
      mret (Some idx)
  else AddEntry fuel primary (HashSecondary primary) key value.

Definition Find (key : K) : cmd table (option Z) :=
  idx ← FindWithHash (Hash key) key;
  if idx =? kInvalidEntryIdx then mret None else mret (Some idx).

Definition Remove (key : K) : cmd table bool :=
  let pri := Hash key in
  mask ← gets bucket_mask_;
  r ← RemoveFromBucket pri (Z.land pri mask) key;
  if (r : bool) then mret true
  else
    r ← RemoveFromBucket pri (Z.land (HashSecondary pri) mask) key;
    if (r : bool) then mret true else mret false.

(** ** Iterators *)

Record iterator := mk_iterator { bucket_idx_ : Z; slot_idx_ : Z }.

Definition advance (it : iterator) : iterator :=
  let slot := slot_idx_ it + 1 in
  if slot =? kEntriesPerBucket then mk_iterator (bucket_idx_ it + 1) 0 else mk_iterator (bucket_idx_ it) slot.

(** Advance while the iterator is inside the table and at an empty slot. *)
Fixpoint skip_empty (fuel : nat) (it : iterator) : cmd table iterator :=
  match fuel with
  | O => fail NoFuel
  | S fuel' =>
      n ← gets alloc_num_buckets_;
      if bucket_idx_ it <? n then
        h ← hash_value (bucket_idx_ it) (slot_idx_ it);
        if h =? 0 then skip_empty fuel' (advance it) else mret it
      else mret it
  end.

Definition iterator_at (fuel : nat) (bucket slot : Z) : cmd table iterator := skip_empty fuel (mk_iterator bucket slot).
Definition iterator_next (fuel : nat) (it : iterator) : cmd table iterator := skip_empty fuel (advance it).
(** The postfix operator: the old iterator and the advanced one. *)
Definition iterator_next_post (fuel : nat) (it : iterator) : cmd table (iterator * iterator) :=
  it' ← iterator_next fuel it; mret (it, it').
Definition iterator_eq (a b : iterator) : bool := (bucket_idx_ a =? bucket_idx_ b) && (slot_idx_ a =? slot_idx_ b).
Definition iterator_deref (it : iterator) : cmd table Z := entry_index (bucket_idx_ it) (slot_idx_ it).
Definition begin (fuel : nat) : cmd table iterator := iterator_at fuel 0 0.
Definition end_ (fuel : nat) : cmd table iterator := n ← gets alloc_num_buckets_; iterator_at fuel n 0.

(** [for (auto& e : map)]: the entries the range-based loop visits. *)
Fixpoint iterate (fuel : nat) (it last : iterator) : cmd table (list (Entry K V)) :=
  match fuel with
  | O => fail NoFuel
  | S fuel' =>
      if iterator_eq it last then mret []
      else
        idx ← iterator_deref it;
        e ← get_entry idx;
        it' ← iterator_next fuel it;
        es ← iterate fuel' it' last;
        mret (e :: es)
  end.

Definition range_for (fuel : nat) : cmd table (list (Entry K V)) :=
  it ← begin fuel; last ← end_ fuel; iterate fuel it last.

End cuckoo.
