(* ===== verification/CuckooSlots.v ===== *)
(** * CuckooSlots: the slots of the table and what they stand for

    The buckets of a table as a function from bucket and slot to hash value
    and entry index, the effect of the bucket accesses on it, and the relation
    [slots_rep] between slots and the map from keys to entry indices. *)
From stdpp Require Import base gmap list numbers.
From Stdlib Require Import ZArith Lia.
From S2P Require Import Prelude Cuckoo.

(** ** Slots *)

Definition slots : Type := Z -> Z -> Z * Z.

Definition upd (S : slots) (b i : Z) (v : Z * Z) : slots := fun b' i' => if (b' =? b) && (i' =? i) then v else S b' i'.

(** Lists of length four. *)
Record bucket_view (bu : Bucket) (f : Z -> Z * Z) : Prop := {
  bv_hash_len : length (hash_values bu) = 4%nat;
  bv_idx_len : length (entry_indices bu) = 4%nat;
  bv_hash i : 0 <= i < 4 -> hash_values bu !! Z.to_nat i = Some (fst (f i));
  bv_idx i : 0 <= i < 4 -> entry_indices bu !! Z.to_nat i = Some (snd (f i));
}.

Definition sees (bs : list Bucket) (nb : Z) (S : slots) : Prop :=
  Z.of_nat (length bs) = nb
  /\ forall b, 0 <= b < nb -> exists bu, bs !! Z.to_nat b = Some bu /\ bucket_view bu (S b).

Lemma upd_eq S b i v : upd S b i v b i = v.
Proof. unfold upd. by rewrite !Z.eqb_refl. Qed.

Lemma upd_ne S b i v b' i' : ~ (b' = b /\ i' = i) -> upd S b i v b' i' = S b' i'.
Proof. intros Hne. unfold upd. destruct (Z.eqb_spec b' b), (Z.eqb_spec i' i); simpl; try done. lia. Qed.

(** Case analysis on a cell of an updated table. *)
Lemma upd_cases S b i v b' i' :
  (b' = b /\ i' = i /\ upd S b i v b' i' = v) \/ (~ (b' = b /\ i' = i) /\ upd S b i v b' i' = S b' i').
Proof.
  destruct (Z.eq_dec b' b) as [->|Hb]; [destruct (Z.eq_dec i' i) as [->|Hi]|].
  - left. by rewrite upd_eq.
  - right. split; [lia|]. apply upd_ne. lia.
  - right. split; [lia|]. apply upd_ne. lia.
Qed.

Lemma list_lookup_insert_Z {A} (l : list A) i i' x y :
  0 <= i < Z.of_nat (length l) -> 0 <= i' -> (i' <> i -> l !! Z.to_nat i' = Some y) ->
  <[Z.to_nat i := x]> l !! Z.to_nat i' = Some (if i' =? i then x else y).
Proof.
  intros Hi Hi' Hy. destruct (Z.eqb_spec i' i) as [->|Hne].
  - apply list_lookup_insert_eq. lia.
  - rewrite list_lookup_insert_ne by lia. auto.
Qed.

Lemma sees_same_bucket bs bs' nb S S' b :
  sees bs nb S -> sees bs' nb S' -> 0 <= b < nb -> (forall i, 0 <= i < 4 -> S' b i = S b i) ->
  bs' !! Z.to_nat b = bs !! Z.to_nat b.
Proof.
  intros [_ Hs] [_ Hs'] Hb Heq.
  destruct (Hs b Hb) as (bu & -> & [H1 H2 H3 H4]), (Hs' b Hb) as (bu' & -> & [H1' H2' H3' H4']).
  f_equal. destruct bu as [hs xs], bu' as [hs' xs']; cbn in *. f_equal; apply list_eq; intros k.
  - destruct (decide (k < 4)%nat) as [Hk|Hk]; [|by rewrite !lookup_ge_None_2 by lia].
    replace k with (Z.to_nat (Z.of_nat k)) by lia. rewrite H3, H3', Heq by lia. done.
  - destruct (decide (k < 4)%nat) as [Hk|Hk]; [|by rewrite !lookup_ge_None_2 by lia].
    replace k with (Z.to_nat (Z.of_nat k)) by lia. rewrite H4, H4', Heq by lia. done.
Qed.

(** Replacing the bucket [b] by one that shows [f]. *)
Lemma sees_insert bs nb S b f bu' :
  sees bs nb S -> 0 <= b < nb -> bucket_view bu' f ->
  sees (<[Z.to_nat b := bu']> bs) nb (fun b' => if b' =? b then f else S b').
Proof.
  intros [Hl Hs] Hb Hv. split; [by rewrite length_insert|]. intros b' Hb'.
  destruct (Z.eqb_spec b' b) as [->|Hne].
  - exists bu'. split; [|done]. apply list_lookup_insert_eq. lia.
  - rewrite list_lookup_insert_ne by lia. auto.
Qed.

Lemma sees_ext bs nb S S' : sees bs nb S -> (forall b i, 0 <= b < nb -> 0 <= i < 4 -> S' b i = S b i) -> sees bs nb S'.
Proof.
  intros [Hl Hs] Heq. split; [done|]. intros b Hb. destruct (Hs b Hb) as (bu & E & [H1 H2 H3 H4]).
  exists bu. split; [done|]. constructor; try done; intros i Hi; rewrite Heq by done; auto.
Qed.

Section access.
Context {K V : Type} `{CuckooTypes K V}.
Implicit Types s : CuckooMap K V.

Lemma runs_mark a l s : runs (mark a l) s tt (s <| marks := (a, l) :: marks s |>).
Proof. reflexivity. Qed.

Section view.
Context (s : CuckooMap K V) (nb : Z) (S : slots) (Hs : sees (bucket_mem s) nb S).
Context (b i : Z) (Hb : 0 <= b < nb) (Hi : 0 <= i < 4).

Lemma get_bucket_runs : exists bu, runs (get_bucket b) s bu s /\ bucket_view bu (S b).
Proof.
  destruct Hs as [_ H0]. destruct (H0 b Hb) as (bu & E & Hv). exists bu. split; [|done].
  unfold get_bucket, load, runs, mbind, cmd_bind, gets. cbn. by rewrite E.
Qed.

Lemma hash_value_runs : runs (hash_value b i) s (fst (S b i)) s.
Proof.
  destruct get_bucket_runs as (bu & R & Hv). unfold hash_value, runs. rewrite (bind_runs _ _ _ _ _ R).
  unfold load. by rewrite (bv_hash _ _ Hv).
Qed.

Lemma entry_index_runs : runs (entry_index b i) s (snd (S b i)) s.
Proof.
  destruct get_bucket_runs as (bu & R & Hv). unfold entry_index, runs. rewrite (bind_runs _ _ _ _ _ R).
  unfold load. by rewrite (bv_idx _ _ Hv).
Qed.

Lemma set_hash_value_runs h :
  exists bs, runs (set_hash_value b i h) s tt (s <| bucket_mem := bs |>) /\ sees bs nb (upd S b i (h, snd (S b i))).
Proof.
  destruct get_bucket_runs as (bu & R & [H1 H2 H3 H4]).
  exists (<[Z.to_nat b := mk_bucket (<[Z.to_nat i := h]> (hash_values bu)) (entry_indices bu)]> (bucket_mem s)). split.
  - unfold set_hash_value, runs. rewrite (bind_runs _ _ _ _ _ hash_value_runs). unfold set_bucket.
    rewrite (bind_runs _ _ _ _ _ R). reflexivity.
  - eapply sees_ext; [eapply (sees_insert _ _ _ _ (fun i' => if i' =? i then (h, snd (S b i)) else S b i')); try done|].
    + constructor; cbn; try done; [by rewrite length_insert|intros i' Hi'|intros i' Hi'].
      * rewrite (list_lookup_insert_Z _ _ _ _ (fst (S b i'))) by (try lia; auto). by destruct (Z.eqb_spec i' i).
      * rewrite H4 by done. by destruct (Z.eqb_spec i' i) as [->|].
    + intros b' i' _ _. unfold upd. destruct (Z.eqb_spec b' b) as [->|]; [|done]. simpl. by destruct (i' =? i).
Qed.

Lemma set_entry_index_runs x :
  exists bs, runs (set_entry_index b i x) s tt (s <| bucket_mem := bs |>) /\ sees bs nb (upd S b i (fst (S b i), x)).
Proof.
  destruct get_bucket_runs as (bu & R & [H1 H2 H3 H4]).
  exists (<[Z.to_nat b := mk_bucket (hash_values bu) (<[Z.to_nat i := x]> (entry_indices bu))]> (bucket_mem s)). split.
  - unfold set_entry_index, runs. rewrite (bind_runs _ _ _ _ _ entry_index_runs). unfold set_bucket.
    rewrite (bind_runs _ _ _ _ _ R). reflexivity.
  - eapply sees_ext; [eapply (sees_insert _ _ _ _ (fun i' => if i' =? i then (fst (S b i), x) else S b i')); try done|].
    + constructor; cbn; try done; [by rewrite length_insert|intros i' Hi'|intros i' Hi'].
      * rewrite H3 by done. by destruct (Z.eqb_spec i' i) as [->|].
      * rewrite (list_lookup_insert_Z _ _ _ _ (snd (S b i'))) by (try lia; auto). by destruct (Z.eqb_spec i' i).
    + intros b' i' _ _. unfold upd. destruct (Z.eqb_spec b' b) as [->|]; [|done]. simpl. by destruct (i' =? i).
Qed.
End view.

(** ** Searching a bucket *)

(** [find_slot] with a test that only reads returns the first slot that
    passes. *)
Lemma find_slot_runs (f : Z -> cmd (CuckooMap K V) bool) (g : Z -> bool) s a n :
  0 <= a -> 0 <= n -> (forall i, a <= i < a + n -> runs (f i) s (g i) s) ->
  exists j, runs (find_slot f (seqZ a n)) s j s
    /\ ((j = -1 /\ forall i, a <= i < a + n -> g i = false)
        \/ (a <= j < a + n /\ g j = true /\ forall i, a <= i < j -> g i = false)).
Proof.
  intros Ha Hn. revert a Ha. apply (natlike_ind (fun n => forall a, 0 <= a -> (forall i, a <= i < a + n -> runs (f i) s (g i) s) ->
    exists j, runs (find_slot f (seqZ a n)) s j s /\ ((j = -1 /\ forall i, a <= i < a + n -> g i = false)
        \/ (a <= j < a + n /\ g j = true /\ forall i, a <= i < j -> g i = false)))); [..|done]; clear n Hn.
  - intros a Ha _. exists (-1). split; [done|]. left. split; [done|]. lia.
  - intros n Hn IH a Ha Hf. rewrite seqZ_cons by lia. cbn [find_slot].
    destruct (g a) eqn:Eg; pose proof (Hf a ltac:(lia)) as R; rewrite Eg in R.
    + exists a. split; [unfold runs; by rewrite (bind_runs _ _ _ _ _ R)|]. right. split; [lia|]. split; [done|lia].
    + destruct (IH (Z.succ a) ltac:(lia)) as (j & Rj & Hj).
      { intros i Hi. apply Hf. lia. }
      exists j. split.
      { unfold runs. rewrite (bind_runs _ _ _ _ _ R). by replace (Z.pred (Z.succ n)) with n by lia. }
      assert (forall i, a <= i -> i <> a -> Z.succ a <= i) as Hgt by lia.
      destruct Hj as [[-> Hj]|(Hr & Hg & Hj)]; [left|right].
      * split; [done|]. intros i Hi. destruct (Z.eq_dec i a) as [->|]; [done|]. apply Hj. lia.
      * split; [lia|]. split; [done|]. intros i Hi. destruct (Z.eq_dec i a) as [->|]; [done|]. apply Hj. lia.
Qed.

(** The slot [FindEmptySlot] returns. *)
Definition empty_slot (S : slots) (b j : Z) : Prop :=
  (j = -1 /\ forall i, 0 <= i < 4 -> fst (S b i) <> 0)
  \/ (0 <= j < 4 /\ fst (S b j) = 0 /\ forall i, 0 <= i < j -> fst (S b i) <> 0).

Lemma FindEmptySlot_runs s nb S b :
  sees (bucket_mem s) nb S -> 0 <= b < nb -> exists j, runs (FindEmptySlot b) s j s /\ empty_slot S b j.
Proof.
  intros Hs Hb.
  destruct (find_slot_runs (fun i => h ← hash_value b i; mret (h =? 0)) (fun i => fst (S b i) =? 0) s 0 kEntriesPerBucket)
    as (j & R & Hj); try done.
  { intros i Hi. unfold runs. by rewrite (bind_runs _ _ _ _ _ (hash_value_runs _ _ _ Hs b i Hb Hi)). }
  exists j. split; [exact R|]. destruct Hj as [[-> Hj]|(Hr & Hg & Hj)]; [left|right].
  - split; [done|]. intros i Hi. by apply Z.eqb_neq, Hj.
  - split; [exact Hr|]. split; [by apply Z.eqb_eq|]. intros i Hi. by apply Z.eqb_neq, Hj.
Qed.

End access.

(** ** The map the slots stand for *)

Lemma HashSecondary_range h : 0 <= h < 2 ^ 32 -> 0 <= HashSecondary h < 2 ^ 32.
Proof.
  intros Hh. unfold HashSecondary. pose proof (u32_range ((Z.shiftr h 12 + 1) * 0x5bd1e995)) as Hr.
  revert Hr. generalize (u32 ((Z.shiftr h 12 + 1) * 0x5bd1e995)). intros z Hz.
  assert (Z.lxor h z = wrap 32 (Z.lxor h z)) as ->; [|apply wrap_range; lia].
  apply Z.bits_inj'. intros i Hi. rewrite testbit_wrap by lia. destruct (Z.ltb_spec i 32); simpl; [done|].
  rewrite Z.lxor_spec, <- (wrap_small 32 h), <- (wrap_small 32 z), !testbit_wrap by lia.
  destruct (Z.ltb_spec i 32); [lia|done].
Qed.

Definition pow2 (nb : Z) : Prop := exists k, 0 <= k <= 30 /\ nb = 2 ^ k.

Lemma pow2_pos nb : pow2 nb -> 0 < nb.
Proof. intros (k & Hk & ->). apply Z.pow_pos_nonneg; lia. Qed.

Lemma mask_range nb h : pow2 nb -> 0 <= Z.land h (nb - 1) < nb.
Proof.
  intros (k & Hk & ->). replace (2 ^ k - 1) with (Z.ones k) by (rewrite Z.ones_equiv; lia).
  rewrite Z.land_ones by lia. apply Z.mod_pos_bound. apply Z.pow_pos_nonneg; lia.
Qed.

Definition cell (nb b i : Z) : Prop := 0 <= b < nb /\ 0 <= i < 4.
Definition full (S : slots) (b : Z) : Prop := forall i, 0 <= i < 4 -> fst (S b i) <> 0.

(** The bucket an entry with hash value [h] moves to. *)
Definition alt (nb h : Z) : Z := Z.land (HashSecondary h) (nb - 1).

Section rep.
Context {K V : Type} `{Countable K, CuckooTypes K V}.

Lemma Hash_range (k : K) : 2 ^ 31 <= Hash k < 2 ^ 32.
Proof.
  unfold Hash. pose proof (u32_range (Z.lor (hasher k) (Z.shiftl 1 31))) as Hr. split; [|lia].
  destruct (Z.le_gt_cases (2 ^ 31) (u32 (Z.lor (hasher k) (Z.shiftl 1 31)))) as [?|Hlt]; [done|exfalso].
  assert (Z.testbit (u32 (Z.lor (hasher k) (Z.shiftl 1 31))) 31 = true) as Hb.
  { unfold u32. rewrite testbit_wrap, Z.lor_spec by lia. by rewrite orb_true_r. }
  rewrite <- (wrap_small 31 (u32 _)), testbit_wrap in Hb by lia. done.
Qed.

Lemma Hash_nonzero (k : K) : Hash k <> 0.
Proof. pose proof (Hash_range k). lia. Qed.

Definition place (nb : Z) (k : K) (b : Z) : Prop := b = Z.land (Hash k) (nb - 1) \/ b = alt nb (Hash k).

(** The slots in use hold the keys of [P] with their entry indices, each once
    and in one of its two buckets. *)
Record slots_rep (nb : Z) (S : slots) (P : gmap K Z) : Prop := {
  sr_live b i : cell nb b i -> fst (S b i) <> 0 ->
    exists k, P !! k = Some (snd (S b i)) /\ fst (S b i) = Hash k /\ place nb k b;
  sr_key k x : P !! k = Some x -> exists b i, cell nb b i /\ S b i = (Hash k, x);
  sr_unique b i b' i' : cell nb b i -> cell nb b' i' -> fst (S b i) <> 0 -> fst (S b' i') <> 0 ->
    snd (S b' i') = snd (S b i) -> b' = b /\ i' = i;
}.

(** Moving the contents of a slot to an empty one. *)
Definition move (S : slots) (b i a j : Z) : slots := upd (upd S a j (S b i)) b i (0, snd (S b i)).

Lemma move_cases S b i a j b' i' :
  fst (S a j) = 0 ->
  (b' = b /\ i' = i /\ fst (move S b i a j b' i') = 0)
  \/ (~ (b' = b /\ i' = i) /\ b' = a /\ i' = j /\ move S b i a j b' i' = S b i)
  \/ (~ (b' = b /\ i' = i) /\ ~ (b' = a /\ i' = j) /\ move S b i a j b' i' = S b' i').
Proof.
  intros _. unfold move. destruct (upd_cases (upd S a j (S b i)) b i (0, snd (S b i)) b' i') as [(-> & -> & ->)|[Hne ->]]; [by left|].
  right. destruct (upd_cases S a j (S b i) b' i') as [(-> & -> & ->)|[Hne' ->]]; auto.
Qed.

Lemma move_rep nb S P b i a j :
  slots_rep nb S P -> cell nb b i -> cell nb a j -> fst (S a j) = 0 ->
  (fst (S b i) <> 0 -> a = alt nb (fst (S b i))) -> slots_rep nb (move S b i a j) P.
Proof.
  intros [Hl Hk Hu] Hbi Haj He Ha. constructor.
  - intros b' i' Hc. destruct (move_cases S b i a j b' i' He) as [(-> & -> & E)|[(_ & -> & -> & ->)|(_ & _ & ->)]]; [done| |by apply Hl].
    intros Hne. destruct (Hl b i Hbi Hne) as (k & HP & Hh & _). exists k. split; [done|]. split; [done|].
    right. rewrite <- Hh. auto.
  - intros k x HP. destruct (Hk k x HP) as (b' & i' & Hc & E).
    assert (fst (S b' i') <> 0) as Hne by (rewrite E; apply Hash_nonzero).
    destruct (move_cases S b i a j b' i' He) as [(-> & -> & _)|[(_ & -> & -> & _)|(_ & _ & E')]].
    + exists a, j. split; [done|].
      destruct (move_cases S b i a j a j He) as [(-> & -> & _)|[(_ & _ & _ & ->)|(_ & Hn & _)]]; [done|done|]. destruct Hn. auto.
    + done.
    + exists b', i'. split; [done|]. by rewrite E'.
  - intros b1 i1 b2 i2 Hc1 Hc2.
    destruct (move_cases S b i a j b1 i1 He) as [(-> & -> & ->)|[(Hn1 & -> & -> & ->)|(Hn1 & Hm1 & ->)]]; [done|..];
      destruct (move_cases S b i a j b2 i2 He) as [(-> & -> & ->)|[(Hn2 & -> & -> & ->)|(Hn2 & Hm2 & ->)]]; intros Hf1 Hf2 E; try done.
    + destruct (Hu b i b2 i2); auto. destruct Hn2. auto.
    + destruct (Hu b i b1 i1); auto. destruct Hn1. auto.
    + by apply Hu.
Qed.

End rep.

(** ** A measure *)

(** A slot in use weighs more if its entry can still move to its second
    bucket, and the lower it is in its bucket. *)
Definition weight (nb b i : Z) (v : Z * Z) : Z :=
  if fst v =? 0 then 0 else (if b =? alt nb (fst v) then 0 else 10) + (3 - i).

Definition cells (nb : Z) : list (Z * Z) := b ← seqZ 0 nb; i ← seqZ 0 4; [(b, i)].

Definition cell_weight (nb : Z) (S : slots) (c : Z * Z) : Z := weight nb (fst c) (snd c) (S (fst c) (snd c)).
Definition total (nb : Z) (S : slots) : Z := sum_of (cell_weight nb S) (cells nb).

Lemma cells_spec nb b i : (b, i) ∈ cells nb <-> cell nb b i.
Proof.
  unfold cells, cell. rewrite list_elem_of_bind. setoid_rewrite list_elem_of_bind. setoid_rewrite elem_of_seqZ.
  setoid_rewrite list_elem_of_singleton. split.
  - intros (b' & (i' & [= -> ->] & ?) & ?). lia.
  - intros [Hb Hi]. exists b. split; [|lia]. exists i. split; [done|lia].
Qed.

Lemma cells_nodup nb : NoDup (cells nb).
Proof.
  unfold cells. apply NoDup_bind.
  - intros b1 b2 [x y] _ _ H1 H2. rewrite list_elem_of_bind in H1, H2. destruct H1 as (i1 & H1 & _), H2 as (i2 & H2 & _).
    rewrite list_elem_of_singleton in H1, H2. congruence.
  - intros b _. apply NoDup_bind; [|intros; apply NoDup_singleton|apply NoDup_seqZ].
    intros i1 i2 [x y] _ _ H1 H2. rewrite list_elem_of_singleton in H1, H2. congruence.
  - apply NoDup_seqZ.
Qed.

Lemma total_upd nb S b i v :
  cell nb b i -> total nb (upd S b i v) = total nb S - weight nb b i (S b i) + weight nb b i v.
Proof.
  intros Hc. unfold total.
  rewrite (sum_of_upd (cell_weight nb S) (cell_weight nb (upd S b i v)) (cells nb) (b, i)).
  - unfold cell_weight. cbn [fst snd]. by rewrite upd_eq.
  - apply cells_nodup.
  - by apply cells_spec.
  - intros [b' i'] _ Hne. unfold cell_weight. cbn [fst snd]. rewrite upd_ne; [done|]. intros [-> ->]. done.
Qed.

Lemma total_move nb S b i a j :
  cell nb b i -> cell nb a j -> fst (S a j) = 0 ->
  total nb (move S b i a j) = total nb S - weight nb b i (S b i) + weight nb a j (S b i).
Proof.
  intros Hb Ha He. unfold move. rewrite total_upd, total_upd by done.
  assert (weight nb b i (0, snd (S b i)) = 0) as -> by done.
  assert (weight nb a j (S a j) = 0) as -> by (unfold weight; by rewrite He).
  destruct (upd_cases S a j (S b i) b i) as [(-> & -> & ->)|[_ ->]]; lia.
Qed.

Lemma weight_range nb b i v : 0 <= i < 4 -> 0 <= weight nb b i v <= 13.
Proof. intros Hi. unfold weight. destruct (fst v =? 0); [lia|]. destruct (b =? _); lia. Qed.

Lemma weight_alt nb i v : 0 <= i < 4 -> weight nb (alt nb (fst v)) i v <= 3 - i.
Proof. intros Hi. unfold weight. destruct (fst v =? 0); [lia|]. rewrite Z.eqb_refl. lia. Qed.

Lemma weight_away nb b i v : fst v <> 0 -> b <> alt nb (fst v) -> weight nb b i v = 13 - i.
Proof. intros Hv Hb. unfold weight. destruct (Z.eqb_spec (fst v) 0); [done|]. destruct (Z.eqb_spec b (alt nb (fst v))); [done|]. lia. Qed.

Lemma cells_length nb : 0 <= nb -> Z.of_nat (length (cells nb)) = 4 * nb.
Proof.
  intros Hnb. unfold cells. assert (forall l : list Z, length (b ← l; i ← seqZ 0 4; [(b, i)]) = 4 * length l)%nat as Hl.
  { induction l as [|x l IH]; [done|]. rewrite bind_cons, length_app, IH.
    change (length (i ← seqZ 0 4; [(x, i)])) with 4%nat. cbn [length]. lia. }
  rewrite Hl, length_seqZ. lia.
Qed.

Lemma total_range nb S : 0 <= nb -> 0 <= total nb S <= 13 * (4 * nb).
Proof.
  intros Hnb. unfold total. rewrite <- (cells_length nb Hnb). apply sum_of_range.
  intros [b i] [_ Hi]%cells_spec. by apply weight_range.
Qed.
