(* ===== verification/CuckooSpace.v ===== *)
(** * CuckooSpace: making space in a bucket

    [MakeSpace] moves entries to their second bucket, along a path of at most
    [kMaxCuckooPath] buckets, which may pass through one bucket twice. It
    keeps what the slots stand for, reports the buckets it changes and, if it
    returns a slot, leaves that slot empty and the measure [total] smaller. *)
From stdpp Require Import base gmap list numbers.
From Stdlib Require Import ZArith Lia.
From S2P Require Import Prelude Cuckoo CuckooSlots.

Section space.
Context {K V : Type} `{Countable K, CuckooTypes K V}.
Context (nb : Z) (Hnb : pow2 nb).
Implicit Types s : CuckooMap K V.

(** A state with other buckets and [ms] as new calls of the marker. *)
Definition put s (bs : list Bucket) (ms : list (Z * Z)) : CuckooMap K V :=
  s <| bucket_mem := bs |> <| marks := ms ++ marks s |>.

Lemma put_put s bs ms bs' ms' : put (put s bs ms) bs' ms' = put s bs' (ms' ++ ms).
Proof. unfold put. cbn. by rewrite app_assoc. Qed.

Lemma move_slot_runs s S index i a j :
  sees (bucket_mem s) nb S -> cell nb index i -> cell nb a j ->
  exists bs, runs (move_slot index i a j) s i (put s bs [(addr_bucket s index, sizeof_Bucket); (addr_bucket s a, sizeof_Bucket)])
    /\ sees bs nb (move S index i a j).
Proof.
  intros Hs [Hx Hi] [Ha Hj].
  destruct (set_hash_value_runs s nb S Hs a j Ha Hj (fst (S index i))) as (bs1 & R1 & V1).
  set (s1 := s <| bucket_mem := bs1 |>) in *.
  pose proof (entry_index_runs s1 nb _ V1 index i Hx Hi) as R2.
  set (S1 := upd S a j (fst (S index i), snd (S a j))) in *.
  destruct (set_entry_index_runs s1 nb S1 V1 a j Ha Hj (snd (S1 index i))) as (bs3 & R3 & V3).
  set (S3 := upd S1 a j (fst (S1 a j), snd (S1 index i))) in *.
  set (s3 := s1 <| bucket_mem := bs3 |>) in *.
  destruct (set_hash_value_runs s3 nb S3 V3 index i Hx Hi 0) as (bs4 & R4 & V4).
  exists bs4. split.
  - unfold runs, move_slot. rewrite (bind_runs _ _ _ _ _ (hash_value_runs s nb S Hs index i Hx Hi)), (bind_runs _ _ _ _ _ R1),
      (bind_runs _ _ _ _ _ R2), (bind_runs _ _ _ _ _ R3), (bind_runs _ _ _ _ _ R4). reflexivity.
  - assert (snd (S1 index i) = snd (S index i)) as E1.
    { unfold S1. by destruct (upd_cases S a j (fst (S index i), snd (S a j)) index i) as [(-> & -> & ->)|[_ ->]]. }
    assert (fst (S1 a j) = fst (S index i)) as E2 by (unfold S1; by rewrite upd_eq).
    assert (snd (S3 index i) = snd (S index i)) as E3.
    { unfold S3. rewrite E1. by destruct (upd_cases S1 a j (fst (S1 a j), snd (S index i)) index i) as [(_ & _ & ->)|[_ ->]]. }
    rewrite E3 in V4. eapply sees_ext; [exact V4|]. intros b' i' _ _. unfold move.
    destruct (upd_cases S3 index i (0, snd (S index i)) b' i') as [(-> & -> & ->)|[Hne ->]]; [by rewrite upd_eq|].
    rewrite (upd_ne (upd S a j (S index i))) by done. unfold S3. rewrite E1, E2, <- surjective_pairing.
    destruct (upd_cases S a j (S index i) b' i') as [(-> & -> & ->)|[Hne' ->]]; [by rewrite upd_eq|].
    unfold S1. by rewrite !upd_ne.
Qed.

(** ** The invariant of the search *)

(** The entries do not change while entries are moved. *)
Context (es : list (Entry K V)) (P : gmap K Z).
Context (HP : forall k x, P !! k = Some x -> 0 <= x /\ exists v, es !! Z.to_nat x = Some (mk_entry k v)).

Definition indices_ok (S : slots) : Prop := forall b i, cell nb b i -> 0 <= snd (S b i) < Z.of_nat (length es).

Record space_inv s (S : slots) : Prop := {
  si_mask : bucket_mask_ s = nb - 1;
  si_entries : entry_mem s = es;
  si_sees : sees (bucket_mem s) nb S;
  si_rep : slots_rep nb S P;
  si_indices : indices_ok S;
}.

(** No key of an entry, in use or not, has 0 as its second hash value. *)
Definition no_zero_hash : Prop := forall i e, es !! i = Some e -> HashSecondary (Hash (first e)) <> 0.

(** [MakeSpace] on bucket [index] with [left] buckets to go took the slots [S]
    to [S'], called the marker with [ms] and returned [r]. *)
Record made_space s (S : slots) (index : Z) (left : nat) (r : Z) (S' : slots) (ms : list (Z * Z)) : Prop := {
  mp_slot : 0 <= r < 4;
  mp_empty : fst (S' index r) = 0;
  mp_rep : slots_rep nb S' P;
  mp_indices : indices_ok S';
  mp_keep b i : (left <= 2)%nat -> cell nb b i -> fst (S b i) <> 0 ->
    S' b i = S b i \/ fst (S' b i) = 0 \/ ~ full S (alt nb (fst (S b i)));
  mp_alt : left = 1%nat -> ~ full S (alt nb (fst (S index r)));
  mp_full : full S index -> total nb S' <= total nb S - 10 + 3 * Z.of_nat left;
  mp_decreases : (left <= 3)%nat -> total nb S' < total nb S;
  mp_marks b i : cell nb b i -> S' b i <> S b i -> (addr_bucket s b, sizeof_Bucket) ∈ ms;
  mp_only m : m ∈ ms -> exists b, 0 <= b < nb /\ m = (addr_bucket s b, sizeof_Bucket);
}.

(** What a call on a bucket does: nothing, or it makes space. *)
Definition space_spec (left : nat) (f : Z -> cmd (CuckooMap K V) Z) : Prop :=
  forall s S index, space_inv s S -> 0 <= index < nb -> full S index \/ no_zero_hash ->
  runs (f index) s (-1) s
  \/ exists r S' bs ms, runs (f index) s r (put s bs ms) /\ sees bs nb S' /\ made_space s S index left r S' ms.

Lemma space_inv_put s S S' bs ms :
  space_inv s S -> sees bs nb S' -> slots_rep nb S' P -> indices_ok S' -> space_inv (put s bs ms) S'.
Proof. intros [H1 H2 _ _ _] Hs Hr Hi. by constructor. Qed.

Lemma indices_move S b i a j : indices_ok S -> cell nb b i -> fst (S a j) = 0 -> indices_ok (move S b i a j).
Proof.
  intros Hi Hc He b' i' Hc'. unfold move.
  destruct (upd_cases (upd S a j (S b i)) b i (0, snd (S b i)) b' i') as [(_ & _ & ->)|[_ ->]]; [by apply Hi|].
  destruct (upd_cases S a j (S b i) b' i') as [(_ & _ & ->)|[_ ->]]; by apply Hi.
Qed.

(** A slot in use holds the hash value of its key, so that the entry moves to
    its second bucket. *)
Lemma live_entry s S b i :
  space_inv s S -> cell nb b i -> fst (S b i) <> 0 ->
  exists e, es !! Z.to_nat (snd (S b i)) = Some e /\ Hash (first e) = fst (S b i).
Proof.
  intros Hs Hc Hl. destruct (sr_live _ _ _ (si_rep _ _ Hs) b i Hc Hl) as (k & Hk & Hh & _).
  destruct (HP _ _ Hk) as (_ & v & E). exists (mk_entry k v). by rewrite Hh.
Qed.

(** ** One slot *)

(** The alternative bucket has an empty slot. *)
Lemma made_space_direct s S index i j left :
  space_inv s S -> cell nb index i -> fst (S index i) <> 0 -> (forall i', 0 <= i' < i -> fst (S index i') <> 0) ->
  (1 <= left)%nat -> 0 <= j < 4 -> fst (S (alt nb (fst (S index i))) j) = 0 ->
  made_space s S index left i (move S index i (alt nb (fst (S index i))) j)
    [(addr_bucket s index, sizeof_Bucket); (addr_bucket s (alt nb (fst (S index i))), sizeof_Bucket)].
Proof.
  intros Hs Hc Hl Hbefore Hleft Hj He. set (a := alt nb (fst (S index i))) in *.
  assert (cell nb a j) as Ha by (split; [by apply mask_range|done]).
  pose proof (total_move nb S index i a j Hc Ha He) as Ht.
  assert (weight nb a j (S index i) <= 3 - j) as Hw by (apply weight_alt; lia).
  assert (a <> index -> weight nb index i (S index i) = 13 - i) as Hw1 by (intros; apply weight_away; [done|auto]).
  destruct Hc as [Hx Hi]. constructor; try done.
  - unfold move. by rewrite upd_eq.
  - apply move_rep; try done. apply Hs.
  - by apply indices_move; [apply Hs| |].
  - intros b' i' _ _ Hl'. destruct (move_cases S index i a j b' i' He) as [(_ & _ & ->)|[(_ & -> & -> & _)|(_ & _ & ->)]]; auto.
  - intros _ Hf. by apply (Hf j).
  - intros Hf. assert (a <> index) as Hne by (intros Hax; apply (Hf j); [done|by rewrite <- Hax]). specialize (Hw1 Hne). lia.
  - intros _. destruct (Z.eq_dec a index) as [Hax|Hne]; [|specialize (Hw1 Hne); lia].
    assert (i < j); [|unfold weight in *; rewrite Hax in *].
    + destruct (Z.lt_total i j) as [?|[->|?]]; [done|by rewrite <- Hax in Hl|].
      exfalso. apply (Hbefore j); [lia|]. by rewrite <- Hax.
    + destruct (Z.eqb_spec (fst (S index i)) 0); [done|]. destruct (index =? _); lia.
  - intros b' i' Hc' Hne. destruct (move_cases S index i a j b' i' He) as [(-> & _ & _)|[(_ & -> & _ & _)|(_ & _ & E)]]; [left|right; left|done].
  - intros m. rewrite !elem_of_cons, elem_of_nil. intros [->|[->|[]]]; [by exists index|by exists a; split; [apply Ha|]].
Qed.

(** The alternative bucket is full, and space was made in it. *)
Lemma made_space_recursive s S index i j left S1 ms1 :
  space_inv s S -> cell nb index i -> fst (S index i) <> 0 -> (1 <= left <= 2)%nat ->
  full S (alt nb (fst (S index i))) -> made_space s S (alt nb (fst (S index i))) left j S1 ms1 ->
  made_space s S index (Datatypes.S left) i (move S1 index i (alt nb (fst (S index i))) j)
    ([(addr_bucket s index, sizeof_Bucket); (addr_bucket s (alt nb (fst (S index i))), sizeof_Bucket)] ++ ms1).
Proof.
  intros Hs Hc Hl Hleft Hf Hm. set (a := alt nb (fst (S index i))) in *.
  pose proof (mp_slot _ _ _ _ _ _ _ Hm) as Hj. pose proof (mp_empty _ _ _ _ _ _ _ Hm) as He.
  assert (cell nb a j) as Ha by (split; [by apply mask_range|done]).
  pose proof (total_move nb S1 index i a j Hc Ha He) as Ht. pose proof (mp_full _ _ _ _ _ _ _ Hm Hf) as Ht1.
  assert (S1 index i = S index i \/ fst (S1 index i) = 0) as Hsame.
  { by destruct (mp_keep _ _ _ _ _ _ _ Hm index i (proj2 Hleft) Hc Hl) as [?|[?|[]]]; auto. }
  assert (fst (S1 index i) <> 0 -> a = alt nb (fst (S1 index i))) as Halt by (destruct Hsame as [->|]; [done|lia]).
  assert (weight nb a j (S1 index i) <= 3) as Hw.
  { destruct Hsame as [->|E]; [pose proof (weight_alt nb j (S index i) Hj); fold a in H1; lia|].
    unfold weight. rewrite E. done. }
  pose proof (weight_range nb index i (S1 index i) (proj2 Hc)) as Hw1.
  constructor; try done; try lia.
  - apply Hc.
  - unfold move. by rewrite upd_eq.
  - apply move_rep; try done. apply Hm.
  - by apply indices_move; [apply Hm| |].
  - intros b' i' Hl2 Hc' Hl'. destruct (move_cases S1 index i a j b' i' He) as [(_ & _ & ->)|[(_ & -> & -> & _)|(_ & _ & ->)]]; auto.
    + right; right. apply (mp_alt _ _ _ _ _ _ _ Hm). lia.
    + apply (mp_keep _ _ _ _ _ _ _ Hm); [lia|done..].
  - intros b' i' Hc' Hne. rewrite elem_of_app.
    destruct (move_cases S1 index i a j b' i' He) as [(-> & _ & _)|[(_ & -> & _ & _)|(_ & _ & E)]];
      [left; left|left; right; left|]. right. apply (mp_marks _ _ _ _ _ _ _ Hm b' i'); [done|by rewrite <- E].
  - intros m. rewrite elem_of_app, !elem_of_cons, elem_of_nil.
    intros [[->|[->|[]]]|Hin]; [exists index; split; [apply Hc|done]|exists a; split; [apply Ha|done]|by apply (mp_only _ _ _ _ _ _ _ Hm)].
Qed.

(** ** The search *)

(** The test of slot [i], which only reads. *)
Lemma slots_loop_step f s S index i rest :
  space_inv s S -> cell nb index i -> full S index \/ no_zero_hash ->
  make_space_slots f index (i :: rest) s =
  (if fst (S index i) =? 0 then mret (-1)
   else
     j ← FindEmptySlot (alt nb (fst (S index i)));
     j ← (if j =? -1 then f (alt nb (fst (S index i))) else mret j);
     if 0 <=? j then move_slot index i (alt nb (fst (S index i))) j else make_space_slots f index rest) s.
Proof.
  intros Hs [Hx Hi] Hfz. pose proof (si_sees _ _ Hs) as Hv. destruct (si_indices _ _ Hs index i ltac:(done)) as [Hx0 Hx1].
  destruct (lookup_lt_is_Some_2 es (Z.to_nat (snd (S index i))) ltac:(lia)) as [e He].
  assert (runs (get_entry (snd (S index i))) s e s) as Re.
  { unfold get_entry, load, runs, mbind, cmd_bind, gets. by rewrite (si_entries _ _ Hs), He. }
  cbn [make_space_slots].
  rewrite (bind_runs _ _ _ _ _ (entry_index_runs _ _ _ Hv index i Hx Hi)), (bind_runs _ _ _ _ _ Re),
    (bind_runs _ _ _ _ _ (runs_gets _ _)), (bind_runs _ _ _ _ _ (hash_value_runs _ _ _ Hv index i Hx Hi)), (si_mask _ _ Hs).
  destruct (Z.eqb_spec (fst (S index i)) 0) as [E0|Hl].
  - rewrite E0. pose proof (Hash_nonzero (first e)) as Hne. destruct Hfz as [Hf|Hz]; [by apply Hf in E0|].
    pose proof (Hz _ _ He) as Hz'. apply Z.eqb_neq in Hne, Hz'. by rewrite Hne, Hz'.
  - destruct (live_entry s S index i Hs (conj Hx Hi) Hl) as (e' & He' & Hh). rewrite He in He'. injection He' as <-.
    by rewrite Hh, Z.eqb_refl.
Qed.

Lemma slots_loop_runs left f s S index m i :
  space_spec left f -> (left <= 2)%nat -> (left = 0%nat -> forall a, runs (f a) s (-1) s) ->
  space_inv s S -> 0 <= index < nb -> full S index \/ no_zero_hash ->
  m = Z.to_nat (4 - i) -> 0 <= i <= 4 -> (forall i', 0 <= i' < i -> fst (S index i') <> 0) ->
  runs (make_space_slots f index (seqZ i (4 - i))) s (-1) s
  \/ exists r S' bs ms, runs (make_space_slots f index (seqZ i (4 - i))) s r (put s bs ms)
       /\ sees bs nb S' /\ made_space s S index (Datatypes.S left) r S' ms.
Proof.
  intros Hf Hleft H0f Hs Hx Hfz. revert i.
  induction m as [|m IH]; intros i Em Hi Hbefore.
  { rewrite seqZ_nil by lia. by left. }
  assert (cell nb index i) as Hc by (split; [done|lia]).
  rewrite seqZ_cons by lia. pose proof (slots_loop_step f s S index i (seqZ (Z.succ i) (Z.pred (4 - i))) Hs Hc Hfz) as Estep.
  destruct (Z.eqb_spec (fst (S index i)) 0) as [E0|Hl]; [by left|].
  set (a := alt nb (fst (S index i))) in *. assert (0 <= a < nb) as Ha by (by apply mask_range).
  destruct (FindEmptySlot_runs s nb S a (si_sees _ _ Hs) Ha) as (j & Rj & Hj). rewrite (bind_runs _ _ _ _ _ Rj) in Estep.
  assert (forall i', 0 <= i' < i + 1 -> fst (S index i') <> 0) as Hbefore'.
  { intros i' Hi'. destruct (Z.eq_dec i' i) as [->|]; [done|]. apply Hbefore. lia. }
  specialize (IH (i + 1) ltac:(lia) ltac:(lia) Hbefore'). replace (4 - (i + 1)) with (Z.pred (4 - i)) in IH by lia.
  change (i + 1) with (Z.succ i) in IH.
  destruct Hj as [[-> Hfull]|(Hjr & He & _)].
  - change (-1 =? -1) with true in Estep. cbv iota in Estep.
    destruct (Hf s S a Hs Ha (or_introl Hfull)) as [R|(r & S1 & bs1 & ms1 & R & V1 & Hm)].
    + rewrite (bind_runs _ _ _ _ _ R) in Estep. change (0 <=? -1) with false in Estep. cbv iota in Estep.
      unfold runs. rewrite Estep. exact IH.
    + destruct left as [|left]; [destruct (runs_det _ _ _ _ _ _ (H0f eq_refl a) R) as [<- _]; destruct (mp_slot _ _ _ _ _ _ _ Hm); lia|].
      rewrite (bind_runs _ _ _ _ _ R) in Estep. pose proof (mp_slot _ _ _ _ _ _ _ Hm) as Hr.
      destruct (Z.leb_spec 0 r); [|lia].
      pose proof (space_inv_put s S S1 bs1 ms1 Hs V1 (mp_rep _ _ _ _ _ _ _ Hm) (mp_indices _ _ _ _ _ _ _ Hm)) as Hs1.
      destruct (move_slot_runs (put s bs1 ms1) S1 index i a r V1 Hc (conj Ha Hr)) as (bs2 & R2 & V2).
      change (addr_bucket (put s bs1 ms1)) with (addr_bucket s) in R2.
      right. eexists i, _, bs2, _. split; [|split; [exact V2|]].
      * rewrite put_put in R2. unfold runs. rewrite Estep. exact R2.
      * by apply made_space_recursive; [| | |lia| |].
  - destruct (Z.eqb_spec j (-1)); [lia|]. rewrite bind_ret in Estep. destruct (Z.leb_spec 0 j); [|lia].
    destruct (move_slot_runs s S index i a j (si_sees _ _ Hs) Hc (conj Ha Hjr)) as (bs2 & R2 & V2).
    right. eexists i, _, bs2, _. split; [unfold runs; rewrite Estep; exact R2|]. split; [exact V2|].
    apply made_space_direct; try done. lia.
Qed.

Lemma MakeSpace_spec left : (left <= 3)%nat -> space_spec left (MakeSpace left).
Proof.
  induction left as [|left IH]; intros Hleft s S index Hs Hx Hfz; [by left|].
  destruct (get_bucket_runs s nb S (si_sees _ _ Hs) index Hx) as (bu & R & _).
  assert (MakeSpace (Datatypes.S left) index s = make_space_slots (MakeSpace left) index (seqZ 0 (4 - 0)) s) as E
    by (cbn [MakeSpace]; by rewrite (bind_runs _ _ _ _ _ R)).
  unfold runs. rewrite E.
  refine (slots_loop_runs left (MakeSpace left) s S index 4 0 (IH _) _ _ Hs Hx Hfz eq_refl _ _); [lia|lia| |lia|lia].
  intros -> a. reflexivity.
Qed.

End space.
