(* ===== verification/CuckooProofs.v ===== *)
(** * CuckooProofs: the operations of the cuckoo table as operations on a map

    [cuckoo_rep] relates a table to the map from its keys to entry indices and
    to the stack of free indices; [data_reported] says that the changes of
    the buckets, the entries and the stack were reported to the marker. *)
From stdpp Require Import base gmap list numbers.
From Stdlib Require Import ZArith Lia.
From S2P Require Import Prelude Cuckoo CuckooSlots CuckooSpace.

Section proofs.
Context {K V : Type} `{Countable K, !CuckooTypes K V, !CuckooLaws K V}.
Implicit Types s : CuckooMap K V.

(** ** Representation *)

(** Header and arrays of a table with [nb] buckets and [n] entries. *)
Record layout_ok s (nb n : Z) : Prop := {
  lo_pow : pow2 nb;
  lo_n : 0 < n < 2 ^ 31;
  lo_mask : bucket_mask_ s = nb - 1;
  lo_nb : alloc_num_buckets_ s = nb;
  lo_ne : alloc_num_entries_ s = n;
  lo_size : size_ s = n;
  lo_stack : Z.of_nat (length (stack_mem s)) = n;
  lo_entries : Z.of_nat (length (entry_mem s)) = n;
  lo_free : free_entry_indices_ s = this s + sizeof_CuckooMap;
  lo_stck : stck_ s = free_entry_indices_ s + sizeof_EntryStack;
  lo_entry_array : entries_ s = stck_ s + sizeof_EntryIndex * n;
  lo_buckets : buckets_ s = entries_ s + sizeof_Entry * n;
}.

(** [stck_[i]]; word [n] lies in entry 0. *)
Definition stack_word s (n i : Z) : option Z :=
  if i =? n then word0 ∘ first <$> entry_mem s !! 0%nat else stack_mem s !! Z.to_nat i.

Definition indices (P : gmap K Z) : list Z := (map_to_list P).*2.

(** [P]: the entry of each key; [F]: the free entries, the top of the stack
    last. *)
Record cuckoo_rep s (nb n : Z) (S : slots) (P : gmap K Z) (F : list Z) : Prop := {
  cr_layout : layout_ok s nb n;
  cr_sees : sees (bucket_mem s) nb S;
  cr_slots : slots_rep nb S P;
  cr_indices : indices_ok nb (entry_mem s) S;
  cr_entries k x : P !! k = Some x -> 0 <= x /\ exists v, entry_mem s !! Z.to_nat x = Some (mk_entry k v);
  cr_head : head_ s = Z.of_nat (length F);
  cr_stack t x : F !! t = Some x -> stack_word s n (Z.of_nat t + 1) = Some x;
  cr_split : indices P ++ F ≡ₚ seqZ 0 n;
  cr_count : num_entries_ s = Z.of_nat (size P);
}.

(** The map the table stands for. *)
Definition contents s (P : gmap K Z) : gmap K V := omap (fun x => second <$> entry_mem s !! Z.to_nat x) P.

(** ** Lemmas on the representation *)

Section rep.
Context s nb n S P F (Hr : cuckoo_rep s nb n S P F).

Lemma rep_size : Z.of_nat (size P) + Z.of_nat (length F) = n.
Proof.
  pose proof (Permutation_length (cr_split _ _ _ _ _ _ Hr)) as E. unfold indices in E.
  rewrite length_app, length_fmap, length_seqZ, length_map_to_list in E.
  pose proof (lo_n _ _ _ (cr_layout _ _ _ _ _ _ Hr)). lia.
Qed.

Lemma indices_elem k x : P !! k = Some x -> x ∈ indices P.
Proof.
  intros E. unfold indices. apply list_elem_of_fmap. exists (k, x). split; [done|]. by apply elem_of_map_to_list.
Qed.

Lemma index_range x : x ∈ indices P ++ F -> 0 <= x < n.
Proof. rewrite (cr_split _ _ _ _ _ _ Hr), elem_of_seqZ. lia. Qed.

Lemma key_index_range k x : P !! k = Some x -> 0 <= x < n.
Proof. intros E. apply index_range, elem_of_app. left. by eapply indices_elem. Qed.

Lemma rep_nodup : NoDup (indices P ++ F).
Proof. rewrite (cr_split _ _ _ _ _ _ Hr). apply NoDup_seqZ. Qed.

Lemma key_index_inj k k' x : P !! k = Some x -> P !! k' = Some x -> k' = k.
Proof.
  intros (_ & v & E)%(cr_entries _ _ _ _ _ _ Hr) (_ & v' & E')%(cr_entries _ _ _ _ _ _ Hr). congruence.
Qed.

Lemma free_not_used x k : x ∈ F -> P !! k <> Some x.
Proof.
  intros Hx E. pose proof rep_nodup as Hn. apply list.NoDup_app in Hn as (_ & Hn & _).
  apply (Hn x); [by eapply indices_elem|done].
Qed.

Lemma rep_space_inv : space_inv nb (entry_mem s) P s S.
Proof. destruct Hr. by constructor; [apply cr_layout0|..]. Qed.

(** A slot in use. *)
Lemma rep_live b i :
  cell nb b i -> fst (S b i) <> 0 ->
  exists k v, P !! k = Some (snd (S b i)) /\ fst (S b i) = Hash k /\ entry_mem s !! Z.to_nat (snd (S b i)) = Some (mk_entry k v).
Proof.
  intros Hc Hl. destruct (sr_live _ _ _ (cr_slots _ _ _ _ _ _ Hr) b i Hc Hl) as (k & HP & Hh & _).
  destruct (cr_entries _ _ _ _ _ _ Hr k _ HP) as (_ & v & E). by exists k, v.
Qed.

Lemma get_entry_runs idx e : entry_mem s !! Z.to_nat idx = Some e -> runs (get_entry idx) s e s.
Proof. intros E. unfold get_entry, load, runs, mbind, cmd_bind, gets. by rewrite E. Qed.

Lemma contents_lookup k : contents s P !! k = (P !! k ≫= fun x => second <$> entry_mem s !! Z.to_nat x).
Proof. unfold contents. by rewrite lookup_omap. Qed.

Lemma contents_none k : contents s P !! k = None <-> P !! k = None.
Proof.
  rewrite contents_lookup. destruct (P !! k) as [x|] eqn:E; [|done]. cbn.
  destruct (cr_entries _ _ _ _ _ _ Hr k x E) as (_ & v & ->). done.
Qed.

Lemma contents_size : size (contents s P) = size P.
Proof.
  rewrite <- !size_dom. f_equal. apply set_eq. intros k. rewrite !elem_of_dom.
  rewrite <- !not_eq_None_Some. by rewrite contents_none.
Qed.

(** ** Looking up *)

Lemma FindSlot_runs b k :
  0 <= b < nb ->
  exists j, runs (FindSlot b (Hash k) k) s j s
    /\ ((j = -1 /\ forall i x, 0 <= i < 4 -> P !! k = Some x -> S b i <> (Hash k, x))
        \/ (0 <= j < 4 /\ P !! k = Some (snd (S b j)) /\ fst (S b j) = Hash k)).
Proof.
  intros Hb. pose proof (cr_sees _ _ _ _ _ _ Hr) as Hs.
  destruct (find_slot_runs (fun i => h ← hash_value b i;
      if h =? Hash k then idx ← entry_index b i; entry ← get_entry idx; mret (Eq (first entry) k) else mret false)
    (fun i => bool_decide (fst (S b i) = Hash k /\ P !! k = Some (snd (S b i)))) s 0 kEntriesPerBucket) as (j & R & Hj); try lia.
  { done. }
  { intros i Hi. change (0 <= i < 4) in Hi. unfold runs. rewrite (bind_runs _ _ _ _ _ (hash_value_runs _ _ _ Hs b i Hb Hi)).
    destruct (Z.eqb_spec (fst (S b i)) (Hash k)) as [E|Hne]; [|by rewrite bool_decide_false by tauto].
    assert (fst (S b i) <> 0) as Hl by (rewrite E; apply Hash_nonzero).
    destruct (rep_live b i (conj Hb Hi) Hl) as (k' & v & HP & _ & He).
    rewrite (bind_runs _ _ _ _ _ (entry_index_runs _ _ _ Hs b i Hb Hi)), (bind_runs _ _ _ _ _ (get_entry_runs _ _ He)).
    unfold mret, cmd_ret, Eq. cbn [first]. do 2 f_equal. symmetry.
    destruct (equal k' k) eqn:Ek.
    - apply (equal_spec (V := V)) in Ek as ->. by rewrite bool_decide_true.
    - rewrite bool_decide_false; [done|]. intros [_ HP']. rewrite (key_index_inj _ _ _ HP' HP) in Ek.
      by rewrite (proj2 (equal_spec (V := V) k k) eq_refl) in Ek. }
  exists j. split; [exact R|]. destruct Hj as [[-> Hj]|(Hj & Hg & _)]; [left|right].
  - split; [done|]. intros i x Hi HP E. specialize (Hj i Hi). rewrite bool_decide_eq_false, E in Hj. tauto.
  - apply bool_decide_eq_true in Hg. split; [exact Hj|]. tauto.
Qed.

Lemma GetFromBucket_runs b k :
  0 <= b < nb ->
  exists r, runs (GetFromBucket (Hash k) b k) s r s
    /\ ((r = kInvalidEntryIdx /\ forall i x, 0 <= i < 4 -> P !! k = Some x -> S b i <> (Hash k, x)) \/ P !! k = Some r).
Proof.
  intros Hb. destruct (FindSlot_runs b k Hb) as (j & R & Hj). unfold GetFromBucket, runs.
  rewrite (bind_runs _ _ _ _ _ R). destruct Hj as [[-> Hj]|(Hj & HP & _)].
  - exists kInvalidEntryIdx. split; [done|]. by left.
  - destruct (Z.eqb_spec j (-1)); [lia|]. exists (snd (S b j)). split; [|by right].
    by apply (entry_index_runs _ _ _ (cr_sees _ _ _ _ _ _ Hr)).
Qed.

Lemma place_range k b : place nb k b -> 0 <= b < nb.
Proof. intros [->| ->]; apply mask_range, (lo_pow _ _ _ (cr_layout _ _ _ _ _ _ Hr)). Qed.

Lemma index_valid k x : P !! k = Some x -> x <> kInvalidEntryIdx.
Proof.
  intros HP. pose proof (key_index_range k x HP). pose proof (lo_n _ _ _ (cr_layout _ _ _ _ _ _ Hr)). unfold kInvalidEntryIdx. lia.
Qed.

(** Both buckets of the key are searched. *)
Lemma FindWithHash_runs k : runs (FindWithHash (Hash k) k) s (default kInvalidEntryIdx (P !! k)) s.
Proof.
  pose proof (lo_mask _ _ _ (cr_layout _ _ _ _ _ _ Hr)) as Hm. unfold FindWithHash, runs.
  rewrite (bind_runs _ _ _ _ _ (runs_gets _ _)), Hm.
  destruct (GetFromBucket_runs (Z.land (Hash k) (nb - 1)) k ltac:(apply (place_range k); by left)) as (r1 & R1 & H1).
  rewrite (bind_runs _ _ _ _ _ R1). destruct H1 as [[-> H1]|HP].
  - rewrite Z.eqb_refl. cbn [negb].
    destruct (GetFromBucket_runs (alt nb (Hash k)) k ltac:(apply (place_range k); by right)) as (r2 & R2 & H2).
    unfold alt in R2. rewrite R2. destruct H2 as [[-> H2]| ->]; [|done].
    destruct (P !! k) as [x|] eqn:HP; [exfalso|done].
    destruct (sr_key _ _ _ (cr_slots _ _ _ _ _ _ Hr) k x HP) as (b & i & Hc & E).
    destruct (sr_live _ _ _ (cr_slots _ _ _ _ _ _ Hr) b i Hc ltac:(rewrite E; apply Hash_nonzero)) as (k' & HP' & _ & Hpl).
    rewrite E in HP'. cbn in HP'. rewrite (key_index_inj _ _ _ HP HP') in Hpl.
    destruct Hpl as [->| ->]; [by apply (H1 i x (proj2 Hc))|by apply (H2 i x (proj2 Hc))].
  - rewrite HP. cbn [default]. pose proof (index_valid k r1 HP) as Hne. apply Z.eqb_neq in Hne. by rewrite Hne.
Qed.

Lemma Find_runs k : runs (Find k) s (P !! k) s.
Proof.
  unfold Find, runs. rewrite (bind_runs _ _ _ _ _ (FindWithHash_runs k)). destruct (P !! k) as [x|] eqn:HP; simpl.
  - pose proof (index_valid k x HP) as Hne. apply Z.eqb_neq in Hne. by rewrite Hne.
  - done.
Qed.

End rep.

(** ** Reporting *)

(** Every bucket, entry and word of the stack that changes from [s] to [s'],
    and the top of the stack, is passed to the marker, and nothing else is. The
    counter [num_entries_] in the header is not among them. *)
Record data_reported s s' (ms : list (Z * Z)) : Prop := {
  rp_marks : marks s' = ms ++ marks s;
  rp_buckets b : 0 <= b -> bucket_mem s' !! Z.to_nat b = bucket_mem s !! Z.to_nat b \/ (addr_bucket s b, sizeof_Bucket) ∈ ms;
  rp_entries x : 0 <= x -> entry_mem s' !! Z.to_nat x = entry_mem s !! Z.to_nat x \/ (addr_entry s x, sizeof_Entry) ∈ ms;
  rp_stack i : 0 <= i -> stack_mem s' !! Z.to_nat i = stack_mem s !! Z.to_nat i \/ (addr_stck s i, 8) ∈ ms;
  rp_head : head_ s' = head_ s \/ (addr_head s, 8) ∈ ms;
  rp_only m : m ∈ ms -> (exists b, 0 <= b /\ m = (addr_bucket s b, sizeof_Bucket))
    \/ (exists x, 0 <= x /\ m = (addr_entry s x, sizeof_Entry)) \/ m = (addr_head s, 8);
  rp_pointers : this s' = this s /\ free_entry_indices_ s' = free_entry_indices_ s /\ stck_ s' = stck_ s
    /\ entries_ s' = entries_ s /\ buckets_ s' = buckets_ s;
}.

Lemma reported_refl s : data_reported s s [].
Proof. constructor; auto. intros m []%not_elem_of_nil. Qed.

Lemma reported_trans s1 s2 s3 ms1 ms2 : data_reported s1 s2 ms1 -> data_reported s2 s3 ms2 -> data_reported s1 s3 (ms2 ++ ms1).
Proof.
  intros [M1 B1 E1 T1 H1 O1 (P1 & P2 & P3 & P4 & P5)] [M2 B2 E2 T2 H2 O2 (Q1 & Q2 & Q3 & Q4 & Q5)]. constructor.
  - by rewrite M2, M1, app_assoc.
  - intros b Hb. rewrite elem_of_app. unfold addr_bucket in *. rewrite P5 in *.
    destruct (B2 b Hb) as [->|?]; [|tauto]. destruct (B1 b Hb); tauto.
  - intros x Hx. rewrite elem_of_app. unfold addr_entry in *. rewrite P4 in *.
    destruct (E2 x Hx) as [->|?]; [|tauto]. destruct (E1 x Hx); tauto.
  - intros i Hi. rewrite elem_of_app. unfold addr_stck in *. rewrite P3 in *.
    destruct (T2 i Hi) as [->|?]; [|tauto]. destruct (T1 i Hi); tauto.
  - rewrite elem_of_app. unfold addr_head in *. rewrite P2 in *. destruct H2 as [->|?]; [|tauto]. destruct H1; tauto.
  - intros m [Hm|Hm]%elem_of_app; [|by apply O1]. unfold addr_bucket, addr_entry, addr_head in *. rewrite <- P2, <- P4, <- P5. by apply O2.
  - by rewrite Q1, Q2, Q3, Q4, Q5.
Qed.

(** ** The stack of free entries *)

Lemma PopFreeEntryIndex_empty s : head_ s = 0 -> runs PopFreeEntryIndex s kInvalidEntryIdx s.
Proof. intros Hh. unfold PopFreeEntryIndex, Empty, runs, mbind, cmd_bind, gets, mret, cmd_ret. by rewrite Hh. Qed.

Lemma stck_get_runs s n i x :
  Z.of_nat (length (stack_mem s)) = n -> 0 <= i -> stack_word s n i = Some x -> runs (stck_get i) s x s.
Proof.
  intros Hn Hi Hw. unfold stck_get, runs. rewrite (bind_runs _ _ _ _ _ (runs_gets _ _)), Hn.
  unfold stack_word in Hw. destruct (i =? n).
  - destruct (entry_mem s !! 0%nat) as [e|] eqn:E; [|done]. injection Hw as <-.
    by rewrite (bind_runs _ _ _ _ _ (get_entry_runs s 0 e E)).
  - unfold load. by rewrite Hw.
Qed.

Lemma PopFreeEntryIndex_runs s nb n S P F x :
  cuckoo_rep s nb n S P (F ++ [x]) ->
  runs PopFreeEntryIndex s x (s <| head_ := head_ s - 1 |> <| marks := (addr_head s, 8) :: marks s |>).
Proof.
  intros Hr. pose proof (cr_head _ _ _ _ _ _ Hr) as Hh. rewrite length_app in Hh. cbn [length] in Hh.
  assert (runs (stck_get (head_ s)) s x s) as R.
  { apply (stck_get_runs s n); [apply (cr_layout _ _ _ _ _ _ Hr)|lia|]. replace (head_ s) with (Z.of_nat (length F) + 1) by lia.
    apply (cr_stack _ _ _ _ _ _ Hr). by rewrite lookup_app_r, Nat.sub_diag. }
  assert ((head_ s =? 0) = false) as Hne by (apply Z.eqb_neq; lia).
  unfold PopFreeEntryIndex, Empty, Top, Pop, runs. rewrite !bind_assoc.
  rewrite (bind_runs _ _ _ _ _ (runs_gets _ _)), bind_ret, Hne.
  unfold runs in R. unfold mbind, cmd_bind, gets, getw, modify, mark, mret, cmd_ret. rewrite R. cbn. by rewrite Hne.
Qed.
End proofs.
