(* ===== verification/CuckooOps.v ===== *)
(** * CuckooOps: insertion into and removal from the cuckoo table *)
From stdpp Require Import base gmap list numbers.
From Stdlib Require Import ZArith Lia.
From S2P Require Import Prelude Cuckoo CuckooSlots CuckooSpace CuckooProofs.

Section ops.
Context {K V : Type} `{Countable K, !CuckooTypes K V, !CuckooLaws K V}.
Implicit Types s : CuckooMap K V.

(** ** Adding to and removing from the slots *)

Lemma add_slot_rep nb S (P : gmap K Z) b j k x :
  slots_rep nb S P -> P !! k = None -> (forall k', P !! k' <> Some x) -> cell nb b j -> fst (S b j) = 0 -> place nb k b ->
  slots_rep nb (upd S b j (Hash k, x)) (<[k := x]> P).
Proof.
  intros [Hl Hk Hu] HP Hx Hc He Hpl. constructor.
  - intros b' i' Hc'. destruct (upd_cases S b j (Hash k, x) b' i') as [(-> & -> & ->)|[_ ->]]; cbn [fst snd].
    + intros _. exists k. by rewrite lookup_insert_eq.
    + intros Hne. destruct (Hl b' i' Hc' Hne) as (k' & HP' & ?). exists k'. rewrite lookup_insert_ne; [done|]. intros ->. congruence.
  - intros k' x' E. apply lookup_insert_Some in E as [[<- <-]|[Hne HP']].
    + exists b, j. split; [done|]. apply upd_eq.
    + destruct (Hk k' x' HP') as (b' & i' & Hc' & E). exists b', i'. split; [done|].
      rewrite upd_ne; [done|]. intros [-> ->]. rewrite E in He. by apply Hash_nonzero in He.
  - intros b1 i1 b2 i2 Hc1 Hc2.
    assert (forall b' i', cell nb b' i' -> fst (S b' i') <> 0 -> snd (S b' i') <> x) as Hfresh.
    { intros b' i' Hc' Hne E. destruct (Hl b' i' Hc' Hne) as (k' & HP' & _). apply (Hx k'). congruence. }
    destruct (upd_cases S b j (Hash k, x) b1 i1) as [(-> & -> & ->)|[_ ->]];
      destruct (upd_cases S b j (Hash k, x) b2 i2) as [(-> & -> & ->)|[_ ->]]; cbn [fst snd]; intros H1 H2 E; auto.
    + by apply Hfresh in E.
    + symmetry in E. by apply Hfresh in E.
Qed.

Lemma remove_slot_rep nb S (P : gmap K Z) b j k x :
  slots_rep nb S P -> (forall k', P !! k' = Some x -> k' = k) -> P !! k = Some x -> cell nb b j -> S b j = (Hash k, x) ->
  slots_rep nb (upd S b j (0, x)) (delete k P).
Proof.
  intros [Hl Hk Hu] Hinj HP Hc E. assert (fst (S b j) <> 0) as Hne0 by (rewrite E; apply Hash_nonzero). constructor.
  - intros b' i' Hc'. destruct (upd_cases S b j (0, x) b' i') as [(_ & _ & ->)|[Hne ->]]; [done|].
    intros Hl'. destruct (Hl b' i' Hc' Hl') as (k' & HP' & ?). exists k'. rewrite lookup_delete_ne; [done|].
    intros <-. apply Hne. apply Hu; try done. rewrite E. cbn. congruence.
  - intros k' x' E'. apply lookup_delete_Some in E' as [Hne HP']. destruct (Hk k' x' HP') as (b' & i' & Hc' & E').
    exists b', i'. split; [done|]. rewrite upd_ne; [done|]. intros [-> ->]. rewrite E in E'. injection E' as _ ->.
    by apply Hne, eq_sym, Hinj.
  - intros b1 i1 b2 i2 Hc1 Hc2.
    destruct (upd_cases S b j (0, x) b1 i1) as [(-> & -> & ->)|[_ ->]]; [done|].
    destruct (upd_cases S b j (0, x) b2 i2) as [(-> & -> & ->)|[_ ->]]; [done|]. by apply Hu.
Qed.

Lemma indices_upd nb (es : list (Entry K V)) S b j h x :
  indices_ok nb es S -> 0 <= x < Z.of_nat (length es) -> indices_ok nb es (upd S b j (h, x)).
Proof. intros Hi Hx b' i' Hc. destruct (upd_cases S b j (h, x) b' i') as [(_ & _ & ->)|[_ ->]]; [done|by apply Hi]. Qed.

Lemma indices_insert (P : gmap K Z) k x : P !! k = None -> indices (<[k := x]> P) ≡ₚ x :: indices P.
Proof. intros HP. unfold indices. by rewrite (map_to_list_insert P k x HP). Qed.

Lemma indices_delete (P : gmap K Z) k x : P !! k = Some x -> indices P ≡ₚ x :: indices (delete k P).
Proof. intros HP. unfold indices. by rewrite <- (map_to_list_delete P k x HP). Qed.

Lemma set_entry_runs s idx e e' :
  entry_mem s !! Z.to_nat idx = Some e ->
  runs (set_entry idx e') s tt (s <| entry_mem := <[Z.to_nat idx := e']> (entry_mem s) |>).
Proof. intros E. unfold set_entry, runs. by rewrite (bind_runs _ _ _ _ _ (get_entry_runs s idx e E)). Qed.

(** ** AddToBucket *)

(** The table after [AddToBucket] has put [k] into slot [j] of bucket [b] and
    entry [x]. *)
Definition added s (bs : list Bucket) (b x : Z) (k : K) (v : V) : CuckooMap K V :=
  s <| head_ := head_ s - 1 |> <| bucket_mem := bs |> <| entry_mem := <[Z.to_nat x := mk_entry k v]> (entry_mem s) |>
    <| num_entries_ := u64 (num_entries_ s + 1) |>
    <| marks := (addr_entry s x, sizeof_Entry) :: (addr_bucket s b, sizeof_Bucket) :: (addr_head s, 8) :: marks s |>.

Lemma AddToBucket_runs s nb n S P F x b j k v :
  cuckoo_rep s nb n S P (F ++ [x]) -> 0 <= b < nb -> empty_slot S b j -> 0 <= j ->
  exists bs, runs (AddToBucket b k v) s (Some x) (added s bs b x k v) /\ sees bs nb (upd S b j (Hash k, x)).
Proof.
  intros Hr Hb Hj Hj0. destruct Hj as [[-> _]|(Hj & He & Hfirst)]; [lia|].
  assert (0 <= x < n) as Hx by (apply (index_range _ _ _ _ _ _ Hr); rewrite !elem_of_app, list_elem_of_singleton; auto).
  pose proof (lo_n _ _ _ (cr_layout _ _ _ _ _ _ Hr)) as Hn.
  destruct (lookup_lt_is_Some_2 (entry_mem s) (Z.to_nat x)) as [e Ee].
  { pose proof (lo_entries _ _ _ (cr_layout _ _ _ _ _ _ Hr)). lia. }
  destruct (FindEmptySlot_runs s nb S b (cr_sees _ _ _ _ _ _ Hr) Hb) as (j' & Rj & Hj').
  assert (j' = j) as ->.
  { destruct Hj' as [[_ Hf]|(Hj' & He' & Hf')]; [by apply Hf in He|].
    destruct (Z.lt_total j' j) as [?|[?|?]]; [by apply Hfirst in He'; lia|done|by apply Hf' in He; lia]. }
  set (s1 := s <| head_ := head_ s - 1 |> <| marks := (addr_head s, 8) :: marks s |>).
  assert (sees (bucket_mem s1) nb S) as V1 by apply Hr.
  destruct (set_hash_value_runs s1 nb S V1 b j Hb Hj (Hash k)) as (bs2 & R2 & V2).
  set (s2 := s1 <| bucket_mem := bs2 |>) in *.
  destruct (set_entry_index_runs s2 nb _ V2 b j Hb Hj x) as (bs3 & R3 & V3).
  exists bs3. split.
  - unfold runs, AddToBucket. rewrite (bind_runs _ _ _ _ _ Rj). destruct (Z.eqb_spec j (-1)); [lia|].
    rewrite (bind_runs _ _ _ _ _ (PopFreeEntryIndex_runs _ _ _ _ _ _ _ Hr)).
    destruct (Z.eqb_spec x kInvalidEntryIdx) as [E|_]; [unfold kInvalidEntryIdx in E; lia|].
    fold s1. rewrite (bind_runs _ _ _ _ _ R2), (bind_runs _ _ _ _ _ R3).
    unfold getw, mark, modify, mbind, cmd_bind. cbn beta iota.
    rewrite (set_entry_runs _ x e (mk_entry k v)) by exact Ee. reflexivity.
  - eapply sees_ext; [exact V3|]. intros b' i' _ _. rewrite upd_eq. cbn [fst].
    destruct (upd_cases S b j (Hash k, x) b' i') as [(-> & -> & ->)|[Hne ->]]; [by rewrite upd_eq|by rewrite !upd_ne].
Qed.
(** Words of the stack below the last one do not lie in entry 0. *)
Lemma stack_word_below s s' n i : stack_mem s' = stack_mem s -> i < n -> stack_word s' n i = stack_word s n i.
Proof. intros E Hi. unfold stack_word. destruct (Z.eqb_spec i n); [lia|]. by rewrite E. Qed.

Lemma added_rep s nb n S P F x bs b j k v :
  cuckoo_rep s nb n S P (F ++ [x]) -> P !! k = None -> place nb k b -> 0 <= j < 4 -> fst (S b j) = 0 ->
  sees bs nb (upd S b j (Hash k, x)) ->
  cuckoo_rep (added s bs b x k v) nb n (upd S b j (Hash k, x)) (<[k := x]> P) F.
Proof.
  intros Hr HP Hpl Hj He Hv. pose proof (rep_size _ _ _ _ _ _ Hr) as Hsz. rewrite length_app in Hsz. cbn [length] in Hsz.
  assert (x ∈ F ++ [x]) as HxF by (rewrite elem_of_app, list_elem_of_singleton; auto).
  assert (0 <= x < n) as Hx by (apply (index_range _ _ _ _ _ _ Hr), elem_of_app; auto).
  pose proof (fun k' => free_not_used _ _ _ _ _ _ Hr x k' HxF) as Hfree. pose proof (place_range _ _ _ _ _ _ Hr k b Hpl) as Hb.
  pose proof (cr_layout _ _ _ _ _ _ Hr) as Hl. constructor.
  - destruct Hl. constructor; try done. cbn. by rewrite length_insert.
  - exact Hv.
  - by apply add_slot_rep; [apply Hr|..].
  - apply indices_upd; cbn; rewrite ?length_insert.
    + intros b' i' Hc'. cbn. rewrite length_insert. by apply (cr_indices _ _ _ _ _ _ Hr).
    + by rewrite (lo_entries _ _ _ Hl).
  - intros k' x' E. cbn. apply lookup_insert_Some in E as [[<- <-]|[Hne HP']].
    + split; [lia|]. exists v. apply list_lookup_insert_eq. pose proof (lo_entries _ _ _ Hl). lia.
    + destruct (cr_entries _ _ _ _ _ _ Hr k' x' HP') as (? & v' & E). split; [done|]. exists v'.
      rewrite list_lookup_insert_ne; [done|]. intros Hxx. apply (Hfree k'). rewrite HP'. f_equal. lia.
  - cbn. rewrite (cr_head _ _ _ _ _ _ Hr), length_app. cbn [length]. lia.
  - intros t y Ht. pose proof (lookup_lt_Some _ _ _ Ht). rewrite (stack_word_below s) by (try done; lia).
    apply (cr_stack _ _ _ _ _ _ Hr). by rewrite lookup_app_l.
  - rewrite indices_insert by done. rewrite <- (cr_split _ _ _ _ _ _ Hr). cbn. rewrite (Permutation_app_comm F). cbn.
    apply Permutation_middle.
  - cbn. rewrite (cr_count _ _ _ _ _ _ Hr), map_size_insert, HP. pose proof (lo_n _ _ _ Hl). rewrite u64_small by lia. lia.
Qed.

Lemma added_contents s nb n S P F x bs b k v :
  cuckoo_rep s nb n S P (F ++ [x]) -> P !! k = None -> contents (added s bs b x k v) (<[k := x]> P) = <[k := v]> (contents s P).
Proof.
  intros Hr HP. assert (x ∈ F ++ [x]) as HxF by (rewrite elem_of_app, list_elem_of_singleton; auto).
  assert (0 <= x < n) as Hx by (apply (index_range _ _ _ _ _ _ Hr), elem_of_app; auto).
  apply map_eq. intros k'. rewrite !contents_lookup. cbn. destruct (decide (k = k')) as [<-|Hne].
  - rewrite !lookup_insert_eq. cbn. rewrite list_lookup_insert_eq; [done|].
    pose proof (lo_entries _ _ _ (cr_layout _ _ _ _ _ _ Hr)). lia.
  - rewrite !lookup_insert_ne, contents_lookup by done. destruct (P !! k') as [x'|] eqn:HP'; [|done]. cbn.
    rewrite list_lookup_insert_ne; [done|]. intros E. apply (free_not_used _ _ _ _ _ _ Hr x k' HxF).
    rewrite HP'. f_equal. pose proof (key_index_range _ _ _ _ _ _ Hr k' x' HP'). lia.
Qed.

Lemma added_reported s nb S S' bs b x k v :
  sees (bucket_mem s) nb S -> sees bs nb S' -> 0 <= b < nb -> 0 <= x -> (forall b' i, b' <> b -> S' b' i = S b' i) ->
  data_reported s (added s bs b x k v) [(addr_entry s x, sizeof_Entry); (addr_bucket s b, sizeof_Bucket); (addr_head s, 8)].
Proof.
  intros Hs Hs' Hb Hx Heq. constructor; try done.
  - intros b' Hb'. destruct (decide (b' = b)) as [->|Hne]; [right; right; left|left]. cbn.
    destruct (Z.lt_ge_cases b' nb).
    + apply (sees_same_bucket _ _ nb S S'); auto.
    + pose proof (proj1 Hs). pose proof (proj1 Hs'). by rewrite !lookup_ge_None_2 by lia.
  - intros x' Hx'. destruct (decide (x' = x)) as [->|Hne]; [right; left|left]. cbn. rewrite list_lookup_insert_ne; [done|lia].
  - auto.
  - right. right; right; left.
  - intros m. rewrite !elem_of_cons, elem_of_nil. intros [->|[->|[->|[]]]]; [right; left; by exists x|left; exists b; split; [lia|done]|by right; right].
Qed.

(** ** RemoveFromBucket *)

(** Writing word [i] of the stack, the last one included. *)
Lemma stck_set_runs s n i x :
  0 < n -> 0 <= i <= n -> Z.of_nat (length (stack_mem s)) = n -> Z.of_nat (length (entry_mem s)) = n -> 0 <= x < 2 ^ 32 ->
  exists st es, let s' := s <| stack_mem := st |> <| entry_mem := es |> in
    runs (stck_set i x) s tt s' /\ stack_word s' n i = Some x
    /\ length st = length (stack_mem s) /\ length es = length (entry_mem s)
    /\ (forall i', 0 <= i' -> i' <> i -> st !! Z.to_nat i' = stack_mem s !! Z.to_nat i') /\ (i < n -> es = entry_mem s).
Proof.
  intros Hn Hi Hst Hes Hx. destruct (lookup_lt_is_Some_2 (entry_mem s) 0 ltac:(lia)) as [e0 E0]. cbn zeta.
  destruct (Z.eq_dec i n) as [->|Hne].
  - exists (stack_mem s), (<[0%nat := mk_entry (set_word0 x (first e0)) (second e0)]> (entry_mem s)). repeat split.
    + unfold runs, stck_set. rewrite (bind_runs _ _ _ _ _ (runs_gets _ _)), Hst, Z.eqb_refl.
      rewrite (bind_runs _ _ _ _ _ (get_entry_runs s 0 e0 E0)). apply (set_entry_runs s 0 e0 _ E0).
    + unfold stack_word. rewrite Z.eqb_refl. cbn. rewrite list_lookup_insert_eq by lia. cbn. f_equal. by apply (word0_set (V := V)).
    + by rewrite length_insert.
    + lia.
  - assert (is_Some (stack_mem s !! Z.to_nat i)) as [y Ey] by (apply lookup_lt_is_Some_2; lia).
    exists (<[Z.to_nat i := x]> (stack_mem s)), (entry_mem s). repeat split.
    + unfold runs, stck_set. rewrite (bind_runs _ _ _ _ _ (runs_gets _ _)), Hst. destruct (Z.eqb_spec i n); [done|].
      unfold load. by rewrite Ey.
    + unfold stack_word. destruct (Z.eqb_spec i n); [done|]. cbn. apply list_lookup_insert_eq. lia.
    + by rewrite length_insert.
    + intros i' Hi' Hni. rewrite list_lookup_insert_ne; [done|lia].
Qed.

Lemma Push_runs s n x :
  size_ s = n -> 0 <= head_ s < n -> Z.of_nat (length (stack_mem s)) = n -> Z.of_nat (length (entry_mem s)) = n -> 0 <= x < 2 ^ 32 ->
  exists st es, let s1 := s <| head_ := head_ s + 1 |> <| stack_mem := st |> <| entry_mem := es |> in
    runs (PushNoLog x) s true s1
    /\ runs (Push x) s true (s1 <| marks := (addr_head s, 8) :: (addr_stck s (head_ s + 1), 8) :: marks s |>)
    /\ stack_word s1 n (head_ s + 1) = Some x
    /\ length st = length (stack_mem s) /\ length es = length (entry_mem s)
    /\ (forall i, 0 <= i -> i <> head_ s + 1 -> st !! Z.to_nat i = stack_mem s !! Z.to_nat i)
    /\ (head_ s + 1 < n -> es = entry_mem s).
Proof.
  intros Hsz Hh Hst Hes Hx. set (s0 := s <| head_ := head_ s + 1 |>).
  destruct (stck_set_runs s0 n (head_ s + 1) x) as (st & es & R & Hrest); try done; [lia|lia|]. exists st, es. cbn zeta in *.
  assert ((size_ s <=? head_ s) = false) as Hlt by (apply Z.leb_gt; lia).
  split; [|split; [|done]].
  - unfold runs, PushNoLog. rewrite (bind_runs _ _ _ _ _ (runs_getw _)), Hlt, (bind_runs _ _ _ _ _ (runs_modify _ _)).
    change (set_field head_ (head_ s + 1) s) with s0. by rewrite (bind_runs _ _ _ _ _ R).
  - unfold runs, Push. rewrite (bind_runs _ _ _ _ _ (runs_getw _)), Hlt, (bind_runs _ _ _ _ _ (runs_modify _ _)).
    change (set_field head_ (head_ s + 1) s) with s0. by rewrite (bind_runs _ _ _ _ _ R).
Qed.

(** The calls of the marker in [RemoveFromBucket]. *)
Definition remove_marks s (x : Z) : list (Z * Z) :=
  [(addr_head s, 8); (addr_stck s (head_ s + 1), 8); (this s + off_num_entries, 8); (addr_entry s x, sizeof_Entry);
   (buckets_ s, sizeof_Bucket)].

Lemma RemoveFromBucket_miss s nb n S P F b k j :
  cuckoo_rep s nb n S P F -> runs (FindSlot b (Hash k) k) s j s -> j = -1 -> runs (RemoveFromBucket (Hash k) b k) s false s.
Proof. intros Hr R ->. unfold RemoveFromBucket, runs. by rewrite (bind_runs _ _ _ _ _ R). Qed.

(** The key leaves the map and its entry is free. If it was the last key, the
    stack has written its index over entry 0. *)
Lemma removed_rep s s' nb n S P F b j k x :
  cuckoo_rep s nb n S P F -> cell nb b j -> P !! k = Some x -> S b j = (Hash k, x) ->
  layout_ok s' nb n -> sees (bucket_mem s') nb (upd S b j (0, x)) ->
  head_ s' = head_ s + 1 -> stack_word s' n (head_ s + 1) = Some x ->
  (forall i, 0 <= i -> i <> head_ s + 1 -> stack_mem s' !! Z.to_nat i = stack_mem s !! Z.to_nat i) ->
  (head_ s + 1 < n -> entry_mem s' = <[Z.to_nat x := Entry0]> (entry_mem s)) ->
  num_entries_ s' = u64 (num_entries_ s - 1) ->
  cuckoo_rep s' nb n (upd S b j (0, x)) (delete k P) (F ++ [x]) /\ contents s' (delete k P) = delete k (contents s P).
Proof.
  intros Hr Hc HP E Hl' Hv Hh' Hw Hst Hes Hnum. pose proof (cr_layout _ _ _ _ _ _ Hr) as Hl. pose proof (lo_n _ _ _ Hl) as Hn.
  pose proof (key_index_range _ _ _ _ _ _ Hr k x HP) as Hx. pose proof (rep_size _ _ _ _ _ _ Hr) as Hsz.
  pose proof (cr_head _ _ _ _ _ _ Hr) as Hh.
  assert (size P <> 0%nat) as Hne by (intros E0%map_size_empty_inv; subst P; done).
  assert (size (delete k P) = (size P - 1)%nat) as Hsd by (rewrite map_size_delete, HP; lia).
  assert (forall k' x', delete k P !! k' = Some x' -> P !! k' = Some x' /\ entry_mem s' !! Z.to_nat x' = entry_mem s !! Z.to_nat x') as Hent.
  { intros k' x' E'. assert (delete k P <> ∅) as Hnon by (intros E0; rewrite E0 in E'; done).
    rewrite <- map_size_non_empty_iff in Hnon. apply lookup_delete_Some in E' as [Hkk HP']. split; [done|].
    rewrite Hes by lia. rewrite list_lookup_insert_ne; [done|]. intros Hxx. apply Hkk.
    apply (key_index_inj _ _ _ _ _ _ Hr k' k x' HP'). pose proof (key_index_range _ _ _ _ _ _ Hr k' x' HP'). rewrite HP. f_equal. lia. }
  split; [constructor; try done|].
  - apply (remove_slot_rep _ _ _ _ _ k x); try done; [apply Hr|]. intros k' HP'. by apply (key_index_inj _ _ _ _ _ _ Hr k k' x).
  - apply indices_upd; [|by rewrite (lo_entries _ _ _ Hl')]. intros b' i' Hc'. rewrite (lo_entries _ _ _ Hl'), <- (lo_entries _ _ _ Hl).
    by apply (cr_indices _ _ _ _ _ _ Hr).
  - intros k' x' E'. destruct (Hent k' x' E') as [HP' ->]. by apply (cr_entries _ _ _ _ _ _ Hr).
  - rewrite Hh', Hh, length_app. cbn [length]. lia.
  - intros t y Ht. apply lookup_app_Some in Ht as [Ht|[Hge Ht]].
    + pose proof (lookup_lt_Some _ _ _ Ht). pose proof (cr_stack _ _ _ _ _ _ Hr t y Ht) as Hy. unfold stack_word in *.
      destruct (Z.eqb_spec (Z.of_nat t + 1) n); [lia|]. by rewrite Hst by lia.
    + apply list_lookup_singleton_Some in Ht as [Ht <-]. by replace (Z.of_nat t + 1) with (head_ s + 1) by lia.
  - rewrite app_assoc, Permutation_app_comm. cbn. rewrite <- (cr_split _ _ _ _ _ _ Hr), (indices_delete P k x HP). done.
  - rewrite Hnum, (cr_count _ _ _ _ _ _ Hr), u64_small by lia. lia.
  - apply map_eq. intros k'. rewrite contents_lookup. destruct (decide (k = k')) as [<-|Hkk].
    + by rewrite !lookup_delete_eq.
    + rewrite !lookup_delete_ne, contents_lookup by done. destruct (P !! k') as [x'|] eqn:HP'; [|done]. cbn.
      destruct (Hent k' x') as [_ ->]; [by rewrite lookup_delete_ne|done].
Qed.

Lemma RemoveFromBucket_runs s nb n S P F b k j x :
  cuckoo_rep s nb n S P F -> 0 <= b < nb -> 0 <= j < 4 -> runs (FindSlot b (Hash k) k) s j s -> P !! k = Some x -> S b j = (Hash k, x) ->
  exists s', runs (RemoveFromBucket (Hash k) b k) s true s'
    /\ cuckoo_rep s' nb n (upd S b j (0, x)) (delete k P) (F ++ [x])
    /\ contents s' (delete k P) = delete k (contents s P) /\ marks s' = remove_marks s x ++ marks s.
Proof.
  intros Hr Hb Hj R HP E. pose proof (cr_layout _ _ _ _ _ _ Hr) as Hl. pose proof (lo_n _ _ _ Hl) as Hn.
  pose proof (key_index_range _ _ _ _ _ _ Hr k x HP) as Hx. pose proof (rep_size _ _ _ _ _ _ Hr) as Hsz.
  assert (size P <> 0%nat) as Hne by (intros E0%map_size_empty_inv; subst P; done).
  pose proof (cr_head _ _ _ _ _ _ Hr) as Hh.
  destruct (cr_entries _ _ _ _ _ _ Hr k x HP) as (_ & v & Ee).
  destruct (set_hash_value_runs s nb S (cr_sees _ _ _ _ _ _ Hr) b j Hb Hj 0) as (bs1 & R1 & V1). rewrite E in V1. cbn [snd] in V1.
  set (s1 := s <| bucket_mem := bs1 |>) in *.
  set (s2 := s1 <| marks := (buckets_ s, sizeof_Bucket) :: marks s |>).
  pose proof (entry_index_runs s2 nb _ V1 b j Hb Hj) as R2. rewrite upd_eq in R2. cbn [snd] in R2.
  set (s3 := s2 <| entry_mem := <[Z.to_nat x := Entry0]> (entry_mem s) |>
               <| marks := (this s + off_num_entries, 8) :: (addr_entry s x, sizeof_Entry) :: (buckets_ s, sizeof_Bucket) :: marks s |>).
  destruct (Push_runs s3 n x) as (st & es & _ & R4 & Hw & Hlst & Hles & Hst & Hes);
    [apply Hl|cbn; lia|apply Hl|cbn; rewrite length_insert; apply Hl|lia|].
  set (s4 := s3 <| head_ := head_ s3 + 1 |> <| stack_mem := st |> <| entry_mem := es |>
                <| marks := (addr_head s3, 8) :: (addr_stck s3 (head_ s3 + 1), 8) :: marks s3 |>) in *.
  set (s5 := s4 <| num_entries_ := u64 (num_entries_ s4 - 1) |>). exists s5.
  assert (layout_ok s5 nb n) as Hl5.
  { destruct Hl. constructor; try done; cbn; [by rewrite Hlst|rewrite Hles; cbn; by rewrite length_insert]. }
  destruct (removed_rep s s5 nb n S P F b j k x) as [Hrep Hcon]; try done.
  split; [|split; [exact Hrep|split; [exact Hcon|reflexivity]]].
  unfold runs, RemoveFromBucket. rewrite (bind_runs _ _ _ _ _ R). destruct (Z.eqb_spec j (-1)); [lia|].
    rewrite (bind_runs _ _ _ _ _ R1), (bind_runs _ _ _ _ _ (runs_getw _)), (bind_runs _ _ _ _ _ (runs_mark _ _ _)).
    change (set_field marks _ s1) with s2.
    rewrite (bind_runs _ _ _ _ _ R2), (bind_runs _ _ _ _ _ (set_entry_runs s2 x _ Entry0 Ee)),
      (bind_runs _ _ _ _ _ (runs_mark _ _ _)), (bind_runs _ _ _ _ _ (runs_mark _ _ _)).
    change (set_field marks _ (set_field marks _ _)) with s3. unfold PushFreeEntryIndex.
    rewrite bind_assoc, (bind_runs _ _ _ _ _ R4). reflexivity.
Qed.

(** ** AddEntry *)

Lemma AddToBucket_none s nb n S P F b k v :
  cuckoo_rep s nb n S P F -> 0 <= b < nb -> F = [] \/ full S b -> runs (AddToBucket b k v) s None s.
Proof.
  intros Hr Hb Hno. destruct (FindEmptySlot_runs s nb S b (cr_sees _ _ _ _ _ _ Hr) Hb) as (j & R & Hj).
  unfold runs, AddToBucket. rewrite (bind_runs _ _ _ _ _ R). destruct Hj as [[-> _]|(Hj & He & _)]; [done|].
  destruct Hno as [->|Hf]; [|by apply Hf in He]. destruct (Z.eqb_spec j (-1)); [lia|].
  by rewrite (bind_runs _ _ _ _ _ (PopFreeEntryIndex_empty s (cr_head _ _ _ _ _ _ Hr))).
Qed.

(** [k] was inserted with value [v] into entry [x]. *)
Definition inserted s nb n P k v x s' : Prop :=
  exists S' F' ms, cuckoo_rep s' nb n S' (<[k := x]> P) F' /\ contents s' (<[k := x]> P) = <[k := v]> (contents s P) /\ data_reported s s' ms.

Lemma AddToBucket_cases s nb n S P F b k v :
  cuckoo_rep s nb n S P F -> P !! k = None -> place nb k b ->
  (runs (AddToBucket b k v) s None s /\ (F = [] \/ full S b))
  \/ exists x s', runs (AddToBucket b k v) s (Some x) s' /\ inserted s nb n P k v x s'.
Proof.
  intros Hr HP Hpl. pose proof (place_range _ _ _ _ _ _ Hr k b Hpl) as Hb.
  destruct (FindEmptySlot_runs s nb S b (cr_sees _ _ _ _ _ _ Hr) Hb) as (j & _ & Hj).
  destruct (decide (F = [])) as [->|HF]; [left; split; [eapply AddToBucket_none; eauto|by left]|].
  destruct (decide (j = -1)) as [->|Hj1].
  { left. assert (full S b) as Hf by (destruct Hj as [[_ ?]|(? & _)]; [done|lia]). split; [eapply AddToBucket_none; eauto|by right]. }
  right. apply exists_last in HF as (F' & x & ->).
  assert (0 <= j < 4 /\ fst (S b j) = 0) as [Hjr He] by (destruct Hj as [[? _]|(? & ? & _)]; [done|auto]).
  destruct (AddToBucket_runs s nb n S P F' x b j k v Hr Hb Hj (proj1 Hjr)) as (bs & R & Hv).
  assert (0 <= x < n) as Hx by (apply (index_range _ _ _ _ _ _ Hr); rewrite !elem_of_app, list_elem_of_singleton; auto).
  exists x, (added s bs b x k v). split; [exact R|].
  eexists _, F', _. split; [by eapply added_rep|]. split; [by eapply added_contents|].
  eapply (added_reported s nb S _ bs b x k v); try done; [apply Hr|lia|]. intros b' i Hne. rewrite upd_ne; [done|]. lia.
Qed.

Lemma space_rep s nb n S P F index left r S' bs ms :
  cuckoo_rep s nb n S P F -> sees bs nb S' -> made_space nb (entry_mem s) P s S index left r S' ms ->
  cuckoo_rep (put s bs ms) nb n S' P F /\ contents (put s bs ms) P = contents s P /\ data_reported s (put s bs ms) ms.
Proof.
  intros Hr Hv Hm. split; [|split; [done|]].
  - destruct Hr as [[] ? ? ? ? ? ? ? ?]. constructor; try done; [apply Hm|apply Hm].
  - constructor; try done; auto. 1: intros b Hb; cbn; destruct (Z.lt_ge_cases b nb) as [Hlt|Hge].
    + destruct (decide ((addr_bucket s b, sizeof_Bucket) ∈ ms)) as [?|Hno]; [by right|left].
      apply (sees_same_bucket _ _ nb S S'); try done; [apply Hr|]. intros i Hi.
      destruct (decide (S' b i = S b i)) as [?|Hne]; [done|]. destruct Hno. by apply (mp_marks _ _ _ _ _ _ _ _ _ _ Hm b i).
    + left. pose proof (proj1 Hv). pose proof (proj1 (cr_sees _ _ _ _ _ _ Hr)). by rewrite !lookup_ge_None_2 by lia.
    + intros m Hin. left. destruct (mp_only _ _ _ _ _ _ _ _ _ _ Hm m Hin) as (b & Hb & ->). exists b. split; [lia|done].
Qed.
(** [MakeSpace] from a state of the table. *)
Lemma MakeSpace_cases s nb n S P F index :
  cuckoo_rep s nb n S P F -> 0 <= index < nb -> full S index \/ no_zero_hash (entry_mem s) ->
  runs (MakeSpace kMaxCuckooPath index) s (-1) s
  \/ exists r s' S' ms, runs (MakeSpace kMaxCuckooPath index) s r s' /\ 0 <= r < 4 /\ cuckoo_rep s' nb n S' P F
       /\ contents s' P = contents s P /\ data_reported s s' ms /\ fst (S' index r) = 0 /\ total nb S' < total nb S
       /\ entry_mem s' = entry_mem s.
Proof.
  intros Hr Hx Hfz.
  destruct (MakeSpace_spec nb (lo_pow _ _ _ (cr_layout _ _ _ _ _ _ Hr)) (entry_mem s) P (cr_entries _ _ _ _ _ _ Hr) kMaxCuckooPath
              ltac:(unfold kMaxCuckooPath; lia) s S index (rep_space_inv _ _ _ _ _ _ Hr) Hx Hfz) as [R|(r & S' & bs & ms & R & Hv & Hm)];
    [by left|right].
  destruct (space_rep _ _ _ _ _ _ _ _ _ _ _ _ Hr Hv Hm) as (Hr' & Hc & Hrep).
  exists r, (put s bs ms), S', ms. split; [done|]. split; [apply Hm|]. split; [done|]. split; [done|]. split; [done|].
  split; [apply Hm|]. split; [|done]. apply (mp_decreases _ _ _ _ _ _ _ _ _ _ Hm). unfold kMaxCuckooPath. lia.
Qed.

Lemma inserted_after s nb n P k v x s1 s' ms :
  contents s1 P = contents s P -> data_reported s s1 ms -> inserted s1 nb n P k v x s' -> inserted s nb n P k v x s'.
Proof.
  intros Hc Hm (S' & F' & ms' & Hr' & Hc' & Hm'). exists S', F', (ms' ++ ms). rewrite <- Hc.
  split; [done|]. split; [done|]. by eapply reported_trans.
Qed.

(** Both buckets of the key are tried before space is made. *)
Lemma AddEntry_tries fuel s nb n S P F k v :
  cuckoo_rep s nb n S P F -> P !! k = None ->
  (exists x s', runs (AddEntry (Datatypes.S fuel) (Hash k) (HashSecondary (Hash k)) k v) s (Some x) s' /\ inserted s nb n P k v x s')
  \/ ((F = [] \/ (full S (Z.land (Hash k) (nb - 1)) /\ full S (alt nb (Hash k))))
      /\ AddEntry (Datatypes.S fuel) (Hash k) (HashSecondary (Hash k)) k v s
         = (r ← MakeSpace kMaxCuckooPath (Z.land (Hash k) (nb - 1));
            if 0 <=? r then AddEntry fuel (Hash k) (HashSecondary (Hash k)) k v
            else
              r ← MakeSpace kMaxCuckooPath (alt nb (Hash k));
              if 0 <=? r then AddEntry fuel (Hash k) (HashSecondary (Hash k)) k v else mret None) s).
Proof.
  intros Hr HP. cbn [AddEntry]. unfold runs. rewrite (bind_runs _ _ _ _ _ (runs_gets _ _)), (lo_mask _ _ _ (cr_layout _ _ _ _ _ _ Hr)).
  fold (alt nb (Hash k)).
  destruct (AddToBucket_cases s nb n S P F (Z.land (Hash k) (nb - 1)) k v Hr HP ltac:(by left)) as [[R1 H1]|(x & s' & R1 & Hi)];
    [|left; exists x, s'; by rewrite (bind_runs _ _ _ _ _ R1)].
  rewrite (bind_runs _ _ _ _ _ R1).
  destruct (AddToBucket_cases s nb n S P F (alt nb (Hash k)) k v Hr HP ltac:(by right)) as [[R2 H2]|(x & s' & R2 & Hi)];
    [|left; exists x, s'; by rewrite (bind_runs _ _ _ _ _ R2)].
  rewrite (bind_runs _ _ _ _ _ R2). right. split; [|done]. destruct H1, H2; auto.
Qed.

(** The insertion failed: the table has the same contents. *)
Definition refused s nb n P s' : Prop :=
  exists S' F' ms, cuckoo_rep s' nb n S' P F' /\ contents s' P = contents s P /\ data_reported s s' ms.

Lemma AddEntry_free fuel s nb n S P F k v :
  cuckoo_rep s nb n S P F -> P !! k = None -> F <> [] ->
  (exists x s', runs (AddEntry (2 + fuel) (Hash k) (HashSecondary (Hash k)) k v) s (Some x) s' /\ inserted s nb n P k v x s')
  \/ (runs (AddEntry (2 + fuel) (Hash k) (HashSecondary (Hash k)) k v) s None s
      /\ full S (Z.land (Hash k) (nb - 1)) /\ full S (alt nb (Hash k))).
Proof.
  intros Hr HP HF. change (2 + fuel)%nat with (Datatypes.S (Datatypes.S fuel)).
  destruct (AddEntry_tries (Datatypes.S fuel) s nb n S P F k v Hr HP) as [?|[Hfull E]]; [by left|].
  destruct Hfull as [?|[Hf1 Hf2]]; [done|]. unfold runs. rewrite E. clear E.
  assert (forall s1 S1 ms b r, cuckoo_rep s1 nb n S1 P F -> contents s1 P = contents s P -> data_reported s s1 ms ->
    0 <= r < 4 -> place nb k b -> fst (S1 b r) = 0 ->
    exists x s', runs (AddEntry (Datatypes.S fuel) (Hash k) (HashSecondary (Hash k)) k v) s1 (Some x) s' /\ inserted s nb n P k v x s') as Hagain.
  { intros s1 S1 ms b r Hr1 Hc1 Hm1 Hrr Hb He.
    destruct (AddEntry_tries fuel s1 nb n S1 P F k v Hr1 HP) as [(x & s' & R & Hi)|[[?|[Hg1 Hg2]] _]]; [|done|].
    - exists x, s'. split; [done|]. by eapply inserted_after.
    - exfalso. destruct Hb as [->| ->]; [by apply (Hg1 r)|by apply (Hg2 r)]. }
  destruct (MakeSpace_cases s nb n S P F (Z.land (Hash k) (nb - 1)) Hr ltac:(apply (place_range _ _ _ _ _ _ Hr k); by left) ltac:(by left))
    as [R|(r & s1 & S1 & ms & R & Hrr & Hr1 & Hc1 & Hm1 & He & _)]; rewrite (bind_runs _ _ _ _ _ R).
  - change (0 <=? -1) with false. cbv iota.
    destruct (MakeSpace_cases s nb n S P F (alt nb (Hash k)) Hr ltac:(apply (place_range _ _ _ _ _ _ Hr k); by right) ltac:(by left))
      as [R2|(r & s1 & S1 & ms & R2 & Hrr & Hr1 & Hc1 & Hm1 & He & _)]; rewrite (bind_runs _ _ _ _ _ R2); [by right|left].
    destruct (Z.leb_spec 0 r); [|lia]. apply (Hagain s1 S1 ms (alt nb (Hash k)) r); try done. by right.
  - left. destruct (Z.leb_spec 0 r); [|lia]. apply (Hagain s1 S1 ms (Z.land (Hash k) (nb - 1)) r); try done. by left.
Qed.

(** Without a free entry nothing is added, and the loop ends: each iteration
    makes the measure smaller. *)
Lemma AddEntry_exhausted fuel s nb n S P k v :
  cuckoo_rep s nb n S P [] -> P !! k = None -> no_zero_hash (entry_mem s) -> total nb S < Z.of_nat fuel ->
  exists s', runs (AddEntry fuel (Hash k) (HashSecondary (Hash k)) k v) s None s' /\ refused s nb n P s'.
Proof.
  revert s S. induction fuel as [|fuel IH]; intros s S Hr HP Hz Ht.
  { pose proof (total_range nb S). pose proof (pow2_pos nb (lo_pow _ _ _ (cr_layout _ _ _ _ _ _ Hr))). lia. }
  destruct (AddEntry_tries fuel s nb n S P [] k v Hr HP) as [(x & s' & _ & (S' & F' & _ & Hr' & _ & _))|[_ E]].
  { exfalso. pose proof (rep_size _ _ _ _ _ _ Hr) as H1. pose proof (rep_size _ _ _ _ _ _ Hr') as H2.
    rewrite map_size_insert, HP in H2. cbn [length] in *. lia. }
  assert (forall r s1 S1 ms, cuckoo_rep s1 nb n S1 P [] -> contents s1 P = contents s P -> data_reported s s1 ms ->
    total nb S1 < total nb S -> entry_mem s1 = entry_mem s ->
    exists s', runs (if 0 <=? r then AddEntry fuel (Hash k) (HashSecondary (Hash k)) k v else mret None) s1 None s' /\ refused s nb n P s') as Hagain.
  { intros r s1 S1 ms Hr1 Hc1 Hm1 Hlt Hes. destruct (0 <=? r).
    - destruct (IH s1 S1 Hr1 HP) as (s' & R & S' & F' & ms' & Hr' & Hc' & Hm'); [by rewrite Hes|lia|].
      exists s'. split; [done|]. exists S', F', (ms' ++ ms). rewrite <- Hc1. split; [done|]. split; [done|]. by eapply reported_trans.
    - exists s1. split; [done|]. by exists S1, [], ms. }
  unfold runs. rewrite E. clear E.
  destruct (MakeSpace_cases s nb n S P [] (Z.land (Hash k) (nb - 1)) Hr ltac:(apply (place_range _ _ _ _ _ _ Hr k); by left) ltac:(by right))
    as [R|(r & s1 & S1 & ms & R & Hrr & Hr1 & Hc1 & Hm1 & _ & Hlt & Hes)]; rewrite (bind_runs _ _ _ _ _ R).
  - change (0 <=? -1) with false. cbv iota.
    destruct (MakeSpace_cases s nb n S P [] (alt nb (Hash k)) Hr ltac:(apply (place_range _ _ _ _ _ _ Hr k); by right) ltac:(by right))
      as [R2|(r & s1 & S1 & ms & R2 & _ & Hr1 & Hc1 & Hm1 & _ & Hlt & Hes)]; rewrite (bind_runs _ _ _ _ _ R2).
    + exists s. split; [done|]. exists S, [], []. split; [done|]. split; [done|]. apply reported_refl.
    + by apply (Hagain r s1 S1 ms).
  - destruct (Hagain r s1 S1 ms) as (s' & R' & Href); try done. destruct (Z.leb_spec 0 r); [|lia]. by exists s'.
Qed.

(** ** Insert and Remove *)

Lemma update_rep s nb n S P F k x v :
  cuckoo_rep s nb n S P F -> P !! k = Some x ->
  let s' := s <| entry_mem := <[Z.to_nat x := mk_entry k v]> (entry_mem s) |> <| marks := (addr_entry s x, sizeof_Entry) :: marks s |> in
  cuckoo_rep s' nb n S P F /\ contents s' P = <[k := v]> (contents s P) /\ data_reported s s' [(addr_entry s x, sizeof_Entry)].
Proof.
  intros Hr HP s'. pose proof (key_index_range _ _ _ _ _ _ Hr k x HP) as Hx. pose proof (rep_size _ _ _ _ _ _ Hr) as Hsz.
  assert (size P <> 0%nat) as Hne by (intros E0%map_size_empty_inv; subst P; done).
  pose proof (lo_entries _ _ _ (cr_layout _ _ _ _ _ _ Hr)) as Hlen.
  assert (entry_mem s' !! Z.to_nat x = Some (mk_entry k v)) as Hnew by (cbn; apply list_lookup_insert_eq; lia).
  assert (forall k' x', P !! k' = Some x' -> k' <> k -> entry_mem s' !! Z.to_nat x' = entry_mem s !! Z.to_nat x') as Hold.
  { intros k' x' HP' Hkk. cbn. rewrite list_lookup_insert_ne; [done|]. intros Exx. apply Hkk, (key_index_inj _ _ _ _ _ _ Hr _ _ x HP).
    rewrite HP'. f_equal. pose proof (key_index_range _ _ _ _ _ _ Hr k' x' HP'). lia. }
  split; [|split].
  - pose proof Hr as [[] ? ? Hi He ? Hw ? ?]. constructor; try done.
    + constructor; try done. cbn. by rewrite length_insert.
    + intros b i Hc. cbn. rewrite length_insert. by apply Hi.
    + intros k' x' HP'. destruct (decide (k' = k)) as [->|Hkk]; [replace x' with x by congruence; split; [lia|eauto]|].
      rewrite (Hold k' x' HP' Hkk). by apply He.
    + intros t y Ht. pose proof (lookup_lt_Some _ _ _ Ht). rewrite (stack_word_below s) by (try done; lia). by apply Hw.
  - apply map_eq. intros k'. rewrite contents_lookup. destruct (decide (k = k')) as [<-|Hkk].
    + rewrite lookup_insert_eq, HP. cbn [mbind option_bind]. by rewrite Hnew.
    + rewrite lookup_insert_ne, contents_lookup by done. destruct (P !! k') as [x'|] eqn:HP'; [|done].
      cbn [mbind option_bind]. by rewrite (Hold k' x' HP') by done.
  - constructor; try done; auto.
    + intros x' Hx'. destruct (decide (x' = x)) as [->|Hxx]; [right; left|left]. cbn. rewrite list_lookup_insert_ne; [done|lia].
    + intros m ->%list_elem_of_singleton. right; left. exists x. split; [lia|done].
Qed.

Lemma Insert_update fuel s nb n S P F k x v :
  cuckoo_rep s nb n S P F -> P !! k = Some x ->
  exists s', runs (Insert fuel k v) s (Some x) s' /\ inserted s nb n P k v x s'.
Proof.
  intros Hr HP. destruct (update_rep s nb n S P F k x v Hr HP) as (Hr' & Hc & Hm).
  destruct (cr_entries _ _ _ _ _ _ Hr k x HP) as (_ & v0 & Ee). pose proof (index_valid _ _ _ _ _ _ Hr k x HP) as Hne. apply Z.eqb_neq in Hne.
  assert (differ (V := V) k k = false) as Hd by (apply not_true_is_false; intros [] %(differ_spec (V := V)); done).
  eexists. split.
  - unfold runs, Insert. rewrite (bind_runs _ _ _ _ _ (FindWithHash_runs _ _ _ _ _ _ Hr k)), HP. cbn [default from_option id]. rewrite Hne.
    cbn [negb]. rewrite (bind_runs _ _ _ _ _ (get_entry_runs s x _ Ee)). cbn [first]. rewrite Hd.
    rewrite (bind_runs _ _ _ _ _ (set_entry_runs s x _ _ Ee)). reflexivity.
  - eexists S, F, _. rewrite insert_id by done. split; [exact Hr'|]. split; [exact Hc|exact Hm].
Qed.

Lemma Insert_new fuel s nb n S P F k v :
  cuckoo_rep s nb n S P F -> P !! k = None ->
  Insert fuel k v s = AddEntry fuel (Hash k) (HashSecondary (Hash k)) k v s.
Proof.
  intros Hr HP. unfold Insert. rewrite (bind_runs _ _ _ _ _ (FindWithHash_runs _ _ _ _ _ _ Hr k)), HP. done.
Qed.

Lemma Remove_runs s nb n S P F k :
  cuckoo_rep s nb n S P F ->
  (P !! k = None /\ runs (Remove k) s false s)
  \/ exists x b i s', P !! k = Some x /\ cell nb b i /\ S b i = (Hash k, x) /\ runs (Remove k) s true s'
       /\ cuckoo_rep s' nb n (upd S b i (0, x)) (delete k P) (F ++ [x])
       /\ contents s' (delete k P) = delete k (contents s P) /\ marks s' = remove_marks s x ++ marks s.
Proof.
  intros Hr. pose proof (lo_mask _ _ _ (cr_layout _ _ _ _ _ _ Hr)) as Hm.
  assert (forall b, 0 <= b < nb ->
    (runs (RemoveFromBucket (Hash k) b k) s false s /\ (forall i x, 0 <= i < 4 -> P !! k = Some x -> S b i <> (Hash k, x)))
    \/ exists x i s', P !! k = Some x /\ cell nb b i /\ S b i = (Hash k, x) /\ runs (RemoveFromBucket (Hash k) b k) s true s'
       /\ cuckoo_rep s' nb n (upd S b i (0, x)) (delete k P) (F ++ [x])
       /\ contents s' (delete k P) = delete k (contents s P) /\ marks s' = remove_marks s x ++ marks s) as Hone.
  { intros b Hb. destruct (FindSlot_runs _ _ _ _ _ _ Hr b k Hb) as (j & R & [[-> Hj]|(Hj & HP & Hh)]).
    - left. split; [by eapply RemoveFromBucket_miss|done].
    - right. assert (S b j = (Hash k, snd (S b j))) as E by (rewrite <- Hh; apply surjective_pairing).
      destruct (RemoveFromBucket_runs s nb n S P F b k j _ Hr Hb Hj R HP E) as (s' & ?). exists (snd (S b j)), j, s'. by repeat (split; [done|]). }
  unfold Remove, runs. setoid_rewrite (bind_runs _ _ _ _ _ (runs_gets _ _)). rewrite Hm. fold (alt nb (Hash k)).
  destruct (Hone (Z.land (Hash k) (nb - 1)) ltac:(apply (place_range _ _ _ _ _ _ Hr k); by left)) as [[R1 H1]|(x & i & s' & HP & Hc & E & R1 & Hrest)].
  - setoid_rewrite (bind_runs _ _ _ _ _ R1).
    destruct (Hone (alt nb (Hash k)) ltac:(apply (place_range _ _ _ _ _ _ Hr k); by right)) as [[R2 H2]|(x & i & s' & HP & Hc & E & R2 & Hrest)].
    + left. rewrite (bind_runs _ _ _ _ _ R2). split; [|done]. destruct (P !! k) as [x|] eqn:HP; [exfalso|done].
      destruct (sr_key _ _ _ (cr_slots _ _ _ _ _ _ Hr) k x HP) as (b & i & Hc & E).
      destruct (sr_live _ _ _ (cr_slots _ _ _ _ _ _ Hr) b i Hc ltac:(rewrite E; apply Hash_nonzero)) as (k' & HP' & _ & Hpl).
      rewrite E in HP'. cbn in HP'. rewrite (key_index_inj _ _ _ _ _ _ Hr _ _ _ HP HP') in Hpl.
      destruct Hpl as [->| ->]; [by apply (H1 i x (proj2 Hc))|by apply (H2 i x (proj2 Hc))].
    + right. exists x, (alt nb (Hash k)), i, s'. rewrite (bind_runs _ _ _ _ _ R2). by repeat (split; [done|]).
  - right. exists x, (Z.land (Hash k) (nb - 1)), i, s'. rewrite (bind_runs _ _ _ _ _ R1). by repeat (split; [done|]).
Qed.
End ops.
