(* ===== verification/CuckooCreate.v ===== *)
(** * CuckooCreate: a new table is empty *)
From stdpp Require Import base gmap list numbers.
From Stdlib Require Import ZArith Lia.
From S2P Require Import Prelude Cuckoo CuckooSlots CuckooSpace CuckooProofs CuckooOps.

Section create.
Context {K V : Type} `{Countable K, !CuckooTypes K V, !CuckooLaws K V}.
Implicit Types s : CuckooMap K V.

Definition empty_slots : slots := fun _ _ => (0, 0).

Lemma empty_sees nb : 0 <= nb -> sees (replicate (Z.to_nat nb) Bucket0) nb empty_slots.
Proof.
  intros Hnb. split; [rewrite length_replicate; lia|]. intros b Hb. exists Bucket0. split; [apply lookup_replicate_2; lia|].
  constructor; try done; intros i Hi; assert (i = 0 \/ i = 1 \/ i = 2 \/ i = 3) as Hc by lia; by destruct Hc as [->|[->|[->| ->]]].
Qed.

(** The loop of [Clear] pushes the indices from the last one down to 0. *)
Record pushing nb n s (m : Z) : Prop := {
  pu_layout : layout_ok s nb n;
  pu_range : 0 <= m <= n;
  pu_head : head_ s = n - m;
  pu_stack t x : rev (seqZ m (n - m)) !! t = Some x -> stack_word s n (Z.of_nat t + 1) = Some x;
  pu_buckets : bucket_mem s = replicate (Z.to_nat nb) Bucket0;
  pu_count : num_entries_ s = 0;
}.

Lemma rev_seqZ_snoc n m : 0 < m <= n -> rev (seqZ (m - 1) (n - (m - 1))) = rev (seqZ m (n - m)) ++ [m - 1].
Proof.
  intros Hm. rewrite seqZ_cons by lia. cbn [rev]. replace (Z.succ (m - 1)) with m by lia. by replace (Z.pred (n - (m - 1))) with (n - m) by lia.
Qed.

Lemma push_step nb n s m :
  pushing nb n s m -> 0 < m ->
  exists s', runs (PushNoLog (m - 1)) s true s' /\ pushing nb n s' (m - 1) /\ this s' = this s.
Proof.
  intros [Hl Hm Hh Hst Hb Hc] Hm0. pose proof (lo_n _ _ _ Hl) as Hn.
  destruct (Push_runs s n (m - 1)) as (st & es & R & _ & Hw & Hlst & Hles & Hkeep & _);
    [apply Hl|lia|apply Hl|apply Hl|lia|]. cbn zeta in *.
  eexists. split; [exact R|]. split; [|done]. constructor; try done.
  - destruct Hl. constructor; try done; cbn; [by rewrite Hlst|by rewrite Hles].
  - lia.
  - cbn. lia.
  - intros t x Ht. rewrite rev_seqZ_snoc in Ht by lia.
    assert (length (rev (seqZ m (n - m))) = Z.to_nat (n - m)) as Hlen by (rewrite length_rev, length_seqZ; done).
    apply lookup_app_Some in Ht as [Ht|[Hge Ht]].
    + pose proof (lookup_lt_Some _ _ _ Ht). specialize (Hst t x Ht). unfold stack_word in *.
      destruct (Z.eqb_spec (Z.of_nat t + 1) n); [lia|]. cbn. by rewrite Hkeep by lia.
    + apply list_lookup_singleton_Some in Ht as [Ht <-]. replace (Z.of_nat t + 1) with (head_ s + 1) by lia. exact Hw.
Qed.

Lemma push_all nb n s :
  pushing nb n s n ->
  exists s', runs (for_each (rev (seqZ 0 n)) (fun i => _ ← PushNoLog i; mret tt)) s tt s' /\ pushing nb n s' 0 /\ this s' = this s.
Proof.
  intros Hp.
  destruct (for_each_inv (fun l s' => exists m, l = rev (seqZ 0 m) /\ pushing nb n s' m /\ this s' = this s)
              (fun i => _ ← PushNoLog i; mret tt) (rev (seqZ 0 n)) s) as (s' & R & m & E & Hp' & Ht).
  - by exists n.
  - intros i l s1 (m & E & Hp1 & Ht1). destruct (Z.le_gt_cases m 0) as [Hle|Hgt]; [by rewrite seqZ_nil in E by lia|].
    assert (rev (seqZ 0 m) = (m - 1) :: rev (seqZ 0 (m - 1))) as E'.
    { rewrite (seqZ_split 0 m (m - 1)) by lia. replace (m - (m - 1)) with 1 by lia. rewrite rev_app_distr. done. }
    rewrite E' in E. injection E as -> ->.
    destruct (push_step nb n s1 m Hp1 Hgt) as (s2 & R2 & Hp2 & Ht2). exists s2. split.
    + unfold runs. by rewrite (bind_runs _ _ _ _ _ R2).
    + exists (m - 1). by rewrite Ht2.
  - exists s'. split; [done|]. split; [|done]. destruct (Z.eq_dec m 0) as [->|Hne]; [done|].
    apply (f_equal length) in E. rewrite length_rev, length_seqZ in E. cbn in E. pose proof (pu_range _ _ _ _ Hp'). lia.
Qed.

Lemma pushed_rep nb n s : pushing nb n s 0 -> cuckoo_rep s nb n empty_slots ∅ (rev (seqZ 0 n)).
Proof.
  intros [Hl Hm Hh Hst Hb Hc]. pose proof (lo_n _ _ _ Hl) as Hn. pose proof (pow2_pos nb (lo_pow _ _ _ Hl)) as Hnb.
  constructor; try done.
  - rewrite Hb. apply empty_sees. lia.
  - intros b i _. cbn. rewrite (lo_entries _ _ _ Hl). lia.
  - rewrite Hh, length_rev, length_seqZ. lia.
  - intros t x Ht. apply Hst. by replace (n - 0) with n by lia.
  - unfold indices. rewrite map_to_list_empty. cbn. symmetry. apply Permutation_rev.
Qed.

Lemma memset0_runs {A} (zero : A) n (l : list A) s :
  Z.of_nat (length l) = n -> runs (memset0 zero n l) s (replicate (Z.to_nat n) zero) s.
Proof.
  intros Hn. unfold memset0, runs. destruct (Z.leb_spec n (Z.of_nat (length l))); [|lia].
  by rewrite drop_ge, app_nil_r by lia.
Qed.

Lemma Clear_runs nb n s :
  layout_ok s nb n -> Z.of_nat (length (bucket_mem s)) = nb ->
  exists s', runs Clear s tt s' /\ cuckoo_rep s' nb n empty_slots ∅ (rev (seqZ 0 n)).
Proof.
  intros Hl Hb. pose proof (lo_n _ _ _ Hl) as Hn. pose proof (lo_pow _ _ _ Hl) as Hpow. pose proof (pow2_pos nb Hpow) as Hnb.
  assert (u32 (nb - 1) = nb - 1) as Hmask.
  { apply u32_small. destruct Hpow as (k & Hk & ->). pose proof (Z.pow_le_mono_r 2 k 30 ltac:(lia) ltac:(lia)). lia. }
  set (s1 := s <| head_ := 0 |> <| marks := (addr_head s, 8) :: marks s |>).
  set (s2 := s1 <| bucket_mem := replicate (Z.to_nat nb) Bucket0 |>).
  set (s3 := s2 <| entry_mem := replicate (Z.to_nat n) Entry0 |> <| num_entries_ := 0 |> <| bucket_mask_ := nb - 1 |>).
  destruct (push_all nb n s3) as (s4 & R4 & Hp4 & Ht4).
  { constructor; try done.
    - destruct Hl. constructor; try done. cbn. rewrite length_replicate. lia.
    - lia.
    - cbn. lia.
    - intros t x Ht. rewrite Z.sub_diag in Ht. done. }
  pose proof (pushed_rep nb n s4 Hp4) as Hr4. eexists. split.
  - assert (runs Stack_Clear s tt s1) as R1 by reflexivity. unfold runs, Clear.
    rewrite (bind_runs _ _ _ _ _ R1), (bind_runs _ _ _ _ _ (runs_getw _)). change (alloc_num_buckets_ s1) with (alloc_num_buckets_ s).
    change (alloc_num_entries_ s1) with (alloc_num_entries_ s). rewrite (lo_nb _ _ _ Hl), (lo_ne _ _ _ Hl).
    rewrite (bind_runs _ _ _ _ _ (memset0_runs Bucket0 nb (bucket_mem s1) s1 Hb)), (bind_runs _ _ _ _ _ (runs_modify _ _)).
    change (set_field bucket_mem _ s1) with s2.
    rewrite (bind_runs _ _ _ _ _ (memset0_runs Entry0 n (entry_mem s1) s2 (lo_entries _ _ _ Hl))), (bind_runs _ _ _ _ _ (runs_modify _ _)).
    change (alloc_num_buckets_ s2) with (alloc_num_buckets_ s). rewrite (lo_nb _ _ _ Hl), Hmask.
    change (set_field bucket_mask_ _ _) with s3. rewrite (bind_runs _ _ _ _ _ R4). reflexivity.
  - destruct Hr4 as [[] ? ? ? ? ? ? ? ?]. constructor; try done.
Qed.

(** The checks of [Create] succeed and its casts change nothing. *)
Lemma create_checks area_size nb n :
  pow2 nb -> nb <= n < 2 ^ 31 -> Size (K := K) (V := V) n nb <= area_size ->
  (area_size <? Size (K := K) (V := V) n nb) = false
  /\ (nb =? 0) || (n =? 0) || negb (Z.land nb (nb - 1) =? 0) || (n <? nb) = false
  /\ BytesForEntries n = 24 + n * 4 /\ (area_size - sizeof_CuckooMap <? 24 + n * 4) = false
  /\ i32 nb = nb /\ i32 n = n /\ u32 (nb - 1) = nb - 1.
Proof.
  intros Hpow Hn Hsize. pose proof (pow2_pos nb Hpow) as Hnb. pose proof (sizeof_Entry_range (K := K) (V := V)) as Hse.
  assert (BytesForEntries n = 24 + n * 4) as Hbytes by (unfold BytesForEntries, sizeof_EntryStack, sizeof_EntryIndex; apply u64_small; lia).
  assert (Size (K := K) (V := V) n nb = 48 + (24 + n * 4) + sizeof_Entry * n + 32 * nb) as Hsz.
  { unfold Size. rewrite Hbytes. unfold sizeof_CuckooMap, sizeof_Bucket. apply u64_small. nia. }
  assert (Z.land nb (nb - 1) = 0) as Hland.
  { destruct Hpow as (k & Hk & ->). replace (2 ^ k - 1) with (Z.ones k) by (rewrite Z.ones_equiv; lia).
    rewrite Z.land_ones by lia. apply Z.mod_same. lia. }
  rewrite Hland, i32_small, i32_small, u32_small by lia. unfold sizeof_CuckooMap.
  destruct (Z.ltb_spec area_size (Size n nb)); [lia|]. destruct (Z.eqb_spec nb 0); [lia|]. destruct (Z.eqb_spec n 0); [lia|].
  destruct (Z.ltb_spec n nb); [lia|]. destruct (Z.ltb_spec (area_size - 48) (24 + n * 4)); [nia|]. done.
Qed.

(** The fields [Create] sets before it clears the table. *)
Definition placed area n s : CuckooMap K V :=
  s <| head_ := 0 |> <| size_ := n |> <| stck_ := area + sizeof_CuckooMap + sizeof_EntryStack |>
    <| marks := (area + sizeof_CuckooMap, sizeof_EntryStack) :: marks s |>.

Definition laid_out area nb n s : CuckooMap K V :=
  placed area n s <| this := area |> <| free_entry_indices_ := area + sizeof_CuckooMap |>
    <| entries_ := area + sizeof_CuckooMap + (24 + n * 4) |> <| buckets_ := area + sizeof_CuckooMap + (24 + n * 4) + sizeof_Entry (K := K) (V := V) * n |>
    <| alloc_num_buckets_ := nb |> <| alloc_num_entries_ := n |> <| num_entries_ := 0 |> <| bucket_mask_ := nb - 1 |>.

Lemma laid_out_ok area nb n s :
  pow2 nb -> nb <= n < 2 ^ 31 -> Z.of_nat (length (stack_mem s)) = n -> Z.of_nat (length (entry_mem s)) = n -> layout_ok (laid_out area nb n s) nb n.
Proof.
  intros Hpow Hn Hst Hen. pose proof (pow2_pos nb Hpow). constructor; try done; cbn; unfold sizeof_EntryStack, sizeof_EntryIndex; lia.
Qed.

Lemma EntryStack_Create_runs area area_size n s :
  BytesForEntries n = 24 + n * 4 -> (area_size - sizeof_CuckooMap <? 24 + n * 4) = false ->
  runs (EntryStack_Create (area + sizeof_CuckooMap) (area_size - sizeof_CuckooMap) n) s true (placed area n s).
Proof. intros Hb Hlt. unfold runs, EntryStack_Create. by rewrite Hb, Hlt. Qed.

(** On memory of the right size [Create] makes an empty table. *)
Lemma Create_runs area area_size nb n s :
  pow2 nb -> nb <= n < 2 ^ 31 -> Size n nb <= area_size ->
  Z.of_nat (length (stack_mem s)) = n -> Z.of_nat (length (entry_mem s)) = n -> Z.of_nat (length (bucket_mem s)) = nb ->
  exists s', runs (Create area area_size n nb) s true s' /\ cuckoo_rep s' nb n empty_slots ∅ (rev (seqZ 0 n)).
Proof.
  intros Hpow Hn Hsize Hst Hen Hbu. destruct (create_checks area_size nb n Hpow Hn Hsize) as (E1 & E2 & Hbytes & E3 & E4 & E5 & E6).
  destruct (Clear_runs nb n (laid_out area nb n s) (laid_out_ok area nb n s Hpow Hn Hst Hen) Hbu) as (s3 & R3 & Hr3).
  exists s3. split; [|done]. unfold runs, Create. rewrite E1, E2, (bind_runs _ _ _ _ _ (EntryStack_Create_runs area area_size n s Hbytes E3)).
  cbn [negb]. rewrite (bind_runs _ _ _ _ _ (runs_modify _ _)), Hbytes, E4, E5, E6.
  change (set_field bucket_mask_ _ _) with (laid_out area nb n s). by rewrite (bind_runs _ _ _ _ _ R3).
Qed.
End create.
