(* ===== verification/CuckooTable.v ===== *)
(** * CuckooTable: the cuckoo table refines a finite map

    The theorems on the operations of the table, stated with [is_map]: the
    table holds the finite map [M]. *)
From stdpp Require Import base gmap list numbers.
From Stdlib Require Import ZArith Lia.
From S2P Require Import Prelude Cuckoo CuckooSlots CuckooSpace CuckooProofs CuckooOps CuckooCreate.

(** ** Specification *)

Inductive map_op (K V : Type) := OpInsert (k : K) (v : V) | OpFind (k : K) | OpRemove (k : K).
Arguments OpInsert {K V}.
Arguments OpFind {K V}.
Arguments OpRemove {K V}.

Inductive map_res (V : Type) := ResInsert (ok : bool) | ResFind (r : option V) | ResRemove (ok : bool).
Arguments ResInsert {V}.
Arguments ResFind {V}.
Arguments ResRemove {V}.

Section spec.
Context {K V : Type} `{Countable K, !CuckooTypes K V}.

(** A finite map whose insertion of a new key may be refused once there are
    four keys, the number of slots of a bucket. *)
Inductive spec_op : gmap K V -> map_op K V -> map_res V -> gmap K V -> Prop :=
| spec_insert M k v : spec_op M (OpInsert k v) (ResInsert true) (<[k := v]> M)
| spec_refuse M k v : M !! k = None -> (4 <= size M)%nat -> spec_op M (OpInsert k v) (ResInsert false) M
| spec_find M k : spec_op M (OpFind k) (ResFind (M !! k)) M
| spec_remove M k : spec_op M (OpRemove k) (ResRemove (bool_decide (is_Some (M !! k)))) (delete k M).

Inductive spec_ops : gmap K V -> list (map_op K V) -> list (map_res V) -> gmap K V -> Prop :=
| spec_nil M : spec_ops M [] [] M
| spec_cons M op r M1 ops rs M2 : spec_op M op r M1 -> spec_ops M1 ops rs M2 -> spec_ops M (op :: ops) (r :: rs) M2.

(** The same operations on the table. *)
Definition run_op (fuel : nat) (op : map_op K V) : cmd (CuckooMap K V) (map_res V) :=
  match op with
  | OpInsert k v => r ← Insert fuel k v; mret (ResInsert (bool_decide (is_Some r)))
  | OpFind k => r ← Find k; match r with None => mret (ResFind None) | Some x => e ← get_entry x; mret (ResFind (Some (second e))) end
  | OpRemove k => b ← Remove k; mret (ResRemove b)
  end.

Fixpoint run_ops (fuel : nat) (ops : list (map_op K V)) : cmd (CuckooMap K V) (list (map_res V)) :=
  match ops with
  | [] => mret []
  | op :: ops' => r ← run_op fuel op; rs ← run_ops fuel ops'; mret (r :: rs)
  end.

Fixpoint inserted_keys (ops : list (map_op K V)) : gset K :=
  match ops with
  | [] => ∅
  | OpInsert k _ :: ops' => {[k]} ∪ inserted_keys ops'
  | _ :: ops' => inserted_keys ops'
  end.
End spec.

Section table.
Context {K V : Type} `{Countable K, !CuckooTypes K V, !CuckooLaws K V}.
Implicit Types s : CuckooMap K V.

(** The table of [nb] buckets and [n] entries holds the map [M]. *)
Definition is_map s (nb n : Z) (M : gmap K V) : Prop := exists S P F, cuckoo_rep s nb n S P F /\ contents s P = M.

Definition bucket_full s (b : Z) : Prop := exists bu, bucket_mem s !! Z.to_nat b = Some bu /\ Forall (fun h => h <> 0) (hash_values bu).

Lemma full_bucket s nb S b : sees (bucket_mem s) nb S -> 0 <= b < nb -> full S b -> bucket_full s b.
Proof.
  intros [_ Hs] Hb Hf. destruct (Hs b Hb) as (bu & E & [Hl _ Hh _]). exists bu. split; [done|].
  apply Forall_lookup. intros i h Hi. pose proof (lookup_lt_Some _ _ _ Hi). specialize (Hh (Z.of_nat i) ltac:(lia)).
  rewrite Nat2Z.id, Hi in Hh. injection Hh as ->. apply Hf. lia.
Qed.

(** The four keys of a full bucket. *)
Lemma full_keys s nb n S P F b :
  cuckoo_rep s nb n S P F -> 0 <= b < nb -> full S b ->
  exists ks : list K, NoDup ks /\ length ks = 4%nat /\ forall k, k ∈ ks -> is_Some (P !! k) /\ place nb k b.
Proof.
  intros Hr Hb Hf.
  assert (forall m, 0 <= m <= 4 -> exists ks : list K, NoDup ks /\ length ks = Z.to_nat m
    /\ forall k, k ∈ ks -> place nb k b /\ exists i, 0 <= i < m /\ P !! k = Some (snd (S b i))) as Hm.
  { intros m [Hm0 Hm4]. revert Hm4. pattern m. apply natlike_ind; [|clear m Hm0|done].
    - exists []. split; [constructor|]. split; [done|]. by intros k ?%not_elem_of_nil.
    - intros m Hm0 IH Hm4. destruct IH as (ks & Hnd & Hlen & Hks); [lia|].
      destruct (sr_live _ _ _ (cr_slots _ _ _ _ _ _ Hr) b m) as (k & HP & _ & Hpl); [split; [done|lia]|apply Hf; lia|].
      exists (k :: ks). split; [|split].
      + constructor; [|done]. intros Hk. destruct (Hks k Hk) as (_ & i & Hi & HP').
        destruct (sr_unique _ _ _ (cr_slots _ _ _ _ _ _ Hr) b m b i) as [_ ?]; try (split; [done|lia]); try (apply Hf; lia); [congruence|lia].
      + cbn [length]. lia.
      + intros k' [->|Hk']%elem_of_cons; [split; [done|]; exists m; split; [lia|done]|].
        destruct (Hks k' Hk') as (? & i & ? & ?). split; [done|]. exists i. split; [lia|done]. }
  destruct (Hm 4 ltac:(lia)) as (ks & Hnd & Hlen & Hks). exists ks. split; [done|]. split; [done|].
  intros k Hk. destruct (Hks k Hk) as (? & i & _ & HP). split; [by exists (snd (S b i))|done].
Qed.

Lemma full_size s nb n S P F b : cuckoo_rep s nb n S P F -> 0 <= b < nb -> full S b -> (4 <= size P)%nat.
Proof.
  intros Hr Hb Hf. destruct (full_keys s nb n S P F b Hr Hb Hf) as (ks & Hnd & Hlen & Hks).
  rewrite <- Hlen, <- size_dom, <- (size_list_to_set (C := gset K)) by done. apply subseteq_size. intros k Hk.
  apply elem_of_dom, Hks. by rewrite elem_of_list_to_set in Hk.
Qed.

Lemma bucket_full_slots s nb S b : sees (bucket_mem s) nb S -> 0 <= b < nb -> bucket_full s b -> full S b.
Proof.
  intros [_ Hs] Hb (bu & E & Hf) i Hi. destruct (Hs b Hb) as (bu' & E' & [_ _ Hh _]). rewrite E in E'. injection E' as <-.
  rewrite Forall_lookup in Hf. by apply (Hf (Z.to_nat i)), Hh.
Qed.

(** ** The operations on a map *)

Lemma map_find s nb n M k :
  is_map s nb n M ->
  exists r, runs (Find k) s r s
    /\ match M !! k with
       | Some v => exists x, r = Some x /\ entry_mem s !! Z.to_nat x = Some (mk_entry k v)
       | None => r = None
       end.
Proof.
  intros (S & P & F & Hr & <-). exists (P !! k). split; [by eapply Find_runs|]. rewrite contents_lookup.
  destruct (P !! k) as [x|] eqn:HP; [|done]. cbn. destruct (cr_entries _ _ _ _ _ _ Hr k x HP) as (_ & v & E). rewrite E. by exists x.
Qed.

Lemma map_remove s nb n M k :
  is_map s nb n M -> exists s', runs (Remove k) s (bool_decide (is_Some (M !! k))) s' /\ is_map s' nb n (delete k M).
Proof.
  intros (S & P & F & Hr & <-). destruct (Remove_runs s nb n S P F k Hr) as [[HP R]|(x & b & i & s' & HP & _ & _ & R & Hr' & Hc & _)].
  - exists s. rewrite bool_decide_false by (rewrite (proj2 (contents_none _ _ _ _ _ _ Hr k) HP); by intros []).
    split; [done|]. rewrite delete_id by by eapply contents_none. by exists S, P, F.
  - exists s'. rewrite bool_decide_true.
    + split; [done|]. by exists (upd S b i (0, x)), (delete k P), (F ++ [x]).
    + rewrite <- not_eq_None_Some. rewrite (contents_none _ _ _ _ _ _ Hr k). congruence.
Qed.

(** The entry at index [x] is that of [k]: what a pointer to the entry means. *)
Definition finds s k (x : Z) : Prop := runs (Find k) s (Some x) s.

(** The calls [ms] of the marker leave out the counter [num_entries_]. *)
Definition count_unreported s (ms : list (Z * Z)) : Prop :=
  forall a l, (a, l) ∈ ms -> a + l <= this s + off_num_entries \/ this s + off_num_entries + 8 <= a.

Lemma data_count_unreported s s' nb n S P F ms : cuckoo_rep s nb n S P F -> data_reported s s' ms -> count_unreported s ms.
Proof.
  intros Hr Hm a l Hin. destruct (cr_layout _ _ _ _ _ _ Hr) as [_ Hn _ _ _ _ _ _ Hl1 Hl2 Hl3 Hl4].
  pose proof (sizeof_Entry_range (K := K) (V := V)) as Hse.
  right. destruct (rp_only _ _ _ Hm _ Hin) as [(b & Hb & [= -> ->])|[(x & Hx & [= -> ->])|[= -> ->]]];
    unfold addr_bucket, addr_entry, addr_head, off_num_entries, sizeof_Bucket, sizeof_CuckooMap, sizeof_EntryStack, sizeof_EntryIndex in *; nia.
Qed.

(** What an insertion that returned [r] did. The counter is the number of
    keys, and the change of it is not reported. *)
Definition insert_post s nb n (M : gmap K V) k v (r : option Z) s' : Prop :=
  (exists ms, data_reported s s' ms /\ count_unreported s ms)
  /\ num_entries_ s' = Z.of_nat (size (match r with Some _ => <[k := v]> M | None => M end))
  /\ match r with
     | Some x => is_map s' nb n (<[k := v]> M) /\ entry_mem s' !! Z.to_nat x = Some (mk_entry k v)
         /\ finds s' k x /\ (forall k' y, k' <> k -> finds s k' y -> finds s' k' y)
     | None => is_map s' nb n M /\ M !! k = None
         /\ (Z.of_nat (size M) = n \/ (bucket_full s (Z.land (Hash k) (nb - 1)) /\ bucket_full s (Z.land (HashSecondary (Hash k)) (nb - 1)) /\ (4 <= size M)%nat))
     end.

Lemma inserted_post s nb n S P F k v x s' :
  cuckoo_rep s nb n S P F -> inserted s nb n P k v x s' -> insert_post s nb n (contents s P) k v (Some x) s'.
Proof.
  intros Hr (S' & F' & ms & Hr' & Hc & Hm). split; [exists ms; split; [done|by eapply data_count_unreported]|].
  split; [by rewrite <- Hc, (contents_size _ _ _ _ _ _ Hr'), (cr_count _ _ _ _ _ _ Hr')|]. split; [by exists S', (<[k := x]> P), F'|].
  pose proof (fun k' => Find_runs _ _ _ _ _ _ Hr' k') as Hfind. split; [|split].
  2: { pose proof (Hfind k) as Hk. by rewrite lookup_insert_eq in Hk. }
  2: { intros k' y Hne [Ey _]%(runs_det _ _ _ _ _ _ (Find_runs _ _ _ _ _ _ Hr k')). pose proof (Hfind k') as Hk'.
       by rewrite lookup_insert_ne, Ey in Hk'. }
  destruct (cr_entries _ _ _ _ _ _ Hr' k x (lookup_insert_eq _ _ _)) as (_ & v' & E). rewrite E. do 2 f_equal.
  assert (contents s' (<[k := x]> P) !! k = Some v) as Hk by (rewrite Hc; apply lookup_insert_eq).
  rewrite contents_lookup, lookup_insert_eq in Hk. cbn in Hk. rewrite E in Hk. by injection Hk.
Qed.

(** An insertion returns if there is a free entry, or if the loop of
    [AddEntry] may go on long enough and no key in the entries has second
    hash value 0. *)
Lemma map_insert fuel s nb n M k v :
  is_map s nb n M -> (Z.of_nat (size M) < n /\ (2 <= fuel)%nat) \/ (no_zero_hash (entry_mem s) /\ 52 * nb + 1 < Z.of_nat fuel) ->
  exists r s', runs (Insert fuel k v) s r s' /\ insert_post s nb n M k v r s'.
Proof.
  intros (S & P & F & Hr & <-) Hfuel. pose proof (rep_size _ _ _ _ _ _ Hr) as Hsz.
  rewrite (contents_size _ _ _ _ _ _ Hr) in Hfuel.
  destruct (P !! k) as [x|] eqn:HP.
  { destruct (Insert_update fuel s nb n S P F k x v Hr HP) as (s' & R & Hi). exists (Some x), s'. split; [done|]. by eapply inserted_post. }
  unfold runs. rewrite (Insert_new fuel s nb n S P F k v Hr HP).
  pose proof (pow2_pos nb (lo_pow _ _ _ (cr_layout _ _ _ _ _ _ Hr))) as Hnb.
  destruct (decide (F = [])) as [->|HF].
  - destruct Hfuel as [[Hlt _]|[Hz Hfuel]]; [cbn in Hsz; lia|]. pose proof (total_range nb S ltac:(lia)) as Ht.
    destruct (AddEntry_exhausted fuel s nb n S P k v Hr HP Hz ltac:(lia)) as (s' & R & S' & F' & ms & Hr' & Hc & Hm).
    exists None, s'. split; [done|]. split; [exists ms; split; [done|by eapply data_count_unreported]|].
    split; [by rewrite <- Hc, (contents_size _ _ _ _ _ _ Hr'), (cr_count _ _ _ _ _ _ Hr')|]. split; [by exists S', P, F'|].
    split; [by eapply contents_none|]. left. rewrite (contents_size _ _ _ _ _ _ Hr). cbn in Hsz. lia.
  - assert (2 <= fuel)%nat as Hf by (destruct Hfuel as [[_ ?]|[_ ?]]; lia). destruct fuel as [|[|fuel]]; [lia|lia|].
    destruct (AddEntry_free fuel s nb n S P F k v Hr HP HF) as [(x & s' & R & Hi)|(R & Hf1 & Hf2)].
    + exists (Some x), s'. split; [done|]. by eapply inserted_post.
    + exists None, s. split; [done|]. split; [exists []; split; [apply reported_refl|by intros a l []%not_elem_of_nil]|].
      split; [by rewrite (contents_size _ _ _ _ _ _ Hr), (cr_count _ _ _ _ _ _ Hr)|]. split; [by exists S, P, F|].
      split; [by eapply contents_none|]. right. rewrite (contents_size _ _ _ _ _ _ Hr).
      pose proof (place_range _ _ _ _ _ _ Hr k (Z.land (Hash k) (nb - 1)) ltac:(by left)) as Hp1.
      pose proof (place_range _ _ _ _ _ _ Hr k (alt nb (Hash k)) ltac:(by right)) as Hp2.
      split; [by eapply full_bucket; [apply Hr|..]|]. split; [by eapply full_bucket; [apply Hr|..]|]. by eapply full_size.
Qed.

(** ** Sequences of operations *)

Lemma run_op_refines fuel op s nb n M :
  is_map s nb n M -> (2 <= fuel)%nat -> (forall k v, op = OpInsert k v -> M !! k = None -> Z.of_nat (size M) < n) ->
  exists r s' M', runs (run_op fuel op) s r s' /\ spec_op M op r M' /\ is_map s' nb n M'.
Proof.
  intros Hm Hfuel Hroom. destruct op as [k v|k|k]; cbn [run_op]; unfold runs.
  - destruct (M !! k) as [v0|] eqn:Hk.
    + pose proof Hm as (S & P & F & Hr & <-). rewrite contents_lookup in Hk. destruct (P !! k) as [x|] eqn:HP; [|done].
      destruct (Insert_update fuel s nb n S P F k x v Hr HP) as (s' & R & Hi).
      destruct (inserted_post s nb n S P F k v x s' Hr Hi) as (_ & _ & Hm' & _).
      exists (ResInsert true), s', (<[k := v]> (contents s P)). rewrite (bind_runs _ _ _ _ _ R). split; [done|]. split; [constructor|done].
    + destruct (map_insert fuel s nb n M k v Hm) as (r & s' & R & _ & _ & Hpost); [left; split; [by eapply Hroom|done]|].
      rewrite (bind_runs _ _ _ _ _ R). destruct r as [x|].
      * exists (ResInsert true), s', (<[k := v]> M). split; [done|]. split; [constructor|apply Hpost].
      * exists (ResInsert false), s', M. split; [done|]. destruct Hpost as (Hm' & _ & Hwhy). split; [|done].
        constructor; [done|]. pose proof (Hroom k v eq_refl Hk). destruct Hwhy as [?|(_ & _ & ?)]; [lia|done].
  - destruct (map_find s nb n M k Hm) as (r & R & Hres). rewrite (bind_runs _ _ _ _ _ R).
    exists (ResFind (M !! k)), s, M. split; [|split; [constructor|done]].
    destruct (M !! k) as [v|]; [destruct Hres as (x & -> & E)|by rewrite Hres].
    by rewrite (bind_runs _ _ _ _ _ (get_entry_runs s x _ E)).
  - destruct (map_remove s nb n M k Hm) as (s' & R & Hm'). rewrite (bind_runs _ _ _ _ _ R).
    exists (ResRemove (bool_decide (is_Some (M !! k)))), s', (delete k M). split; [done|]. split; [constructor|done].
Qed.

Lemma spec_op_dom M op r M' : spec_op (K := K) (V := V) M op r M' -> dom M' ⊆ dom M ∪ inserted_keys [op].
Proof.
  destruct 1; cbn [inserted_keys]; rewrite ?dom_insert_L, ?dom_delete_L; clear; set_solver.
Qed.

Lemma run_ops_refines fuel ops s nb n M :
  is_map s nb n M -> (2 <= fuel)%nat -> Z.of_nat (size (dom M ∪ inserted_keys ops)) <= n ->
  exists rs s' M', runs (run_ops fuel ops) s rs s' /\ spec_ops M ops rs M' /\ is_map s' nb n M'.
Proof.
  intros Hm Hfuel. revert s M Hm. induction ops as [|op ops IH]; intros s M Hm Hsize.
  { exists [], s, M. split; [done|]. split; [constructor|done]. }
  assert (inserted_keys (op :: ops) = inserted_keys [op] ∪ inserted_keys ops) as Ekeys by (clear; destruct op; cbn; set_solver).
  destruct (run_op_refines fuel op s nb n M Hm Hfuel) as (r & s1 & M1 & R1 & Hs1 & Hm1).
  { intros k v -> Hk. rewrite <- size_dom. assert (size (dom M) < size (dom M ∪ inserted_keys (OpInsert k v :: ops)))%nat; [|lia].
    apply subset_size. split; [apply union_subseteq_l|]. intros Hsub. apply not_elem_of_dom in Hk.
    apply Hk, Hsub, elem_of_union. right. cbn. apply elem_of_union. left. by apply elem_of_singleton. }
  destruct (IH s1 M1 Hm1) as (rs & s2 & M2 & R2 & Hs2 & Hm2).
  { pose proof (spec_op_dom _ _ _ _ Hs1) as Hd. etrans; [|exact Hsize]. apply inj_le, subseteq_size. rewrite Ekeys, (assoc_L (∪)). by apply union_mono_r. }
  exists (r :: rs), s2, M2. split; [|split; [by econstructor|done]].
  cbn [run_ops]. unfold runs. by rewrite (bind_runs _ _ _ _ _ R1), (bind_runs _ _ _ _ _ R2).
Qed.

Lemma created_ops fuel area area_size nb n s ops :
  pow2 nb -> nb <= n < 2 ^ 31 -> Size n nb <= area_size -> (2 <= fuel)%nat ->
  Z.of_nat (length (stack_mem s)) = n -> Z.of_nat (length (entry_mem s)) = n -> Z.of_nat (length (bucket_mem s)) = nb ->
  Z.of_nat (size (inserted_keys ops)) <= n ->
  exists rs s' M, runs (_ ← Create area area_size n nb; run_ops fuel ops) s rs s' /\ spec_ops ∅ ops rs M /\ is_map s' nb n M.
Proof.
  intros Hpow Hn Hsize Hfuel Hst Hen Hbu Hkeys.
  destruct (Create_runs area area_size nb n s Hpow Hn Hsize Hst Hen Hbu) as (s1 & R1 & Hr1).
  destruct (run_ops_refines fuel ops s1 nb n ∅) as (rs & s2 & M & R2 & Hs2 & Hm2); [|done| |].
  - exists empty_slots, ∅, (rev (seqZ 0 n)). split; [done|]. unfold contents. apply omap_empty.
  - by rewrite dom_empty_L, (left_id_L ∅ (∪)).
  - exists rs, s2, M. split; [|done]. unfold runs. by rewrite (bind_runs _ _ _ _ _ R1).
Qed.

(** C19: the table refines a finite map. A table is created on memory of the
    size [Size] asks for, and then any sequence of insertions, look-ups and
    removals with at most as many different keys inserted as there are entries
    runs to its end with results that the finite map allows; an insertion is
    refused only for a new key, and only once there are four keys. The stack
    of free entries overlaps entry 0 in memory all the while. *)
Theorem cuckoo_refines_map fuel area area_size nb n s ops :
  pow2 nb -> nb <= n < 2 ^ 31 -> Size n nb <= area_size -> (2 <= fuel)%nat ->
  Z.of_nat (length (stack_mem s)) = n -> Z.of_nat (length (entry_mem s)) = n -> Z.of_nat (length (bucket_mem s)) = nb ->
  Z.of_nat (size (inserted_keys ops)) <= n ->
  exists rs s' M, runs (_ ← Create area area_size n nb; run_ops fuel ops) s rs s' /\ spec_ops ∅ ops rs M /\ is_map s' nb n M.
Proof. apply created_ops. Qed.

(** C20: an insertion ends. If there is a free entry the loop of [AddEntry]
    runs at most twice, otherwise, unless some key has second hash value 0, at
    most 52 times the number of buckets plus one: each time [MakeSpace]
    succeeds, entries have moved to their second bucket or up in their bucket.
    The key then has the new value, or the table is as before because there
    was no free entry or both buckets were full. The entry returned is the one
    [Find] finds, and pointers to other entries stay valid. Every bucket, entry
    and stack word that changed, and the top of the stack, has been reported;
    the counter [num_entries_] is the number of keys, and no report covers it. *)
Theorem Insert_ends fuel s nb n M k v :
  is_map s nb n M -> (Z.of_nat (size M) < n /\ (2 <= fuel)%nat) \/ (no_zero_hash (entry_mem s) /\ 52 * nb + 1 < Z.of_nat fuel) ->
  exists r s', runs (Insert fuel k v) s r s' /\ insert_post s nb n M k v r s'.
Proof. apply map_insert. Qed.

(** A removal does not report the bucket it changes. [RemoveFromBucket]
    passes bucket 0 to the marker instead of the bucket of the key, so if the
    key is elsewhere no byte of its bucket is reported and readers keep the
    slot. *)
Theorem Remove_unreported s nb n M k v :
  is_map s nb n M -> M !! k = Some v ->
  exists s' b ms, runs (Remove k) s true s' /\ 0 <= b < nb /\ marks s' = ms ++ marks s
    /\ bucket_mem s' !! Z.to_nat b <> bucket_mem s !! Z.to_nat b
    /\ (b <> 0 -> forall a l, (a, l) ∈ ms -> a + l <= addr_bucket s b \/ addr_bucket s b + sizeof_Bucket <= a).
Proof.
  intros (S & P & F & Hr & <-) Hk.
  destruct (Remove_runs s nb n S P F k Hr) as [[HP _]|(x & b & i & s' & HP & [Hb Hi] & E & R & Hr' & _ & Hms)].
  { by rewrite (proj2 (contents_none _ _ _ _ _ _ Hr k) HP) in Hk. }
  exists s', b, (remove_marks s x). split; [done|]. split; [done|]. split; [done|]. split.
  - intros Eb. destruct (proj2 (cr_sees _ _ _ _ _ _ Hr) b Hb) as (bu & E1 & [_ _ Hh _]).
    destruct (proj2 (cr_sees _ _ _ _ _ _ Hr') b Hb) as (bu' & E2 & [_ _ Hh' _]).
    assert (bu' = bu) as -> by congruence. specialize (Hh i Hi). rewrite (Hh' i Hi), upd_eq, E in Hh. cbn in Hh.
    injection Hh as Hz. by apply (Hash_nonzero k).
  - intros Hb0 a l Hin. pose proof (cr_layout _ _ _ _ _ _ Hr) as Hl. pose proof (key_index_range _ _ _ _ _ _ Hr k x HP) as Hx.
    pose proof (sizeof_Entry_range (K := K) (V := V)) as Hse. pose proof (rep_size _ _ _ _ _ _ Hr) as Hsz.
    pose proof (cr_head _ _ _ _ _ _ Hr) as Hh. pose proof (lo_n _ _ _ Hl) as Hn.
    assert (size P <> 0%nat) as Hne by (intros E0%map_size_empty_inv; subst P; done).
    destruct Hl as [_ _ _ _ _ _ _ _ Hl1 Hl2 Hl3 Hl4]. unfold addr_bucket, sizeof_Bucket, sizeof_CuckooMap, sizeof_EntryStack, sizeof_EntryIndex in *.
    unfold remove_marks, addr_head, addr_stck, addr_entry, off_num_entries, sizeof_EntryIndex, sizeof_Bucket in Hin.
    left. rewrite !elem_of_cons in Hin. destruct Hin as [[= -> ->]|[[= -> ->]|[[= -> ->]|[[= -> ->]|[[= -> ->]|[]%not_elem_of_nil]]]]]; nia.
Qed.

(** ** Well-formed tables *)

(** What the types of the fields and the comments of the class ask of the
    words in memory: four slots in a bucket, each with a hash value that is 0
    or has its top bit set and with the index of an entry; as many free
    indices on the stack as there are entries not in use. *)
Definition bucket_typed (n : Z) (bu : Bucket) : Prop :=
  length (hash_values bu) = 4%nat /\ length (entry_indices bu) = 4%nat
  /\ Forall (fun h => h = 0 \/ 2 ^ 31 <= h < 2 ^ 32) (hash_values bu) /\ Forall (fun x => 0 <= x < n) (entry_indices bu).

Record well_typed s : Prop := {
  wt_entries : 0 < alloc_num_entries_ s < 2 ^ 31 /\ Z.of_nat (length (entry_mem s)) = alloc_num_entries_ s;
  wt_buckets : pow2 (alloc_num_buckets_ s) /\ Z.of_nat (length (bucket_mem s)) = alloc_num_buckets_ s;
  wt_mask : bucket_mask_ s = alloc_num_buckets_ s - 1;
  wt_bucket : Forall (bucket_typed (alloc_num_entries_ s)) (bucket_mem s);
  wt_count : 0 <= num_entries_ s /\ 0 <= head_ s /\ num_entries_ s + head_ s = alloc_num_entries_ s;
}.

Lemma sees_typed s nb n S P F b bu :
  cuckoo_rep s nb n S P F -> bucket_mem s !! b = Some bu -> bucket_typed n bu.
Proof.
  intros Hr E. pose proof (lookup_lt_Some _ _ _ E) as Hlt. destruct (cr_sees _ _ _ _ _ _ Hr) as [Hlen Hs].
  assert (0 <= Z.of_nat b < nb) as Hb by lia.
  destruct (Hs (Z.of_nat b) Hb) as (bu' & E' & [Hl1 Hl2 Hh Hx]). rewrite Nat2Z.id, E in E'. injection E' as <-.
  split; [done|]. split; [done|]. split; apply Forall_lookup; intros i x Hi; pose proof (lookup_lt_Some _ _ _ Hi);
    assert (0 <= Z.of_nat i < 4) as Hi4 by lia.
  - specialize (Hh _ Hi4). rewrite Nat2Z.id, Hi in Hh. injection Hh as ->.
    destruct (Z.eq_dec (fst (S (Z.of_nat b) (Z.of_nat i))) 0) as [|Hne]; [by left|]. right.
    destruct (sr_live _ _ _ (cr_slots _ _ _ _ _ _ Hr) _ _ (conj Hb Hi4) Hne) as (k & _ & -> & _). apply Hash_range.
  - specialize (Hx _ Hi4). rewrite Nat2Z.id, Hi in Hx. injection Hx as ->.
    rewrite <- (lo_entries _ _ _ (cr_layout _ _ _ _ _ _ Hr)). by apply (cr_indices _ _ _ _ _ _ Hr).
Qed.

Lemma is_map_typed s nb n M : is_map s nb n M -> well_typed s.
Proof.
  intros (S & P & F & Hr & _). pose proof (cr_layout _ _ _ _ _ _ Hr) as Hl. pose proof (rep_size _ _ _ _ _ _ Hr) as Hsz.
  pose proof (cr_head _ _ _ _ _ _ Hr). pose proof (cr_count _ _ _ _ _ _ Hr).
  split; rewrite ?(lo_ne _ _ _ Hl), ?(lo_nb _ _ _ Hl); [by split; apply Hl|split; [apply Hl|apply Hr]|apply Hl| |lia].
  apply Forall_lookup. intros b bu E. by eapply sees_typed.
Qed.

End table.
