(* ===== verification/CuckooFull.v ===== *)
(** * CuckooFull: tables that may run full

    [cuckoo_refines_map] asks that the keys inserted fit the entries. Here any
    sequence of operations is run: without a free entry the loop of [AddEntry]
    goes on as long as [MakeSpace] finds something to move, which ends unless
    an entry has a key with second hash value 0. [keeps] is a small logic for
    invariants of commands; with it the keys in the entries, in use or not, stay
    in a given set. *)
From stdpp Require Import base gmap list numbers.
From Stdlib Require Import ZArith Lia.
From S2P Require Import Prelude Cuckoo CuckooSlots CuckooSpace CuckooProofs CuckooOps CuckooCreate CuckooTable.

(** ** Invariants of commands *)

(** If [c] runs to its end from a state with [I], [I] holds again and the
    result satisfies [Q]. *)
Definition keeps {W A} (I : W -> Prop) (c : cmd W A) (Q : A -> Prop) : Prop :=
  forall w a w', I w -> runs c w a w' -> I w' /\ Q a.

Section logic.
Context {W : Type} (I : W -> Prop).

Lemma keeps_ret {A} (a : A) (Q : A -> Prop) : Q a -> keeps I (mret a) Q.
Proof. intros Ha w b w' Hw [= <- <-]. done. Qed.

Lemma keeps_bind {A B} (c : cmd W A) (k : A -> cmd W B) (Q : A -> Prop) (R : B -> Prop) :
  keeps I c Q -> (forall a, Q a -> keeps I (k a) R) -> keeps I (c ≫= k) R.
Proof.
  intros Hc Hk w b w' Hw E. unfold runs, mbind, cmd_bind in E. destruct (c w) as [[a w1]|] eqn:Ec; [|done].
  destruct (Hc w a w1 Hw Ec) as [H1 Ha]. by apply (Hk a Ha w1).
Qed.

Lemma keeps_weaken {A} (c : cmd W A) (Q R : A -> Prop) : (forall a, Q a -> R a) -> keeps I c Q -> keeps I c R.
Proof. intros HQ Hc w a w' Hw E. destruct (Hc w a w' Hw E). auto. Qed.

Lemma keeps_fail {A} f (Q : A -> Prop) : keeps I (fail f) Q.
Proof. by intros w a w' Hw [=]. Qed.

Lemma keeps_modify f : (forall w, I w -> I (f w)) -> keeps I (modify f) (fun _ => True).
Proof. intros Hf w a w' Hw [= <- <-]. auto. Qed.

Lemma keeps_gets {A} (f : W -> A) (Q : A -> Prop) : (forall w, I w -> Q (f w)) -> keeps I (gets f) Q.
Proof. intros Hf w a w' Hw [= <- <-]. auto. Qed.

Lemma keeps_getw : keeps I getw (fun _ => True).
Proof. intros w a w' Hw [= <- <-]. auto. Qed.

Lemma keeps_for_each {A} (l : list A) (body : A -> cmd W unit) :
  (forall x, x ∈ l -> keeps I (body x) (fun _ => True)) -> keeps I (for_each l body) (fun _ => True).
Proof.
  induction l as [|x l IH]; intros Hb; [by apply keeps_ret|]. cbn [for_each].
  eapply keeps_bind; [apply Hb; left|]. intros _ _. apply IH. intros y Hy. apply Hb. by right.
Qed.
End logic.

(** ** The keys in the entries *)

Section keys.
Context {K V : Type} `{Countable K, !CuckooTypes K V, !CuckooLaws K V} (G : K -> Prop) (n : Z).
Implicit Types s : CuckooMap K V.

(** Keys that can come to be in an entry, in use or not: those of [G]. It has
    the key of a cleared entry, and what becomes of a key when the stack of
    free indices writes its last word into entry 0. *)
Record key_set : Prop := {
  ks_key0 : G (key0 (V := V));
  ks_word x k : 0 <= x < n -> G k -> G (set_word0 (V := V) x k);
}.

Definition keys_ok s : Prop := Forall (fun e => G (first e)) (entry_mem s).

(** The same, and the indices in the buckets are those of entries. *)
Definition keys_indices_ok s : Prop :=
  keys_ok s /\ Forall (fun bu => Forall (fun x => 0 <= x < n) (entry_indices bu)) (bucket_mem s).

Lemma keeps_load {A} (J : CuckooMap K V -> Prop) (l : list A) i : keeps J (load l i) (fun x => x ∈ l).
Proof.
  unfold load. destruct (l !! Z.to_nat i) as [x|] eqn:E; [|apply keeps_fail]. apply keeps_ret. by eapply list_elem_of_lookup_2.
Qed.

Lemma keeps_read {A} (J : CuckooMap K V -> Prop) (l : list A) i : keeps J (load l i) (fun _ => True).
Proof. eapply keeps_weaken; [|apply keeps_load]. done. Qed.

Lemma keeps_get_entry i : keeps keys_ok (get_entry i) (fun e => G (first e)).
Proof.
  eapply keeps_bind; [apply (keeps_gets _ _ (Forall (fun e => G (first e)))); done|]. intros l Hl.
  eapply keeps_weaken; [|apply keeps_load]. intros e He. by apply (proj1 (list.Forall_forall _ _) Hl).
Qed.

Lemma keeps_set_entry i e : G (first e) -> keeps keys_ok (set_entry i e) (fun _ => True).
Proof.
  intros He. eapply keeps_bind; [apply keeps_get_entry|]. intros _ _. apply keeps_modify. intros s Hs. cbn. by apply Forall_insert.
Qed.

(** Commands that read, or write other fields. *)
Ltac keep :=
  repeat (match goal with
  | |- keeps _ (mret _) _ => apply (keeps_ret _ _ (fun _ => True)); exact I
  | |- keeps _ (fail _) _ => apply keeps_fail
  | |- keeps _ (set_entry _ _) _ => apply keeps_set_entry
  | |- keeps keys_ok (get_entry _) _ => apply keeps_get_entry
  | |- keeps _ (gets _) _ => apply (keeps_gets _ _ (fun _ => True)); done
  | |- keeps _ getw _ => apply keeps_getw
  | |- keeps _ (load _ _) _ => apply keeps_read
  | |- keeps _ (mark _ _) _ => apply keeps_modify; intros ? ?; assumption
  | |- keeps _ (modify _) _ => apply keeps_modify; intros ? ?; assumption
  | |- keeps _ (_ ≫= _) _ => eapply keeps_bind; [|intros ? ?]
  | |- keeps _ (if ?b then _ else _) _ => destruct b
  | |- keeps _ (match ?x with _ => _ end) _ => destruct x
  end).

Lemma keeps_find_slot (J : CuckooMap K V -> Prop) f l :
  (forall i, keeps J (f i) (fun _ => True)) -> keeps J (find_slot f l) (fun _ => True).
Proof. intros Hf. induction l as [|i l IH]; cbn [find_slot]; keep; auto. Qed.

Lemma keeps_FindEmptySlot b : keeps keys_ok (FindEmptySlot b) (fun _ => True).
Proof. apply keeps_find_slot. intros i. unfold hash_value, get_bucket. keep. Qed.

Lemma keeps_FindWithHash h k : keeps keys_ok (FindWithHash h k) (fun _ => True).
Proof.
  assert (forall b, keeps keys_ok (GetFromBucket h b k) (fun _ => True)) as HG.
  { intros b. unfold GetFromBucket, FindSlot. eapply keeps_bind; [apply keeps_find_slot; intros i|intros ? _];
      unfold hash_value, entry_index, get_bucket; keep. }
  unfold FindWithHash. keep; apply HG.
Qed.

Lemma keeps_AddToBucket b k v : G k -> keeps keys_ok (AddToBucket b k v) (fun _ => True).
Proof.
  intros Hk. unfold AddToBucket. eapply keeps_bind; [apply keeps_FindEmptySlot|intros ? _].
  unfold PopFreeEntryIndex, Empty, Top, Pop, stck_get, set_hash_value, set_entry_index, hash_value, entry_index, set_bucket, get_bucket. by keep.
Qed.

Lemma keeps_MakeSpace left index : keeps keys_ok (MakeSpace left index) (fun _ => True).
Proof.
  revert index. induction left as [|left IH]; intros index; cbn [MakeSpace]; [keep|].
  unfold get_bucket at 1. eapply keeps_bind; [keep|intros ? _].
  generalize (seqZ 0 kEntriesPerBucket). intros l. induction l as [|i l IHl]; cbn [make_space_slots]; [keep|].
  unfold move_slot, set_hash_value, set_entry_index, hash_value, entry_index, set_bucket, get_bucket. keep; auto using keeps_FindEmptySlot.
Qed.

Lemma keeps_AddEntry fuel h h' k v : G k -> keeps keys_ok (AddEntry fuel h h' k v) (fun _ => True).
Proof.
  intros Hk. induction fuel as [|fuel IH]; cbn [AddEntry]; keep; auto using keeps_AddToBucket, keeps_MakeSpace.
Qed.

Lemma keeps_Insert fuel k v : G k -> keeps keys_ok (Insert fuel k v) (fun _ => True).
Proof.
  intros Hk. unfold Insert. eapply keeps_bind; [apply keeps_FindWithHash|intros idx _]. keep; [done|by apply keeps_AddEntry].
Qed.

(** ** Removal and creation *)

Lemma keeps_stck_set i x : key_set -> 0 <= x < n -> keeps keys_ok (stck_set i x) (fun _ => True).
Proof. intros HG Hx. unfold stck_set. keep. cbn. by apply HG. Qed.

Lemma keeps_get_bucket b : keeps keys_indices_ok (get_bucket b) (fun bu => Forall (fun x => 0 <= x < n) (entry_indices bu)).
Proof.
  unfold get_bucket. eapply keeps_bind; [apply (keeps_gets _ _ (Forall (fun bu => Forall (fun x => 0 <= x < n) (entry_indices bu)))); by intros s []|].
  intros l Hl. eapply keeps_weaken; [|apply keeps_load]. intros bu Hbu. exact (proj1 (list.Forall_forall _ _) Hl bu Hbu).
Qed.

Lemma keeps_entry_index b i : keeps keys_indices_ok (entry_index b i) (fun x => 0 <= x < n).
Proof.
  unfold entry_index. eapply keeps_bind; [apply keeps_get_bucket|]. intros bu Hbu.
  eapply keeps_weaken; [|apply keeps_load]. intros x Hx. exact (proj1 (list.Forall_forall _ _) Hbu x Hx).
Qed.

Lemma keeps_set_hash_value b i h : keeps keys_indices_ok (set_hash_value b i h) (fun _ => True).
Proof.
  unfold set_hash_value, hash_value, set_bucket. eapply keeps_bind; [eapply keeps_bind; [apply keeps_get_bucket|intros ? _; keep]|intros _ _].
  eapply keeps_bind; [apply keeps_get_bucket|]. intros bu Hbu. apply keeps_modify. intros s [Hk Hi]. split; [exact Hk|]. cbn. by apply Forall_insert.
Qed.

(** An operation on the entries alone. *)
Lemma keeps_indices {A} (c : cmd (CuckooMap K V) A) Q :
  keeps keys_ok c Q -> (forall s a s', runs c s a s' -> bucket_mem s' = bucket_mem s) -> keeps keys_indices_ok c Q.
Proof.
  intros Hc Hb s a s' [Hk Hi] R. destruct (Hc s a s' Hk R) as [Hk' HQ]. split; [|done]. split; [done|]. by rewrite (Hb s a s' R).
Qed.

Lemma keeps_RemoveFromBucket h b k : key_set -> keeps keys_indices_ok (RemoveFromBucket h b k) (fun _ => True).
Proof.
  intros HG. unfold RemoveFromBucket, FindSlot. eapply keeps_bind; [apply keeps_find_slot; intros i|intros j _].
  { unfold hash_value, entry_index, get_bucket, get_entry. keep. }
  destruct (j =? -1); [keep|]. eapply keeps_bind; [apply keeps_set_hash_value|intros _ _]. do 2 (eapply keeps_bind; [keep|intros ? _]).
  eapply keeps_bind; [apply keeps_entry_index|]. intros x Hx.
  eapply keeps_bind; [apply keeps_indices; [apply keeps_set_entry; apply HG|]|intros _ _].
  { intros s [] s' R. unfold runs, set_entry, get_entry, load, mbind, cmd_bind, gets in R. by destruct (entry_mem s !! Z.to_nat x); [injection R as <-|]. }
  unfold PushFreeEntryIndex, Push. keep.
  apply keeps_indices; [by apply keeps_stck_set|]. intros s u s' R. unfold runs, stck_set, set_entry, get_entry, load, mbind, cmd_bind, gets, mret, cmd_ret, modify in R.
  by repeat (case_match; simplify_eq).
Qed.

Lemma keeps_Remove k : key_set -> keeps keys_indices_ok (Remove k) (fun _ => True).
Proof. intros HG. unfold Remove. keep; by apply keeps_RemoveFromBucket. Qed.

Lemma keeps_PushNoLog x : key_set -> 0 <= x < n -> keeps keys_ok (PushNoLog x) (fun _ => True).
Proof. intros HG Hx. unfold PushNoLog. keep. by apply keeps_stck_set. Qed.

(** [Clear] writes the cleared entry everywhere, and then the indices. *)
Lemma Clear_keys s s' : key_set -> alloc_num_entries_ s = n -> Z.of_nat (length (entry_mem s)) = n -> runs Clear s tt s' -> keys_ok s'.
Proof.
  intros HG Hn Hl R. unfold Clear in R.
  apply runs_bind in R as (? & s1 & [= <- <-] & R). apply runs_bind in R as (? & s2 & [= <- <-] & R).
  apply runs_bind in R as (bs & s3 & R1 & R). unfold runs, memset0 in R1. destruct (_ <=? _) in R1; [injection R1 as <- <-|done].
  apply runs_bind in R as (? & s4 & [= <- <-] & R).
  apply runs_bind in R as (es & s5 & R1 & R). cbn in R1. unfold runs, memset0 in R1. rewrite Hn, Hl, Z.leb_refl in R1. injection R1 as <- <-.
  apply runs_bind in R as (? & s6 & [= <- <-] & R). match type of R with runs _ ?s7 _ _ => assert (keys_ok s7) as H7 end.
  { unfold keys_ok. cbn. rewrite drop_ge, app_nil_r by lia. apply Forall_replicate. apply HG. }
  revert H7 R. cbn [alloc_num_entries_ set_field]. intros H7 R.
  assert (forall c : cmd (CuckooMap K V) unit, keeps keys_ok c (fun _ => True) -> forall w w', keys_ok w -> runs c w tt w' -> keys_ok w') as Hc
    by (intros c Hk w w' Hw Rw; by apply (Hk w tt w')).
  eapply Hc; [|exact H7|exact R]. eapply keeps_bind; [|intros _ _; unfold InvalidateStack; keep].
  apply keeps_for_each. intros i Hi. assert (0 <= i < n) as Hr.
  { rewrite <- Permutation_rev in Hi. apply elem_of_seqZ in Hi. cbn in Hi. rewrite Hn in Hi. lia. }
  eapply keeps_bind; [by apply keeps_PushNoLog|intros _ _; keep].
Qed.
End keys.

(** ** Any sequence of operations *)

(** A finite map of at most [n] keys: a new key may also be refused when there
    are [n]. *)
Definition bounded_op {K V} `{Countable K} (n : Z) (M : gmap K V) (op : map_op K V) (r : map_res V) (M' : gmap K V) : Prop :=
  spec_op M op r M'
  \/ exists k v, op = OpInsert k v /\ r = ResInsert false /\ M' = M /\ M !! k = None /\ Z.of_nat (size M) = n.

Inductive bounded_ops {K V} `{Countable K} (n : Z) : gmap K V -> list (map_op K V) -> list (map_res V) -> gmap K V -> Prop :=
| bounded_nil M : bounded_ops n M [] [] M
| bounded_cons M op r M1 ops rs M2 : bounded_op n M op r M1 -> bounded_ops n M1 ops rs M2 -> bounded_ops n M (op :: ops) (r :: rs) M2.

Section full.
Context {K V : Type} `{Countable K, !CuckooTypes K V, !CuckooLaws K V} (G : K -> Prop) (nb n : Z).
Hypothesis HG : key_set (V := V) G n.
Hypothesis Hhash : forall k, G k -> HashSecondary (Hash (V := V) k) <> 0.
Implicit Types s : CuckooMap K V.

Lemma run_op_bounded fuel op s M :
  is_map s nb n M -> keys_ok G s -> (forall k, k ∈ inserted_keys [op] -> G k) -> 52 * nb + 1 < Z.of_nat fuel ->
  exists r s' M', runs (run_op fuel op) s r s' /\ bounded_op n M op r M' /\ is_map s' nb n M' /\ keys_ok G s'.
Proof.
  intros Hm Hk Hin Hf. destruct op as [k v|k|k]; cbn [run_op]; unfold runs.
  - destruct (map_insert fuel s nb n M k v Hm) as (r & s' & R & _ & _ & Hpost).
    { right. split; [|done]. intros i e He. apply Hhash. by apply (Forall_lookup_1 _ _ _ _ Hk He). }
    destruct (keeps_Insert G fuel k v (Hin k ltac:(cbn; set_solver)) s r s' Hk R) as [Hk' _].
    rewrite (bind_runs _ _ _ _ _ R). destruct r as [x|].
    + exists (ResInsert true), s', (<[k := v]> M). split; [done|]. split; [left; constructor|]. split; [apply Hpost|done].
    + exists (ResInsert false), s', M. split; [done|]. destruct Hpost as (Hm' & Hnone & Hwhy). split; [|done].
      destruct Hwhy as [?|(_ & _ & ?)]; [right; by exists k, v|left; by constructor].
  - destruct (map_find s nb n M k Hm) as (r & R & Hres). rewrite (bind_runs _ _ _ _ _ R).
    exists (ResFind (M !! k)), s, M. split; [|split; [left; constructor|done]].
    destruct (M !! k) as [v|]; [destruct Hres as (x & -> & E)|by rewrite Hres].
    by rewrite (bind_runs _ _ _ _ _ (get_entry_runs s x _ E)).
  - destruct (map_remove s nb n M k Hm) as (s' & R & Hm'). rewrite (bind_runs _ _ _ _ _ R).
    exists (ResRemove (bool_decide (is_Some (M !! k)))), s', (delete k M). split; [done|]. split; [left; constructor|]. split; [done|].
    pose proof Hm as (S & P & F & Hr & _).
    assert (keys_indices_ok G n s) as Hki; [|destruct (keeps_Remove G n k HG s _ s' Hki R) as [[? _] _]; done].
    split; [done|]. apply Forall_lookup. intros b bu E. by destruct (sees_typed s nb n S P F b bu Hr E) as (_ & _ & _ & ?).
Qed.

Lemma run_ops_bounded fuel ops s M :
  is_map s nb n M -> keys_ok G s -> (forall k, k ∈ inserted_keys ops -> G k) -> 52 * nb + 1 < Z.of_nat fuel ->
  exists rs s' M', runs (run_ops fuel ops) s rs s' /\ bounded_ops n M ops rs M' /\ is_map s' nb n M'.
Proof.
  intros Hm Hk Hin Hf. revert s M Hm Hk. induction ops as [|op ops IH]; intros s M Hm Hk.
  { exists [], s, M. split; [done|]. split; [constructor|done]. }
  assert (inserted_keys (op :: ops) = inserted_keys [op] ∪ inserted_keys ops) as Ekeys by (clear; destruct op; cbn; set_solver).
  rewrite Ekeys in Hin. destruct (run_op_bounded fuel op s M Hm Hk) as (r & s1 & M1 & R1 & Hs1 & Hm1 & Hk1); [set_solver|done|].
  destruct (IH ltac:(set_solver) s1 M1 Hm1 Hk1) as (rs & s2 & M2 & R2 & Hs2 & Hm2).
  exists (r :: rs), s2, M2. split; [|split; [by econstructor|done]].
  cbn [run_ops]. unfold runs. by rewrite (bind_runs _ _ _ _ _ R1), (bind_runs _ _ _ _ _ R2).
Qed.

Lemma Create_keys area area_size s s' :
  pow2 nb -> nb <= n < 2 ^ 31 -> Size n nb <= area_size -> Z.of_nat (length (entry_mem s)) = n ->
  runs (Create area area_size n nb) s true s' -> keys_ok G s'.
Proof.
  intros Hpow Hn Hsize Hen R. destruct (create_checks (K := K) (V := V) area_size nb n Hpow Hn Hsize) as (E1 & E2 & Hbytes & E3 & E4 & E5 & E6).
  assert (Create area area_size n nb s = (Clear;; mret true) (laid_out area nb n s)) as E.
  { unfold Create. rewrite E1, E2, (bind_runs _ _ _ _ _ (EntryStack_Create_runs area area_size n s Hbytes E3)).
    cbn [negb]. rewrite (bind_runs _ _ _ _ _ (runs_modify _ _)), Hbytes, E4, E5, E6. reflexivity. }
  unfold runs in R. rewrite E in R. apply runs_bind in R as ([] & s1 & R & E'). injection E' as <-.
  exact (Clear_keys G n (laid_out area nb n s) s1 HG eq_refl Hen R).
Qed.
End full.

(** C21: any sequence of insertions, look-ups and removals on a new table runs
    to its end and leaves the table well-formed, also when more keys are
    inserted than there are entries: every hash value, entry index, counter
    and stack pointer is in its range, the entries in use and the free ones
    make up all entries, and the results are those of a finite map of at most
    [n] keys, where a new key is refused only if there are four keys or the
    map is full. The keys inserted, and what a cleared entry and entry 0 under the
    stack can hold, have a second hash value other than 0 (there is a hash
    value for which it is 0, and then an insertion may not return); 52 rounds
    of the loop of [AddEntry] per bucket are enough. *)
Theorem cuckoo_any_sequence {K V} `{Countable K, !CuckooTypes K V, !CuckooLaws K V} (G : K -> Prop) fuel area area_size nb n (s : CuckooMap K V) ops :
  pow2 nb -> nb <= n < 2 ^ 31 -> Size n nb <= area_size ->
  Z.of_nat (length (stack_mem s)) = n -> Z.of_nat (length (entry_mem s)) = n -> Z.of_nat (length (bucket_mem s)) = nb ->
  key_set (V := V) G n -> (forall k, G k -> HashSecondary (Hash (V := V) k) <> 0) -> (forall k, k ∈ inserted_keys ops -> G k) ->
  52 * nb + 1 < Z.of_nat fuel ->
  exists rs s' M, runs (_ ← Create area area_size n nb; run_ops fuel ops) s rs s'
    /\ well_typed s' /\ is_map s' nb n M /\ bounded_ops n ∅ ops rs M.
Proof.
  intros Hpow Hn Hsize Hst Hen Hbu HG Hhash Hin Hf.
  destruct (Create_runs area area_size nb n s Hpow Hn Hsize Hst Hen Hbu) as (s1 & R1 & Hr1).
  pose proof (Create_keys G nb n HG area area_size s s1 Hpow Hn Hsize Hen R1) as Hk1.
  destruct (run_ops_bounded G nb n HG Hhash fuel ops s1 ∅) as (rs & s2 & M & R2 & Hs2 & Hm2); [|done..|].
  - exists empty_slots, ∅, (rev (seqZ 0 n)). split; [done|]. unfold contents. apply omap_empty.
  - exists rs, s2, M. split; [unfold runs; by rewrite (bind_runs _ _ _ _ _ R1)|]. split; [by eapply is_map_typed|done].
Qed.
