(* ===== verification/CuckooCount.v ===== *)
(** * CuckooCount: the test program of the cuckoo table (apps/cuckoo-map/main.cc)

    The table with keys and values of 64 bits, as the programs use it, the
    program that counts random numbers with it, and concrete runs of the
    theorems of [CuckooTable] and [CuckooFull]. *)
From stdpp Require Import base gmap list numbers.
From Stdlib Require Import ZArith Lia.
From S2P Require Import Prelude Cuckoo CuckooSlots CuckooSpace CuckooProofs CuckooOps CuckooCreate CuckooTable CuckooFull.

(** ** CuckooMap<size_t, uint64_t> *)

(** [std::hash] of an integer is the integer; the first word of a key in
    memory are its low 32 bits. *)
#[export] Instance size_t_types : CuckooTypes Z Z := {
  hasher k := k; equal := Z.eqb; differ a b := negb (a =? b); key0 := 0; value0 := 0;
  word0 k := u32 k; set_word0 i k := k - u32 k + i; sizeof_Entry := 16;
}.

#[export] Instance size_t_laws : CuckooLaws Z Z.
Proof.
  constructor.
  - apply Z.eqb_eq.
  - intros a b. cbn. rewrite negb_true_iff. apply Z.eqb_neq.
  - intros i a Hi. unfold word0, set_word0, size_t_types. unfold u32, wrap.
    pose proof (Z.div_mod a (2 ^ 32) ltac:(lia)) as E.
    replace (a - a mod 2 ^ 32 + i) with (i + a / 2 ^ 32 * 2 ^ 32) by lia.
    rewrite Z.mod_add by lia. by apply Z.mod_small.
  - cbn. lia.
Qed.

Abbreviation table := (CuckooMap Z Z).

(** Memory that holds anything. *)
Definition raw_table (n nb : nat) (k : Z) : table :=
  mk_cuckoo 0 0 0 0 0 0 0 0 0 0 0 (replicate n k) (replicate n (mk_entry k k))
    (replicate nb (mk_bucket [k; k; k; k] [k; k; k; k])) [].

(** ** The program *)

(** [fast_random] on the value of its static variable. *)
Definition fast_random (seed : Z) : Z * Z :=
  let seed := u64 (seed * 1103515245 + 12345) in (Z.shiftr seed 32, seed).

(** One turn of the loop in [main]. *)
Definition count_step (fuel : nat) (x seed : Z) : cmd table Z :=
  let '(r, seed) := fast_random seed in
  let val := r mod x in
  entry ← Find val;
  match entry with
  | None => _ ← Insert fuel val 0; mret seed
  | Some idx =>
      e ← get_entry idx;
      if negb (first e =? val) then fail Abort
      else
        let prev := second e in
        _ ← Remove val;
        _ ← Insert fuel val (u64 (prev + 1));
        mret seed
  end.

(** The first [t] turns. *)
Fixpoint count_loop (fuel : nat) (x : Z) (t : nat) (seed : Z) : cmd table Z :=
  match t with
  | O => mret seed
  | Datatypes.S t' => seed' ← count_step fuel x seed; count_loop fuel x t' seed'
  end.

Definition count_main (fuel t : nat) (test : Z) : cmd table Z :=
  let need_bytes := Size (K := Z) (V := Z) (128 * 4) 128 in
  _ ← Create test need_bytes (128 * 4) 128; count_loop fuel 10 t 42.

(** ** What it computes *)

(** The numbers drawn in [t] turns. *)
Fixpoint draws (x : Z) (t : nat) (seed : Z) : list Z :=
  match t with O => [] | Datatypes.S t' => fst (fast_random seed) mod x :: draws x t' (snd (fast_random seed)) end.

Definition occurrences (v : Z) (l : list Z) : nat := length (filter (fun y => y = v) l).

(** The map after the numbers [l] were counted. *)
Definition counted (l : list Z) (M : gmap Z Z) : Prop :=
  forall v, M !! v = match occurrences v l with O => None | Datatypes.S c => Some (Z.of_nat c) end.

Lemma occurrences_snoc v l y : occurrences v (l ++ [y]) = (occurrences v l + if bool_decide (y = v) then 1 else 0)%nat.
Proof.
  unfold occurrences. rewrite list.filter_app, length_app, list.filter_cons, list.filter_nil.
  destruct (decide (y = v)); [by rewrite bool_decide_true|by rewrite bool_decide_false].
Qed.

Lemma counted_snoc l M y c :
  counted l M -> occurrences y l = c -> counted (l ++ [y]) (<[y := Z.of_nat c]> M).
Proof.
  intros Hm Hc v. rewrite occurrences_snoc. destruct (decide (y = v)) as [<-|Hne].
  - rewrite bool_decide_true, lookup_insert_eq, Hc by done. by replace (c + 1)%nat with (Datatypes.S c) by lia.
  - rewrite bool_decide_false, lookup_insert_ne, Nat.add_0_r by done. apply Hm.
Qed.

(** A bucket is one of the two buckets of at most two numbers below ten, so
    none is ever full. *)
Definition place_b (b k : Z) : bool := (b =? Z.land (Hash k) 127) || (b =? alt 128 (Hash k)).

Lemma few_places b : 0 <= b < 128 -> (length (List.filter (place_b b) (seqZ 0 10)) <= 2)%nat.
Proof.
  intros Hb. assert (forallb (fun b => length (List.filter (place_b b) (seqZ 0 10)) <=? 2)%nat (seqZ 0 128) = true) as H by (by vm_compute).
  rewrite forallb_forall in H. apply Nat.leb_le, H, list_elem_of_In, elem_of_seqZ. lia.
Qed.

Lemma small_never_full s M b :
  is_map s 128 512 M -> (forall k, is_Some (M !! k) -> 0 <= k < 10) -> 0 <= b < 128 -> ~ bucket_full s b.
Proof.
  intros (S & P & F & Hr & <-) Hk Hb Hf.
  destruct (full_keys s 128 512 S P F b Hr Hb (bucket_full_slots _ _ _ _ (cr_sees _ _ _ _ _ _ Hr) Hb Hf)) as (ks & Hnd & Hlen & Hks).
  pose proof (few_places b Hb) as Hfew. assert (length ks <= length (List.filter (place_b b) (seqZ 0 10)))%nat; [|lia].
  apply submseteq_length, NoDup_submseteq; [done|]. intros k Hin. destruct (Hks k Hin) as [HP Hpl].
  apply list_elem_of_In, filter_In. split.
  - apply list_elem_of_In, elem_of_seqZ. assert (0 <= k < 10); [|lia]. apply Hk.
    rewrite <- not_eq_None_Some in *. by rewrite (contents_none _ _ _ _ _ _ Hr k).
  - unfold place_b. destruct Hpl as [->| ->]; [by rewrite Z.eqb_refl|]. rewrite Z.eqb_refl. apply orb_true_r.
Qed.

(** With keys below ten an insertion always succeeds. *)
Lemma small_insert s M k v :
  is_map s 128 512 M -> (forall k, is_Some (M !! k) -> 0 <= k < 10) -> 0 <= k < 10 ->
  exists x s', runs (Insert 2 k v) s (Some x) s' /\ is_map s' 128 512 (<[k := v]> M).
Proof.
  intros Hm Hk Hkr. assert (Z.of_nat (size M) < 512) as Hsize.
  { assert (size (dom M) <= size (list_to_set (C := gset Z) (seqZ 0 10)))%nat as Hle.
    { apply subseteq_size. intros y Hy. apply elem_of_list_to_set, elem_of_seqZ. apply elem_of_dom, Hk in Hy. lia. }
    rewrite size_dom, size_list_to_set, length_seqZ in Hle by apply NoDup_seqZ. lia. }
  destruct (map_insert 2 s 128 512 M k v Hm) as (r & s' & R & _ & _ & Hpost); [left; split; [done|lia]|].
  destruct r as [x|]; [by exists x, s'; split; [|apply Hpost]|exfalso].
  destruct Hpost as (_ & _ & [?|(Hf & _)]); [lia|]. 
  apply (small_never_full s M (Z.land (Hash k) (128 - 1)) Hm Hk); [|done]. apply mask_range. by exists 7.
Qed.

Lemma counted_keys l M : counted l M -> Forall (fun y => 0 <= y < 10) l -> forall k, is_Some (M !! k) -> 0 <= k < 10.
Proof.
  intros Hm Hl k Hk. rewrite (Hm k) in Hk. unfold occurrences in Hk. destruct (filter (fun y => y = k) l) as [|y l'] eqn:E; [by destruct Hk|].
  assert (y ∈ filter (fun y => y = k) l) as Hy by (rewrite E; left). apply list_elem_of_filter in Hy as [-> Hy].
  by apply (proj1 (list.Forall_forall _ _) Hl).
Qed.

Lemma count_step_runs l s M seed :
  is_map s 128 512 M -> counted l M -> Forall (fun y => 0 <= y < 10) l -> Z.of_nat (length l) < 2 ^ 64 ->
  exists s' M', runs (count_step 2 10 seed) s (snd (fast_random seed)) s' /\ is_map s' 128 512 M'
    /\ counted (l ++ [fst (fast_random seed) mod 10]) M'.
Proof.
  intros Hm Hc Hl Hlen. unfold count_step. destruct (fast_random seed) as [r seed']. cbn [fst snd]. set (val := r mod 10).
  assert (0 <= val < 10) as Hv by (apply Z.mod_pos_bound; lia). pose proof (counted_keys l M Hc Hl) as Hk.
  destruct (map_find s 128 512 M val Hm) as (e & Re & He). unfold runs. rewrite (bind_runs _ _ _ _ _ Re).
  pose proof (Hc val) as Hcv. destruct (occurrences val l) as [|c] eqn:Ho; rewrite Hcv in He.
  - subst e. destruct (small_insert s M val 0 Hm Hk Hv) as (x & s' & R & Hm'). exists s', (<[val := 0]> M).
    rewrite (bind_runs _ _ _ _ _ R). split; [done|]. split; [done|]. by apply (counted_snoc l M val 0).
  - destruct He as (x & -> & Ee). rewrite (bind_runs _ _ _ _ _ (get_entry_runs s x _ Ee)). cbn [first second]. rewrite Z.eqb_refl. cbn [negb].
    destruct (map_remove s 128 512 M val Hm) as (s1 & R1 & Hm1). rewrite (bind_runs _ _ _ _ _ R1).
    assert (u64 (Z.of_nat c + 1) = Z.of_nat (Datatypes.S c)) as ->.
    { assert (occurrences val l <= length l)%nat by apply length_filter. rewrite u64_small by lia. lia. }
    destruct (small_insert s1 (delete val M) val (Z.of_nat (Datatypes.S c)) Hm1) as (x' & s2 & R2 & Hm2); [|done|].
    { intros k Hkk. apply Hk. destruct Hkk as [y Hy]. apply lookup_delete_Some in Hy as [_ Hy]. by exists y. }
    exists s2, (<[val := Z.of_nat (Datatypes.S c)]> M). rewrite (bind_runs _ _ _ _ _ R2). split; [done|].
    rewrite insert_delete_eq in Hm2. split; [done|]. by apply counted_snoc.
Qed.

Lemma count_loop_runs t l s M seed :
  is_map s 128 512 M -> counted l M -> Forall (fun y => 0 <= y < 10) l -> Z.of_nat (length l + t) <= 2 ^ 64 ->
  exists seed' s' M', runs (count_loop 2 10 t seed) s seed' s' /\ is_map s' 128 512 M' /\ counted (l ++ draws 10 t seed) M'.
Proof.
  revert l s M seed. induction t as [|t IH]; intros l s M seed Hm Hc Hl Hlen; cbn [count_loop draws].
  { exists seed, s, M. rewrite app_nil_r. done. }
  destruct (count_step_runs l s M seed Hm Hc Hl ltac:(lia)) as (s1 & M1 & R1 & Hm1 & Hc1).
  destruct (IH (l ++ [fst (fast_random seed) mod 10]) s1 M1 (snd (fast_random seed)) Hm1 Hc1) as (seed' & s2 & M2 & R2 & Hm2 & Hc2).
  { apply Forall_app. split; [done|]. constructor; [apply Z.mod_pos_bound; lia|constructor]. }
  { rewrite length_app. cbn [length]. lia. }
  exists seed', s2, M2. unfold runs. rewrite (bind_runs _ _ _ _ _ R1). split; [done|]. split; [done|]. by rewrite <- app_assoc in Hc2.
Qed.

(** The test program counts. However many turns its loop has taken, up to
    2^64, it has not aborted, no insertion was refused, and the table maps
    each number drawn so far to the number of times it was drawn again. *)
Theorem count_main_counts t test s :
  length (stack_mem s) = 512%nat -> length (entry_mem s) = 512%nat -> length (bucket_mem s) = 128%nat -> Z.of_nat t <= 2 ^ 64 ->
  exists seed s' M, runs (count_main 2 t test) s seed s' /\ is_map s' 128 512 M
    /\ forall v, M !! v = match occurrences v (draws 10 t 42) with O => None | Datatypes.S c => Some (Z.of_nat c) end.
Proof.
  intros Hst Hen Hbu Ht.
  destruct (Create_runs test (Size (K := Z) (V := Z) (128 * 4) 128) 128 512 s) as (s1 & R1 & Hr1); try lia; [by exists 7|done|].
  destruct (count_loop_runs t [] s1 ∅ 42) as (seed & s2 & M & R2 & Hm2 & Hc2).
  - exists empty_slots, ∅, (rev (seqZ 0 512)). split; [done|]. apply omap_empty.
  - done.
  - constructor.
  - cbn. lia.
  - exists seed, s2, M. split; [|done]. unfold runs, count_main. change (128 * 4) with 512 in *. by rewrite (bind_runs _ _ _ _ _ R1).
Qed.

(** ** A key whose insertion never ends *)

(** The hash value 0xb55a95f2 has second hash value 0, the mark of an empty
    slot. *)
Definition zero_key : Z := 0x355a95f2.

(** A table for one entry, in use by [zero_key]. *)
Definition one_entry : cmd table (option Z) := _ ← Create 4096 124 1 1; Insert 2 zero_key 1.

(** The only bucket after the entry has moved to slot 1. *)
Definition stuck (ms : list (Z * Z)) : table :=
  mk_cuckoo 4096 0 1 1 1 4144 4188 4172 0 1 4168 [7] [mk_entry zero_key 1]
    [mk_bucket [0; 0xb55a95f2; 0; 0] [0; 0; 0; 0]] ms.

Lemma stuck_loops fuel k v ms : Fault NoFuel = AddEntry fuel (Hash k) (HashSecondary (Hash k)) k v (stuck ms).
Proof.
  revert ms. induction fuel as [|fuel IH]; intros ms; [done|]. cbn [AddEntry].
  rewrite (bind_runs _ _ _ _ _ (runs_gets _ _)). change (bucket_mask_ (stuck ms)) with 0. rewrite !Z.land_0_r.
  assert (runs (AddToBucket 0 k v) (stuck ms) None (stuck ms)) as R1 by reflexivity.
  assert (runs (MakeSpace kMaxCuckooPath 0) (stuck ms) 0 (stuck ((4188, 32) :: (4188, 32) :: ms))) as R2 by (by vm_compute).
  rewrite (bind_runs _ _ _ _ _ R1), (bind_runs _ _ _ _ _ R1), (bind_runs _ _ _ _ _ R2). apply IH.
Qed.

(** An insertion may never return. The key 0x355a95f2 has second hash value
    0. When a table without a free entry has it in an entry that the stale
    index of an empty slot names, [MakeSpace] takes the empty slot for one
    with this entry, moves nothing, and reports success, so that [AddEntry]
    starts again, however long it is allowed to go on. *)
Theorem Insert_never_returns fuel k v :
  Hash k <> Hash zero_key -> (_ ← one_entry; Insert fuel k v) (raw_table 1 1 7) = Fault NoFuel.
Proof.
  intros Hk.
  assert (exists ms, runs one_entry (raw_table 1 1 7) (Some 0)
    ((stuck ms) <| bucket_mem := [mk_bucket [0xb55a95f2; 0; 0; 0] [0; 0; 0; 0]] |>)) as (ms & R0).
  { exists [(4172, 16); (4188, 32); (4144, 8); (4096, 124); (4168, 8); (4144, 8); (4144, 8); (4144, 24)]. by vm_compute. }
  rewrite (bind_runs _ _ _ _ _ R0). set (s1 := set_field bucket_mem _ (stuck ms)).
  assert (forall h, h <> 0xb55a95f2 -> h <> 0 -> runs (GetFromBucket h 0 k) s1 kInvalidEntryIdx s1) as RG.
  { intros h Hne H0. apply not_eq_sym, Z.eqb_neq in Hne, H0. unfold GetFromBucket, FindSlot, runs.
    match goal with |- (find_slot ?f _ ≫= _) _ = _ => destruct (find_slot_runs f (fun _ => false) s1 0 kEntriesPerBucket)
      as (j & Rj & [[-> _]|(_ & ? & _)]) end; try done; [|by rewrite (bind_runs _ _ _ _ _ Rj)].
    intros i Hi. change (0 <= i < 4) in Hi.
    assert (exists h', runs (hash_value 0 i) s1 h' s1 /\ (h' = 0xb55a95f2 \/ h' = 0)) as (h' & R & Hh).
    { assert (i = 0 \/ i = 1 \/ i = 2 \/ i = 3) as [->|[->|[->| ->]]] by lia; eexists; (split; [reflexivity|auto]). }
    unfold runs. rewrite (bind_runs _ _ _ _ _ R). destruct Hh as [->| ->]; by rewrite ?Hne, ?H0. }
  specialize (RG (Hash k) Hk (Hash_nonzero (V := Z) k)).
  assert (runs (FindWithHash (Hash k) k) s1 kInvalidEntryIdx s1) as RF.
  { unfold FindWithHash, runs. rewrite (bind_runs _ _ _ _ _ (runs_gets _ _)). change (bucket_mask_ s1) with 0.
    rewrite !Z.land_0_r, (bind_runs _ _ _ _ _ RG). exact RG. }
  unfold Insert. rewrite (bind_runs _ _ _ _ _ RF), Z.eqb_refl. cbn [negb].
  destruct fuel as [|fuel]; [done|]. cbn [AddEntry].
  rewrite (bind_runs _ _ _ _ _ (runs_gets _ _)). change (bucket_mask_ s1) with 0. rewrite !Z.land_0_r.
  assert (runs (AddToBucket 0 k v) s1 None s1) as R1 by reflexivity.
  assert (runs (MakeSpace kMaxCuckooPath 0) s1 0 (stuck ((4188, 32) :: (4188, 32) :: ms))) as R2 by (by vm_compute).
  rewrite (bind_runs _ _ _ _ _ R1), (bind_runs _ _ _ _ _ R1), (bind_runs _ _ _ _ _ R2). symmetry. apply stuck_loops.
Qed.

Lemma Insert_never_returns_witness : (_ ← one_entry; Insert 1000 5 50) (raw_table 1 1 7) = Fault NoFuel.
Proof. apply Insert_never_returns; by vm_compute. Defined.

(** ** Concrete tables *)

Lemma small_table : exists s : table, is_map s 2 8 ∅.
Proof.
  destruct (Create_runs (K := Z) (V := Z) 4096 1000 2 8 (raw_table 8 2 7)) as (s & _ & Hr); try done; [by exists 1|].
  exists s, empty_slots, ∅, (rev (seqZ 0 8)). split; [done|]. apply omap_empty.
Qed.

(** 5 is inserted, found, removed and not found. *)
Lemma cuckoo_refines_map_witness :
  exists rs s' M, runs (_ ← Create 4096 1000 8 2; run_ops 2 [OpInsert 5 50; OpFind 5; OpRemove 5; OpFind 5; OpRemove 6]) (raw_table 8 2 7) rs s'
    /\ spec_ops ∅ [OpInsert 5 50; OpFind 5; OpRemove 5; OpFind 5; OpRemove 6] rs M /\ is_map s' 2 8 M.
Proof.
  apply (cuckoo_refines_map 2 4096 1000 2 8 (raw_table 8 2 7)); try done. by exists 1.
Defined.

(** Three keys on a table of two entries, then one is removed and the third
    comes again. *)
Lemma cuckoo_any_sequence_witness :
  exists rs s' M, runs (_ ← Create 4096 1000 2 1; run_ops 60 [OpInsert 5 50; OpInsert 6 60; OpInsert 7 70; OpRemove 5; OpInsert 7 71]) (raw_table 2 1 7) rs s'
    /\ well_typed s' /\ is_map s' 1 2 M
    /\ bounded_ops 2 ∅ [OpInsert 5 50; OpInsert 6 60; OpInsert 7 70; OpRemove 5; OpInsert 7 71] rs M.
Proof.
  apply (cuckoo_any_sequence (fun k => 0 <= k < 8) 60 4096 1000 1 2 (raw_table 2 1 7)).
  - by exists 0.
  - lia.
  - by vm_compute.
  - done.
  - done.
  - done.
  - split; [done|]. intros x k Hx Hk. cbn. rewrite u32_small by lia. lia.
  - intros k Hk. assert (k = 0 \/ k = 1 \/ k = 2 \/ k = 3 \/ k = 4 \/ k = 5 \/ k = 6 \/ k = 7) as Hc by lia.
    destruct Hc as [->|[->|[->|[->|[->|[->|[->| ->]]]]]]]; by vm_compute.
  - cbn. intros k Hk. rewrite !elem_of_union, !elem_of_singleton, elem_of_empty in Hk. lia.
  - lia.
Defined.

Lemma Insert_ends_witness : exists s : table, is_map s 2 8 ∅ /\ exists r s', runs (Insert 2 5 50) s r s' /\ insert_post s 2 8 ∅ 5 50 r s'.
Proof.
  destruct small_table as (s & Hs). exists s. split; [done|]. apply (Insert_ends 2 s 2 8 ∅ 5 50 Hs). left. split; [done|lia].
Defined.

Lemma small_table_5 : exists s : table, is_map s 2 8 {[5 := 50]}.
Proof.
  destruct small_table as (s & Hs). destruct (map_insert 2 s 2 8 ∅ 5 50 Hs) as (r & s1 & _ & _ & _ & Hpost); [left; split; [done|lia]|].
  exists s1. destruct r as [x|]; [apply Hpost|exfalso].
  destruct Hpost as (_ & _ & [?|(_ & _ & ?)]); [done|]. rewrite map_size_empty in *. lia.
Qed.

Lemma Remove_unreported_witness :
  exists (s s' : table) b, is_map s 2 8 {[5 := 50]} /\ runs (Remove 5) s true s' /\ bucket_mem s' !! Z.to_nat b <> bucket_mem s !! Z.to_nat b.
Proof.
  destruct small_table_5 as (s & Hm).
  destruct (Remove_unreported s 2 8 {[5 := 50]} 5 50 Hm) as (s2 & b & ms & R & _ & _ & Hne & _); [done|].
  by exists s, s2, b.
Defined.

Lemma count_main_counts_witness :
  exists seed s' M, runs (count_main 2 5 4096) (raw_table 512 128 7) seed s' /\ is_map s' 128 512 M
    /\ forall v, M !! v = match occurrences v (draws 10 5 42) with O => None | Datatypes.S c => Some (Z.of_nat c) end.
Proof. apply (count_main_counts 5 4096 (raw_table 512 128 7)); [apply length_replicate..|lia]. Defined.
