(* ===== verification/CuckooIter.v ===== *)
(** * CuckooIter: the range-based loop over a cuckoo table *)
From stdpp Require Import base gmap list numbers.
From Stdlib Require Import ZArith Lia.
From S2P Require Import Prelude Cuckoo CuckooSlots CuckooSpace CuckooProofs CuckooOps CuckooCreate CuckooTable CuckooCount.

Section iter.
Context {K V : Type} `{Countable K, !CuckooTypes K V, !CuckooLaws K V}.
Context (s : CuckooMap K V) (nb n : Z) (S : slots) (P : gmap K Z) (F : list Z) (Hr : cuckoo_rep s nb n S P F).

(** The iterator at slot [p mod 4] of bucket [p / 4]. *)
Definition it_at (p : Z) : iterator := mk_iterator (p / 4) (p mod 4).
Definition slot_at (p : Z) : Z * Z := S (p / 4) (p mod 4).

Lemma nb_pos : 0 < nb.
Proof. apply pow2_pos, (lo_pow _ _ _ (cr_layout _ _ _ _ _ _ Hr)). Qed.

Lemma cell_at p : 0 <= p < 4 * nb -> cell nb (p / 4) (p mod 4).
Proof. intros Hp. pose proof (Z.mod_pos_bound p 4 ltac:(lia)). split; [|done]. pose proof (Z.div_mod p 4 ltac:(lia)). lia. Qed.

Lemma advance_at p : 0 <= p -> advance (it_at p) = it_at (p + 1).
Proof.
  intros Hp. unfold advance, it_at, kEntriesPerBucket. cbn [bucket_idx_ slot_idx_].
  pose proof (Z.mod_pos_bound p 4 ltac:(lia)). pose proof (Z.div_mod p 4 ltac:(lia)) as E.
  destruct (Z.eqb_spec (p mod 4 + 1) 4) as [E4|Hne].
  - assert (p + 1 = (p / 4 + 1) * 4) as -> by lia. by rewrite Z.div_mul, Z.mod_mul by lia.
  - f_equal; [apply (Z.div_unique _ _ _ (p mod 4 + 1)); lia|apply (Z.mod_unique _ _ (p / 4)); lia].
Qed.

(** The slots in use from position [p] on. *)
Definition live_from (p : Z) : list Z := filter (fun q => fst (slot_at q) <> 0) (seqZ p (4 * nb - p)).

Lemma live_from_end : live_from (4 * nb) = [].
Proof. unfold live_from. by rewrite Z.sub_diag. Qed.

Lemma live_from_step p :
  p < 4 * nb -> live_from p = if decide (fst (slot_at p) <> 0) then p :: live_from (p + 1) else live_from (p + 1).
Proof.
  intros Hp. unfold live_from. rewrite seqZ_cons, list.filter_cons by lia.
  replace (Z.pred (4 * nb - p)) with (4 * nb - (p + 1)) by lia. done.
Qed.

Lemma skip_empty_runs fuel p :
  0 <= p <= 4 * nb -> 4 * nb - p < Z.of_nat fuel ->
  exists q, runs (skip_empty fuel (it_at p)) s (it_at q) s /\ p <= q <= 4 * nb /\ live_from p = live_from q
    /\ (q = 4 * nb \/ fst (slot_at q) <> 0).
Proof.
  revert p. induction fuel as [|fuel IH]; intros p Hp Hf; [lia|]. cbn [skip_empty]. unfold runs.
  rewrite (bind_runs _ _ _ _ _ (runs_gets _ _)), (lo_nb _ _ _ (cr_layout _ _ _ _ _ _ Hr)). cbn [bucket_idx_ slot_idx_ it_at].
  pose proof nb_pos. destruct (Z.ltb_spec (p / 4) nb) as [Hlt|Hge].
  - assert (p < 4 * nb) as Hpl by (pose proof (Z.div_mod p 4 ltac:(lia)); pose proof (Z.mod_pos_bound p 4 ltac:(lia)); lia).
    destruct (cell_at p ltac:(lia)) as [Hb Hi].
    rewrite (bind_runs _ _ _ _ _ (hash_value_runs _ _ _ (cr_sees _ _ _ _ _ _ Hr) _ _ Hb Hi)). fold (slot_at p).
    destruct (Z.eqb_spec (fst (slot_at p)) 0) as [E|Hne].
    + destruct (IH (p + 1)) as (q & R & Hq & El & Hend); [lia|lia|]. fold (it_at p). rewrite advance_at by lia.
      exists q. split; [exact R|]. split; [lia|]. rewrite live_from_step by lia. rewrite decide_False by tauto. done.
    + exists p. split; [done|]. split; [lia|]. auto.
  - exists p. split; [done|]. assert (p = 4 * nb) as ->; [|split; [lia|auto]].
    pose proof (Z.div_le_upper_bound p 4 nb ltac:(lia) ltac:(lia)). pose proof (Z.div_mod p 4 ltac:(lia)).
    pose proof (Z.mod_pos_bound p 4 ltac:(lia)). lia.
Qed.

Definition entry_at (p : Z) : option (Entry K V) := entry_mem s !! Z.to_nat (snd (slot_at p)).

Lemma it_at_eq p q : iterator_eq (it_at p) (it_at q) = (p =? q).
Proof.
  unfold iterator_eq, it_at. cbn [bucket_idx_ slot_idx_].
  pose proof (Z.div_mod p 4 ltac:(lia)) as Ep. pose proof (Z.div_mod q 4 ltac:(lia)) as Eq.
  destruct (Z.eqb_spec p q) as [->|Hne]; [by rewrite !Z.eqb_refl|].
  destruct (Z.eqb_spec (p / 4) (q / 4)), (Z.eqb_spec (p mod 4) (q mod 4)); try done. exfalso. congruence.
Qed.

Lemma live_entry_at p : 0 <= p < 4 * nb -> fst (slot_at p) <> 0 -> exists k v, entry_at p = Some (mk_entry k v) /\ P !! k = Some (snd (slot_at p)).
Proof.
  intros Hp Hl. destruct (rep_live _ _ _ _ _ _ Hr _ _ (cell_at p Hp) Hl) as (k & v & HP & _ & E). by exists k, v.
Qed.

Lemma iterate_runs big fuel q :
  4 * nb < Z.of_nat big -> (fuel <= big)%nat -> 0 <= q <= 4 * nb -> q = 4 * nb \/ fst (slot_at q) <> 0 ->
  4 * nb - q < Z.of_nat fuel ->
  exists es, runs (iterate fuel (it_at q) (it_at (4 * nb))) s es s /\ Some <$> es = entry_at <$> live_from q.
Proof.
  intros Hbig. revert q. induction fuel as [|fuel IH]; intros q Hfb Hq Hend Hf; [lia|]. cbn [iterate]. rewrite it_at_eq. unfold runs.
  destruct (Z.eqb_spec q (4 * nb)) as [->|Hne].
  { exists []. split; [done|]. by rewrite live_from_end. }
  destruct Hend as [?|Hl]; [done|]. destruct (cell_at q ltac:(lia)) as [Hb Hi].
  destruct (live_entry_at q ltac:(lia) Hl) as (k & v & Ee & _).
  rewrite (bind_runs _ _ _ _ _ (entry_index_runs _ _ _ (cr_sees _ _ _ _ _ _ Hr) _ _ Hb Hi)).
  rewrite (bind_runs _ _ _ _ _ (get_entry_runs s _ _ Ee)). unfold iterator_next. rewrite advance_at by lia.
  destruct (skip_empty_runs (Datatypes.S fuel) (q + 1)) as (q' & R & Hq' & El & Hend); [lia|lia|].
  destruct (IH q') as (es & Res & Hes); [lia|lia|done|lia|].
  exists (mk_entry k v :: es). rewrite (bind_runs _ _ _ _ _ R), (bind_runs _ _ _ _ _ Res). split; [done|].
  rewrite live_from_step, decide_True, El by (done || lia). cbn [fmap list_fmap]. f_equal; [by rewrite Ee|]. exact Hes.
Qed.

(** The positions in use stand for the keys, each once. *)
Lemma live_keys p : p ∈ live_from 0 <-> 0 <= p < 4 * nb /\ fst (slot_at p) <> 0.
Proof. unfold live_from. rewrite list_elem_of_filter, elem_of_seqZ. intuition lia. Qed.

Lemma live_entries_permutation es :
  Some <$> es = entry_at <$> live_from 0 -> es ≡ₚ (fun kv => mk_entry (fst kv) (snd kv)) <$> map_to_list (contents s P).
Proof.
  intros Hes. apply NoDup_Permutation.
  - apply (NoDup_fmap_1 Some). rewrite Hes. apply NoDup_fmap_2_strong.
    + intros p q [Hp Hlp]%live_keys [Hq Hlq]%live_keys E.
      destruct (live_entry_at p Hp Hlp) as (k & v & E1 & HP1), (live_entry_at q Hq Hlq) as (k' & v' & E2 & HP2).
      rewrite E1, E2 in E. injection E as <- _. rewrite HP1 in HP2. injection HP2 as E.
      destruct (sr_unique _ _ _ (cr_slots _ _ _ _ _ _ Hr) _ _ _ _ (cell_at p Hp) (cell_at q Hq) Hlp Hlq (eq_sym E)) as [H1 H2].
      pose proof (Z.div_mod p 4 ltac:(lia)). pose proof (Z.div_mod q 4 ltac:(lia)). congruence.
    + unfold live_from. apply list.NoDup_filter, NoDup_seqZ.
  - apply (NoDup_fmap_2_strong _ (map_to_list _)); [|apply NoDup_map_to_list].
    intros [k v] [k' v'] _ _. cbn. by intros [= -> ->].
  - intros [k v].
    assert (mk_entry k v ∈ es <-> Some (mk_entry k v) ∈ entry_at <$> live_from 0) as ->.
    { rewrite <- Hes, list_elem_of_fmap. split; [by exists (mk_entry k v)|by intros (e & [= ->] & ?)]. }
    rewrite !list_elem_of_fmap. split.
    + intros (p & E & [Hp Hl]%live_keys). destruct (live_entry_at p Hp Hl) as (k' & v' & E' & HP). rewrite E' in E. injection E as <- <-.
      exists (k, v). split; [done|]. apply elem_of_map_to_list. rewrite contents_lookup, HP. cbn. fold (entry_at p). by rewrite E'.
    + intros ([k' v'] & [= -> ->] & HM). apply elem_of_map_to_list in HM. rewrite contents_lookup in HM.
      destruct (P !! k') as [x|] eqn:HP; [|done]. cbn in HM.
      destruct (sr_key _ _ _ (cr_slots _ _ _ _ _ _ Hr) k' x HP) as (b & i & [Hb Hi] & E).
      destruct (cr_entries _ _ _ _ _ _ Hr k' x HP) as (_ & v & Ee). rewrite Ee in HM. injection HM as <-.
      assert (slot_at (4 * b + i) = (Hash k', x)) as Es.
      { unfold slot_at. rewrite <- E. f_equal; [symmetry; apply (Z.div_unique _ _ _ i); lia|symmetry; apply (Z.mod_unique _ _ b); lia]. }
      exists (4 * b + i). split; [unfold entry_at; by rewrite Es|]. apply live_keys. split; [lia|]. rewrite Es. apply Hash_nonzero.
Qed.

Lemma range_for_runs fuel :
  4 * nb < Z.of_nat fuel ->
  exists es, runs (range_for fuel) s es s /\ es ≡ₚ (fun kv => mk_entry (fst kv) (snd kv)) <$> map_to_list (contents s P).
Proof.
  intros Hf. pose proof nb_pos as Hnb. destruct (skip_empty_runs fuel 0) as (q & R & Hq & El & Hend); [lia|lia|].
  destruct (skip_empty_runs fuel (4 * nb)) as (q' & R' & Hq' & _); [lia|lia|]. assert (q' = 4 * nb) as -> by lia.
  destruct (iterate_runs fuel fuel q Hf) as (es & Res & Hes); [lia|lia|done|lia|].
  exists es. split; [|apply live_entries_permutation; by rewrite El].
  assert (it_at (4 * nb) = mk_iterator nb 0) as E by (unfold it_at; rewrite (Z.mul_comm 4 nb), Z.div_mul, Z.mod_mul by lia; done).
  unfold runs, range_for, begin, end_, iterator_at. change (mk_iterator 0 0) with (it_at 0).
  rewrite (bind_runs _ _ _ _ _ R), bind_assoc, (bind_runs _ _ _ _ _ (runs_gets _ _)), (lo_nb _ _ _ (cr_layout _ _ _ _ _ _ Hr)).
  rewrite <- E, (bind_runs _ _ _ _ _ R'). exact Res.
Qed.
End iter.

(** C35: a range-based loop over the table ends, and visits each key of the map
    exactly once, with its value. *)
Theorem range_for_visits_all {K V} `{Countable K, !CuckooTypes K V, !CuckooLaws K V} fuel (s : CuckooMap K V) nb n M :
  is_map s nb n M -> 4 * nb < Z.of_nat fuel ->
  exists es, runs (range_for fuel) s es s /\ es ≡ₚ (fun kv => mk_entry (fst kv) (snd kv)) <$> map_to_list M.
Proof. intros (S & P & F & Hr & <-) Hf. by eapply range_for_runs. Qed.

Lemma range_for_visits_all_witness :
  exists s : CuckooMap Z Z, is_map s 2 8 {[5 := 50]} /\ runs (range_for 9) s [mk_entry 5 50] s.
Proof.
  destruct small_table_5 as (s & Hm). exists s. split; [done|].
  destruct (range_for_visits_all 9 s 2 8 {[5 := 50]} Hm) as (es & R & Hes); [lia|].
  rewrite map_to_list_singleton in Hes. apply Permutation_singleton_r in Hes as ->. exact R.
Defined.
