(* ===== verification/SpinLock.v ===== *)
(** * SpinLock: the locks of the buckets (apps/openflow/cuckoo_map_lock.h, shm_spin_lock.cpp)

    Without Tasvir the flow table lies in plain shared memory, and each
    operation takes the locks of the two buckets of its key. [lock_step] is
    the program of one thread, one access to a lock at a time, and [lstep]
    interleaves threads.

    With [SpinLock], which takes the locks in ascending order, threads that
    share a bucket exclude each other and never deadlock. [SpinLockLazy] tests
    the result of [shm_spin_trylock] the wrong way round: a thread that uses
    it enters while both locks belong to another one. *)
From stdpp Require Import base list numbers relations.
From Stdlib Require Import ZArith Lia.
From S2P Require Import Prelude Cuckoo CuckooSlots.

(** ** The locks *)

(** The array of locks, and storing to one of them. *)
Definition locks : Type := Z -> Z.
Definition store (m : locks) (l v : Z) : locks := fun l' => if l' =? l then v else m l'.

Definition EBUSY : Z := 16.
Definition EINVAL : Z := 22.

(** [__sync_lock_test_and_set(lock, 1)] *)
Definition test_and_set (m : locks) (l : Z) : Z * locks := (m l, store m l 1).

Definition shm_spin_trylock (m : locks) (l : Z) : Z * locks :=
  let '(old, m') := test_and_set m l in
  (if old =? 0 then 0 else if old =? 1 then EBUSY else EINVAL, m').

Definition shm_spin_unlock (m : locks) (l : Z) : locks := store m l 0.

(** ** Operations under locks *)

Inductive locked_op := InsertWithLock | FindWithLock | FindWithLock_const | RemoveWithLock.

(** Which operations use [SpinLockLazy]. *)
Definition is_lazy (op : locked_op) : bool :=
  match op with InsertWithLock | FindWithLock => false | FindWithLock_const | RemoveWithLock => true end.

(** The buckets of a key, as [int]s. *)
Definition lock_buckets {K V} `{CuckooTypes K V} (mask : Z) (key : K) : Z * Z :=
  let primary := Hash key in
  let secondary := HashSecondary primary in
  (i32 (Z.land primary mask), i32 (Z.land secondary mask)).

(** The order in which [SpinLock] takes the locks and [SpinUnlock] gives them
    back. *)
Definition lock_order (a b : Z) : list Z := if a <? b then [a; b] else if b <? a then [b; a] else [a].
Definition unlock_order (a b : Z) : list Z := if a <? b then [b; a] else if b <? a then [a; b] else [a].

(** A thread: its operation and the buckets of its key. *)
Record thread := mk_thread { th_op : locked_op; th_a : Z; th_b : Z }.

(** Where it is: before the test-and-set of [shm_spin_lock] on the first of
    the locks still to take; in its inner loop; before the first and the second
    [shm_spin_trylock] of [SpinLockLazy] and before its [shm_spin_unlock]; in
    the operation; releasing; done. *)
Inductive lpc := Acq (ls : list Z) | Spin (ls : list Z) | Try1 | Try2 | Back | Crit | Rel (ls : list Z) | Fin.
#[export] Instance lpc_eq_dec : EqDecision lpc.
Proof. solve_decision. Defined.

(** Entering the operation: [SpinLock], or [SpinLockLazy], which for equal
    buckets also calls [shm_spin_lock]. *)
Definition lock_start (t : thread) : lpc :=
  if is_lazy (th_op t) && negb (th_a t =? th_b t) then Try1 else Acq (lock_order (th_a t) (th_b t)).

Definition lock_step (t : thread) (p : lpc) (m : locks) : lpc * locks :=
  let lo := Z.min (th_a t) (th_b t) in
  let hi := Z.max (th_a t) (th_b t) in
  match p with
  | Acq [] => (Crit, m)
  | Acq (l :: ls) => let '(old, m') := test_and_set m l in (if old =? 0 then Acq ls else Spin (l :: ls), m')
  | Spin [] => (Crit, m)
  | Spin (l :: ls) => (if m l =? 1 then Spin (l :: ls) else Acq (l :: ls), m)
  | Try1 => let '(r, m') := shm_spin_trylock m lo in (if negb (r =? 0) then Try2 else Try1, m')
  | Try2 => let '(r, m') := shm_spin_trylock m hi in (if negb (r =? 0) then Crit else Back, m')
  | Back => (Try1, shm_spin_unlock m lo)
  | Crit => (Rel (unlock_order (th_a t) (th_b t)), m)
  | Rel [] => (Fin, m)
  | Rel (l :: ls) => (Rel ls, shm_spin_unlock m l)
  | Fin => (Fin, m)
  end.

(** ** Interleaving *)

Definition lstate : Type := locks * list lpc.

Inductive lstep (ts : list thread) : lstate -> lstate -> Prop :=
| lstep_thread m pcs i t p p' m' :
    ts !! i = Some t -> pcs !! i = Some p -> lock_step t p m = (p', m') -> lstep ts (m, pcs) (m', <[i := p']> pcs).

Definition linit (ts : list thread) : lstate := (fun _ => 0, lock_start <$> ts).

(** ** Holders *)

Definition b2z (b : bool) : Z := if b then 1 else 0.
Definition has (l : Z) (ls : list Z) : Z := b2z (bool_decide (l ∈ ls)).

(** Whether a thread that uses [SpinLock] holds lock [l]. *)
Definition holds (t : thread) (p : lpc) (l : Z) : Z :=
  let all := lock_order (th_a t) (th_b t) in
  match p with
  | Acq ls | Spin ls => has l all - has l ls
  | Crit => has l all
  | Rel ls => has l ls
  | _ => 0
  end.

Fixpoint holders (ts : list thread) (pcs : list lpc) (l : Z) : Z :=
  match ts, pcs with t :: ts', p :: pcs' => holds t p l + holders ts' pcs' l | _, _ => 0 end.

(** The program points of such a thread. *)
Definition eager_ok (t : thread) (p : lpc) : Prop :=
  let all := lock_order (th_a t) (th_b t) in
  match p with
  | Acq ls => exists pre, all = pre ++ ls
  | Spin ls => exists pre, all = pre ++ ls /\ ls <> []
  | Rel ls => exists pre, unlock_order (th_a t) (th_b t) = pre ++ ls
  | Crit | Fin => True
  | Try1 | Try2 | Back => False
  end.

Record linv (ts : list thread) (st : lstate) : Prop := {
  li_len : length st.2 = length ts;
  li_ok i t p : ts !! i = Some t -> st.2 !! i = Some p -> eager_ok t p;
  li_locks l : st.1 l = holders ts st.2 l;
  li_bit l : st.1 l = 0 \/ st.1 l = 1;
}.

Lemma holders_insert ts pcs i t p q l :
  ts !! i = Some t -> pcs !! i = Some p -> holders ts (<[i := q]> pcs) l = holders ts pcs l - holds t p l + holds t q l.
Proof.
  revert pcs i. induction ts as [|t0 ts IH]; intros [|p0 pcs] [|i] Ht Hp; try done.
  - injection Ht as ->. injection Hp as ->. cbn. lia.
  - change (<[Datatypes.S i := q]> (p0 :: pcs)) with (p0 :: <[i := q]> pcs). cbn [holders]. rewrite (IH _ _ Ht Hp). lia.
Qed.

Lemma b2z_range b : 0 <= b2z b <= 1.
Proof. destruct b; cbn; lia. Qed.

Lemma has_cons l x ls : has l (x :: ls) = if l =? x then 1 else has l ls.
Proof.
  unfold has. destruct (Z.eqb_spec l x) as [->|Hne]; [by rewrite bool_decide_true by left|].
  f_equal. apply bool_decide_ext. rewrite elem_of_cons. tauto.
Qed.

Lemma has_app l ls1 ls2 : has l ls2 <= has l (ls1 ++ ls2).
Proof.
  unfold has. destruct (bool_decide_reflect (l ∈ ls2)); [|apply b2z_range].
  rewrite bool_decide_true; [done|]. apply elem_of_app. auto.
Qed.

Lemma order_nodup a b : NoDup (lock_order a b).
Proof.
  unfold lock_order. destruct (Z.ltb_spec a b); [|destruct (Z.ltb_spec b a)]; repeat constructor; rewrite ?list_elem_of_singleton; try lia;
    by intros ?%not_elem_of_nil.
Qed.

Lemma unlock_has a b l : has l (unlock_order a b) = has l (lock_order a b).
Proof.
  unfold unlock_order, lock_order. destruct (Z.ltb_spec a b); [|destruct (Z.ltb_spec b a)]; rewrite !has_cons; cases_cmp; done.
Qed.

Lemma unlock_nodup a b : NoDup (unlock_order a b).
Proof.
  unfold unlock_order. destruct (Z.ltb_spec a b); [|destruct (Z.ltb_spec b a)]; repeat constructor; rewrite ?list_elem_of_singleton; try lia;
    by intros ?%not_elem_of_nil.
Qed.

Lemma nodup_has_tail l ls pre all : NoDup all -> all = pre ++ l :: ls -> has l ls = 0.
Proof.
  intros Hnd ->. apply list.NoDup_app in Hnd as (_ & _ & Hnd). apply NoDup_cons in Hnd as [Hl _].
  unfold has. by rewrite bool_decide_false.
Qed.

Lemma holds_range t p l : eager_ok t p -> 0 <= holds t p l <= 1.
Proof.
  intros Hok. destruct p as [ls|ls| | | | |ls|]; cbn in *; unfold has; try lia; try apply b2z_range.
  - destruct Hok as (pre & ->). pose proof (has_app l pre ls) as Hle. unfold has in Hle.
    pose proof (b2z_range (bool_decide (l ∈ ls))). pose proof (b2z_range (bool_decide (l ∈ pre ++ ls))). lia.
  - destruct Hok as (pre & -> & _). pose proof (has_app l pre ls) as Hle. unfold has in Hle.
    pose proof (b2z_range (bool_decide (l ∈ ls))). pose proof (b2z_range (bool_decide (l ∈ pre ++ ls))). lia.
Qed.

(** ** Mutual exclusion *)

Lemma store_eq m l v : store m l v l = v.
Proof. unfold store. by rewrite Z.eqb_refl. Qed.
Lemma store_ne m l v l' : l' <> l -> store m l v l' = m l'.
Proof. intros Hne. unfold store. by destruct (Z.eqb_spec l' l). Qed.

(** One step of a thread: it stays at a point of its program, and every lock
    changes by what the thread takes or gives back. *)
Lemma lock_step_holds t p m p' m' l :
  eager_ok t p -> (m l = 0 \/ m l = 1) -> holds t p l <= m l -> lock_step t p m = (p', m') ->
  eager_ok t p' /\ m' l = m l - holds t p l + holds t p' l /\ (m' l = 0 \/ m' l = 1).
Proof.
  intros Hok Hbit Hle Hst. destruct p as [[|x ls]|[|x ls]| | | | |[|x ls]|]; cbn in Hok; try done; cbn in Hst.
  - injection Hst as <- <-. cbn. unfold has at 2. rewrite bool_decide_false by apply not_elem_of_nil. cbn. split; [done|]. lia.
  - destruct Hok as (pre & E). pose proof (nodup_has_tail x ls pre _ (order_nodup _ _) E) as Htl.
    destruct (m x =? 0) eqn:Ex; injection Hst as <- <-.
    + apply Z.eqb_eq in Ex. split; [exists (pre ++ [x]); by rewrite <- app_assoc|]. cbn [holds] in *. rewrite !has_cons in *.
      destruct (Z.eqb_spec l x) as [->|Hne]; [rewrite store_eq, Htl in *|rewrite store_ne by done]; lia.
    + apply Z.eqb_neq in Ex. split; [by exists pre|]. cbn [holds] in *.
      destruct (Z.eq_dec l x) as [->|Hne]; [rewrite store_eq|rewrite store_ne by done]; lia.
  - by destruct Hok as (? & _ & ?).
  - destruct Hok as (pre & E & _). destruct (m x =? 1); injection Hst as <- <-; cbn [eager_ok holds]; (split; [|lia]); by exists pre.
  - injection Hst as <- <-. cbn [eager_ok holds] in *. rewrite unlock_has. split; [by exists []|lia].
  - injection Hst as <- <-. cbn in *. split; [done|]. unfold has in *. rewrite bool_decide_false in * by apply not_elem_of_nil. cbn in *. lia.
  - destruct Hok as (pre & E). injection Hst as <- <-. pose proof (nodup_has_tail x ls pre _ (unlock_nodup _ _) E) as Htl.
    split; [exists (pre ++ [x]); by rewrite <- app_assoc|]. cbn [holds] in *. rewrite has_cons in *. unfold shm_spin_unlock.
    destruct (Z.eqb_spec l x) as [->|Hne]; [rewrite store_eq, Htl in *|rewrite store_ne by done]; lia.
  - injection Hst as <- <-. cbn in *. split; [done|lia].
Qed.

Lemma holders_nonneg ts pcs l :
  (forall i t p, ts !! i = Some t -> pcs !! i = Some p -> eager_ok t p) -> 0 <= holders ts pcs l.
Proof.
  revert pcs. induction ts as [|t ts IH]; intros [|p pcs] Hok; cbn; try lia.
  pose proof (holds_range t p l (Hok 0%nat t p eq_refl eq_refl)). specialize (IH pcs (fun i => Hok (Datatypes.S i))). lia.
Qed.

(** One thread holds no more than all of them, and two no more. *)
Lemma holders_le ts pcs l i t p :
  (forall i t p, ts !! i = Some t -> pcs !! i = Some p -> eager_ok t p) ->
  ts !! i = Some t -> pcs !! i = Some p -> holds t p l <= holders ts pcs l.
Proof.
  revert pcs i. induction ts as [|t0 ts IH]; intros [|p0 pcs] [|i] Hok Ht Hp; try done; cbn [holders].
  - injection Ht as ->. injection Hp as ->. pose proof (holders_nonneg ts pcs l (fun i => Hok (Datatypes.S i))). lia.
  - pose proof (holds_range t0 p0 l (Hok 0%nat t0 p0 eq_refl eq_refl)).
    specialize (IH pcs i (fun i => Hok (Datatypes.S i)) Ht Hp). lia.
Qed.

Lemma linv_init ts : Forall (fun t => is_lazy (th_op t) = false) ts -> linv ts (linit ts).
Proof.
  intros Heager. assert (forall i t p, ts !! i = Some t -> (lock_start <$> ts) !! i = Some p -> p = Acq (lock_order (th_a t) (th_b t))) as Hstart.
  { intros i t p Ht Hp. rewrite list_lookup_fmap, Ht in Hp. injection Hp as <-. unfold lock_start.
    rewrite Forall_lookup in Heager. by rewrite (Heager i t Ht). }
  constructor; cbn.
  - by rewrite length_fmap.
  - intros i t p Ht Hp. rewrite (Hstart i t p Ht Hp). by exists [].
  - intros l. clear Heager. induction ts as [|t ts IH]; [done|]. cbn.
    pose proof (Hstart 0%nat t (lock_start t) eq_refl eq_refl) as ->. cbn [holds]. rewrite <- IH; [lia|].
    intros i. apply (Hstart (Datatypes.S i)).
  - auto.
Qed.

Lemma linv_step ts st st' : linv ts st -> lstep ts st st' -> linv ts st'.
Proof.
  intros [Hlen Hok Hl Hbit] Hs. destruct Hs as [m pcs i t p p' m' Ht Hp Hst]. cbn in *.
  assert (forall l, holds t p l <= m l) as Hle by (intros l; rewrite Hl; by eapply holders_le).
  pose proof (fun l => lock_step_holds t p m p' m' l (Hok i t p Ht Hp) (Hbit l) (Hle l) Hst) as Hstep. constructor; cbn.
  - by rewrite length_insert.
  - intros j tj pj Htj Hpj. destruct (decide (i = j)) as [<-|Hne].
    + apply list_lookup_insert_Some in Hpj as [(_ & <- & _)|[? _]]; [|done]. rewrite Ht in Htj. injection Htj as <-. apply (Hstep 0).
    + rewrite list_lookup_insert_ne in Hpj by done. by eapply Hok.
  - intros l. rewrite (holders_insert ts pcs i t p p' l Ht Hp), <- Hl. apply Hstep.
  - intros l. apply Hstep.
Qed.

Lemma linv_reachable ts st : Forall (fun t => is_lazy (th_op t) = false) ts -> rtc (lstep ts) (linit ts) st -> linv ts st.
Proof. intros He Hr. eapply (rtc_ind_r (linv ts)); [by apply linv_init| |exact Hr]. intros. by eapply linv_step. Qed.

(** C22: operations that use [SpinLock] exclude each other. In every interleaving
    of any number of them, two that are inside their operation at the same
    time have no bucket in common. *)
Theorem spin_lock_excludes ts m pcs i j t u :
  Forall (fun t => is_lazy (th_op t) = false) ts -> rtc (lstep ts) (linit ts) (m, pcs) ->
  i <> j -> ts !! i = Some t -> ts !! j = Some u -> pcs !! i = Some Crit -> pcs !! j = Some Crit ->
  th_a t <> th_a u /\ th_a t <> th_b u /\ th_b t <> th_a u /\ th_b t <> th_b u.
Proof.
  intros He Hr Hij Ht Hu Hi Hj. destruct (linv_reachable ts _ He Hr) as [_ Hok Hl Hbit]. cbn in *.
  assert (forall l, l ∈ lock_order (th_a t) (th_b t) -> l ∈ lock_order (th_a u) (th_b u) -> False) as Hdisj.
  { intros l H1 H2. pose proof (holders_insert ts pcs i t Crit Fin l Ht Hi) as E.
    assert (holds u Crit l <= holders ts (<[i := Fin]> pcs) l) as Hle.
    { eapply (holders_le _ _ l j); [|exact Hu|by rewrite list_lookup_insert_ne].
      intros k tk pk Hk Hpk. apply list_lookup_insert_Some in Hpk as [(_ & <- & _)|[_ Hpk]]; [done|by eapply Hok]. }
    cbn in E, Hle. unfold has in E, Hle. rewrite bool_decide_true in E, Hle by done. cbn in E, Hle.
    destruct (Hbit l) as [Hb|Hb]; rewrite Hl in Hb; lia. }
  assert (forall a b, a ∈ lock_order a b /\ b ∈ lock_order a b) as Hin.
  { intros a b. unfold lock_order. destruct (Z.ltb_spec a b); [|destruct (Z.ltb_spec b a)]; rewrite !elem_of_cons; [auto..|].
    assert (a = b) as -> by lia. auto. }
  destruct (Hin (th_a t) (th_b t)), (Hin (th_a u) (th_b u)).
  repeat split; intros E; [apply (Hdisj (th_a t))|apply (Hdisj (th_a t))|apply (Hdisj (th_b t))|apply (Hdisj (th_b t))];
    try assumption; by rewrite E.
Qed.

(** ** Progress *)

Definition lock_work (p : lpc) : Z :=
  match p with
  | Acq ls => 5 + 2 * Z.of_nat (length ls)
  | Spin ls => 6 + 2 * Z.of_nat (length ls)
  | Crit => 4
  | Rel ls => 1 + Z.of_nat (length ls)
  | _ => 0
  end.

Definition total_work (pcs : list lpc) : Z := sum_of lock_work pcs.

Lemma total_work_insert pcs i p q : pcs !! i = Some p -> total_work (<[i := q]> pcs) = total_work pcs - lock_work p + lock_work q.
Proof. apply sum_of_insert. Qed.

Lemma total_work_nonneg pcs : 0 <= total_work pcs.
Proof. apply sum_of_nonneg. intros p _. destruct p; cbn; lia. Qed.

(** The thread waits for lock [l]. *)
Definition wants (p : lpc) (l : Z) : Prop := exists ls, p = Acq (l :: ls) \/ p = Spin (l :: ls).

(** A thread that is not done and waits for no lock, or for a free one, can
    step on. *)
Lemma can_step ts m pcs i t p :
  linv ts (m, pcs) -> ts !! i = Some t -> pcs !! i = Some p -> p <> Fin -> (forall l, wants p l -> m l = 0) ->
  exists st', lstep ts (m, pcs) st' /\ total_work st'.2 < total_work pcs.
Proof.
  intros Hinv Ht Hp Hne Hfree. pose proof (li_ok _ _ Hinv i t p Ht Hp) as Hok.
  assert (exists p' m', lock_step t p m = (p', m') /\ lock_work p' < lock_work p) as (p' & m' & Hst & Hlt).
  { destruct p as [[|x ls]|[|x ls]| | | | |[|x ls]|]; cbn in Hok; try done.
    - eexists _, _. split; [done|]. cbn. lia.
    - exists (Acq ls), (store m x 1). split; [cbn; by rewrite (Hfree x) by (exists ls; auto)|]. cbn [lock_work length]. lia.
    - by destruct Hok as (? & _ & ?).
    - exists (Acq (x :: ls)), m. split; [cbn; by rewrite (Hfree x) by (exists ls; auto)|]. cbn [lock_work length]. lia.
    - eexists _, _. split; [done|]. cbn [lock_work]. assert (length (unlock_order (th_a t) (th_b t)) <= 2)%nat; [|lia].
      unfold unlock_order. destruct (_ <? _); [done|]. destruct (_ <? _); cbn; lia.
    - eexists _, _. split; [done|]. cbn. lia.
    - eexists _, _. split; [done|]. cbn [lock_work length]. lia. }
  exists (m', <[i := p']> pcs). split; [by econstructor|]. cbn [snd]. rewrite (total_work_insert pcs i p p' Hp). lia.
Qed.

(** A lock that is taken has a holder. *)
Lemma holder_exists ts pcs l : 0 < holders ts pcs l -> exists i t p, ts !! i = Some t /\ pcs !! i = Some p /\ 0 < holds t p l.
Proof.
  revert pcs. induction ts as [|t ts IH]; intros [|p pcs] H; cbn in H; try lia.
  destruct (Z.lt_ge_cases 0 (holds t p l)) as [Hh|Hh]; [by exists 0%nat, t, p|].
  destruct (IH pcs ltac:(lia)) as (i & t' & p' & ?). by exists (Datatypes.S i), t', p'.
Qed.

(** A thread that holds [l] and waits for [l'] has taken them in this order. *)
Lemma holds_below t p l l' : eager_ok t p -> wants p l' -> 0 < holds t p l -> l < l' /\ l' = Z.max (th_a t) (th_b t).
Proof.
  intros Hok (ls & Hp) Hh. assert (exists pre, lock_order (th_a t) (th_b t) = pre ++ l' :: ls) as (pre & E).
  { destruct Hp as [->| ->]; cbn in Hok; [done|]. destruct Hok as (pre & ? & _). by exists pre. }
  assert (0 < has l (lock_order (th_a t) (th_b t)) - has l (l' :: ls)) as Hd by (by destruct Hp as [->| ->]).
  assert (l ∈ pre) as Hpre.
  { rewrite E in Hd. unfold has in Hd. destruct (bool_decide_reflect (l ∈ l' :: ls)) as [?|Hn]; [pose proof (b2z_range (bool_decide (l ∈ pre ++ l' :: ls))); cbn in Hd; lia|].
    destruct (bool_decide_reflect (l ∈ pre ++ l' :: ls)) as [Hin|_]; [|done]. apply elem_of_app in Hin. tauto. }
  unfold lock_order in E. destruct pre as [|x [|y pre]]; [by apply not_elem_of_nil in Hpre| |].
  - apply list_elem_of_singleton in Hpre as ->.
    destruct (Z.ltb_spec (th_a t) (th_b t)); [|destruct (Z.ltb_spec (th_b t) (th_a t))]; simplify_eq/=; lia.
  - exfalso. apply (f_equal length) in E. cbn in E. rewrite length_app in E. cbn in E.
    destruct (th_a t <? th_b t); [|destruct (th_b t <? th_a t)]; cbn in E; lia.
Qed.

Lemma wants_dec p : (exists l, wants p l) \/ (forall l, ~ wants p l).
Proof.
  destruct p as [[|x ls]|[|x ls]| | | | |ls|]; try (right; intros l (ls' & [E|E]); done); left; exists x, ls; auto.
Qed.

Lemma wants_unique p l l' : wants p l -> wants p l' -> l' = l.
Proof. intros (ls & [->| ->]) (ls' & [E|E]); congruence. Qed.

(** The chain of threads that wait for each other ends: the locks ascend. *)
Lemma waiting_can_step ts m pcs B d i t p l :
  linv ts (m, pcs) -> (forall i t, ts !! i = Some t -> Z.max (th_a t) (th_b t) <= B) ->
  ts !! i = Some t -> pcs !! i = Some p -> wants p l -> B - l <= Z.of_nat d ->
  exists st', lstep ts (m, pcs) st' /\ total_work st'.2 < total_work pcs.
Proof.
  intros Hinv HB. revert i t p l. induction d as [|d IH]; intros i t p l Ht Hp Hw Hd;
    (destruct (Z.eq_dec (m l) 0) as [Hfree|Hheld];
      [apply (can_step ts m pcs i t p Hinv Ht Hp); [intros ->; by destruct Hw as (? & [?|?])|]; intros l' Hw'; by rewrite (wants_unique _ _ _ Hw Hw')|]);
    (destruct (holder_exists ts pcs l) as (j & u & q & Hu & Hq & Hh);
      [pose proof (li_locks _ _ Hinv l); destruct (li_bit _ _ Hinv l); cbn in *; lia|]);
    (destruct (wants_dec q) as [(l' & Hw')|Hno];
      [destruct (holds_below u q l l' (li_ok _ _ Hinv j u q Hu Hq) Hw' Hh) as [Hlt Hmax]; pose proof (HB j u Hu)
      |apply (can_step ts m pcs j u q Hinv Hu Hq); [by intros ->|intros l' Hw'; by apply Hno in Hw']]).
  - lia.
  - apply (IH j u q l' Hu Hq Hw'). lia.
Qed.

Lemma locks_bounded (ts : list thread) : exists B, forall i t, ts !! i = Some t -> Z.max (th_a t) (th_b t) <= B.
Proof.
  induction ts as [|t ts (B & IH)]; [by exists 0|]. exists (Z.max B (Z.max (th_a t) (th_b t))). intros [|i] u Hu.
  - injection Hu as ->. lia.
  - specialize (IH i u Hu). lia.
Qed.

Lemma unfinished_can_step ts m pcs :
  linv ts (m, pcs) -> ~ Forall (fun p => p = Fin) pcs ->
  exists st', lstep ts (m, pcs) st' /\ total_work st'.2 < total_work pcs.
Proof.
  intros Hinv Hsome. destruct (locks_bounded ts) as (B & HB).
  assert (exists i p, pcs !! i = Some p /\ p <> Fin) as (i & p & Hp & Hne).
  { apply not_Forall_Exists in Hsome; [|solve_decision]. apply Exists_exists in Hsome as (p & Hin & Hne).
    apply list_elem_of_lookup in Hin as (i & Hi). by exists i, p. }
  assert (is_Some (ts !! i)) as [t Ht].
  { apply lookup_lt_is_Some. pose proof (li_len _ _ Hinv) as Hl. cbn in Hl. rewrite <- Hl. by eapply lookup_lt_Some. }
  destruct (wants_dec p) as [(l & Hw)|Hno].
  - apply (waiting_can_step ts m pcs B (Z.to_nat (B - l)) i t p l); try done. lia.
  - apply (can_step ts m pcs i t p Hinv Ht Hp Hne). intros l Hw. by apply Hno in Hw.
Qed.

(** C23: operations that use [SpinLock] do not deadlock. From every state they can
    reach, there is a way for all of them to finish. *)
Theorem spin_lock_can_finish ts st :
  Forall (fun t => is_lazy (th_op t) = false) ts -> rtc (lstep ts) (linit ts) st ->
  exists m, rtc (lstep ts) st (m, replicate (length ts) Fin).
Proof.
  intros He Hr. pose proof (linv_reachable ts st He Hr) as Hinv. clear Hr.
  remember (Z.to_nat (total_work st.2)) as w eqn:Ew. revert st Hinv Ew.
  induction w as [w IH] using lt_wf_ind. intros [m pcs] Hinv ->. cbn [snd] in *.
  destruct (decide (Forall (fun p => p = Fin) pcs)) as [Hall|Hsome].
  { exists m. rewrite <- (li_len _ _ Hinv). cbn. assert (pcs = replicate (length pcs) Fin) as <-; [|apply rtc_refl].
    symmetry. apply replicate_as_Forall. split; [done|]. eapply Forall_impl; [exact Hall|]. by intros p ->. }
  destruct (unfinished_can_step ts m pcs Hinv Hsome) as (st' & Hst & Hlt).
  destruct (IH (Z.to_nat (total_work st'.2))) with (st := st') as (m' & Hr'); [pose proof (total_work_nonneg st'.2); lia|by eapply linv_step|done|].
  exists m'. by eapply rtc_l.
Qed.

(** ** The lazy variant *)

(** [SpinLockLazy] does not exclude. While one thread is inside an operation
    under [SpinLock], a thread that removes, or looks up through a const
    reference, a key with the same two buckets gets inside as well: both its
    calls of [shm_spin_trylock] fail, and it takes their non-zero results for
    success. *)
Theorem lazy_lock_does_not_exclude op lazy_op a b :
  is_lazy op = false -> is_lazy lazy_op = true -> a <> b ->
  let ts := [mk_thread op a b; mk_thread lazy_op a b] in
  exists m, rtc (lstep ts) (linit ts) (m, [Crit; Crit]).
Proof.
  intros Hop Hlazy Hab ts. assert (lock_order a b = [Z.min a b; Z.max a b]) as Eo.
  { unfold lock_order. destruct (Z.ltb_spec a b); [by rewrite Z.min_l, Z.max_r by lia|].
    destruct (Z.ltb_spec b a); [by rewrite Z.min_r, Z.max_l by lia|lia]. }
  assert (linit ts = (fun _ => 0, [Acq [Z.min a b; Z.max a b]; Try1])) as ->.
  { unfold linit, ts. cbn. unfold lock_start. cbn. rewrite Hop, Hlazy, Eo. cbn. destruct (Z.eqb_spec a b); [done|]. done. }
  set (m1 := store (fun _ => 0) (Z.min a b) 1). set (m2 := store m1 (Z.max a b) 1).
  assert (m1 (Z.max a b) = 0) as E1 by (unfold m1; rewrite store_ne; [done|lia]).
  assert (m2 (Z.min a b) = 1) as E2 by (unfold m2, m1; rewrite store_ne by lia; apply store_eq).
  assert (store m2 (Z.min a b) 1 (Z.max a b) = 1) as E3 by (rewrite store_ne by lia; apply store_eq).
  eexists. eapply rtc_l; [apply (lstep_thread ts _ _ 0%nat (mk_thread op a b) (Acq [Z.min a b; Z.max a b]) (Acq [Z.max a b]) m1); reflexivity|].
  eapply rtc_l; [apply (lstep_thread ts m1 _ 0%nat (mk_thread op a b) (Acq [Z.max a b]) (Acq []) m2); try reflexivity; cbn; by rewrite E1|].
  eapply rtc_l; [apply (lstep_thread ts m2 _ 0%nat (mk_thread op a b) (Acq []) Crit m2); reflexivity|].
  eapply rtc_l; [eapply (lstep_thread ts m2 _ 1%nat (mk_thread lazy_op a b) Try1 Try2); try reflexivity; cbn; by rewrite E2|].
  eapply rtc_l; [eapply (lstep_thread ts _ _ 1%nat (mk_thread lazy_op a b) Try2 Crit); try reflexivity; cbn; by rewrite E3|].
  apply rtc_refl.
Qed.

(** ** Witnesses *)

(** Two insertions with the buckets 1, 2 and 3, 4. *)
Definition two_inserts : list thread := [mk_thread InsertWithLock 1 2; mk_thread InsertWithLock 3 4].

Lemma two_inside : exists m, rtc (lstep two_inserts) (linit two_inserts) (m, [Crit; Crit]).
Proof.
  eexists. change (linit two_inserts) with ((fun _ => 0, [Acq [1; 2]; Acq [3; 4]]) : lstate).
  do 3 (eapply rtc_l; [eapply (lstep_thread two_inserts _ _ 0%nat); reflexivity|]).
  do 3 (eapply rtc_l; [eapply (lstep_thread two_inserts _ _ 1%nat); reflexivity|]). apply rtc_refl.
Qed.

Lemma spin_lock_excludes_witness : 1 <> 3 /\ 1 <> 4 /\ 2 <> 3 /\ 2 <> 4.
Proof.
  destruct two_inside as (m & Hr).
  apply (spin_lock_excludes two_inserts m [Crit; Crit] 0 1 (mk_thread InsertWithLock 1 2) (mk_thread InsertWithLock 3 4)); try done.
  by repeat constructor.
Defined.

(** An insertion that waits for both locks of another one. *)
Lemma spin_lock_can_finish_witness :
  exists m, rtc (lstep [mk_thread InsertWithLock 1 2; mk_thread FindWithLock 2 1])
    (linit [mk_thread InsertWithLock 1 2; mk_thread FindWithLock 2 1]) (m, [Fin; Fin]).
Proof. apply (spin_lock_can_finish [mk_thread InsertWithLock 1 2; mk_thread FindWithLock 2 1]); [by repeat constructor|apply rtc_refl]. Defined.

Lemma lazy_lock_does_not_exclude_witness :
  exists m, rtc (lstep [mk_thread InsertWithLock 3 5; mk_thread RemoveWithLock 3 5])
    (linit [mk_thread InsertWithLock 3 5; mk_thread RemoveWithLock 3 5]) (m, [Crit; Crit]).
Proof. by apply (lazy_lock_does_not_exclude InsertWithLock RemoveWithLock 3 5). Defined.
