(* ===== verification/RouteDynamic.v ===== *)
(** * RouteDynamic: all-pairs routing by dynamic programming (apps/routing_dynamic/main.cpp)

    The controller copies the link tables of the switches into a matrix of
    next hops and costs, relaxes it in place with a triple loop, and publishes
    row [i] to switch [i]. [floyd_shortest] shows that the costs are those of
    shortest routes and that each next hop is the first one of such a route. *)
From stdpp Require Import base list numbers.
From Stdlib Require Import ZArith Lia.
From S2P Require Import Prelude.

(** ** The program *)

Record Link := mk_link { l_to : Z; l_cost : Z }.

(** [Link table[n][n]] *)
Definition matrix : Type := Z -> Z -> Link.
Definition set_cell (T : matrix) (i j : Z) (l : Link) : matrix :=
  fun i' j' => if (i' =? i) && (j' =? j) then l else T i' j'.

(** 1. initialize a table from the adjacency tables. *)
Definition init_table (n : Z) (adj : Z -> Z -> Link) (T : matrix) : matrix :=
  foldl (fun T i => foldl (fun T j => set_cell T i j (adj i j)) T (seqZ 0 n)) T (seqZ 0 n).

(** 2. update table. *)
Definition relax (k i j : Z) (T : matrix) : matrix :=
  if u32 (l_cost (T i k) + l_cost (T k j)) <? l_cost (T i j)
  then set_cell T i j (mk_link (l_to (T i k)) (u32 (l_cost (T i k) + l_cost (T k j))))
  else T.

Definition relax_row (n k i : Z) (T : matrix) : matrix := foldl (fun T j => relax k i j T) T (seqZ 0 n).
Definition relax_via (n k : Z) (T : matrix) : matrix := foldl (fun T i => relax_row n k i T) T (seqZ 0 n).
Definition update_table (n : Z) (T : matrix) : matrix := foldl (fun T k => relax_via n k T) T (seqZ 0 n).

Definition controller_table (n : Z) (adj : Z -> Z -> Link) : matrix :=
  update_table n (init_table n adj (fun _ _ => mk_link 0 0)).

(** The links a switch with identifier [id] writes to one of its tables. *)
Definition fast_random (seed : Z) : Z * Z :=
  let seed := u64 (seed * 1103515245 + 12345) in (Z.shiftr seed 32, seed).

Fixpoint switch_links (id i : Z) (todo : nat) (seed : Z) : list Link * Z :=
  match todo with
  | O => ([], seed)
  | Datatypes.S todo' =>
      let '(l, seed) :=
        if i =? id then (mk_link i 0, seed)
        else let '(r, seed) := fast_random seed in (mk_link i (r mod 10 + 1), seed) in
      let '(ls, seed) := switch_links id (i + 1) todo' seed in (l :: ls, seed)
  end.

(** ** Routes *)

Section floyd.
Context (n : Z) (w : Z -> Z -> Z).

(** A route from [i] to [j] of cost [c] whose first hop is [f] and whose inner
    nodes are below [K]. *)
Inductive route (K : Z) : Z -> Z -> Z -> Z -> Prop :=
| route_link i j : route K i j j (w i j)
| route_hop i m j f c : 0 <= m < K -> route K m j f c -> route K i j m (w i m + c).

Lemma route_mono K K' i j f c : K <= K' -> route K i j f c -> route K' i j f c.
Proof. intros HK. induction 1 as [|i m j f c Hm _ IH]; [constructor|]. econstructor; [lia|exact IH]. Qed.

(** Two routes joined at an inner node. *)
Lemma route_app K i k j f c g d : 0 <= k < K -> route K i k f c -> route K k j g d -> route K i j f (c + d).
Proof.
  intros Hk H1 H2. induction H1 as [i k|i m k f c Hm _ IH].
  - econstructor; [done|exact H2].
  - rewrite <- Z.add_assoc. econstructor; [done|]. apply IH; assumption.
Qed.

(** ** The loops *)

(** Entries stand for routes with inner nodes below [K], and costs do not
    exceed those of [D]. *)
Record sound (K : Z) (D : Z -> Z -> Z) (T : matrix) : Prop := {
  so_route i j : 0 <= i < n -> 0 <= j < n -> route K i j (l_to (T i j)) (l_cost (T i j));
  so_range i j : 0 <= i < n -> 0 <= j < n -> 0 <= l_cost (T i j) < 2 ^ 31;
  so_below i j : 0 <= i < n -> 0 <= j < n -> l_cost (T i j) <= D i j;
}.

Lemma set_cell_eq T i j l : set_cell T i j l i j = l.
Proof. unfold set_cell. by rewrite !Z.eqb_refl. Qed.

Lemma set_cell_cases T i j l i' j' :
  (i' = i /\ j' = j /\ set_cell T i j l i' j' = l) \/ (~ (i' = i /\ j' = j) /\ set_cell T i j l i' j' = T i' j').
Proof.
  unfold set_cell. destruct (Z.eqb_spec i' i) as [->|Hi]; [destruct (Z.eqb_spec j' j) as [->|Hj]|]; cbn; [by left|right; split; [lia|done]..].
Qed.

Lemma relax_cost k i j T :
  0 <= l_cost (T i k) < 2 ^ 31 -> 0 <= l_cost (T k j) < 2 ^ 31 ->
  relax k i j T = if l_cost (T i k) + l_cost (T k j) <? l_cost (T i j)
                  then set_cell T i j (mk_link (l_to (T i k)) (l_cost (T i k) + l_cost (T k j))) else T.
Proof. intros H1 H2. unfold relax. by rewrite u32_small by lia. Qed.

Lemma relax_sound k D i j T :
  0 <= k < n -> 0 <= i < n -> 0 <= j < n -> sound (k + 1) D T -> sound (k + 1) D (relax k i j T).
Proof.
  intros Hk Hi Hj [Hr Hc Hb]. rewrite relax_cost by auto.
  destruct (Z.ltb_spec (l_cost (T i k) + l_cost (T k j)) (l_cost (T i j))) as [Hlt|]; [|by constructor].
  pose proof (Hc i k Hi Hk). pose proof (Hc k j Hk Hj). pose proof (Hc i j Hi Hj). pose proof (Hb i j Hi Hj).
  constructor; intros i' j' Hi' Hj'; destruct (set_cell_cases T i j (mk_link (l_to (T i k)) (l_cost (T i k) + l_cost (T k j))) i' j')
    as [(-> & -> & ->)|[_ ->]]; auto; cbn [l_to l_cost]; [|lia..].
  eapply route_app; [|by apply Hr|by apply Hr]. lia.
Qed.

(** Costs only go down, and the cell itself is relaxed. *)
Lemma relax_down k i j T i' j' :
  0 <= l_cost (T i k) < 2 ^ 31 -> 0 <= l_cost (T k j) < 2 ^ 31 ->
  l_cost (relax k i j T i' j') <= l_cost (T i' j')
  /\ l_cost (relax k i j T i j) <= l_cost (T i k) + l_cost (T k j).
Proof.
  intros H1 H2. rewrite relax_cost by done. destruct (Z.ltb_spec (l_cost (T i k) + l_cost (T k j)) (l_cost (T i j))) as [Hlt|Hge]; [|lia].
  rewrite set_cell_eq. cbn [l_cost]. split; [|lia].
  destruct (set_cell_cases T i j (mk_link (l_to (T i k)) (l_cost (T i k) + l_cost (T k j))) i' j') as [(-> & -> & ->)|[_ ->]]; cbn; lia.
Qed.

(** A loop whose body keeps [I] and establishes [Q x], which later turns keep. *)
Lemma foldl_all {T} (I : T -> Prop) (Q : Z -> T -> Prop) (f : T -> Z -> T) m l a :
  0 <= l -> I m -> (forall x t, 0 <= x < l -> I t -> I (f t x) /\ Q x (f t x)) ->
  (forall x y t, 0 <= x < l -> 0 <= y < l -> I t -> Q x t -> Q x (f t y)) ->
  a = foldl f m (seqZ 0 l) -> I a /\ forall x, 0 <= x < l -> Q x a.
Proof.
  intros Hl HI Hf HQ ->. assert (forall l', 0 <= l' <= l -> I (foldl f m (seqZ 0 l')) /\ forall x, 0 <= x < l' -> Q x (foldl f m (seqZ 0 l'))) as H.
  { intros l' Hl'. destruct Hl' as [H0 H1]. revert H1. pattern l'. apply natlike_ind; [|clear l' H0|done].
    - intros _. split; [done|lia].
    - intros l' H0 IH H1. destruct IH as [IH1 IH2]; [lia|]. rewrite (seqZ_split 0 (Z.succ l') l') by lia.
      replace (Z.succ l' - l') with 1 by lia. rewrite foldl_app. change (seqZ (0 + l') 1) with [0 + l']. cbn [foldl].
      replace (0 + l') with l' by lia. destruct (Hf l' (foldl f m (seqZ 0 l')) ltac:(lia) IH1) as [Hf1 Hf2]. split; [done|].
      intros x Hx. destruct (Z.eq_dec x l') as [->|Hne]; [done|]. apply HQ; [lia|lia|done|]. apply IH2. lia. }
  apply H. lia.
Qed.

(** One turn of the outer loop: every cell is at most what it was, and at most
    the sum of the two old costs by way of [k]. *)
Lemma relax_via_sound k D T :
  0 <= n -> 0 <= k < n -> sound k D T -> (forall i j, 0 <= i < n -> 0 <= j < n -> l_cost (T i j) = D i j) ->
  sound (k + 1) (fun i j => Z.min (D i j) (D i k + D k j)) (relax_via n k T).
Proof.
  intros Hn Hk [Hr Hc Hb] HD.
  assert (sound (k + 1) D T) as HT by (constructor; auto; intros; eapply route_mono; [|by apply Hr]; lia).
  assert (forall i T', 0 <= i < n -> sound (k + 1) D T' ->
    sound (k + 1) D (relax_row n k i T') /\ (forall j, 0 <= j < n -> l_cost (relax_row n k i T' i j) <= D i k + D k j)
    /\ (forall i' j', l_cost (relax_row n k i T' i' j') <= l_cost (T' i' j'))) as Hrow.
  { intros i T' Hi HT'.
    destruct (foldl_all (fun t => sound (k + 1) D t /\ forall i' j', l_cost (t i' j') <= l_cost (T' i' j'))
      (fun j t => l_cost (t i j) <= D i k + D k j) (fun t j => relax k i j t) T' n (relax_row n k i T')) as [[H1 H2] H3]; try done.
    - intros j t Hj [Ht Hle]. pose proof (so_range _ _ _ Ht i k Hi Hk) as R1. pose proof (so_range _ _ _ Ht k j Hk Hj) as R2.
      split; [split; [by apply relax_sound|]|].
      + intros i' j'. etrans; [by apply relax_down|apply Hle].
      + destruct (relax_down k i j t i j R1 R2) as [_ Hd]. pose proof (so_below _ _ _ Ht i k Hi Hk). pose proof (so_below _ _ _ Ht k j Hk Hj). lia.
    - intros j j' t Hj Hj' [Ht _] Hq. etrans; [|exact Hq]. apply relax_down; by apply Ht. }
  destruct (foldl_all (fun t => sound (k + 1) D t) (fun i t => forall j, 0 <= j < n -> l_cost (t i j) <= D i k + D k j)
    (fun t i => relax_row n k i t) T n (relax_via n k T)) as [H1 H2]; try done.
  - intros i t Hi Ht. destruct (Hrow i t Hi Ht) as (? & ? & _). done.
  - intros i i' t Hi Hi' Ht Hq j Hj. destruct (Hrow i' t Hi' Ht) as (_ & _ & Hle). etrans; [apply Hle|by apply Hq].
  - constructor; try apply H1. intros i j Hi Hj. apply Z.min_glb; [by apply H1|by apply H2].
Qed.

(** Routes with inner nodes up to [k], given the best costs below [k]. *)
Lemma via_best k (D : Z -> Z -> Z) i j f c :
  0 <= k < n -> (forall i j, 0 <= i < n -> 0 <= j < n -> exists f, route k i j f (D i j)) ->
  (forall i j f c, 0 <= i < n -> 0 <= j < n -> route k i j f c -> D i j <= c) ->
  (forall i j, 0 <= i < n -> 0 <= j < n -> 0 <= D i j) ->
  0 <= i < n -> 0 <= j < n -> route (k + 1) i j f c -> Z.min (D i j) (D i k + D k j) <= c.
Proof.
  intros Hk Hex Hbest Hpos Hi Hj Hr. induction Hr as [i j|i m j f c Hm Hr IH].
  - pose proof (Hbest i j j (w i j) Hi Hj ltac:(constructor)). lia.
  - specialize (IH ltac:(lia) Hj). destruct (Z.eq_dec m k) as [->|Hne].
    + pose proof (Hbest i k k (w i k) Hi Hk ltac:(constructor)). pose proof (Hpos k k Hk Hk). lia.
    + assert (0 <= m < n) as Hmn by lia. destruct (Hex m j Hmn Hj) as (f1 & R1), (Hex m k Hmn Hk) as (f2 & R2).
      pose proof (Hbest i j m _ Hi Hj (route_hop k i m j f1 _ ltac:(lia) R1)).
      pose proof (Hbest i k m _ Hi Hk (route_hop k i m k f2 _ ltac:(lia) R2)). lia.
Qed.

(** After the turns below [K] the table is sound and best for inner nodes
    below [K]. *)
Definition best (K : Z) (T : matrix) : Prop :=
  sound K (fun i j => l_cost (T i j)) T
  /\ forall i j f c, 0 <= i < n -> 0 <= j < n -> route K i j f c -> l_cost (T i j) <= c.

Lemma best_step k T : 0 <= n -> 0 <= k < n -> best k T -> best (k + 1) (relax_via n k T).
Proof.
  intros Hn Hk [HT Hb]. pose proof (relax_via_sound k (fun i j => l_cost (T i j)) T Hn Hk HT ltac:(done)) as [H1 H2 H3]. split.
  - constructor; auto. intros; lia.
  - intros i j f c Hi Hj Hr. etrans; [by apply H3|].
    apply (via_best k (fun i j => l_cost (T i j)) i j f c Hk); try done.
    + intros i' j' Hi' Hj'. eexists. by apply HT.
    + intros i' j' Hi' Hj'. by apply HT.
Qed.

Lemma update_table_best T : 0 <= n -> best 0 T -> best n (update_table n T).
Proof.
  intros Hn HT. assert (forall m, 0 <= m <= n -> best m (foldl (fun T k => relax_via n k T) T (seqZ 0 m))) as H.
  { intros m [H0 H1]. revert H1. pattern m. apply natlike_ind; [|clear m H0|done].
    - intros _. done.
    - intros m H0 IH H1. rewrite (seqZ_split 0 (Z.succ m) m) by lia. replace (Z.succ m - m) with 1 by lia.
      rewrite foldl_app. change (seqZ (0 + m) 1) with [0 + m]. cbn [foldl]. replace (0 + m) with m by lia.
      apply best_step; [done|lia|]. apply IH. lia. }
  apply H. lia.
Qed.

Lemma init_table_cells adj T0 i j : 0 <= n -> 0 <= i < n -> 0 <= j < n -> init_table n adj T0 i j = adj i j.
Proof.
  intros Hn Hi Hj. unfold init_table.
  destruct (foldl_all (fun _ => True) (fun i t => forall j, 0 <= j < n -> t i j = adj i j)
    (fun T i => foldl (fun T j => set_cell T i j (adj i j)) T (seqZ 0 n)) T0 n (init_table n adj T0)) as [_ H]; try done.
  - intros i0 t Hi0 _. split; [done|]. intros j0 Hj0.
    destruct (foldl_all (fun _ => True) (fun j t => t i0 j = adj i0 j) (fun T j => set_cell T i0 j (adj i0 j)) t n
      (foldl (fun T j => set_cell T i0 j (adj i0 j)) t (seqZ 0 n))) as [_ H]; try done; [| |by apply H].
    + intros x t' Hx _. split; [done|]. apply set_cell_eq.
    + intros x y t' Hx Hy _ E. by destruct (set_cell_cases t' i0 y (adj i0 y) i0 x) as [(_ & -> & ->)|[_ ->]].
  - intros x y t Hx Hy _ E j0 Hj0. specialize (E j0 Hj0).
    destruct (foldl_all (fun t => t x j0 = adj x j0) (fun _ _ => True) (fun T j => set_cell T y j (adj y j)) t n
      (foldl (fun T j => set_cell T y j (adj y j)) t (seqZ 0 n))) as [H _]; try done.
    intros z t' Hz E'. split; [|done]. by destruct (set_cell_cases t' y z (adj y z) x j0) as [(-> & -> & ->)|[_ ->]].
  - by apply H.
Qed.
End floyd.

(** C24: the routing table is right. If the links name their targets and cost
    less than 2^31, then after the triple loop, which works in place and with
    32-bit sums, the cost from [i] to [j] is the least cost of a route of one
    or more links, and the next hop is the first one of a route of this cost. *)
Theorem floyd_shortest n (adj : Z -> Z -> Link) i j :
  (forall i j, 0 <= i < n -> 0 <= j < n -> l_to (adj i j) = j /\ 0 <= l_cost (adj i j) < 2 ^ 31) -> 0 <= i < n -> 0 <= j < n ->
  let T := controller_table n adj in
  let w i j := l_cost (adj i j) in
  route w n i j (l_to (T i j)) (l_cost (T i j)) /\ forall f c, route w n i j f c -> l_cost (T i j) <= c.
Proof.
  intros Hadj Hi Hj T w.
  destruct (update_table_best n w (init_table n adj (fun _ _ => mk_link 0 0)) ltac:(lia)) as [HT Hb].
  - split.
    + constructor; intros i' j' Hi' Hj'; rewrite init_table_cells by lia; destruct (Hadj i' j' Hi' Hj') as [Eto Hc]; [|done|lia].
      rewrite Eto. constructor.
    + intros i' j' f c Hi' Hj' Hr. rewrite init_table_cells by lia. destruct Hr as [|? m ? ? ? Hm]; [unfold w; lia|lia].
  - split; [by apply HT|]. intros f c. by apply Hb.
Qed.

(** ** The links of the switches *)

Lemma switch_links_spec id i todo seed j l :
  fst (switch_links id i todo seed) !! j = Some l ->
  l_to l = i + Z.of_nat j /\ (if i + Z.of_nat j =? id then l_cost l = 0 else 1 <= l_cost l <= 10).
Proof.
  revert i seed j. induction todo as [|todo IH]; intros i seed j Hj; [done|]. cbn [switch_links] in Hj.
  assert (forall l0 s0, (let '(ls, s) := switch_links id (i + 1) todo s0 in (l0 :: ls, s)).1 = l0 :: fst (switch_links id (i + 1) todo s0)) as E
    by (intros l0 s0; by destruct (switch_links id (i + 1) todo s0)).
  destruct (Z.eqb_spec i id) as [Hid|Hid]; [|destruct (fast_random seed) as [r seed'] eqn:Er]; rewrite E in Hj; destruct j as [|j]; cbn in Hj;
    try (apply IH in Hj; replace (i + Z.of_nat (Datatypes.S j)) with (i + 1 + Z.of_nat j) by lia; done); injection Hj as <-; cbn [l_to l_cost].
  - split; [lia|]. destruct (Z.eqb_spec (i + Z.of_nat 0) id); lia.
  - split; [lia|]. destruct (Z.eqb_spec (i + Z.of_nat 0) id); [lia|]. pose proof (Z.mod_pos_bound r 10 ltac:(lia)). lia.
Qed.

(** A switch compares the target with its identifier, which is one more than
    the number of its table: its link to itself costs something, and the link
    to the next table nothing. *)
Lemma switch_self_link id n seed l l' :
  1 <= id -> fst (switch_links id 0 n seed) !! Z.to_nat (id - 1) = Some l -> fst (switch_links id 0 n seed) !! Z.to_nat id = Some l' ->
  l_to l = id - 1 /\ 1 <= l_cost l /\ l_to l' = id /\ l_cost l' = 0.
Proof.
  intros Hid H1 H2. apply switch_links_spec in H1 as [E1 C1], H2 as [E2 C2]. rewrite !Z2Nat.id in * by lia.
  destruct (Z.eqb_spec (0 + (id - 1)) id); [lia|]. destruct (Z.eqb_spec (0 + id) id); lia.
Qed.

(** Four switches. *)
Definition demo_links (i j : Z) : Link :=
  default (mk_link j 1) (fst (switch_links (i + 1) 0 4 (42 + i)) !! Z.to_nat j).

Lemma floyd_shortest_witness :
  let T := controller_table 4 demo_links in
  route (fun i j => l_cost (demo_links i j)) 4 0 3 (l_to (T 0 3)) (l_cost (T 0 3))
  /\ forall f c, route (fun i j => l_cost (demo_links i j)) 4 0 3 f c -> l_cost (T 0 3) <= c.
Proof.
  apply (floyd_shortest 4 demo_links 0 3); [|lia|lia]. intros i j Hi Hj. unfold demo_links.
  destruct (fst (switch_links (i + 1) 0 4 (42 + i)) !! Z.to_nat j) as [l|] eqn:E; cbn; [|lia].
  apply switch_links_spec in E as [E1 E2]. rewrite Z2Nat.id in * by lia. destruct (0 + j =? i + 1); lia.
Defined.
