(* ===== verification/RouteDijkstra.v ===== *)
(** * RouteDijkstra: single-source routing with a priority queue (apps/routing_dijkstra/main.cpp)

    Each switch has [NEIGHBOR_PER_SWITCH] links. For every source the
    controller takes hops out of a priority queue, cheapest first, and records
    those that improve on the table. [dijkstra_shortest] shows that it ends and
    that the table holds the costs and first hops of shortest routes, whatever
    order the queue gives hops of equal cost. *)
From stdpp Require Import base list numbers.
From Stdlib Require Import ZArith Lia.
From S2P Require Import Prelude RouteDynamic.

Definition NEIGHBOR_PER_SWITCH : Z := 3.

(** [struct Forward] has the fields of [struct Link]. *)
Abbreviation Forward := Link.

Record NextHop := mk_hop { h_from : Z; h_to : Z; h_first : Z; h_cost : Z }.

Definition compare (lhs rhs : NextHop) : bool := h_cost rhs <? h_cost lhs.

(** ** std::priority_queue<NextHop, std::vector<NextHop>, compare> *)

Class PriorityQueue (Q : Type) := {
  pq_new : Q;
  pq_push : NextHop -> Q -> Q;
  pq_pop : Q -> option (NextHop * Q);   (** [empty], [top] and [pop] *)
  pq_elems : Q -> list NextHop;
}.

(** No element comes before the top one. *)
Class PriorityQueueLaws (Q : Type) `{PriorityQueue Q} := {
  pq_new_elems : pq_elems pq_new = [];
  pq_push_elems x q : pq_elems (pq_push x q) ≡ₚ x :: pq_elems q;
  pq_pop_none q : pq_pop q = None -> pq_elems q = [];
  pq_pop_some q x q' : pq_pop q = Some (x, q') ->
    pq_elems q ≡ₚ x :: pq_elems q' /\ forall y, y ∈ pq_elems q -> compare x y = false;
}.

(** A list, searched for its first least element. *)
Fixpoint extract_min (x : NextHop) (l : list NextHop) : NextHop * list NextHop :=
  match l with
  | [] => (x, [])
  | y :: l' => if h_cost y <? h_cost x then let '(m, r) := extract_min y l' in (m, x :: r)
               else let '(m, r) := extract_min x l' in (m, y :: r)
  end.

#[export] Instance list_queue : PriorityQueue (list NextHop) := {
  pq_new := [];
  pq_push := cons;
  pq_pop q := match q with [] => None | x :: l => Some (extract_min x l) end;
  pq_elems q := q;
}.

Lemma extract_min_spec x l m r :
  extract_min x l = (m, r) -> x :: l ≡ₚ m :: r /\ forall y, y ∈ x :: l -> h_cost m <= h_cost y.
Proof.
  revert x m r. induction l as [|y l IH]; intros x m r E; cbn in E.
  - injection E as <- <-. split; [done|]. intros y [->|[]%not_elem_of_nil]%elem_of_cons. lia.
  - destruct (Z.ltb_spec (h_cost y) (h_cost x)).
    + destruct (extract_min y l) as [m' r'] eqn:E'. injection E as <- <-. destruct (IH y m' r' E') as [Hp Hle]. split.
      * rewrite Hp. constructor.
      * intros z [->|Hz]%elem_of_cons; [|by apply Hle]. specialize (Hle y ltac:(left)). lia.
    + destruct (extract_min x l) as [m' r'] eqn:E'. injection E as <- <-. destruct (IH x m' r' E') as [Hp Hle]. split.
      * rewrite (Permutation_swap y x), Hp. constructor.
      * intros z [->|[->|Hz]%elem_of_cons]%elem_of_cons; [apply Hle; left| |apply Hle; by right]. specialize (Hle x ltac:(left)). lia.
Qed.

#[export] Instance list_queue_laws : PriorityQueueLaws (list NextHop).
Proof.
  constructor.
  - done.
  - done.
  - by intros [|x l].
  - intros [|x l] m r E; [done|]. cbn in *. injection E as E. destruct (extract_min_spec x l m r E) as [Hp Hle]. split; [done|].
    intros y Hy. apply Z.ltb_ge. by apply Hle.
Qed.

(** ** The program *)

Section program.
Context {Q : Type} `{PriorityQueue Q} (adj : Z -> Z -> Link).

Definition row : Type := Z -> Forward.
Definition set_row (T : row) (v : Z) (f : Forward) : row := fun v' => if v' =? v then f else T v'.

(** Row [i] after [memset(table, 0xFFFFFFFF, ...)] and the loop that enters
    the source. *)
Definition init_row (i : Z) : row := set_row (fun _ => mk_link (2 ^ 32 - 1) (2 ^ 32 - 1)) i (mk_link i 0).

(** The hops over the links of [cur], which has cost [cost] itself; their
    first hop depends on whether [cur] is the source. *)
Definition push_links (cur : Z) (first : Z -> Z) (cost : Z) (q : Q) : Q :=
  foldl (fun q k => pq_push (mk_hop cur (l_to (adj cur k)) (first (l_to (adj cur k))) (u32 (cost + l_cost (adj cur k)))) q)
    q (seqZ 0 NEIGHBOR_PER_SWITCH).

Fixpoint dijkstra_loop (fuel : nat) (T : row) (q : Q) : option row :=
  match fuel with
  | O => None
  | Datatypes.S fuel' =>
      match pq_pop q with
      | None => Some T
      | Some (hop, q') =>
          let cur := h_to hop in
          if h_cost hop <? l_cost (T cur)
          then dijkstra_loop fuel' (set_row T cur (mk_link (h_first hop) (h_cost hop)))
                 (push_links cur (fun _ => h_first hop) (h_cost hop) q')
          else dijkstra_loop fuel' T q'
      end
  end.

(** The row of source [i]. *)
Definition dijkstra (fuel : nat) (i : Z) : option row :=
  dijkstra_loop fuel (init_row i) (push_links i (fun to => to) 0 pq_new).
End program.

(** ** Correctness *)

Section correct.
Context {Q : Type} `{PriorityQueue Q} `{!PriorityQueueLaws Q} (adj : Z -> Z -> Link) (n C src : Z).
Hypothesis Hsrc : 0 <= src < n.
Hypothesis Hadj : forall v k, 0 <= v < n -> 0 <= k < 3 -> 0 <= l_to (adj v k) < n /\ 0 <= l_cost (adj v k) <= C.
Hypothesis HC : n * C < 2 ^ 32 - 1.

Definition inf : Z := 2 ^ 32 - 1.

(** A route over one or more links from the source to [v], with cost [c]; [f]
    is the switch its first link leads to. *)
Inductive path : Z -> Z -> Z -> Prop :=
| path_first k : 0 <= k < 3 -> path (l_to (adj src k)) (l_to (adj src k)) (l_cost (adj src k))
| path_link v f c k : path v f c -> 0 <= k < 3 -> path (l_to (adj v k)) f (c + l_cost (adj v k)).

Lemma path_range v f c : path v f c -> 0 <= v < n.
Proof. induction 1 as [k Hk|v f c k _ IH Hk]; by apply Hadj. Qed.

(** The nodes with an entry. *)
Definition settled (T : row) (v : Z) : Prop := l_cost (T v) <> inf.
Definition settled_count (T : row) : Z := sum_of (fun v => if l_cost (T v) =? inf then 0 else 1) (seqZ 0 n).

Record dinv (T : row) (q : Q) : Prop := {
  di_src : T src = mk_link src 0;
  di_path v : 0 <= v < n -> settled T v -> (v <> src -> path v (l_to (T v)) (l_cost (T v))) /\ 0 <= l_cost (T v) <= (settled_count T - 1) * C;
  di_rest v : 0 <= v < n -> ~ settled T v -> T v = mk_link inf inf;
  di_queue h : h ∈ pq_elems q -> path (h_to h) (h_first h) (h_cost h) /\ 0 <= h_cost h <= settled_count T * C;
  di_order h v : h ∈ pq_elems q -> 0 <= v < n -> settled T v -> l_cost (T v) <= h_cost h;
  di_links v k : 0 <= v < n -> settled T v -> 0 <= k < 3 ->
    (settled T (l_to (adj v k)) /\ l_cost (T (l_to (adj v k))) <= l_cost (T v) + l_cost (adj v k))
    \/ exists h, h ∈ pq_elems q /\ h_to h = l_to (adj v k) /\ h_cost h <= l_cost (T v) + l_cost (adj v k);
}.

Lemma settled_count_range T : 0 <= settled_count T <= n.
Proof.
  unfold settled_count. pose proof (sum_of_range (fun v => if l_cost (T v) =? inf then 0 else 1) (seqZ 0 n) 1) as H1.
  rewrite length_seqZ in H1. assert (forall x, x ∈ seqZ 0 n -> 0 <= (if l_cost (T x) =? inf then 0 else 1) <= 1) as H2; [|specialize (H1 H2); lia].
  intros x _. destruct (_ =? _); lia.
Qed.

Lemma set_row_eq T v l : set_row T v l v = l.
Proof. unfold set_row. by rewrite Z.eqb_refl. Qed.
Lemma set_row_ne T v l v' : v' <> v -> set_row T v l v' = T v'.
Proof. intros Hne. unfold set_row. by destruct (Z.eqb_spec v' v). Qed.

(** Setting the entry of a node that had none. *)
Lemma settled_count_set T v l :
  0 <= v < n -> ~ settled T v -> l_cost l <> inf -> settled_count (set_row T v l) = settled_count T + 1.
Proof.
  intros Hv Hns Hl. unfold settled_count.
  rewrite (sum_of_upd (fun v => if l_cost (T v) =? inf then 0 else 1) _ (seqZ 0 n) v); [|apply NoDup_seqZ|apply elem_of_seqZ; lia|].
  - rewrite set_row_eq. unfold settled in Hns. destruct (Z.eqb_spec (l_cost (T v)) inf); [|tauto]. destruct (Z.eqb_spec (l_cost l) inf); [done|]. lia.
  - intros y _ Hne. by rewrite set_row_ne.
Qed.

Lemma push_links_elems cur first cost q :
  pq_elems (push_links adj cur first cost q)
  ≡ₚ ((fun k => mk_hop cur (l_to (adj cur k)) (first (l_to (adj cur k))) (u32 (cost + l_cost (adj cur k)))) <$> [2; 1; 0]) ++ pq_elems q.
Proof. unfold push_links. change (seqZ 0 NEIGHBOR_PER_SWITCH) with [0; 1; 2]. cbn. by rewrite !pq_push_elems. Qed.

Lemma push_links_in cur first cost q h :
  h ∈ pq_elems (push_links adj cur first cost q) <->
  h ∈ pq_elems q \/ exists k, 0 <= k < 3 /\ h = mk_hop cur (l_to (adj cur k)) (first (l_to (adj cur k))) (u32 (cost + l_cost (adj cur k))).
Proof.
  rewrite push_links_elems, elem_of_app, list_elem_of_fmap. assert (forall k, k ∈ [2; 1; 0] <-> 0 <= k < 3) as Hk.
  { intros k. rewrite !elem_of_cons, elem_of_nil. lia. }
  setoid_rewrite Hk. split; [intros [(k & -> & ?)|?]; eauto|intros [?|(k & ? & ->)]; eauto].
Qed.

Lemma C_nonneg : 0 <= C.
Proof. destruct (Hadj src 0 Hsrc ltac:(lia)) as [_ ?]. lia. Qed.

Lemma cost_below_inf T h c : 0 <= c <= settled_count T * C -> h = c -> 0 <= h < inf.
Proof. intros Hc ->. pose proof (settled_count_range T). pose proof C_nonneg. unfold inf. nia. Qed.

(** ** The loop *)

Lemma init_count : settled_count (init_row src) = 1.
Proof.
  unfold init_row. rewrite settled_count_set; [|done|by intros []|done]. unfold settled_count.
  rewrite (sum_of_ext (fun _ => 0)); [|done]. pose proof (sum_of_range (fun _ : Z => 0) (seqZ 0 n) 0 ltac:(lia)). lia.
Qed.

Lemma dinv_init : dinv (init_row src) (push_links adj src (fun to => to) 0 pq_new).
Proof.
  pose proof init_count as Hcount.
  assert (forall v, settled (init_row src) v -> v = src) as Hset.
  { intros v Hv. unfold settled, init_row in Hv. destruct (decide (v = src)) as [->|Hne]; [done|]. by rewrite set_row_ne in Hv. }
  assert (init_row src src = mk_link src 0) as Esrc by (unfold init_row; apply set_row_eq).
  assert (forall k, 0 <= k < 3 -> u32 (0 + l_cost (adj src k)) = l_cost (adj src k)) as Hu.
  { intros k Hk. destruct (Hadj src k Hsrc Hk) as [_ Hc]. apply u32_small. nia. }
  constructor.
  - done.
  - intros v Hv Hs. rewrite (Hset v Hs), Esrc, Hcount. cbn. split; [done|lia].
  - intros v Hv Hns. unfold settled, init_row in *. destruct (decide (v = src)) as [->|Hne]; [destruct Hns; by rewrite set_row_eq|by rewrite set_row_ne].
  - intros h Hh. apply push_links_in in Hh as [Hh|(k & Hk & ->)]; [by rewrite pq_new_elems in Hh; apply not_elem_of_nil in Hh|]. cbn.
    rewrite Hu, Hcount by done. split; [by constructor|]. destruct (Hadj src k Hsrc Hk). lia.
  - intros h v Hh Hv Hs. rewrite (Hset v Hs), Esrc. cbn. apply push_links_in in Hh as [Hh|(k & Hk & ->)]; [by rewrite pq_new_elems in Hh; apply not_elem_of_nil in Hh|].
    cbn [h_cost]. rewrite Hu by done. destruct (Hadj src k Hsrc Hk). lia.
  - intros v k Hv Hs Hk. rewrite (Hset v Hs), Esrc. right. eexists. split; [apply push_links_in; right; by exists k|]. cbn. rewrite Hu by done. lia.
Qed.

(** A hop that improves on nothing is dropped. *)
Lemma dinv_skip T q hop q' : dinv T q -> pq_pop q = Some (hop, q') -> l_cost (T (h_to hop)) <= h_cost hop -> dinv T q'.
Proof.
  intros [H1 H2 H3 H4 H5 H6] Hpop Hle. destruct (pq_pop_some _ _ _ Hpop) as [Hp _].
  assert (forall h, h ∈ pq_elems q' -> h ∈ pq_elems q) as Hin by (intros h Hh; rewrite Hp; by right).
  constructor; auto. intros v k Hv Hs Hk. destruct (H6 v k Hv Hs Hk) as [?|(h & Hh & Eh & Hc)]; [by left|].
  rewrite Hp in Hh. apply elem_of_cons in Hh as [->|Hh]; [left|right; by exists h]. rewrite <- Eh. split; [|lia].
  destruct (H4 hop) as [_ Hb]; [rewrite Hp; left|]. pose proof (cost_below_inf T _ _ Hb eq_refl). unfold settled. lia.
Qed.

(** A hop to a new node settles it. *)
Lemma dinv_settle T q hop q' :
  dinv T q -> pq_pop q = Some (hop, q') -> h_cost hop < l_cost (T (h_to hop)) ->
  0 <= h_to hop < n /\ ~ settled T (h_to hop)
  /\ dinv (set_row T (h_to hop) (mk_link (h_first hop) (h_cost hop))) (push_links adj (h_to hop) (fun _ => h_first hop) (h_cost hop) q').
Proof.
  intros [H1 H2 H3 H4 H5 H6] Hpop Hlt. destruct (pq_pop_some _ _ _ Hpop) as [Hp Hmin]. set (cur := h_to hop) in *.
  assert (hop ∈ pq_elems q) as Hhop by (rewrite Hp; left). destruct (H4 hop Hhop) as [Hpath Hb].
  pose proof (path_range _ _ _ Hpath) as Hcur. pose proof (cost_below_inf T _ _ Hb eq_refl) as Hinf. fold cur in Hpath, Hcur.
  assert (~ settled T cur) as Hns by (intros Hs; specialize (H5 hop cur Hhop Hcur Hs); lia).
  set (T' := set_row T cur (mk_link (h_first hop) (h_cost hop))).
  assert (settled_count T' = settled_count T + 1) as Hcount by (apply settled_count_set; [done|done|cbn; lia]).
  pose proof (settled_count_range T') as Hrange. pose proof C_nonneg as HC0.
  assert (T' cur = mk_link (h_first hop) (h_cost hop)) as Ecur by apply set_row_eq.
  assert (forall v, v <> cur -> T' v = T v) as Eother by (intros; by apply set_row_ne).
  assert (forall v, settled T v -> v <> cur) as Hne by (by intros v Hs ->).
  assert (forall h, h ∈ pq_elems q' -> h ∈ pq_elems q) as Hin by (intros h Hh; rewrite Hp; by right).
  assert (forall k, 0 <= k < 3 -> u32 (h_cost hop + l_cost (adj cur k)) = h_cost hop + l_cost (adj cur k)
    /\ 0 <= l_cost (adj cur k) <= C) as Hu.
  { intros k Hk. destruct (Hadj cur k Hcur Hk) as [_ Hc]. split; [|done]. apply u32_small. nia. }
  split; [done|]. split; [done|]. constructor.
  - rewrite Eother; [done|]. apply not_eq_sym, not_eq_sym, Hne. unfold settled. by rewrite H1.
  - intros v Hv Hs. destruct (decide (v = cur)) as [->|Hvc]; [rewrite Ecur, Hcount; cbn; split; [done|lia]|].
    unfold settled in Hs. rewrite Eother in * by done. destruct (H2 v Hv Hs) as [? ?]. split; [done|]. nia.
  - intros v Hv Hs. destruct (decide (v = cur)) as [->|Hvc]; [unfold settled in Hs; rewrite Ecur in Hs; cbn in Hs; lia|].
    unfold settled in Hs. rewrite Eother in * by done. by apply H3.
  - intros h Hh. apply push_links_in in Hh as [Hh|(k & Hk & ->)].
    + destruct (H4 h (Hin h Hh)) as [? ?]. split; [done|]. nia.
    + destruct (Hu k Hk) as [E Hc]. cbn [h_to h_first h_cost]. rewrite E. split; [by constructor|]. nia.
  - intros h v Hh Hv Hs. assert (l_cost (T' v) <= h_cost hop) as Hle.
    { destruct (decide (v = cur)) as [->|Hvc]; [rewrite Ecur; cbn; lia|]. unfold settled in Hs. rewrite Eother in * by done. by apply H5. }
    etrans; [exact Hle|]. apply push_links_in in Hh as [Hh|(k & Hk & ->)].
    + specialize (Hmin h (Hin h Hh)). by apply Z.ltb_ge in Hmin.
    + destruct (Hu k Hk) as [E Hc]. cbn [h_cost]. rewrite E. lia.
  - intros v k Hv Hs Hk. destruct (decide (v = cur)) as [->|Hvc].
    + right. eexists. split; [apply push_links_in; right; by exists k|]. cbn [h_to h_cost]. destruct (Hu k Hk) as [-> _]. rewrite Ecur. cbn. split; [done|lia].
    + unfold settled in Hs. rewrite (Eother v Hvc) in Hs. rewrite (Eother v Hvc). destruct (H6 v k Hv Hs Hk) as [[Hs' Hc]|(h & Hh & Eh & Hc)].
      * left. unfold settled. rewrite (Eother _ (Hne _ Hs')). done.
      * rewrite Hp in Hh. apply elem_of_cons in Hh as [->|Hh].
        -- left. rewrite <- Eh. fold cur. unfold settled. rewrite Ecur. cbn [l_cost]. split; lia.
        -- right. exists h. split; [apply push_links_in; by left|done].
Qed.

Lemma dijkstra_loop_ends fuel T q :
  dinv T q -> Z.of_nat (length (pq_elems q)) + 3 * (n - settled_count T) < Z.of_nat fuel ->
  exists T' q', dijkstra_loop adj fuel T q = Some T' /\ dinv T' q' /\ pq_elems q' = [].
Proof.
  revert T q. induction fuel as [|fuel IH]; intros T q Hi Hf; [pose proof (settled_count_range T); lia|]. cbn [dijkstra_loop].
  destruct (pq_pop q) as [[hop q']|] eqn:Hpop; [|exists T, q; split; [done|]; split; [done|by apply pq_pop_none]].
  destruct (pq_pop_some _ _ _ Hpop) as [Hp _]. pose proof (Permutation_length Hp) as Hl. cbn [length] in Hl.
  destruct (Z.ltb_spec (h_cost hop) (l_cost (T (h_to hop)))) as [Hlt|Hge].
  - destruct (dinv_settle T q hop q' Hi Hpop Hlt) as (Hcur & Hns & Hi'). apply IH; [done|].
    rewrite settled_count_set; [|done|done|].
    + rewrite (Permutation_length (push_links_elems _ _ _ _)), length_app. cbn [length fmap list_fmap]. lia.
    + destruct (di_queue _ _ Hi hop) as [_ Hb]; [rewrite Hp; left|]. pose proof (cost_below_inf T _ _ Hb eq_refl). cbn. lia.
  - apply (IH T q'); [by eapply dinv_skip|lia].
Qed.

Lemma dinv_best T q v f c : dinv T q -> pq_elems q = [] -> path v f c -> settled T v /\ l_cost (T v) <= c.
Proof.
  intros Hi Hq Hp.
  assert (forall v k, 0 <= v < n -> settled T v -> 0 <= k < 3 ->
    settled T (l_to (adj v k)) /\ l_cost (T (l_to (adj v k))) <= l_cost (T v) + l_cost (adj v k)) as Hlink.
  { intros u k Hu Hs Hk. destruct (di_links _ _ Hi u k Hu Hs Hk) as [?|(h & Hh & _)]; [done|]. rewrite Hq in Hh. by apply not_elem_of_nil in Hh. }
  assert (settled T src) as Hs0 by (unfold settled; by rewrite (di_src _ _ Hi)).
  induction Hp as [k Hk|v f c k Hp IH Hk].
  - destruct (Hlink src k Hsrc Hs0 Hk) as [? Hc]. rewrite (di_src _ _ Hi) in Hc. cbn in Hc. split; [done|lia].
  - destruct IH as [Hs Hc]. destruct (Hlink v k (path_range _ _ _ Hp) Hs Hk). split; [done|lia].
Qed.
End correct.

(** C25: the routes of a source are shortest routes. With [n] switches whose links
    lead to switches and cost at most [C], where [n * C] fits into 32 bits, the
    loop ends after at most [3 * n] hops, whatever order the queue gives hops
    of equal cost. The entry of the source itself is then [src] at cost 0;
    each other entry has the least cost of a route from the source and the
    switch the first link of a route of this cost leads to, or the initial
    value if there is no route. *)
Theorem dijkstra_shortest {Q} `{PriorityQueue Q} `{!PriorityQueueLaws Q} (adj : Z -> Z -> Link) n C src fuel :
  0 <= src < n -> (forall v k, 0 <= v < n -> 0 <= k < 3 -> 0 <= l_to (adj v k) < n /\ 0 <= l_cost (adj v k) <= C) ->
  n * C < 2 ^ 32 - 1 -> 3 * n < Z.of_nat fuel ->
  exists T, dijkstra (Q := Q) adj fuel src = Some T
    /\ T src = mk_link src 0
    /\ forall v, 0 <= v < n -> v <> src ->
         (path adj src v (l_to (T v)) (l_cost (T v)) /\ forall f c, path adj src v f c -> l_cost (T v) <= c)
         \/ ((forall f c, ~ path adj src v f c) /\ T v = mk_link inf inf).
Proof.
  intros Hsrc Hadj HC Hf. pose proof (dinv_init adj n C src Hsrc Hadj HC) as Hi.
  destruct (dijkstra_loop_ends adj n C src Hsrc Hadj HC fuel _ _ Hi) as (T & q & E & Hi' & Hq).
  { rewrite (Permutation_length (push_links_elems _ _ _ _ _)), length_app, pq_new_elems. cbn [length fmap list_fmap].
    rewrite (init_count n src Hsrc). lia. }
  exists T. split; [exact E|]. split; [apply (di_src _ _ _ _ _ _ Hi')|]. intros v Hv Hne. destruct (decide (settled T v)) as [Hs|Hns].
  - left. split; [by apply (di_path _ _ _ _ _ _ Hi')|]. intros f c Hp. by eapply (dinv_best adj n C src Hsrc Hadj T q v f c).
  - right. split; [|by apply (di_rest _ _ _ _ _ _ Hi')]. intros f c Hp. apply Hns. by eapply (dinv_best adj n C src Hsrc Hadj T q v f c).
Qed.

(** ** The links of the switches *)

(** [do now->to = fast_random() % switch_cnt; while (now->to == table_id)] *)
Fixpoint random_target (fuel : nat) (switch_cnt table_id seed : Z) : option (Z * Z) :=
  match fuel with
  | O => None
  | Datatypes.S fuel' =>
      let '(r, seed) := fast_random seed in
      let to := r mod switch_cnt in
      if to =? table_id then random_target fuel' switch_cnt table_id seed else Some (to, seed)
  end.

(** The links a switch writes to table [table_id]. *)
Fixpoint switch_random_links (fuel todo : nat) (switch_cnt table_id seed : Z) : option (list Link * Z) :=
  match todo with
  | O => Some ([], seed)
  | Datatypes.S todo' =>
      '(to, seed) ← random_target fuel switch_cnt table_id seed;
      let '(r, seed) := fast_random seed in
      '(ls, seed) ← switch_random_links fuel todo' switch_cnt table_id seed;
      Some (mk_link to (r mod 10 + 1) :: ls, seed)
  end.

Lemma random_target_spec fuel m id seed to seed' :
  0 < m -> random_target fuel m id seed = Some (to, seed') -> 0 <= to < m /\ to <> id.
Proof.
  intros Hm. revert seed. induction fuel as [|fuel IH]; intros seed E; [done|]. cbn [random_target] in E.
  destruct (fast_random seed) as [r s]. destruct (Z.eqb_spec (r mod m) id); [by apply IH in E|].
  injection E as <- _. split; [by apply Z.mod_pos_bound|done].
Qed.

(** They meet the hypotheses of [dijkstra_shortest], with [C] 10. *)
Lemma switch_random_links_spec fuel todo m id seed ls seed' k l :
  0 < m -> switch_random_links fuel todo m id seed = Some (ls, seed') -> ls !! k = Some l ->
  0 <= l_to l < m /\ l_to l <> id /\ 1 <= l_cost l <= 10.
Proof.
  intros Hm. revert seed ls seed' k. induction todo as [|todo IH]; intros seed ls seed' k E Hk; cbn [switch_random_links] in E; [by injection E as <- _|].
  destruct (random_target fuel m id seed) as [[to s1]|] eqn:Et; [|discriminate E]. cbn [mbind option_bind] in E. destruct (fast_random s1) as [r s2].
  destruct (switch_random_links fuel todo m id s2) as [[ls' s3]|] eqn:El; [|discriminate E]. injection E as <- <-.
  destruct k as [|k]; [|by eapply IH]. injection Hk as <-. cbn. destruct (random_target_spec _ _ _ _ _ _ Hm Et).
  pose proof (Z.mod_pos_bound r 10 ltac:(lia)). lia.
Qed.

(** Five switches. *)
Definition demo_network (v k : Z) : Link :=
  default (mk_link 0 1) (ls ← switch_random_links 20 3 5 v (42 + v); fst ls !! Z.to_nat k).

Lemma dijkstra_shortest_witness :
  exists T, dijkstra (Q := list NextHop) demo_network 16 0 = Some T
    /\ T 0 = mk_link 0 0
    /\ forall v, 0 <= v < 5 -> v <> 0 ->
         (path demo_network 0 v (l_to (T v)) (l_cost (T v)) /\ forall f c, path demo_network 0 v f c -> l_cost (T v) <= c)
         \/ ((forall f c, ~ path demo_network 0 v f c) /\ T v = mk_link inf inf).
Proof.
  apply (dijkstra_shortest (Q := list NextHop) demo_network 5 10 0 16); [lia| |lia|lia].
  intros v k Hv Hk. unfold demo_network. destruct (switch_random_links 20 3 5 v (42 + v)) as [[ls s]|] eqn:E; cbn; [|lia].
  destruct (ls !! Z.to_nat k) as [l|] eqn:El; cbn; [|lia].
  destruct (switch_random_links_spec 20 3 5 v (42 + v) ls s (Z.to_nat k) l ltac:(lia) E El). lia.
Defined.
