(* ===== verification/Counter.v ===== *)
(** * Counter: the counting sample (apps/sample/counter.cpp)

    Each worker owns an area with one integer. It writes the next number to
    its own and waits until it has seen at least that number in the areas of
    all workers. A worker reads its own area directly and the others through a
    copy that the synchronization brings up to date now and then. [cstep]
    interleaves the workers, from one access to a counter to the next, with
    the synchronization of single areas. The final loop, which waits for one
    more synchronization, and the text output are left out. *)
From stdpp Require Import base list numbers relations.
From Stdlib Require Import ZArith Lia.
From S2P Require Import Prelude.

(** ** The program *)

(** Where a worker is: at the head of the loop over the repetitions, at the
    head of the loop over the counts, waiting for worker [wid], past both. *)
Inductive wpc := CRep (rep : Z) | CLoop (rep count : Z) | CWait (rep count : Z) (wid : nat) | CDone.
#[export] Instance wpc_eq_dec : EqDecision wpc.
Proof. solve_decision. Defined.

(** The counters, the copies of them each worker sees, and where it is. *)
Record cstate := mk_cstate { counters : nat -> Z; copies : nat -> nat -> Z; c_pcs : list wpc }.

Definition set_fn {A} (f : nat -> A) (i : nat) (x : A) : nat -> A := fun j => if decide (j = i) then x else f j.

Section counter.
Context (nr_workers : nat) (count_to : Z).

Definition count_to2 (rep : Z) : Z := if rep =? 0 then 1 else count_to.

(** [*counter[wid]] as worker [i] sees it. *)
Definition read_counter (st : cstate) (i wid : nat) : Z := if decide (wid = i) then counters st wid else copies st i wid.

(** Worker [i] runs up to its next access to a counter; a failed test of
    [*counter[wid] < count] leads to a call of [tasvir_service]. *)
Definition worker_step (i : nat) (p : wpc) (st : cstate) : wpc * (nat -> Z) :=
  match p with
  | CRep rep => (if rep <? 2 then CLoop rep (1 + rep) else CDone, counters st)
  | CLoop rep count =>
      if count <=? i32 (count_to2 rep + rep) then (CWait rep count 0, set_fn (counters st) i count)
      else (CRep (rep + 1), counters st)
  | CWait rep count wid =>
      if decide (wid < nr_workers)%nat then
        (if read_counter st i wid <? count then CWait rep count wid else CWait rep count (wid + 1), counters st)
      else (CLoop rep (i32 (count + 1)), counters st)
  | CDone => (CDone, counters st)
  end.

(** A synchronization takes the copy of an area some way towards what its
    owner has written; with external synchronization not always all the way. *)
Inductive cstep : cstate -> cstate -> Prop :=
| cstep_worker st i p p' m' :
    c_pcs st !! i = Some p -> worker_step i p st = (p', m') ->
    cstep st (mk_cstate m' (copies st) (<[i := p']> (c_pcs st)))
| cstep_sync st r w v :
    copies st r w <= v <= counters st w ->
    cstep st (mk_cstate (counters st) (set_fn (copies st) r (set_fn (copies st r) w v)) (c_pcs st)).

(** New areas hold zeros. *)
Definition cinit : cstate := mk_cstate (fun _ => 0) (fun _ _ => 0) (replicate nr_workers (CRep 0)).

(** ** Invariant *)

Definition last_count : Z := Z.max 1 (count_to + 1).

(** The last step a worker has finished, and what it has written. *)
Definition passed (p : wpc) : Z :=
  match p with
  | CRep rep => if rep <? 2 then rep else last_count
  | CLoop _ count | CWait _ count _ => count - 1
  | CDone => last_count
  end.

Definition written (p : wpc) : Z := match p with CWait _ count _ => count | _ => passed p end.

Definition pc_ok (p : wpc) : Prop :=
  match p with
  | CRep rep => 0 <= rep <= 2
  | CLoop rep count => (rep = 0 /\ 1 <= count <= 2) \/ (rep = 1 /\ 2 <= count <= last_count + 1)
  | CWait rep count wid => ((rep = 0 /\ count = 1) \/ (rep = 1 /\ 2 <= count <= last_count)) /\ (wid <= nr_workers)%nat
  | CDone => True
  end.

Record cinv (st : cstate) : Prop := {
  ci_len : length (c_pcs st) = nr_workers;
  ci_ok i p : c_pcs st !! i = Some p -> pc_ok p;
  ci_written i p : c_pcs st !! i = Some p -> counters st i = written p;
  ci_passed i p j : c_pcs st !! i = Some p -> (j < nr_workers)%nat -> passed p <= counters st j;
  ci_seen i rep count wid j : c_pcs st !! i = Some (CWait rep count wid) -> (j < wid)%nat -> count <= counters st j;
  ci_copies r w : (w < nr_workers)%nat -> copies st r w <= counters st w;
}.

Lemma set_fn_eq {A} (f : nat -> A) i x : set_fn f i x i = x.
Proof. unfold set_fn. by rewrite decide_True. Qed.

Lemma set_fn_ne {A} (f : nat -> A) i x j : j <> i -> set_fn f i x j = f j.
Proof. unfold set_fn. intros. by rewrite decide_False. Qed.

Context (Hto : 0 <= count_to <= 2 ^ 31 - 3).

(** A step of a worker keeps what concerns it and does not decrease a
    counter. *)
Lemma worker_step_ok i p st p' m' :
  cinv st -> c_pcs st !! i = Some p -> worker_step i p st = (p', m') ->
  pc_ok p' /\ m' i = written p' /\ (forall j, j <> i -> m' j = counters st j) /\ counters st i <= m' i
  /\ (forall j, (j < nr_workers)%nat -> passed p' <= counters st j)
  /\ (forall rep count wid j, p' = CWait rep count wid -> (j < wid)%nat -> count <= m' j).
Proof.
  intros Hi Hp E. pose proof (ci_ok _ Hi i p Hp) as Hok. pose proof (ci_written _ Hi i p Hp) as Hw.
  assert (i < nr_workers)%nat as Hlt by (rewrite <- (ci_len _ Hi); by eapply lookup_lt_Some).
  pose proof (fun j => ci_passed _ Hi i p j Hp) as Hpa.
  destruct p as [rep|rep count|rep count wid|]; cbn in E, Hok, Hw, Hpa; unfold last_count in *.
  - destruct (Z.ltb_spec rep 2); injection E as <- <-; cbn; (split; [unfold last_count; lia|]);
      (split; [unfold last_count in *; lia|]); (split; [done|]); (split; [lia|]); (split; [|done]); intros j Hj; specialize (Hpa j Hj); unfold last_count in *; lia.
  - rewrite i32_small in E by (unfold count_to2; destruct (rep =? 0) eqn:E0; lia).
    destruct (Z.leb_spec count (count_to2 rep + rep)) as [Hle|Hgt]; injection E as <- <-.
    + split; [cbn; unfold count_to2, last_count in *; destruct Hok as [[-> ?]|[-> ?]]; cbn in Hle; split; lia|]. rewrite set_fn_eq.
      split; [done|]. split; [intros j Hj; by apply set_fn_ne|]. split; [lia|]. split; [exact Hpa|]. intros ??? j [= -> -> <-]. lia.
    + assert (rep + 1 = 1 /\ count = 2 \/ rep + 1 = 2 /\ count = Z.max 1 (count_to + 1) + 1) as Hc
        by (unfold count_to2 in Hgt; destruct Hok as [[-> ?]|[-> ?]]; cbn in Hgt; lia).
      split; [cbn; lia|]. assert (passed (CRep (rep + 1)) = count - 1) as Ep
        by (cbn; unfold last_count; destruct Hc as [[-> ->]|[-> ->]]; cbn; lia).
      change (written (CRep (rep + 1))) with (passed (CRep (rep + 1))). rewrite Ep. split; [done|]. split; [done|]. split; [lia|].
      split; [exact Hpa|done].
  - pose proof (ci_seen _ Hi i rep count wid) as Hs. destruct Hok as [Hok Hwid].
    destruct (decide (wid < nr_workers)%nat) as [Hl|Hl]; [|assert (wid = nr_workers) as -> by lia].
    + destruct (Z.ltb_spec (read_counter st i wid) count) as [Hlo|Hhi]; injection E as <- <-.
      * split; [by split|]. split; [done|]. split; [done|]. split; [lia|]. split; [done|]. intros ??? j [= -> -> <-]. by eapply Hs.
      * split; [split; [done|lia]|]. split; [done|]. split; [done|]. split; [lia|]. split; [done|]. intros ??? j [= -> -> <-] Hj.
        destruct (decide (j = wid)) as [->|]; [|apply (Hs j Hp); lia].
        unfold read_counter in Hhi. destruct (decide (wid = i)) as [->|]; [done|]. pose proof (ci_copies _ Hi i wid Hl). lia.
    + rewrite i32_small in E by lia. injection E as <- <-. split; [cbn; unfold last_count; lia|]. cbn. replace (count + 1 - 1) with count by lia.
      split; [done|]. split; [done|]. split; [lia|]. split; [|done]. intros j Hj. by eapply Hs.
  - injection E as <- <-. split; [done|]. split; [done|]. split; [done|]. split; [lia|]. by split.
Qed.

Lemma cinv_step st st' : cinv st -> cstep st st' -> cinv st'.
Proof.
  intros Hi Hs. revert Hi. destruct Hs as [st i p p' m' Hp E|st r w v Hv]; intros Hi.
  - destruct (worker_step_ok i p _ p' m' Hi Hp E) as (Hok & Hw & Hne & Hle & Hpa & Hse).
    assert (forall j, counters st j <= m' j) as Hmono by (intros j; destruct (decide (j = i)) as [->|Hj]; [done|rewrite (Hne j Hj); lia]).
    pose proof (lookup_lt_Some _ _ _ Hp) as Hlt.
    split; cbn [counters copies c_pcs]; [by rewrite length_insert, (ci_len _ Hi)|..].
    + intros j q [(<- & <- & _)|[? Hq]]%list_lookup_insert_Some; [done|by eapply ci_ok].
    + intros j q [(<- & <- & _)|[? Hq]]%list_lookup_insert_Some; [done|]. rewrite Hne by done. by apply ci_written.
    + intros j q k [(<- & <- & _)|[? Hq]]%list_lookup_insert_Some Hk; (etrans; [|apply Hmono]); [by apply Hpa|by eapply ci_passed].
    + intros j rep count wid k [(<- & -> & _)|[? Hq]]%list_lookup_insert_Some Hk; [by eapply Hse|]. etrans; [|apply Hmono]. by eapply ci_seen.
    + intros r w Hw'. etrans; [by apply (ci_copies _ Hi)|apply Hmono].
  - destruct Hi as [H1 H2 H3 H4 H5 H6]. split; cbn [counters copies c_pcs]; try done. intros r' w' Hw'.
    destruct (decide (r' = r)) as [->|]; [rewrite set_fn_eq|rewrite set_fn_ne by done; by apply H6].
    destruct (decide (w' = w)) as [->|]; [rewrite set_fn_eq; lia|rewrite set_fn_ne by done; by apply H6].
Qed.

Lemma cinv_init : cinv cinit.
Proof.
  split; cbn [cinit counters copies c_pcs]; [apply length_replicate|..].
  - intros i p [-> _]%lookup_replicate. cbn. lia.
  - by intros i p [-> _]%lookup_replicate.
  - by intros i p j [-> _]%lookup_replicate.
  - by intros i rep count wid j [? _]%lookup_replicate.
  - done.
Qed.

Lemma cinv_reachable st : rtc cstep cinit st -> cinv st.
Proof. revert st. apply rtc_ind_r; [apply cinv_init|]. intros ? ? _ Hs IH. by eapply cinv_step. Qed.

(** C28: the workers count in step. However they interleave and however late
    their copies are, no counter is ever more than one ahead of another, and a
    worker that has finished a step knows that every worker has written that
    number. *)
Theorem counters_in_step st :
  rtc cstep cinit st ->
  (forall i j, (i < nr_workers)%nat -> (j < nr_workers)%nat -> counters st i <= counters st j + 1)
  /\ (forall i rep count j, c_pcs st !! i = Some (CLoop rep count) -> (j < nr_workers)%nat -> count - 1 <= counters st j <= count).
Proof.
  intros Hr. pose proof (cinv_reachable st Hr) as Hi.
  assert (forall i j, (i < nr_workers)%nat -> (j < nr_workers)%nat -> counters st i <= counters st j + 1) as Hle.
  { intros i j Hi' Hj. rewrite <- (ci_len _ Hi) in Hi'. apply lookup_lt_is_Some in Hi' as [p Hp].
    rewrite (ci_written _ Hi i p Hp). pose proof (ci_passed _ Hi i p j Hp Hj). destruct p; cbn in *; lia. }
  split; [exact Hle|]. intros i rep count j Hp Hj. pose proof (ci_passed _ Hi i _ j Hp Hj) as Hpa.
  pose proof (ci_written _ Hi i _ Hp) as Hw. cbn in Hpa, Hw.
  assert (i < nr_workers)%nat as Hlt by (rewrite <- (ci_len _ Hi); by eapply lookup_lt_Some). specialize (Hle j i Hj Hlt). lia.
Qed.

(** ** Progress *)

Definition c_progress (p : wpc) : Z :=
  let U := Z.of_nat nr_workers + 2 in
  match p with
  | CRep rep => passed p * U + 2 * rep
  | CLoop rep count => (count - 1) * U + 2 * rep + 1
  | CWait rep count wid => (count - 1) * U + 2 * rep + 2 + Z.of_nat wid
  | CDone => last_count * U + 5
  end.

Definition c_work (p : wpc) : Z := c_progress CDone - c_progress p.

Lemma c_work_nonneg p : pc_ok p -> 0 <= c_work p.
Proof.
  unfold c_work, c_progress, last_count. destruct p as [rep|rep count|rep count wid|]; cbn [pc_ok passed]; unfold last_count.
  - intros Hr. destruct (Z.ltb_spec rep 2); nia.
  - intros [[-> ?]|[-> ?]]; nia.
  - intros [[[-> ->]|[-> ?]] ?]; nia.
  - lia.
Qed.

(** A worker that does not wait in vain gets on. *)
Lemma worker_progress i p st p' m' :
  cinv st -> c_pcs st !! i = Some p -> worker_step i p st = (p', m') -> p <> CDone ->
  (forall rep count wid, p = CWait rep count wid -> (wid < nr_workers)%nat -> count <= read_counter st i wid) ->
  c_work p' < c_work p.
Proof.
  intros Hi Hp E Hne Hrd. pose proof (ci_ok _ Hi i p Hp) as Hok. unfold c_work, c_progress.
  destruct p as [rep|rep count|rep count wid|]; cbn in E, Hok |- *; [| | |done]; unfold last_count in *.
  - destruct (Z.ltb_spec rep 2); injection E as <- <-; [nia|]. assert (rep = 2) as -> by lia. lia.
  - rewrite i32_small in E by (unfold count_to2; destruct (rep =? 0) eqn:E0; lia).
    destruct (Z.leb_spec count (count_to2 rep + rep)) as [Hle|Hgt]; injection E as <- <-; [cbn; lia|].
    unfold count_to2 in Hgt. cbn [passed]. unfold last_count. destruct Hok as [[-> ?]|[-> ?]]; cbn in Hgt |- *.
    + assert (count = 2) as -> by lia. destruct (Z.ltb_spec (0 + 1) 2); lia.
    + assert (count = Z.max 1 (count_to + 1) + 1) as -> by lia. destruct (Z.ltb_spec (1 + 1) 2); nia.
  - destruct Hok as [Hok Hw]. destruct (decide (wid < nr_workers)%nat) as [Hl|Hl].
    + specialize (Hrd _ _ _ eq_refl Hl). destruct (Z.ltb_spec (read_counter st i wid) count); [lia|]. injection E as <- <-. lia.
    + rewrite i32_small in E by lia. injection E as <- <-. nia.
Qed.

Definition total_c_work (st : cstate) : Z := sum_of c_work (c_pcs st).

Lemma worker_gets_on i p st :
  cinv st -> c_pcs st !! i = Some p -> p <> CDone ->
  (forall rep count wid, p = CWait rep count wid -> (wid < nr_workers)%nat -> count <= read_counter st i wid) ->
  exists st', cstep st st' /\ total_c_work st' < total_c_work st.
Proof.
  intros Hi Hp Hne Hrd. destruct (worker_step i p st) as [p' m'] eqn:E. eexists. split; [by eapply cstep_worker|].
  unfold total_c_work. cbn [c_pcs]. rewrite (sum_of_insert _ _ _ _ _ Hp). pose proof (worker_progress i p st p' m' Hi Hp E Hne Hrd). lia.
Qed.

(** Some worker can get on, perhaps after a synchronization: the one with the
    smallest counter. *)
Lemma someone_gets_on i p st :
  cinv st -> c_pcs st !! i = Some p -> p <> CDone -> exists st', rtc cstep st st' /\ total_c_work st' < total_c_work st.
Proof.
  remember (Z.to_nat (written p)) as k eqn:Ek. revert i p Ek. induction k as [k IH] using lt_wf_ind. intros i p -> Hi Hp Hne.
  assert ((exists rep count wid, p = CWait rep count wid /\ (wid < nr_workers)%nat /\ read_counter st i wid < count)
    \/ (forall rep count wid, p = CWait rep count wid -> (wid < nr_workers)%nat -> count <= read_counter st i wid)) as [Hb|Hrd].
  { destruct p as [| |rep count wid|]; [by right..| |by right].
    destruct (decide ((wid < nr_workers)%nat /\ read_counter st i wid < count)) as [[? ?]|Hn]; [left; by exists rep, count, wid|].
    right. intros ??? [= <- <- <-] Hl. destruct (decide (read_counter st i wid < count)); [by destruct Hn|lia]. }
  2: { destruct (worker_gets_on i p st Hi Hp Hne Hrd) as (st' & Hs & Hlt). exists st'. split; [by apply rtc_once|done]. }
  destruct Hb as (rep & count & wid & -> & Hl & Hrd).
  pose proof (ci_ok _ Hi i _ Hp) as [Hok _]. pose proof (ci_written _ Hi i _ Hp) as Hw. cbn in Hw.
  destruct (decide (counters st wid < count)) as [Hlow|Hhigh].
  - assert (is_Some (c_pcs st !! wid)) as [q Hq] by (apply lookup_lt_is_Some; rewrite (ci_len _ Hi); done).
    pose proof (ci_written _ Hi wid q Hq) as Hwq. pose proof (ci_ok _ Hi wid q Hq) as Hokq.
    apply (IH (Z.to_nat (written q))) with (i := wid) (p := q); try done.
    + cbn [written]. unfold last_count in Hok. lia.
    + intros ->. cbn in Hwq. unfold last_count in *. lia.
  - set (st1 := mk_cstate (counters st) (set_fn (copies st) i (set_fn (copies st i) wid (counters st wid))) (c_pcs st)).
    assert (cstep st st1) as Hs1 by (apply cstep_sync; pose proof (ci_copies _ Hi i wid Hl); lia).
    destruct (worker_gets_on i (CWait rep count wid) st1 (cinv_step _ _ Hi Hs1) Hp Hne) as (st2 & Hs2 & Hlt).
    { intros ??? [= <- <- <-] _. unfold read_counter, st1. cbn [counters copies]. destruct (decide (wid = i)); [lia|]. rewrite !set_fn_eq. lia. }
    exists st2. split; [eapply rtc_l; [exact Hs1|by apply rtc_once]|exact Hlt].
Qed.

(** C29: the workers cannot get stuck. From every state they can reach, all of
    them can finish, and then every counter is [count_to + 1]. *)
Theorem counters_can_finish st :
  rtc cstep cinit st ->
  exists m cs, rtc cstep st (mk_cstate m cs (replicate nr_workers CDone)) /\ forall i, (i < nr_workers)%nat -> m i = count_to + 1.
Proof.
  intros Hr. pose proof (cinv_reachable st Hr) as Hi. clear Hr.
  remember (Z.to_nat (total_c_work st)) as w eqn:Ew. revert st Hi Ew.
  induction w as [w IH] using lt_wf_ind. intros st Hi ->.
  destruct (decide (Forall (fun p => p = CDone) (c_pcs st))) as [Hall|Hsome].
  - assert (c_pcs st = replicate nr_workers CDone) as Epcs.
    { symmetry. rewrite <- (ci_len _ Hi). apply replicate_as_Forall. split; [done|]. eapply Forall_impl; [exact Hall|]. by intros p ->. }
    exists (counters st), (copies st). rewrite <- Epcs. split; [destruct st; apply rtc_refl|]. intros i Hlt.
    rewrite (ci_written _ Hi i CDone) by (rewrite Epcs; by apply lookup_replicate). cbn. unfold last_count. lia.
  - assert (exists i p, c_pcs st !! i = Some p /\ p <> CDone) as (i & p & Hp & Hne).
    { apply not_Forall_Exists in Hsome; [|solve_decision]. apply Exists_exists in Hsome as (p & Hin & Hne).
      apply list_elem_of_lookup in Hin as (i & Hp). by exists i, p. }
    destruct (someone_gets_on i p st Hi Hp Hne) as (st' & Hs & Hlt).
    assert (cinv st') as Hi' by (clear -Hi Hs Hto; induction Hs; [done|]; eauto using cinv_step).
    destruct (IH (Z.to_nat (total_c_work st'))) with (st := st') as (m & cs & Hr' & Hm); [|done..|].
    + assert (0 <= total_c_work st'); [|lia]. apply sum_of_nonneg. intros q Hq. apply list_elem_of_lookup in Hq as (j & Hq).
      by eapply c_work_nonneg, ci_ok.
    + exists m, cs. split; [by etrans|done].
Qed.
End counter.

(** Two workers that count to 1; the first waits for the second. *)
Definition one_ahead : cstate := mk_cstate (set_fn (fun _ => 0) 0 1) (fun _ _ => 0) [CWait 0 1 1; CRep 0].

Lemma one_ahead_reachable : rtc (cstep 2 1) (cinit 2) one_ahead.
Proof.
  eapply rtc_l; [eapply (cstep_worker 2 1 _ 0); reflexivity|]. eapply rtc_l; [eapply (cstep_worker 2 1 _ 0); reflexivity|].
  eapply rtc_l; [eapply (cstep_worker 2 1 _ 0); reflexivity|]. apply rtc_refl.
Qed.

Lemma counters_in_step_witness : counters one_ahead 0 <= counters one_ahead 1 + 1 /\ counters one_ahead 1 <= counters one_ahead 0 + 1.
Proof.
  destruct (counters_in_step 2 1 ltac:(lia) one_ahead one_ahead_reachable) as [H _]. split; apply H; lia.
Defined.

Lemma counters_can_finish_witness : exists m cs, rtc (cstep 2 1) one_ahead (mk_cstate m cs [CDone; CDone]) /\ forall i, (i < 2)%nat -> m i = 2.
Proof. apply (counters_can_finish 2 1 ltac:(lia) one_ahead one_ahead_reachable). Defined.
