(* ===== verification/Array.v ===== *)
(** * Array: the array with one copy per worker (include/tasvir/array.hpp)

    Each worker has an area with its version of the data; the area of worker 0
    is also the parent of all. [Barrier] is modelled as an interleaving: a
    worker reads its own area directly and the others through copies that the
    synchronization brings up to date. [ReduceAdd] works on the data of all
    workers, in which row 0 is both the parent's and worker 0's. *)
From stdpp Require Import base list numbers relations.
From Stdlib Require Import ZArith Lia.
From S2P Require Import Prelude Counter.

(** ** Barrier *)

(** Where a worker is: outside, waiting for [_workers[wid]], waiting for the
    parent. *)
Inductive apc := AWork | AWaitAll (wid : nat) | AWaitParent.

(** [_version] and [_version_done] of the workers, the copies worker 0 sees of
    the second and the other workers of the parent's first. *)
Record astate := mk_astate {
  a_version : nat -> Z; a_version_done : nat -> Z; seen_done : nat -> Z; seen_parent : nat -> Z; a_pcs : list apc;
}.

Section barrier.
(** [_nr_workers] of worker 0, and the workers there are. *)
Context (nr_workers n : nat).

(** [_parent->_version] and [_workers[wid]->_version_done] as worker [i], and
    worker 0, see them. *)
Definition parent_version (st : astate) (i : nat) : Z := if decide (i = 0)%nat then a_version st 0 else seen_parent st i.
Definition worker_done (st : astate) (wid : nat) : Z := if decide (wid = 0)%nat then a_version_done st 0 else seen_done st wid.

(** [Barrier] up to the next access to what others write. Versions count
    barriers and do not reach 2^64. *)
Definition array_step (i : nat) (p : apc) (st : astate) : apc * (nat -> Z) * (nat -> Z) :=
  let v := a_version st in
  let d := a_version_done st in
  match p with
  | AWork => (if decide (i = 0)%nat then AWaitAll 0 else AWaitParent, v, set_fn d i (v i))
  | AWaitAll wid =>
      if decide (wid < nr_workers)%nat then
        (if worker_done st wid =? parent_version st i then AWaitAll (wid + 1) else AWaitAll wid, v, d)
      else (AWaitParent, set_fn v 0%nat (v 0%nat + 1), set_fn d 0%nat (v 0%nat))
  | AWaitParent =>
      if d i =? parent_version st i then (AWaitParent, v, d) else (AWork, set_fn v i (parent_version st i), d)
  end.

Inductive astep : astate -> astate -> Prop :=
| astep_worker st i p p' v' d' :
    a_pcs st !! i = Some p -> array_step i p st = (p', v', d') ->
    astep st (mk_astate v' d' (seen_done st) (seen_parent st) (<[i := p']> (a_pcs st)))
| astep_sync_done st w x :
    seen_done st w <= x <= a_version_done st w ->
    astep st (mk_astate (a_version st) (a_version_done st) (set_fn (seen_done st) w x) (seen_parent st) (a_pcs st))
| astep_sync_parent st r x :
    seen_parent st r <= x <= a_version st 0 ->
    astep st (mk_astate (a_version st) (a_version_done st) (seen_done st) (set_fn (seen_parent st) r x) (a_pcs st)).

(** What [Allocate] sets. *)
Definition ainit : astate := mk_astate (fun _ => 1) (fun _ => 0) (fun _ => 0) (fun _ => 1) (replicate n AWork).

(** The barrier a worker has entered last. *)
Definition entered (i : nat) (p : apc) (v : Z) : Z :=
  match p with AWork => v - 1 | AWaitAll _ => v | AWaitParent => if decide (i = 0)%nat then v - 1 else v end.

Record ainv (st : astate) : Prop := {
  ai_len : length (a_pcs st) = n;
  ai_done i p : a_pcs st !! i = Some p -> a_version_done st i = entered i p (a_version st i);
  ai_pc i wid : a_pcs st !! i = Some (AWaitAll wid) -> i = 0%nat;
  ai_seen i : (0 < i < n)%nat -> a_version st i <= seen_parent st i <= a_version st 0;
  ai_copy w : (w < n)%nat -> seen_done st w <= a_version_done st w;
  ai_key j : (j < n)%nat -> a_version st 0 - 1 <= a_version_done st j;
  ai_all wid j : a_pcs st !! 0%nat = Some (AWaitAll wid) -> (j < wid)%nat -> (j < n)%nat -> a_version st 0 <= a_version_done st j;
}.

Lemma ainv_init : ainv ainit.
Proof.
  split; cbn [ainit a_pcs a_version a_version_done seen_done seen_parent]; try lia; [apply length_replicate|..].
  - by intros i p [-> _]%lookup_replicate.
  - by intros i wid [? _]%lookup_replicate.
  - by intros wid j [? _]%lookup_replicate.
Qed.

Section steps.
Context (Hnr : nr_workers = n).

Lemma ainv_enter st i :
  ainv st -> a_pcs st !! i = Some AWork ->
  ainv (mk_astate (a_version st) (set_fn (a_version_done st) i (a_version st i)) (seen_done st) (seen_parent st)
    (<[i := if decide (i = 0)%nat then AWaitAll 0 else AWaitParent]> (a_pcs st))).
Proof.
  intros [H1 H2 H3 H4 H5 H6 H7] Hi. pose proof (H2 i _ Hi) as Hd. cbn in Hd.
  assert (forall j, a_version_done st j <= set_fn (a_version_done st) i (a_version st i) j) as Hle
    by (intros j; unfold set_fn; destruct (decide (j = i)) as [->|]; lia).
  split; cbn [a_pcs a_version a_version_done seen_done seen_parent]; [by rewrite length_insert|..|done| | |].
  - intros j q [(<- & <- & _)|[Hne Hq]]%list_lookup_insert_Some; [rewrite set_fn_eq|rewrite set_fn_ne by done; by apply H2].
    destruct (decide (i = 0)%nat); cbn; [done|]. by rewrite decide_False.
  - intros j wid [(<- & E & _)|[Hne Hq]]%list_lookup_insert_Some; [by destruct (decide (i = 0)%nat)|by eapply H3].
  - intros w Hw. specialize (H5 w Hw). specialize (Hle w). lia.
  - intros j Hj. specialize (H6 j Hj). specialize (Hle j). lia.
  - intros wid j [(-> & E & _)|[Hne Hq]]%list_lookup_insert_Some Hj Hjn; [injection E as <-; lia|].
    specialize (H7 _ j Hq Hj Hjn). specialize (Hle j). lia.
Qed.

Lemma ainv_publish st wid :
  ainv st -> a_pcs st !! 0%nat = Some (AWaitAll wid) -> (n <= wid)%nat ->
  ainv (mk_astate (set_fn (a_version st) 0%nat (a_version st 0 + 1)) (set_fn (a_version_done st) 0%nat (a_version st 0)) (seen_done st) (seen_parent st)
    (<[0%nat := AWaitParent]> (a_pcs st))).
Proof.
  intros [H1 H2 H3 H4 H5 H6 H7] Hi Hw. pose proof (H2 _ _ Hi) as Hd. cbn in Hd.
  assert (forall j, set_fn (a_version_done st) 0%nat (a_version st 0) j = a_version_done st j) as Hsame
    by (intros j; unfold set_fn; destruct (decide (j = 0)%nat) as [->|]; lia).
  split; cbn [a_pcs a_version a_version_done seen_done seen_parent]; [by rewrite length_insert|..].
  - intros j q [(<- & <- & _)|[Hne Hq]]%list_lookup_insert_Some; rewrite Hsame; [rewrite set_fn_eq; cbn [entered]; rewrite decide_True by done; lia|].
    rewrite set_fn_ne by done. by apply H2.
  - intros j wid' [(<- & E & _)|[Hne Hq]]%list_lookup_insert_Some; [done|by eapply H3].
  - intros j Hj. rewrite set_fn_eq, set_fn_ne by lia. specialize (H4 j Hj). lia.
  - intros w Hw'. rewrite Hsame. by apply H5.
  - intros j Hj. rewrite set_fn_eq, Hsame. pose proof (H7 _ j Hi ltac:(lia) Hj). lia.
  - intros wid' j [(_ & E & _)|[Hne Hq]]%list_lookup_insert_Some; done.
Qed.

Lemma ainv_leave st i :
  ainv st -> a_pcs st !! i = Some AWaitParent -> a_version_done st i <> parent_version st i ->
  ainv (mk_astate (set_fn (a_version st) i (parent_version st i)) (a_version_done st) (seen_done st) (seen_parent st) (<[i := AWork]> (a_pcs st))).
Proof.
  intros [H1 H2 H3 H4 H5 H6 H7] Hi Hne. pose proof (H2 _ _ Hi) as Hd. cbn in Hd.
  assert (i < n)%nat as Hlt by (rewrite <- H1; by eapply lookup_lt_Some). pose proof (H6 i Hlt) as Hk.
  assert (parent_version st i = a_version_done st i + 1 /\ a_version st i <= parent_version st i <= a_version st 0) as [Hp Hr].
  { unfold parent_version in *. destruct (decide (i = 0)%nat) as [->|Hn0]; [lia|]. pose proof (H4 i ltac:(lia)). lia. }
  assert (set_fn (a_version st) i (parent_version st i) 0%nat = a_version st 0) as H0.
  { unfold set_fn, parent_version. by destruct (decide (0%nat = i)) as [<-|]. }
  split; cbn [a_pcs a_version a_version_done seen_done seen_parent]; rewrite ?H0; [by rewrite length_insert|..].
  - intros j q [(<- & <- & _)|[Hn Hq]]%list_lookup_insert_Some; [rewrite set_fn_eq; cbn; lia|rewrite set_fn_ne by done; by apply H2].
  - intros j wid [(<- & E & _)|[Hn Hq]]%list_lookup_insert_Some; [done|by eapply H3].
  - intros j Hj. destruct (decide (j = i)) as [->|Hn]; [rewrite set_fn_eq|rewrite set_fn_ne by done; by apply H4].
    unfold parent_version. rewrite decide_False by lia. pose proof (H4 i Hj). lia.
  - done.
  - done.
  - intros wid j [(-> & E & _)|[Hn Hq]]%list_lookup_insert_Some; [done|by eapply H7].
Qed.

Lemma ainv_step st st' : ainv st -> astep st st' -> ainv st'.
Proof.
  intros Hi Hs. destruct Hs as [st i p p' v' d' Hp E|st w x Hx|st r x Hx].
  - destruct p as [|wid|]; cbn [array_step] in E.
    + injection E as <- <- <-. by apply ainv_enter.
    + pose proof (ai_pc _ Hi i wid Hp) as ->. destruct (decide (wid < nr_workers)%nat) as [Hlt|Hge].
      2: { injection E as <- <- <-. apply (ainv_publish st wid); [done|done|lia]. }
      injection E as <- <- <-. destruct (Z.eqb_spec (worker_done st wid) (parent_version st 0)) as [Ew|Ew].
      2: { rewrite list_insert_id by done. by destruct st. }
      destruct Hi as [H1 H2 H3 H4 H5 H6 H7]. pose proof (H2 _ _ Hp) as Hd. cbn in Hd.
      split; cbn [a_pcs a_version a_version_done seen_done seen_parent]; try done; [by rewrite length_insert|..].
      * intros j q [(<- & <- & _)|[Hne Hq]]%list_lookup_insert_Some; [done|by apply H2].
      * intros j wid' [(<- & E & _)|[Hne Hq]]%list_lookup_insert_Some; [done|by eapply H3].
      * intros wid' j [(_ & E & _)|[Hne Hq]]%list_lookup_insert_Some Hj Hjn; [injection E as <-|done].
        destruct (decide (j = wid)) as [->|]; [|apply (H7 _ j Hp); lia]. unfold worker_done, parent_version in Ew.
        rewrite (decide_True (P := (0%nat = 0%nat))) in Ew by done. pose proof (H5 wid Hjn). destruct (decide (wid = 0)%nat) as [->|]; lia.
    + destruct (Z.eqb_spec (a_version_done st i) (parent_version st i)) as [Ed|Ed]; injection E as <- <- <-.
      * rewrite list_insert_id by done. by destruct st.
      * by apply ainv_leave.
  - destruct Hi as [H1 H2 H3 H4 H5 H6 H7]. split; cbn [a_pcs a_version a_version_done seen_done seen_parent]; try done.
    intros j Hj. unfold set_fn. destruct (decide (j = w)) as [->|]; [lia|by apply H5].
  - destruct Hi as [H1 H2 H3 H4 H5 H6 H7]. split; cbn [a_pcs a_version a_version_done seen_done seen_parent]; try done.
    intros j Hj. unfold set_fn. specialize (H4 j Hj). destruct (decide (j = r)) as [->|]; lia.
Qed.

Lemma ainv_reachable st : rtc astep ainit st -> ainv st.
Proof. revert st. apply rtc_ind_r; [apply ainv_init|]. intros ? ? _ Hs IH. by eapply ainv_step. Qed.
End steps.
End barrier.

(** [Barrier] is a barrier if worker 0 knows all workers. Whenever a worker
    has left the barrier of a version, every worker has entered it, however
    they interleave and however late their copies are. *)
Theorem array_barrier_agreement n st i j :
  rtc (astep n) (ainit n) st -> (i < n)%nat -> (j < n)%nat -> a_version st i - 1 <= a_version_done st j <= a_version st i + 1.
Proof.
  intros Hr Hi Hj. pose proof (ainv_reachable n n eq_refl st Hr) as Hinv.
  assert (forall k, (k < n)%nat -> a_version st k <= a_version st 0 /\ a_version_done st k <= a_version st k /\ a_version st k - 1 <= a_version_done st k) as Hb.
  { intros k Hk. split.
    - destruct (decide (k = 0)%nat) as [->|]; [lia|]. pose proof (ai_seen _ _ Hinv k ltac:(lia)). lia.
    - rewrite <- (ai_len _ _ Hinv) in Hk. apply lookup_lt_is_Some in Hk as [p Hp]. rewrite (ai_done _ _ Hinv k p Hp).
      destruct p; cbn; [lia|lia|destruct (decide _); lia]. }
  pose proof (ai_key _ _ Hinv j Hj). pose proof (ai_key _ _ Hinv i Hi). pose proof (Hb i Hi). pose proof (Hb j Hj). lia.
Qed.

Lemma array_barrier_agreement_witness :
  exists st, rtc (astep 2) (ainit 2) st /\ a_version_done st 0 = 1 /\ a_version st 1 - 1 <= a_version_done st 0 <= a_version st 1 + 1.
Proof.
  eexists. assert (rtc (astep 2) (ainit 2) _) as R by (eapply rtc_once, (astep_worker 2 (ainit 2) 0 AWork); reflexivity).
  split; [exact R|]. split; [reflexivity|]. apply (array_barrier_agreement 2 _ 1 0 R); lia.
Defined.

(** With the number that [Allocate] sets, 0, worker 0 waits for nobody: it may
    leave the first barrier before worker 1 has entered it. *)
Lemma array_barrier_alone : exists st, rtc (astep 0) (ainit 2) st /\ a_version st 0 = 2 /\ a_pcs st !! 0%nat = Some AWork /\ a_version_done st 1 = 0.
Proof.
  eexists. split.
  - eapply rtc_l; [eapply (astep_worker 0 _ 0); reflexivity|]. eapply rtc_l; [eapply (astep_worker 0 _ 0); reflexivity|].
    eapply rtc_l; [eapply (astep_worker 0 _ 0); reflexivity|]. apply rtc_refl.
  - done.
Qed.

(** ** Allocation *)

(** The fields [Allocate] writes. *)
Record array := mk_array { f_size : Z; f_nr_workers : Z; f_wid : Z; f_version : Z; f_version_done : Z; f_initialized : Z }.
#[export] Instance eta_array : Eta array := fun r =>
  mk_array (f_size r) (f_nr_workers r) (f_wid r) (f_version r) (f_version_done r) (f_initialized r).

Definition INITIALIZED : Z := 0xdeadbeef.

(** A new worker, on memory that holds [mem]. *)
Definition new_array (wid nr_elements : Z) (mem : array) : array :=
  mem <| f_size := nr_elements |> <| f_nr_workers := 0 |> <| f_wid := wid |> <| f_version := 1 |> <| f_version_done := 0 |>.

(** [while (...->_initialized != 0xdeadbeef) tasvir_service_wait(...)], with
    what each look shows. *)
Fixpoint wait_initialized {W} (fuel : nat) (look : nat -> array) : cmd W unit :=
  match fuel with
  | O => fail NoFuel
  | S fuel' => if f_initialized (look O) =? INITIALIZED then mret tt else wait_initialized fuel' (fun t => look (S t))
  end.

(** [Allocate] of worker 0 up to the copy of the pointers; worker 0 looks at
    its own area directly, at those of the others as [views] tells. *)
Definition Allocate0 (fuel : nat) (views : nat -> nat -> array) (nr_workers : nat) (nr_elements : Z) : cmd array unit :=
  modify (new_array 0 nr_elements);;
  for_each (seq 0 nr_workers) (fun i =>
    own ← getw;
    wait_initialized fuel (if decide (i = 0)%nat then (fun _ => own) else views i));;
  modify (fun a => a <| f_initialized := INITIALIZED |>).

(** Worker 0 waits for itself: on a new area, whose words are 0, [Allocate]
    never gets past the first worker. *)
Lemma wait_never {W} fuel (a : array) (w : W) : f_initialized a <> INITIALIZED -> wait_initialized fuel (fun _ => a) w = Fault NoFuel.
Proof.
  intros Ha. induction fuel as [|fuel IH]; [done|]. cbn [wait_initialized]. destruct (Z.eqb_spec (f_initialized a) INITIALIZED); [done|apply IH].
Qed.

Lemma Allocate0_blocks fuel views nr_workers nr_elements mem :
  (0 < nr_workers)%nat -> f_initialized mem <> INITIALIZED -> Allocate0 fuel views nr_workers nr_elements mem = Fault NoFuel.
Proof.
  intros Hn Hm. destruct nr_workers as [|m]; [lia|]. unfold Allocate0. rewrite (bind_runs _ _ _ _ _ (runs_modify _ _)). cbn [seq for_each].
  unfold mbind at 1, cmd_bind at 1. unfold mbind at 1, cmd_bind at 1. rewrite (bind_runs _ _ _ _ _ (runs_getw _)). rewrite decide_True by done. by rewrite wait_never.
Qed.

(** ** Reductions *)

Section reduce.
Context {T : Type} (add : T -> T -> T) (zero : T).

(** The data of all workers; row 0 is also the parent's. *)
Definition rows : Type := list (list T).

Definition get_data (w i : nat) : cmd rows T :=
  D ← getw; match D !! w ≫= (fun r => r !! i) with Some x => mret x | None => fail OutOfBounds end.

Definition set_parent (i : nat) (x : T) : cmd rows unit :=
  _ ← get_data 0 i; modify (fun D => alter (fun r => <[i := x]> r) 0%nat D).

(** [ReduceAdd] of worker [wid] *)
Definition add_worker (size w : nat) : cmd rows unit :=
  for_each (seq 0 size) (fun i => x ← get_data 0 i; y ← get_data w i; set_parent i (add x y)).

Definition ReduceAdd (wid nr_workers size : nat) : cmd rows unit :=
  if decide (wid <> 0)%nat then mret tt
  else
    for_each (seq 0 size) (fun i => set_parent i zero);;
    for_each (seq 0 nr_workers) (add_worker size).

Lemma get_data_runs (D : rows) w r i x : D !! w = Some r -> r !! i = Some x -> runs (get_data w i) D x D.
Proof. intros Hw Hi. unfold runs, get_data. rewrite (bind_runs _ _ _ _ _ (runs_getw _)), Hw. cbn. by rewrite Hi. Qed.

Lemma set_parent_runs (P : list T) (R : rows) i x : (i < length P)%nat -> runs (set_parent i x) (P :: R) tt (<[i := x]> P :: R).
Proof.
  intros Hi. destruct (lookup_lt_is_Some_2 P i Hi) as [y Hy]. unfold runs, set_parent.
  by rewrite (bind_runs _ _ _ _ _ (get_data_runs (P :: R) 0 P i y eq_refl Hy)).
Qed.

(** A loop that sets every element of the parent, from the one it replaces. *)
Lemma set_all size (body : nat -> cmd rows unit) (f : nat -> T) P R :
  length P = size ->
  (forall i Q, length Q = size -> (i < size)%nat -> (forall j, (i <= j)%nat -> Q !! j = P !! j) -> runs (body i) (Q :: R) tt (<[i := f i]> Q :: R)) ->
  runs (for_each (seq 0 size) body) (P :: R) tt ((f <$> seq 0 size) :: R).
Proof.
  intros HP Hbody. destruct (for_each_inv (fun l D => exists m Q, (m <= size)%nat /\ l = seq m (size - m) /\ D = Q :: R /\ length Q = size
      /\ (forall j, (j < m)%nat -> Q !! j = Some (f j)) /\ (forall j, (m <= j)%nat -> Q !! j = P !! j)) body (seq 0 size) (P :: R))
    as (D & Hr & m & Q & Hm & E & -> & HQ & Hlow & _).
  - exists 0%nat, P. rewrite Nat.sub_0_r. repeat split; try done; lia.
  - intros i l D (m & Q & Hm & E & -> & HQ & Hlow & Hhigh). destruct (size - m)%nat as [|k] eqn:Ek; [done|]. injection E as -> ->.
    exists (<[m := f m]> Q :: R). split; [apply Hbody; [done|lia|done]|]. exists (S m), (<[m := f m]> Q). split; [lia|]. split; [f_equal; lia|].
    split; [done|]. split; [by rewrite length_insert|]. split; intros j Hj.
    + destruct (decide (j = m)) as [->|]; [apply list_lookup_insert_eq; lia|]. rewrite list_lookup_insert_ne by done. apply Hlow. lia.
    + rewrite list_lookup_insert_ne by lia. apply Hhigh. lia.
  - assert (m = size) as -> by (apply (f_equal length) in E; rewrite length_seq in E; cbn in E; lia).
    replace (f <$> seq 0 size) with Q; [exact Hr|]. apply list_eq. intros j. rewrite list_lookup_fmap. destruct (decide (j < size)%nat).
    + rewrite lookup_seq_lt by done. by apply Hlow.
    + rewrite !lookup_ge_None_2; [done|rewrite length_seq; lia|lia].
Qed.

Lemma add_worker_runs size w P R r :
  length P = size -> (P :: R) !! w = Some r -> length r = size -> runs (add_worker size w) (P :: R) tt (zip_with add P r :: R).
Proof.
  intros HP Hw Hr. assert (zip_with add P r = (fun i => default zero (zip_with add P r !! i)) <$> seq 0 size) as ->.
  { apply list_eq. intros j. rewrite list_lookup_fmap. destruct (decide (j < size)%nat) as [Hj|Hj].
    - rewrite lookup_seq_lt by done. cbn. destruct (lookup_lt_is_Some_2 (zip_with add P r) j) as [x ->]; [rewrite length_zip_with; lia|done].
    - rewrite !lookup_ge_None_2; [done|rewrite length_seq; lia|rewrite length_zip_with; lia]. }
  unfold add_worker. apply (set_all size _ _ P R HP). intros i Q HQ Hi Hrest.
  destruct (lookup_lt_is_Some_2 P i) as [x Hx]; [lia|]. destruct (lookup_lt_is_Some_2 r i) as [y Hy]; [lia|].
  pose proof (Hrest i ltac:(lia)) as HQi. rewrite Hx in HQi. unfold runs. rewrite (bind_runs _ _ _ _ _ (get_data_runs (Q :: R) 0 Q i x eq_refl HQi)).
  assert (runs (get_data w i) (Q :: R) y (Q :: R)) as R2.
  { destruct w as [|w]; [|by eapply (get_data_runs (Q :: R) (S w) r)]. injection Hw as ->.
    apply (get_data_runs (Q :: R) 0 Q i y eq_refl). congruence. }
  rewrite (bind_runs _ _ _ _ _ R2). rewrite lookup_zip_with, Hx, Hy. cbn. apply set_parent_runs. lia.
Qed.

(** The data of worker 0 is the parent's, which is cleared first: the sum is
    that of the other workers, and nothing if worker 0 knows of no worker. *)
Lemma ReduceAdd_sums size P R :
  add zero zero = zero -> length P = size -> Forall (fun r => length r = size) R ->
  runs (ReduceAdd 0 (S (length R)) size) (P :: R) tt (foldl (zip_with add) (replicate size zero) R :: R)
  /\ runs (ReduceAdd 0 0 size) (P :: R) tt (replicate size zero :: R).
Proof.
  intros Hz HP HR. set (Z0 := replicate size zero). assert (length Z0 = size) as HZ by apply length_replicate.
  assert (runs (for_each (seq 0 size) (fun i => set_parent i zero)) (P :: R) tt (Z0 :: R)) as R1.
  { replace Z0 with ((fun _ => zero) <$> seq 0 size); [|unfold Z0; clear; generalize 0%nat; induction size as [|k IH]; intros j; [done|cbn; by rewrite IH]].
    apply (set_all size _ _ P R HP). intros i Q HQ Hi _. apply set_parent_runs. lia. }
  unfold runs, ReduceAdd. rewrite !decide_False by tauto. rewrite !(bind_runs _ _ _ _ _ R1). split; [|done].
  cbn [seq for_each]. assert (runs (add_worker size 0) (Z0 :: R) tt (Z0 :: R)) as R2.
  { pose proof (add_worker_runs size 0 Z0 R Z0 HZ eq_refl HZ) as H. replace (zip_with add Z0 Z0) with Z0 in H; [done|].
    unfold Z0. clear -Hz. induction size as [|k IH]; [done|]. cbn. by rewrite Hz, <- IH. }
  rewrite (bind_runs _ _ _ _ _ R2). clear R1 R2 HP P.
  assert (forall k Q, length Q = size -> (k <= length R)%nat ->
    runs (for_each (seq (S k) (length R - k)) (add_worker size)) (Q :: R) tt (foldl (zip_with add) Q (drop k R) :: R)) as H.
  { intros k Q. remember (length R - k)%nat as m eqn:Em. revert k Q Em. induction m as [|m IH]; intros k Q Em HQ Hk.
    - rewrite drop_ge by lia. done.
    - destruct (lookup_lt_is_Some_2 R k) as [r Hr]; [lia|]. rewrite (drop_S _ _ _ Hr). cbn [seq for_each foldl].
      pose proof (Forall_lookup_1 _ _ _ _ HR Hr) as Hlr. cbn beta in Hlr. unfold runs. rewrite (bind_runs _ _ _ _ _ (add_worker_runs size (S k) Q R r HQ Hr Hlr)).
      apply IH; [lia|rewrite length_zip_with; lia|lia]. }
  specialize (H 0%nat Z0 HZ ltac:(lia)). rewrite Nat.sub_0_r in H. exact H.
Qed.

(** [std::copy(&from[c0], &from[c1], &to[c0])] over a list of ranges *)
Definition copy_ranges (ranges : list (nat * nat)) (from to : list T) : list T :=
  foldl (fun to c => take c.1 to ++ drop c.1 (take c.2 from) ++ drop (Nat.max c.1 c.2) to) to ranges.

Definition ReduceSelect (ranges : list (nat * nat)) (data parent : list T) : list T := copy_ranges ranges data parent.
Definition CopySelect (ranges : list (nat * nat)) (data parent : list T) : list T := copy_ranges ranges parent data.

(** Elements in one of the ranges are copied, the others stay. *)
Lemma copy_ranges_lookup ranges from to i :
  length from = length to -> Forall (fun c => c.1 <= c.2 <= length to)%nat ranges ->
  copy_ranges ranges from to !! i = if decide (Exists (fun c => c.1 <= i < c.2)%nat ranges) then from !! i else to !! i.
Proof.
  revert to. induction ranges as [|[a b] ranges IH]; intros to Hl Hr; [by rewrite decide_False by (intros HE; inversion HE)|].
  apply list.Forall_cons in Hr as [Hab Hr]. cbn [fst snd] in Hab. cbn [copy_ranges foldl fst snd].
  set (to' := take a to ++ drop a (take b from) ++ drop (Nat.max a b) to).
  assert (length to' = length to) as Hl' by (unfold to'; rewrite !length_app, !length_drop, !length_take; lia).
  assert (to' !! i = if decide (a <= i < b)%nat then from !! i else to !! i) as Ht.
  { unfold to'. destruct (decide (i < a)%nat) as [Hi|Hi].
    - rewrite decide_False by lia. rewrite lookup_app_l by (rewrite length_take; lia). by apply lookup_take_lt.
    - rewrite lookup_app_r by (rewrite length_take; lia). rewrite length_take, Nat.min_l by lia. destruct (decide (a <= i < b)%nat) as [Hb|Hb].
      + rewrite lookup_app_l by (rewrite length_drop, length_take; lia). rewrite lookup_drop. replace (a + (i - a))%nat with i by lia. apply lookup_take_lt; lia.
      + rewrite lookup_app_r by (rewrite length_drop, length_take; lia). rewrite length_drop, length_take, lookup_drop. f_equal. lia. }
  change (copy_ranges ranges from to' !! i = if decide (Exists (fun c => c.1 <= i < c.2)%nat ((a, b) :: ranges)) then from !! i else to !! i).
  rewrite IH by (rewrite ?Hl'; done). rewrite Ht.
  destruct (decide (Exists (fun c => c.1 <= i < c.2)%nat ranges)) as [He|He].
  - rewrite decide_True; [done|]. by apply Exists_cons_tl.
  - destruct (decide (a <= i < b)%nat) as [Hi|Hi]; [rewrite decide_True; [done|by apply Exists_cons_hd]|].
    rewrite decide_False; [done|]. intros HE. by inversion HE.
Qed.
End reduce.
