(* ===== verification/Monitor.v ===== *)
(** * Monitor: connection and asset tracking (apps/monitor)

    Each monitor counts the packets it sees, per flow and per host, in two
    cuckoo tables of its own area; a controller merges the tables of all
    monitors into global ones. The table is the one of [Cuckoo]: monitor's
    cuckoo_map_lock.h reports the stack differently when it is cleared and
    leaves out a comparison of keys in [Insert] that never fails.

    Times are [double]s in the code; here they are any type [T] with a zero and
    a comparison. [std::hash<unsigned int>] is the identity. *)
From stdpp Require Import base gmap list numbers countable.
From Stdlib Require Import ZArith Lia.
From S2P Require Import Prelude Cuckoo.

(** What the code uses of [double]. *)
Class Time (T : Type) := { time0 : T; time_lt : T -> T -> bool }.

Definition fast_random (seed : Z) : Z * Z :=
  let seed := u64 (seed * 1103515245 + 12345) in (Z.shiftr seed 32, seed).

(** ** Flows (flowid.h) *)

Record FlowId := mk_flow { src_ip : Z; dst_ip : Z; src_port : Z; dst_port : Z; protocol : Z }.
#[export] Instance FlowId_eq_dec : EqDecision FlowId.
Proof. solve_decision. Defined.
#[export] Instance FlowId_countable : Countable FlowId.
Proof.
  refine (inj_countable' (fun f => (src_ip f, dst_ip f, src_port f, dst_port f, protocol f))
    (fun '(a, b, c, d, e) => mk_flow a b c d e) _). by intros [].
Defined.

Definition combine (hash val : Z) : Z :=
  Z.lxor hash (u64 (val + 0x9e3779b9 + u64 (Z.shiftl hash 6) + Z.shiftr hash 2)).

Definition FlowHash (id : FlowId) : Z :=
  u32 (combine (combine (combine (combine (combine 0 (src_ip id)) (dst_ip id)) (src_port id)) (dst_port id)) (protocol id)).

Definition EqualTo (id1 id2 : FlowId) : bool :=
  let ips := (src_ip id1 =? src_ip id2) && (dst_ip id1 =? dst_ip id2) in
  let ports := (src_port id1 =? src_port id2) && (dst_port id1 =? dst_port id2) in
  (ips && ports) && (protocol id1 =? protocol id2).

(** ** Connections (connection.h) *)

Record Connection (T : Type) := mk_conn {
  s_ip : Z; d_ip : Z; s_port : Z; d_port : Z;
  start_time : T; last_pkt_time : T;
  s_total_pkts : Z; s_total_bytes : Z; d_total_pkts : Z; d_total_bytes : Z;
}.
Arguments mk_conn {T}.
Arguments s_ip {T}.
Arguments d_ip {T}.
Arguments s_port {T}.
Arguments d_port {T}.
Arguments start_time {T}.
Arguments last_pkt_time {T}.
Arguments s_total_pkts {T}.
Arguments s_total_bytes {T}.
Arguments d_total_pkts {T}.
Arguments d_total_bytes {T}.
#[export] Instance eta_Connection T : Eta (Connection T) := fun r =>
  mk_conn (s_ip r) (d_ip r) (s_port r) (d_port r) (start_time r) (last_pkt_time r)
    (s_total_pkts r) (s_total_bytes r) (d_total_pkts r) (d_total_bytes r).

(** ** Assets (asset.h) *)

Definition PRADS_SERVICE_CNT : Z := 10.
Definition PRADS_OS_CNT : Z := 4.

Record OsAsset (T : Type) := mk_os { o_sigidx : Z; o_first_seen : T; o_last_seen : T; o_detected_count : Z }.
Arguments mk_os {T}.
Arguments o_sigidx {T}.
Arguments o_first_seen {T}.
Arguments o_last_seen {T}.
Arguments o_detected_count {T}.
#[export] Instance eta_OsAsset T : Eta (OsAsset T) := fun r => mk_os (o_sigidx r) (o_first_seen r) (o_last_seen r) (o_detected_count r).

Record ServiceAsset (T : Type) := mk_service {
  v_sigidx : Z; v_first_seen : T; v_last_seen : T; v_detected_count : Z; v_port : Z; v_proto : Z;
}.
Arguments mk_service {T}.
Arguments v_sigidx {T}.
Arguments v_first_seen {T}.
Arguments v_last_seen {T}.
Arguments v_detected_count {T}.
Arguments v_port {T}.
Arguments v_proto {T}.
#[export] Instance eta_ServiceAsset T : Eta (ServiceAsset T) := fun r =>
  mk_service (v_sigidx r) (v_first_seen r) (v_last_seen r) (v_detected_count r) (v_port r) (v_proto r).

Record Asset (T : Type) := mk_asset {
  ip_addr : Z; first_seen : T; last_seen : T; detected_count : Z;
  oasset : list (OsAsset T); sasset : list (ServiceAsset T);
}.
Arguments mk_asset {T}.
Arguments ip_addr {T}.
Arguments first_seen {T}.
Arguments last_seen {T}.
Arguments detected_count {T}.
Arguments oasset {T}.
Arguments sasset {T}.
#[export] Instance eta_Asset T : Eta (Asset T) := fun r =>
  mk_asset (ip_addr r) (first_seen r) (last_seen r) (detected_count r) (oasset r) (sasset r).

(** The bytes of the key, lowest first. *)
Definition hash_byte (id hash i : Z) : Z :=
  let hash := u32 (hash + Z.land (Z.shiftr id (8 * i)) 255) in
  let hash := u32 (hash + Z.shiftl hash 10) in
  Z.lxor hash (Z.shiftr hash 6).

Definition IntHash (id : Z) : Z :=
  let hash := foldl (hash_byte id) 0 [0; 1; 2; 3] in
  let hash := u32 (hash + Z.shiftl hash 3) in
  let hash := Z.lxor hash (Z.shiftr hash 11) in
  u32 (hash + Z.shiftl hash 15).

(** ** Statistics (network_stat.h) *)

Record network_stat := mk_stat {
  got_packets : Z; eth_recv : Z; arp_recv : Z; otherl_recv : Z; vlan_recv : Z; ip4_recv : Z; ip6_recv : Z;
  ip4ip_recv : Z; ip6ip_recv : Z; gre_recv : Z; tcp_recv : Z; udp_recv : Z; icmp_recv : Z; othert_recv : Z;
  assets : Z; tcp_os_assets : Z; udp_os_assets : Z; icmp_os_assets : Z; dhcp_os_assets : Z; tcp_services : Z;
  tcp_clients : Z; udp_services : Z; udp_clients : Z;
}.
#[export] Instance eta_network_stat : Eta network_stat := fun r =>
  mk_stat (got_packets r) (eth_recv r) (arp_recv r) (otherl_recv r) (vlan_recv r) (ip4_recv r) (ip6_recv r) (ip4ip_recv r)
    (ip6ip_recv r) (gre_recv r) (tcp_recv r) (udp_recv r) (icmp_recv r) (othert_recv r) (assets r) (tcp_os_assets r)
    (udp_os_assets r) (icmp_os_assets r) (dhcp_os_assets r) (tcp_services r) (tcp_clients r) (udp_services r)
    (udp_clients r).

Section monitor.
Context {T : Type} `{Time T}.

Definition MIN (a b : T) : T := if time_lt a b then a else b.
Definition MAX (a b : T) : T := if time_lt b a then a else b.

(** [{0}] *)
Definition conn0 : Connection T := mk_conn 0 0 0 0 time0 time0 0 0 0 0.
Definition os0 : OsAsset T := mk_os 0 time0 time0 0.
Definition service0 : ServiceAsset T := mk_service 0 time0 time0 0 0 0.
Definition asset0 : Asset T :=
  mk_asset 0 time0 time0 0 (replicate (Z.to_nat PRADS_OS_CNT) os0) (replicate (Z.to_nat PRADS_SERVICE_CNT) service0).

(** [CuckooMap<FlowId, Connection, Hash, EqualTo>]; an entry begins with [src_ip]. *)
#[export] Instance conn_types : CuckooTypes FlowId (Connection T) := {
  hasher := FlowHash; equal := EqualTo; differ a b := negb (EqualTo a b); key0 := mk_flow 0 0 0 0 0; value0 := conn0;
  word0 := src_ip; set_word0 i id := mk_flow i (dst_ip id) (src_port id) (dst_port id) (protocol id); sizeof_Entry := 80;
}.

(** [CuckooMap<uint32_t, Asset, IntHash>] *)
#[export] Instance asset_types : CuckooTypes Z (Asset T) := {
  hasher := IntHash; equal := Z.eqb; differ a b := negb (a =? b); key0 := 0; value0 := asset0;
  word0 k := k; set_word0 i _ := i; sizeof_Entry := 488;
}.

Abbreviation ConnectionTable := (CuckooMap FlowId (Connection T)).
Abbreviation AssetTable := (CuckooMap Z (Asset T)).

(** ** Merging *)

Definition aggregate_connection (a b : Connection T) : Connection T :=
  a <| start_time := MIN (start_time a) (start_time b) |>
    <| last_pkt_time := MAX (last_pkt_time a) (last_pkt_time b) |>
    <| s_total_pkts := u64 (s_total_pkts a + s_total_pkts b) |>
    <| s_total_bytes := u64 (s_total_bytes a + s_total_bytes b) |>
    <| d_total_pkts := u64 (d_total_pkts a + d_total_pkts b) |>
    <| d_total_bytes := u64 (d_total_bytes a + d_total_bytes b) |>.

Definition aggregate_os (a b : OsAsset T) : OsAsset T :=
  if negb (o_detected_count a =? 0) && negb (o_detected_count b =? 0) then
    a <| o_first_seen := MIN (o_first_seen a) (o_first_seen b) |>
      <| o_last_seen := MAX (o_last_seen a) (o_last_seen b) |>
      <| o_detected_count := u32 (o_detected_count a + o_detected_count b) |>
  else if negb (o_detected_count b =? 0) then b else a.

Definition aggregate_service (a b : ServiceAsset T) : ServiceAsset T :=
  if negb (v_detected_count a =? 0) && negb (v_detected_count b =? 0) then
    a <| v_first_seen := MIN (v_first_seen a) (v_first_seen b) |>
      <| v_last_seen := MAX (v_last_seen a) (v_last_seen b) |>
      <| v_detected_count := u32 (v_detected_count a + v_detected_count b) |>
  else if negb (v_detected_count b =? 0) then b else a.

Definition aggregate_asset (a b : Asset T) : Asset T :=
  a <| first_seen := MIN (first_seen a) (first_seen b) |>
    <| last_seen := MAX (last_seen a) (last_seen b) |>
    <| detected_count := u32 (detected_count a + detected_count b) |>
    <| oasset := zip_with aggregate_os (oasset a) (oasset b) |>
    <| sasset := zip_with aggregate_service (sasset a) (sasset b) |>.

(** ** Packets (monitor.cpp) *)

(** The header fields the code reads; the ports are those of the TCP header
    behind the IP header. *)
Record packet := mk_packet {
  ether_type : Z; next_proto_id : Z; src_addr : Z; dst_addr : Z; tcp_src : Z; tcp_dst : Z; buf_len : Z;
}.

(** A change of [entry->second] through the pointer; nothing is reported. *)
Definition modify_value {K V} `{CuckooTypes K V} (idx : Z) (f : V -> V) : cmd (CuckooMap K V) unit :=
  e ← get_entry idx; set_entry idx (mk_entry (first e) (f (second e))).

Definition flow_of (p : packet) : FlowId :=
  if src_addr p <? dst_addr p then mk_flow (src_addr p) (dst_addr p) (tcp_src p) (tcp_dst p) 0
  else mk_flow (src_addr p) (dst_addr p) (tcp_src p) (tcp_dst p) 0.

Definition open_conn (p : packet) (from_server : bool) (now : T) (c : Connection T) : Connection T :=
  (if from_server then c <| s_ip := src_addr p |> <| d_ip := dst_addr p |> <| s_port := tcp_src p |> <| d_port := tcp_dst p |>
   else c <| s_ip := dst_addr p |> <| d_ip := src_addr p |> <| s_port := tcp_dst p |> <| d_port := tcp_src p |>)
  <| start_time := now |>.

Definition count_packet (from_server : bool) (len : Z) (now : T) (c : Connection T) : Connection T :=
  let c := c <| last_pkt_time := now |> in
  if from_server then c <| s_total_pkts := u64 (s_total_pkts c + 1) |> <| s_total_bytes := u64 (s_total_bytes c + len) |>
  else c <| d_total_pkts := u64 (d_total_pkts c + 1) |> <| d_total_bytes := u64 (d_total_bytes c + len) |>.

Definition update_connection (fuel : nat) (p : packet) (now : T) (random : Z) : cmd ConnectionTable unit :=
  let from_server := src_addr p <? dst_addr p in
  let fid := flow_of p in
  entry ← Find fid;
  idx ← match entry with
        | None =>
            entry ← Insert fuel fid conn0;
            match entry with
            | None => fail Segv
            | Some idx => modify_value idx (open_conn p from_server now);; mret idx
            end
        | Some idx => mret idx
        end;
  modify_value idx (count_packet from_server (buf_len p) now);;
  if random mod 100 =? 0 then _ ← Remove fid; mret tt else mret tt.

Definition update_os (now : T) (seed : Z) (a : Asset T) : Asset T * Z :=
  let '(r, seed) := fast_random seed in
  let os_id := r mod PRADS_OS_CNT in
  (a <| oasset := alter (fun os =>
        let os := if o_detected_count os =? 0 then os <| o_sigidx := os_id |> <| o_first_seen := now |> else os in
        os <| o_last_seen := now |> <| o_detected_count := u32 (o_detected_count os + 1) |>) (Z.to_nat os_id) (oasset a) |>, seed).

Definition IPPROTO_TCP : Z := 6.
Definition IPPROTO_UDP : Z := 17.

(** The port is drawn only for a service not seen before. *)
Definition update_service (now : T) (seed : Z) (a : Asset T) : Asset T * Z :=
  let '(r, seed) := fast_random seed in
  let service_id := r mod PRADS_SERVICE_CNT in
  let known := default service0 (sasset a !! Z.to_nat service_id) in
  let '(service, seed) :=
    if v_detected_count known =? 0 then
      let '(port, seed) := fast_random seed in
      (known <| v_sigidx := service_id |> <| v_first_seen := now |> <| v_port := port mod 65536 |> <| v_proto := IPPROTO_TCP |>, seed)
    else (known, seed) in
  (a <| sasset := <[Z.to_nat service_id :=
        service <| v_last_seen := now |> <| v_detected_count := u32 (v_detected_count service + 1) |>]> (sasset a) |>, seed).

(** [Find] or [Insert] the host, and count it; returns the pointer. *)
Definition touch_asset (fuel : nat) (addr : Z) (now : T) : cmd AssetTable Z :=
  entry ← Find addr;
  entry ← match entry with
          | None => Insert fuel addr (asset0 <| ip_addr := addr |> <| first_seen := now |>)
          | Some idx => mret (Some idx)
          end;
  match entry with
  | None => fail Segv
  | Some idx =>
      modify_value idx (fun a => a <| last_seen := now |> <| detected_count := u32 (detected_count a + 1) |>);;
      mret idx
  end.

(** A change through the pointer that also draws random numbers. *)
Definition modify_drawing (idx : Z) (f : Z -> Asset T -> Asset T * Z) (seed : Z) : cmd AssetTable Z :=
  e ← get_entry idx;
  let '(a, seed) := f seed (second e) in
  set_entry idx (mk_entry (first e) a);;
  mret seed.

Definition update_asset (fuel : nat) (p : packet) (now : T) (random seed : Z) : cmd AssetTable Z :=
  src ← touch_asset fuel (src_addr p) now;
  dst ← touch_asset fuel (dst_addr p) now;
  seed ← modify_drawing src (update_os now) seed;
  seed ← modify_drawing src (update_service now) seed;
  seed ← modify_drawing dst (update_os now) seed;
  seed ← modify_drawing dst (update_service now) seed;
  if random mod 10000 =? 0 then _ ← Remove (src_addr p); _ ← Remove (dst_addr p); mret seed else mret seed.

(** What a monitor works on, with the static variable of [fast_random]. *)
Record monitor_results := mk_results { stat : network_stat; asset_table : AssetTable; conn_table : ConnectionTable; rnd_seed : Z }.
#[export] Instance eta_monitor_results : Eta monitor_results := fun r =>
  mk_results (stat r) (asset_table r) (conn_table r) (rnd_seed r).

Definition on_conn {A} (c : cmd ConnectionTable A) : cmd monitor_results A := fun w =>
  match c (conn_table w) with Done (a, t) => Done (a, w <| conn_table := t |>) | Fault f => Fault f end.
Definition on_asset {A} (c : cmd AssetTable A) : cmd monitor_results A := fun w =>
  match c (asset_table w) with Done (a, t) => Done (a, w <| asset_table := t |>) | Fault f => Fault f end.

Definition monitor_tcp (fuel : nat) (p : packet) (now : T) : cmd monitor_results unit :=
  seed ← gets rnd_seed;
  let '(random, seed) := fast_random seed in
  on_conn (update_connection fuel p now random);;
  seed ← on_asset (update_asset fuel p now random seed);
  modify (fun w => w <| rnd_seed := seed |>).

Definition on_stat (f : network_stat -> network_stat) : cmd monitor_results unit := modify (fun w => w <| stat := f (stat w) |>).

(** [rte_cpu_to_be_16(ETHER_TYPE_IPv4)] *)
Definition ETHER_TYPE_IPv4_be : Z := 0x0008.

Definition monitor_packet (fuel : nat) (p : packet) (now : T) : cmd monitor_results unit :=
  on_stat (fun st => st <| got_packets := u32 (got_packets st + 1) |>);;
  on_stat (fun st => st <| eth_recv := u32 (eth_recv st + 1) |>);;
  if negb (ether_type p =? ETHER_TYPE_IPv4_be) then mret tt
  else
    on_stat (fun st => st <| ip4_recv := u32 (ip4_recv st + 1) |>);;
    if next_proto_id p =? IPPROTO_UDP then on_stat (fun st => st <| udp_recv := u32 (udp_recv st + 1) |>)
    else if next_proto_id p =? IPPROTO_TCP then
      on_stat (fun st => st <| tcp_recv := u32 (tcp_recv st + 1) |>);;
      monitor_tcp fuel p now
    else mret tt.
End monitor.

(** ** The controller (main.cpp) *)

Section merge.
Context {K V : Type} `{CuckooTypes K V} (aggregate : V -> V -> V).

Definition merge_entry (fuel : nat) (e : Entry K V) : cmd (CuckooMap K V) unit :=
  global ← Find (first e);
  match global with
  | Some idx => modify_value idx (fun g => aggregate g (second e))
  | None => _ ← Insert fuel (first e) (second e); mret tt
  end.

(** One local table, which the loop only reads. *)
Definition merge_table (fuel : nat) (local : CuckooMap K V) : cmd (CuckooMap K V) unit := fun w =>
  match range_for fuel local with
  | Done (es, _) => for_each es (merge_entry fuel) w
  | Fault f => Fault f
  end.

Definition merge_tables (fuel : nat) (locals : list (CuckooMap K V)) : cmd (CuckooMap K V) unit :=
  for_each locals (merge_table fuel).
End merge.
