(* ===== verification/MonitorProofs.v ===== *)
(** * MonitorProofs: the monitor's tables as finite maps

    [update_connection] and [update_asset] against updates of the map a table
    stands for, and the merge of the controller. *)
From stdpp Require Import base gmap list numbers.
From Stdlib Require Import ZArith Lia.
From S2P Require Import Prelude Cuckoo CuckooSlots CuckooSpace CuckooProofs CuckooOps CuckooCreate CuckooTable CuckooIter Monitor.

Lemma EqualTo_spec a b : EqualTo a b = true <-> a = b.
Proof.
  unfold EqualTo. rewrite !andb_true_iff, !Z.eqb_eq. destruct a, b; cbn. split; [intros (((-> & ->) & -> & ->) & ->); done|by intros [=]].
Qed.

#[export] Instance conn_laws {T} `{Time T} : CuckooLaws FlowId (Connection T).
Proof.
  constructor; cbn; [apply EqualTo_spec| |done|done]. intros a b.
  rewrite negb_true_iff, <- not_true_iff_false. by rewrite EqualTo_spec.
Qed.

#[export] Instance asset_laws {T} `{Time T} : CuckooLaws Z (Asset T).
Proof.
  constructor; cbn; [apply Z.eqb_eq| |done|done]. intros a b. rewrite negb_true_iff. apply Z.eqb_neq.
Qed.

(** ** Writing through a pointer to an entry *)

Section pointers.
Context {K V : Type} `{Countable K, !CuckooTypes K V, !CuckooLaws K V}.
Implicit Types s : CuckooMap K V.

Lemma rep_marks s nb n S P F ms : cuckoo_rep (s <| marks := ms |>) nb n S P F -> cuckoo_rep s nb n S P F.
Proof. intros [[] ? ? ? ? ? ? ? ?]. constructor; try done. Qed.

Lemma finds_some s nb n M k x : is_map s nb n M -> finds s k x -> exists v, M !! k = Some v.
Proof.
  intros (S & P & F & Hr & <-) [Ex _]%(runs_det _ _ _ _ _ _ (Find_runs _ _ _ _ _ _ Hr k)).
  destruct (cr_entries _ _ _ _ _ _ Hr k x Ex) as (_ & v & E). exists v. rewrite contents_lookup, Ex. cbn. by rewrite E.
Qed.

(** A store to the value of the entry of [k] updates the map and leaves all
    pointers valid; nothing is reported. *)
Lemma map_store s nb n M k v0 v x :
  is_map s nb n M -> M !! k = Some v0 -> finds s k x ->
  entry_mem s !! Z.to_nat x = Some (mk_entry k v0)
  /\ exists s', runs (set_entry x (mk_entry k v)) s tt s' /\ is_map s' nb n (<[k := v]> M) /\ marks s' = marks s
       /\ forall k' y, finds s k' y -> finds s' k' y.
Proof.
  intros (S & P & F & Hr & <-) Hk [Ex _]%(runs_det _ _ _ _ _ _ (Find_runs _ _ _ _ _ _ Hr k)).
  destruct (cr_entries _ _ _ _ _ _ Hr k x Ex) as (_ & v1 & E). rewrite contents_lookup, Ex in Hk. cbn in Hk. rewrite E in Hk. injection Hk as ->.
  split; [done|]. destruct (update_rep s nb n S P F k x v Hr Ex) as (Hr' & Hc & _). apply rep_marks in Hr'.
  eexists. split; [by apply (set_entry_runs s x _ _ E)|]. split; [by exists S, P, F|]. split; [done|].
  intros k' y [Ey _]%(runs_det _ _ _ _ _ _ (Find_runs _ _ _ _ _ _ Hr k')). unfold finds. rewrite <- Ey. by eapply Find_runs.
Qed.

Lemma modify_value_runs s nb n M k v0 x f :
  is_map s nb n M -> M !! k = Some v0 -> finds s k x ->
  exists s', runs (modify_value x f) s tt s' /\ is_map s' nb n (<[k := f v0]> M) /\ marks s' = marks s
    /\ forall k' y, finds s k' y -> finds s' k' y.
Proof.
  intros Hm Hk Hx. destruct (map_store s nb n M k v0 (f v0) x Hm Hk Hx) as (E & s' & R & Hrest). exists s'. split; [|done].
  unfold runs, modify_value. by rewrite (bind_runs _ _ _ _ _ (get_entry_runs s x _ E)).
Qed.

(** Looking up a key that is there. *)
Lemma finds_key s nb n M k v : is_map s nb n M -> M !! k = Some v -> exists x, finds s k x.
Proof.
  intros Hm Hk. destruct (map_find s nb n M k Hm) as (r & R & Hres). rewrite Hk in Hres. destruct Hres as (x & -> & _). by exists x.
Qed.

Lemma finds_none s nb n M k : is_map s nb n M -> M !! k = None -> runs (Find k) s None s.
Proof. intros Hm Hk. destruct (map_find s nb n M k Hm) as (r & R & Hres). rewrite Hk in Hres. by subst r. Qed.

(** Inserting a new key while there is a free entry: refused only if there
    are four keys. *)
Lemma insert_new_key fuel s nb n M k v :
  is_map s nb n M -> M !! k = None -> Z.of_nat (size M) < n -> (2 <= fuel)%nat ->
  (exists x s', runs (Insert fuel k v) s (Some x) s' /\ is_map s' nb n (<[k := v]> M) /\ finds s' k x
     /\ forall k' y, finds s k' y -> finds s' k' y)
  \/ (exists s', runs (Insert fuel k v) s None s' /\ is_map s' nb n M /\ (4 <= size M)%nat).
Proof.
  intros Hm Hk Hn Hf. destruct (map_insert fuel s nb n M k v Hm) as ([x|] & s' & R & _ & _ & Hpost); [by left| |].
  - destruct Hpost as (Hm' & _ & Hx & Hkeep). left. exists x, s'. split; [done|]. split; [done|]. split; [done|].
    intros k' y Hy. apply Hkeep; [|done]. intros ->. destruct (finds_some _ _ _ _ _ _ Hm Hy) as [? ?]. congruence.
  - destruct Hpost as (Hm' & _ & Hwhy). right. exists s'. split; [done|]. split; [done|]. destruct Hwhy as [?|(_ & _ & ?)]; [lia|done].
Qed.
End pointers.

(** ** Connections *)

Section tracking.
Context {T : Type} `{Time T}.
Implicit Types p : packet.

(** What a packet does to the connection of its flow, and to the map. *)
Definition conn_after p (now : T) (c : option (Connection T)) : Connection T :=
  let from_server := src_addr p <? dst_addr p in
  count_packet from_server (buf_len p) now (default (open_conn p from_server now conn0) c).

Definition conns_after p (now : T) (random : Z) (M : gmap FlowId (Connection T)) : gmap FlowId (Connection T) :=
  let M1 := <[flow_of p := conn_after p now (M !! flow_of p)]> M in
  if random mod 100 =? 0 then delete (flow_of p) M1 else M1.

(** The end of [update_connection], from the pointer on. *)
Lemma count_runs s nb n M p now random x c :
  is_map s nb n M -> M !! flow_of p = Some c -> finds s (flow_of p) x ->
  exists s', runs (modify_value x (count_packet (src_addr p <? dst_addr p) (buf_len p) now);;
                   if random mod 100 =? 0 then _ ← Remove (flow_of p); mret tt else mret tt) s tt s'
    /\ is_map s' nb n (let M1 := <[flow_of p := count_packet (src_addr p <? dst_addr p) (buf_len p) now c]> M in
                       if random mod 100 =? 0 then delete (flow_of p) M1 else M1)
    /\ (random mod 100 <> 0 -> marks s' = marks s).
Proof.
  intros Hm Hc Hx. destruct (modify_value_runs s nb n M _ c x (count_packet (src_addr p <? dst_addr p) (buf_len p) now) Hm Hc Hx) as (s1 & R1 & Hm1 & Hk & _).
  unfold runs. rewrite (bind_runs _ _ _ _ _ R1). destruct (Z.eqb_spec (random mod 100) 0) as [E|E].
  - destruct (map_remove s1 nb n _ (flow_of p) Hm1) as (s2 & R2 & Hm2). exists s2. rewrite (bind_runs _ _ _ _ _ R2). by split.
  - by exists s1.
Qed.

(** [update_connection] counts the packet in the connection of its flow: it
    opens the connection if the flow is new, adds one packet and its length to
    the totals of its direction, and forgets the flow if the random number is a
    multiple of 100. A packet of a known flow changes the entry without a
    report to the marker. If the table refuses the new flow, which takes four
    others at least, the code writes through NULL. *)
Lemma update_connection_runs fuel s nb n M p now random :
  is_map s nb n M -> (M !! flow_of p = None -> Z.of_nat (size M) < n) -> (2 <= fuel)%nat ->
  (exists s', runs (update_connection fuel p now random) s tt s' /\ is_map s' nb n (conns_after p now random M)
     /\ (is_Some (M !! flow_of p) -> random mod 100 <> 0 -> marks s' = marks s))
  \/ (update_connection fuel p now random s = Fault Segv /\ M !! flow_of p = None /\ (4 <= size M)%nat).
Proof.
  intros Hm Hroom Hf. unfold runs, update_connection, conns_after, conn_after. destruct (M !! flow_of p) as [c|] eqn:Hc.
  - left. destruct (finds_key s nb n M _ c Hm Hc) as (x & Hx). rewrite (bind_runs _ _ _ _ _ Hx), bind_ret.
    destruct (count_runs s nb n M p now random x c Hm Hc Hx) as (s' & R & Hm' & Hk). exists s'. split; [exact R|]. split; [exact Hm'|]. by intros _.
  - rewrite (bind_runs _ _ _ _ _ (finds_none s nb n M _ Hm Hc)).
    destruct (insert_new_key fuel s nb n M (flow_of p) conn0 Hm Hc (Hroom eq_refl) Hf) as [(x & s1 & R1 & Hm1 & Hx & _)|(s1 & R1 & _ & H4)].
    + left. set (o := open_conn p (src_addr p <? dst_addr p) now).
      destruct (modify_value_runs s1 nb n _ (flow_of p) conn0 x o Hm1 (lookup_insert_eq _ _ _) Hx) as (s2 & R2 & Hm2 & _ & Hkeep).
      rewrite insert_insert_eq in Hm2.
      destruct (count_runs s2 nb n _ p now random x (o conn0) Hm2 (lookup_insert_eq _ _ _) (Hkeep _ _ Hx)) as (s3 & R3 & Hm3 & _).
      exists s3. rewrite bind_assoc, (bind_runs _ _ _ _ _ R1). cbn beta iota. rewrite bind_assoc, (bind_runs _ _ _ _ _ R2), bind_ret. split; [exact R3|].
      split; [|by intros []]. rewrite insert_insert_eq in Hm3. exact Hm3.
    + right. split; [|done]. rewrite bind_assoc, (bind_runs _ _ _ _ _ R1). done.
Qed.

(** ** Assets *)

Definition seen (now : T) (a : Asset T) : Asset T := a <| last_seen := now |> <| detected_count := u32 (detected_count a + 1) |>.

Definition touched (now : T) (addr : Z) (M : gmap Z (Asset T)) : gmap Z (Asset T) :=
  <[addr := seen now (default (asset0 <| ip_addr := addr |> <| first_seen := now |>) (M !! addr))]> M.

(** A change of one host that draws random numbers. *)
Definition drawn (f : Z -> Asset T -> Asset T * Z) (addr : Z) (Ms : gmap Z (Asset T) * Z) : gmap Z (Asset T) * Z :=
  match Ms.1 !! addr with
  | Some a => let '(a', seed) := f Ms.2 a in (<[addr := a']> Ms.1, seed)
  | None => Ms
  end.

Definition assets_after p (now : T) (random seed : Z) (M : gmap Z (Asset T)) : gmap Z (Asset T) * Z :=
  let src := src_addr p in
  let dst := dst_addr p in
  let '(M1, seed1) := drawn (update_service now) dst (drawn (update_os now) dst
    (drawn (update_service now) src (drawn (update_os now) src (touched now dst (touched now src M), seed)))) in
  (if random mod 10000 =? 0 then delete dst (delete src M1) else M1, seed1).

Lemma touch_asset_runs fuel s nb n M addr now :
  is_map s nb n M -> (M !! addr = None -> Z.of_nat (size M) < n) -> (2 <= fuel)%nat ->
  (exists x s', runs (touch_asset fuel addr now) s x s' /\ is_map s' nb n (touched now addr M) /\ finds s' addr x
     /\ forall k y, finds s k y -> finds s' k y)
  \/ (touch_asset fuel addr now s = Fault Segv /\ M !! addr = None /\ (4 <= size M)%nat).
Proof.
  intros Hm Hroom Hf. unfold runs, touch_asset, touched. destruct (M !! addr) as [a|] eqn:Ha.
  - left. destruct (finds_key s nb n M _ a Hm Ha) as (x & Hx). rewrite (bind_runs _ _ _ _ _ Hx), bind_ret.
    destruct (modify_value_runs s nb n M addr a x (seen now) Hm Ha Hx) as (s1 & R1 & Hm1 & _ & Hk).
    exists x, s1. cbn beta iota. fold (seen now). rewrite (bind_runs _ _ _ _ _ R1). split; [done|]. split; [done|]. split; [by apply Hk|done].
  - rewrite (bind_runs _ _ _ _ _ (finds_none s nb n M _ Hm Ha)). set (a := asset0 <| ip_addr := addr |> <| first_seen := now |>).
    destruct (insert_new_key fuel s nb n M addr a Hm Ha (Hroom eq_refl) Hf) as [(x & s1 & R1 & Hm1 & Hx & Hk1)|(s1 & R1 & _ & H4)].
    + left. destruct (modify_value_runs s1 nb n _ addr a x (seen now) Hm1 (lookup_insert_eq _ _ _) Hx) as (s2 & R2 & Hm2 & _ & Hk2).
      rewrite insert_insert_eq in Hm2. exists x, s2. rewrite (bind_runs _ _ _ _ _ R1). cbn beta iota. fold (seen now).
      rewrite (bind_runs _ _ _ _ _ R2). split; [done|]. split; [done|]. split; [by apply Hk2|]. intros k y Hy. by apply Hk2, Hk1.
    + right. split; [|done]. by rewrite (bind_runs _ _ _ _ _ R1).
Qed.

Lemma modify_drawing_runs s nb n M addr x f seed :
  is_map s nb n M -> finds s addr x ->
  exists s', runs (modify_drawing x f seed) s (drawn f addr (M, seed)).2 s' /\ is_map s' nb n (drawn f addr (M, seed)).1
    /\ forall k y, finds s k y -> finds s' k y.
Proof.
  intros Hm Hx. destruct (finds_some _ _ _ _ _ _ Hm Hx) as (a & Ha). unfold drawn. cbn [fst snd]. rewrite Ha. destruct (f seed a) as [a' seed'] eqn:Ef.
  destruct (map_store s nb n M addr a a' x Hm Ha Hx) as (E & s' & R & Hm' & _ & Hk). exists s'. split; [|by split].
  unfold runs, modify_drawing. rewrite (bind_runs _ _ _ _ _ (get_entry_runs s x _ E)). cbn [first second]. rewrite Ef.
  by rewrite (bind_runs _ _ _ _ _ R).
Qed.

(** The four changes through the pointers, in the order of the code. *)
Lemma draws_run s nb n M src dst x y now seed :
  is_map s nb n M -> finds s src x -> finds s dst y ->
  exists M' seed' s', drawn (update_service now) dst (drawn (update_os now) dst
      (drawn (update_service now) src (drawn (update_os now) src (M, seed)))) = (M', seed')
    /\ is_map s' nb n M'
    /\ forall A (c : Z -> cmd (CuckooMap Z (Asset T)) A),
         (seed ← modify_drawing x (update_os now) seed; seed ← modify_drawing x (update_service now) seed;
          seed ← modify_drawing y (update_os now) seed; seed ← modify_drawing y (update_service now) seed; c seed) s = c seed' s'.
Proof.
  intros Hm Hx Hy.
  destruct (modify_drawing_runs s nb n M src x (update_os now) seed Hm Hx) as (s1 & R1 & Hm1 & K1).
  destruct (drawn (update_os now) src (M, seed)) as [M1 seed1]. cbn [fst snd] in *.
  destruct (modify_drawing_runs s1 nb n M1 src x (update_service now) seed1 Hm1 (K1 _ _ Hx)) as (s2 & R2 & Hm2 & K2).
  destruct (drawn (update_service now) src (M1, seed1)) as [M2 seed2]. cbn [fst snd] in *.
  destruct (modify_drawing_runs s2 nb n M2 dst y (update_os now) seed2 Hm2 (K2 _ _ (K1 _ _ Hy))) as (s3 & R3 & Hm3 & K3).
  destruct (drawn (update_os now) dst (M2, seed2)) as [M3 seed3]. cbn [fst snd] in *.
  destruct (modify_drawing_runs s3 nb n M3 dst y (update_service now) seed3 Hm3 (K3 _ _ (K2 _ _ (K1 _ _ Hy)))) as (s4 & R4 & Hm4 & _).
  destruct (drawn (update_service now) dst (M3, seed3)) as [M4 seed4]. cbn [fst snd] in *.
  exists M4, seed4, s4. split; [done|]. split; [done|]. intros A c.
  by rewrite (bind_runs _ _ _ _ _ R1), (bind_runs _ _ _ _ _ R2), (bind_runs _ _ _ _ _ R3), (bind_runs _ _ _ _ _ R4).
Qed.

(** [update_asset] counts the packet for both of its hosts, and an
    operating system and a service drawn at random for each. The pointer to the
    first host stays valid when the second is inserted, and the hosts may be
    the same. If the table refuses a host the code writes through NULL. *)
Lemma update_asset_runs fuel s nb n M p now random seed :
  is_map s nb n M -> Z.of_nat (size (dom M ∪ {[src_addr p; dst_addr p]})) <= n -> (2 <= fuel)%nat ->
  (exists s', runs (update_asset fuel p now random seed) s (assets_after p now random seed M).2 s'
     /\ is_map s' nb n (assets_after p now random seed M).1)
  \/ (update_asset fuel p now random seed s = Fault Segv /\ (4 <= size (touched now (src_addr p) M))%nat).
Proof.
  intros Hm Hroom Hf. set (src := src_addr p) in *. set (dst := dst_addr p) in *.
  assert (forall k (N : gmap Z (Asset T)), N !! k = None -> dom N ⊆ dom M ∪ {[src; dst]} -> k ∈ (dom M ∪ {[src; dst]} : gset Z) ->
    Z.of_nat (size N) < n) as Hlt.
  { intros k N Hk Hsub Hin. rewrite <- size_dom. assert (size (dom N) < size (dom M ∪ {[src; dst]} : gset Z))%nat; [|lia].
    apply subset_size. split; [done|]. intros Hs. apply not_elem_of_dom in Hk. by apply Hk, Hs. }
  unfold runs, update_asset. fold src dst.
  destruct (touch_asset_runs fuel s nb n M src now Hm) as [(x & s1 & R1 & Hm1 & Hx & K1)|(E & Hn & H4)]; [|done| |].
  { intros Hn. eapply Hlt; [exact Hn|set_solver..]. }
  2: { right. split; [by unfold mbind, cmd_bind; rewrite E|]. unfold touched. rewrite map_size_insert_None by done. lia. }
  rewrite (bind_runs _ _ _ _ _ R1).
  destruct (touch_asset_runs fuel s1 nb n _ dst now Hm1) as [(y & s2 & R2 & Hm2 & Hy & K2)|(E & Hn & H4)]; [|done| |].
  { intros Hn. eapply Hlt; [exact Hn| |set_solver]. unfold touched. rewrite dom_insert_L. set_solver. }
  2: { right. split; [by unfold mbind, cmd_bind; rewrite E|done]. }
  left. rewrite (bind_runs _ _ _ _ _ R2).
  destruct (draws_run s2 nb n _ src dst x y now seed Hm2 (K2 _ _ Hx) Hy) as (M3 & seed3 & s3 & E3 & Hm3 & R3). rewrite R3.
  unfold assets_after. fold src dst. rewrite E3. cbn [fst snd]. destruct (random mod 10000 =? 0); [|by exists s3].
  destruct (map_remove s3 nb n M3 src Hm3) as (s4 & R4 & Hm4). destruct (map_remove s4 nb n _ dst Hm4) as (s5 & R5 & Hm5).
  exists s5. by rewrite (bind_runs _ _ _ _ _ R4), (bind_runs _ _ _ _ _ R5).
Qed.

(** ** What a packet does, spelled out

    The expected tables in terms of the fields only, without the helpers of
    the program. *)

(** The generator's next state, and the number it yields. *)
Definition lcg (seed : Z) : Z := (seed * 1103515245 + 12345) mod 2 ^ 64.
Definition draw (seed : Z) : Z := lcg seed / 2 ^ 32.

Lemma fast_random_draw seed : fast_random seed = (draw seed, lcg seed).
Proof. unfold fast_random, draw. rewrite Z.shiftr_div_pow2 by lia. done. Qed.

(** The key of a packet's flow. *)
Definition packet_flow p : FlowId := mk_flow (src_addr p) (dst_addr p) (tcp_src p) (tcp_dst p) 0.

Lemma flow_of_packet p : flow_of p = packet_flow p.
Proof. unfold flow_of. by destruct (src_addr p <? dst_addr p). Qed.

(** [c] is the connection [old] (none if the flow is new) with the packet
    counted. The side with the smaller address is the server; a packet is
    counted for the side that sent it. *)
Record conn_counted p (now : T) (old : option (Connection T)) (c : Connection T) : Prop := {
  cc_new : old = None -> s_ip c = Z.min (src_addr p) (dst_addr p) /\ d_ip c = Z.max (src_addr p) (dst_addr p)
    /\ (src_addr p < dst_addr p -> s_port c = tcp_src p /\ d_port c = tcp_dst p)
    /\ (dst_addr p <= src_addr p -> s_port c = tcp_dst p /\ d_port c = tcp_src p) /\ start_time c = now;
  cc_old o : old = Some o ->
    s_ip c = s_ip o /\ d_ip c = d_ip o /\ s_port c = s_port o /\ d_port c = d_port o /\ start_time c = start_time o;
  cc_time : last_pkt_time c = now;
  cc_server : src_addr p < dst_addr p ->
    s_total_pkts c = (from_option s_total_pkts 0 old + 1) mod 2 ^ 64
    /\ s_total_bytes c = (from_option s_total_bytes 0 old + buf_len p) mod 2 ^ 64
    /\ d_total_pkts c = from_option d_total_pkts 0 old /\ d_total_bytes c = from_option d_total_bytes 0 old;
  cc_client : dst_addr p <= src_addr p ->
    d_total_pkts c = (from_option d_total_pkts 0 old + 1) mod 2 ^ 64
    /\ d_total_bytes c = (from_option d_total_bytes 0 old + buf_len p) mod 2 ^ 64
    /\ s_total_pkts c = from_option s_total_pkts 0 old /\ s_total_bytes c = from_option s_total_bytes 0 old;
}.

Lemma conn_after_counted p now old : conn_counted p now old (conn_after p now old).
Proof.
  unfold conn_after, count_packet, open_conn.
  destruct (Z.ltb_spec (src_addr p) (dst_addr p)); destruct old as [o|]; constructor; cbn [default from_option]; intros; simplify_eq;
    cbn -[Z.modulo Z.pow Z.add]; split_and?; try lia; try done; intros; try lia; done.
Qed.

(** A host that has been seen, perhaps for the first time; the operating
    system and the service drawn for it, whose slots are filled at the first
    sighting. *)
Definition host_seen (now : T) (addr : Z) (old : option (Asset T)) : Asset T :=
  match old with
  | Some a => mk_asset (ip_addr a) (first_seen a) now ((detected_count a + 1) mod 2 ^ 32) (oasset a) (sasset a)
  | None => mk_asset addr now now 1 (replicate 4 (mk_os 0 time0 time0 0)) (replicate 10 (mk_service 0 time0 time0 0 0 0))
  end.

Definition os_seen (now : T) (k : Z) (o : OsAsset T) : OsAsset T :=
  if o_detected_count o =? 0 then mk_os k now now 1
  else mk_os (o_sigidx o) (o_first_seen o) now ((o_detected_count o + 1) mod 2 ^ 32).

Definition host_os_seen (now : T) (seed : Z) (a : Asset T) : Asset T * Z :=
  let k := draw seed mod 4 in
  (mk_asset (ip_addr a) (first_seen a) (last_seen a) (detected_count a) (alter (os_seen now k) (Z.to_nat k) (oasset a)) (sasset a), lcg seed).

Definition host_service_seen (now : T) (seed : Z) (a : Asset T) : Asset T * Z :=
  let k := draw seed mod 10 in
  let v := default (mk_service 0 time0 time0 0 0 0) (sasset a !! Z.to_nat k) in
  let set_slot v' := mk_asset (ip_addr a) (first_seen a) (last_seen a) (detected_count a) (oasset a) (<[Z.to_nat k := v']> (sasset a)) in
  if v_detected_count v =? 0 then (set_slot (mk_service k now now 1 (draw (lcg seed) mod 65536) 6), lcg (lcg seed))
  else (set_slot (mk_service (v_sigidx v) (v_first_seen v) now ((v_detected_count v + 1) mod 2 ^ 32) (v_port v) (v_proto v)), lcg seed).

(** Both hosts are counted first, the sender before the receiver, then the
    draws are made in the same order; one packet in ten thousand makes the
    monitor forget both. *)
Definition hosts_counted p (now : T) (random seed : Z) (M : gmap Z (Asset T)) : gmap Z (Asset T) * Z :=
  let src := src_addr p in
  let dst := dst_addr p in
  let M1 := <[src := host_seen now src (M !! src)]> M in
  let M2 := <[dst := host_seen now dst (M1 !! dst)]> M1 in
  let '(M3, seed3) := drawn (host_service_seen now) dst (drawn (host_os_seen now) dst
    (drawn (host_service_seen now) src (drawn (host_os_seen now) src (M2, seed)))) in
  (if random mod 10000 =? 0 then delete dst (delete src M3) else M3, seed3).

Lemma touched_seen now addr M : touched now addr M = <[addr := host_seen now addr (M !! addr)]> M.
Proof. unfold touched. by destruct (M !! addr). Qed.

Lemma update_os_seen now seed a : update_os now seed a = host_os_seen now seed a.
Proof.
  unfold update_os, host_os_seen. rewrite fast_random_draw. f_equal. unfold set_field. cbn. f_equal. apply list_alter_ext; [|done].
  intros o _. unfold os_seen. by destruct (Z.eqb_spec (o_detected_count o) 0) as [->|].
Qed.

Lemma update_service_seen now seed a : update_service now seed a = host_service_seen now seed a.
Proof.
  unfold update_service, host_service_seen. rewrite !fast_random_draw. cbn zeta.
  change service0 with (mk_service 0 time0 time0 0 0 0 : ServiceAsset T). set (v := default _ _).
  change PRADS_SERVICE_CNT with 10 in *. fold v. destruct (Z.eqb_spec (v_detected_count v) 0) as [E|]; [|done].
  unfold set_field. cbn. by rewrite E.
Qed.

Lemma drawn_ext f g addr Ms : (forall seed a, f seed a = g seed a) -> drawn f addr Ms = drawn g addr Ms.
Proof. intros E. unfold drawn. destruct (Ms.1 !! addr) as [a|]; [by rewrite E|done]. Qed.

Lemma assets_after_counted p now random seed M : assets_after p now random seed M = hosts_counted p now random seed M.
Proof.
  unfold assets_after, hosts_counted. rewrite !touched_seen.
  rewrite !(drawn_ext _ _ _ _ (update_os_seen now)), !(drawn_ext _ _ _ _ (update_service_seen now)). done.
Qed.

(** ** Packets *)

(** IPv4 in network byte order, and its protocol number of TCP. *)
Definition is_tcp p : bool := (ether_type p =? 8) && (next_proto_id p =? 6).

Definition stat_after p (st : network_stat) : network_stat :=
  let ip4 := ether_type p =? 8 in
  st <| got_packets := u32 (got_packets st + 1) |> <| eth_recv := u32 (eth_recv st + 1) |>
     <| ip4_recv := if ip4 then u32 (ip4_recv st + 1) else ip4_recv st |>
     <| tcp_recv := if is_tcp p then u32 (tcp_recv st + 1) else tcp_recv st |>
     <| udp_recv := if ip4 && (next_proto_id p =? 17) then u32 (udp_recv st + 1) else udp_recv st |>.

Lemma on_conn_runs {A} (c : cmd (CuckooMap FlowId (Connection T)) A) (w : monitor_results) a t :
  runs c (conn_table w) a t -> runs (on_conn c) w a (w <| conn_table := t |>).
Proof. unfold runs, on_conn. by intros ->. Qed.

Lemma on_asset_runs {A} (c : cmd (CuckooMap Z (Asset T)) A) (w : monitor_results) a t :
  runs c (asset_table w) a t -> runs (on_asset c) w a (w <| asset_table := t |>).
Proof. unfold runs, on_asset. by intros ->. Qed.

Lemma monitor_tcp_runs fuel (w : monitor_results) nbC nC MC nbA nA MA p now random seed :
  is_map (conn_table w) nbC nC MC -> is_map (asset_table w) nbA nA MA ->
  (MC !! flow_of p = None -> Z.of_nat (size MC) < nC) -> Z.of_nat (size (dom MA ∪ {[src_addr p; dst_addr p]})) <= nA ->
  (2 <= fuel)%nat -> fast_random (rnd_seed w) = (random, seed) ->
  (exists w', runs (monitor_tcp fuel p now) w tt w' /\ stat w' = stat w
     /\ is_map (conn_table w') nbC nC (conns_after p now random MC)
     /\ is_map (asset_table w') nbA nA (assets_after p now random seed MA).1
     /\ rnd_seed w' = (assets_after p now random seed MA).2)
  \/ (monitor_tcp fuel p now w = Fault Segv /\ ((4 <= size MC)%nat \/ (4 <= size (touched now (src_addr p) MA))%nat)).
Proof.
  intros HC HA HrC HrA Hf Er. unfold runs, monitor_tcp. rewrite (bind_runs _ _ _ _ _ (runs_gets _ _)), Er.
  destruct (update_connection_runs fuel (conn_table w) nbC nC MC p now random HC HrC Hf) as [(tc & Rc & HmC & _)|(E & _ & H4)].
  2: { right. split; [|by left]. unfold mbind, cmd_bind, on_conn. by rewrite E. }
  rewrite (bind_runs _ _ _ _ _ (on_conn_runs _ _ _ _ Rc)).
  destruct (update_asset_runs fuel (asset_table w) nbA nA MA p now random seed HA HrA Hf) as [(ta & Ra & HmA)|(E & H4)].
  2: { right. split; [|by right]. unfold mbind, cmd_bind, on_asset. cbn. by rewrite E. }
  left. set (w1 := w <| conn_table := tc |>). change (asset_table w) with (asset_table w1) in Ra.
  rewrite (bind_runs _ _ _ _ _ (on_asset_runs _ _ _ _ Ra)). by eexists.
Qed.

(** C26: [monitor_packet] on every branch. The counters of the packet's kind go
    up by one. A TCP packet is counted in the connection of its flow
    ([conn_counted]: packets and bytes of the side that sent it; the
    connection is opened if the flow is new) and for both of its hosts
    ([hosts_counted]), with an operating system and a service drawn by the
    generator; every other entry of the two tables stays as it was. One packet
    in a hundred makes the monitor forget the flow, one in ten thousand the
    hosts. Other packets leave the tables alone. If a table refuses a new key,
    which takes four others at least, the code writes through NULL. The tables
    must have an entry left for the flow and the hosts. *)
Theorem monitor_packet_counts fuel (w : monitor_results) nbC nC MC nbA nA MA p now :
  let fid := packet_flow p in
  let random := draw (rnd_seed w) in
  let seed := lcg (rnd_seed w) in
  is_map (conn_table w) nbC nC MC -> is_map (asset_table w) nbA nA MA ->
  (MC !! fid = None -> Z.of_nat (size MC) < nC) -> Z.of_nat (size (dom MA ∪ {[src_addr p; dst_addr p]})) <= nA -> (2 <= fuel)%nat ->
  (exists w', runs (monitor_packet fuel p now) w tt w' /\ stat w' = stat_after p (stat w)
     /\ if is_tcp p then
          (exists c, conn_counted p now (MC !! fid) c
             /\ is_map (conn_table w') nbC nC (if random mod 100 =? 0 then delete fid MC else <[fid := c]> MC))
          /\ is_map (asset_table w') nbA nA (hosts_counted p now random seed MA).1
          /\ rnd_seed w' = (hosts_counted p now random seed MA).2
        else conn_table w' = conn_table w /\ asset_table w' = asset_table w /\ rnd_seed w' = rnd_seed w)
  \/ (is_tcp p = true /\ monitor_packet fuel p now w = Fault Segv
      /\ ((4 <= size MC)%nat \/ (4 <= size (dom MA ∪ {[src_addr p]}))%nat)).
Proof.
  intros fid random seed HC HA HrC HrA Hf. unfold fid in *. rewrite <- flow_of_packet in *.
  pose proof (fast_random_draw (rnd_seed w)) as Er. fold random seed in Er.
  unfold runs, monitor_packet, stat_after, is_tcp, on_stat. change ETHER_TYPE_IPv4_be with 8. change IPPROTO_UDP with 17. change IPPROTO_TCP with 6.
  rewrite !(bind_runs _ _ _ _ _ (runs_modify _ _)). destruct (ether_type p =? 8); cbn [negb andb]; [|left; by eexists].
  rewrite (bind_runs _ _ _ _ _ (runs_modify _ _)).
  destruct (Z.eqb_spec (next_proto_id p) 17) as [->|_]; [left; by eexists|].
  destruct (next_proto_id p =? 6); [|left; by eexists].
  rewrite (bind_runs _ _ _ _ _ (runs_modify _ _)).
  match goal with |- context [monitor_tcp fuel p now ?w1] =>
    destruct (monitor_tcp_runs fuel w1 nbC nC MC nbA nA MA p now random seed HC HA HrC HrA Hf Er) as [(w' & R & Hst & HC' & HA')|[E H4]] end.
  - left. exists w'. split; [exact R|]. split; [by rewrite Hst|]. rewrite assets_after_counted in HA'. split; [|exact HA'].
    eexists. split; [apply conn_after_counted|]. unfold conns_after in HC'. by rewrite delete_insert_eq in HC'.
  - right. split; [done|]. split; [exact E|]. destruct H4 as [H4|H4]; [by left|right].
    unfold touched in H4. rewrite <- size_dom, dom_insert_L, union_comm_L in H4. exact H4.
Qed.
End tracking.

(** ** Merging *)

Section merging.
Context {K V : Type} `{Countable K, !CuckooTypes K V, !CuckooLaws K V} (aggregate : V -> V -> V).
Implicit Types s : CuckooMap K V.

(** [M'] is [M] with the entries [es] merged into it. *)
Record merged (M : gmap K V) (es : list (Entry K V)) (M' : gmap K V) : Prop := {
  mg_other k : k ∉ first <$> es -> M' !! k = M !! k;
  mg_entry e : e ∈ es ->
    match M !! first e with
    | Some g => M' !! first e = Some (aggregate g (second e))
    | None => M' !! first e = Some (second e) \/ (M' !! first e = None /\ (4 <= size M')%nat)
    end;
  mg_grows : dom M ⊆ dom M';
  mg_bound : dom M' ⊆ dom M ∪ list_to_set (first <$> es);
}.

Lemma merge_entry_runs fuel s nb n M e :
  is_map s nb n M -> (M !! first e = None -> Z.of_nat (size M) < n) -> (2 <= fuel)%nat ->
  exists s' M', runs (merge_entry aggregate fuel e) s tt s' /\ is_map s' nb n M' /\ merged M [e] M'.
Proof.
  intros Hm Hroom Hf. unfold runs, merge_entry. destruct (M !! first e) as [g|] eqn:Hg.
  - destruct (finds_key s nb n M _ g Hm Hg) as (x & Hx). rewrite (bind_runs _ _ _ _ _ Hx).
    destruct (modify_value_runs s nb n M _ g x (fun g => aggregate g (second e)) Hm Hg Hx) as (s' & R & Hm' & _).
    exists s', (<[first e := aggregate g (second e)]> M). split; [done|]. split; [done|]. constructor.
    + intros k Hk. rewrite lookup_insert_ne; [done|]. intros <-. apply Hk. cbn. by apply list_elem_of_singleton.
    + intros e' ->%list_elem_of_singleton. by rewrite Hg, lookup_insert_eq.
    + rewrite dom_insert_L. apply union_subseteq_r.
    + rewrite dom_insert_L. cbn. clear. set_solver.
  - rewrite (bind_runs _ _ _ _ _ (finds_none s nb n M _ Hm Hg)).
    destruct (insert_new_key fuel s nb n M (first e) (second e) Hm Hg (Hroom eq_refl) Hf) as [(x & s' & R & Hm' & _)|(s' & R & Hm' & H4)].
    + exists s', (<[first e := second e]> M). rewrite (bind_runs _ _ _ _ _ R). split; [done|]. split; [done|]. constructor.
      * intros k Hk. rewrite lookup_insert_ne; [done|]. intros <-. apply Hk. cbn. by apply list_elem_of_singleton.
      * intros e' ->%list_elem_of_singleton. rewrite Hg, lookup_insert_eq. by left.
      * rewrite dom_insert_L. apply union_subseteq_r.
      * rewrite dom_insert_L. cbn. clear. set_solver.
    + exists s', M. rewrite (bind_runs _ _ _ _ _ R). split; [done|]. split; [done|]. constructor; [done| |done|apply union_subseteq_l].
      intros e' ->%list_elem_of_singleton. rewrite Hg. by right.
Qed.

Lemma merged_cons M e M1 es M2 : first e ∉ first <$> es -> merged M [e] M1 -> merged M1 es M2 -> merged M (e :: es) M2.
Proof.
  intros He H1 H2. constructor.
  - intros k Hk. rewrite fmap_cons, not_elem_of_cons in Hk. rewrite (mg_other _ _ _ H2) by apply Hk. apply (mg_other _ _ _ H1).
    cbn. rewrite list_elem_of_singleton. apply Hk.
  - intros e' [->|He']%elem_of_cons.
    + pose proof (mg_entry _ _ _ H1 e ltac:(by left)) as E. rewrite (mg_other _ _ _ H2) by done. destruct (M !! first e); [done|].
      destruct E as [?|[? H4]]; [by left|right]. split; [done|]. etrans; [exact H4|]. rewrite <- !size_dom. apply subseteq_size, (mg_grows _ _ _ H2).
    + pose proof (mg_entry _ _ _ H2 e' He') as E. rewrite (mg_other _ _ _ H1) in E; [done|]. cbn. rewrite list_elem_of_singleton.
      intros Ek. apply He. rewrite <- Ek. by apply list_elem_of_fmap_2.
  - etrans; [apply (mg_grows _ _ _ H1)|apply (mg_grows _ _ _ H2)].
  - pose proof (mg_bound _ _ _ H1) as B1. pose proof (mg_bound _ _ _ H2) as B2. cbn in B1 |- *. clear -B1 B2. set_solver.
Qed.

Lemma merge_list_runs fuel es s nb n M :
  is_map s nb n M -> NoDup (first <$> es) -> Z.of_nat (size (dom M ∪ list_to_set (first <$> es) : gset K)) <= n -> (2 <= fuel)%nat ->
  exists s' M', runs (for_each es (merge_entry aggregate fuel)) s tt s' /\ is_map s' nb n M' /\ merged M es M'.
Proof.
  revert s M. induction es as [|e es IH]; intros s M Hm Hnd Hsz Hf.
  { exists s, M. split; [done|]. split; [done|]. constructor; [done|by intros ? ?%not_elem_of_nil|done|apply union_subseteq_l]. }
  rewrite fmap_cons in Hnd. apply list.NoDup_cons in Hnd as [He Hnd].
  destruct (merge_entry_runs fuel s nb n M e Hm) as (s1 & M1 & R1 & Hm1 & H1); [|done|].
  { intros Hn. rewrite <- size_dom. assert (size (dom M) < size (dom M ∪ list_to_set (first <$> e :: es) : gset K))%nat; [|lia].
    apply subset_size. split; [apply union_subseteq_l|]. intros Hsub. apply not_elem_of_dom in Hn. apply Hn, Hsub, elem_of_union. right.
    apply elem_of_list_to_set. by left. }
  destruct (IH s1 M1 Hm1 Hnd) as (s2 & M2 & R2 & Hm2 & H2); [|done|].
  { etrans; [|exact Hsz]. apply inj_le, subseteq_size. pose proof (mg_bound _ _ _ H1) as B. cbn in B |- *. clear -B. set_solver. }
  exists s2, M2. split; [cbn; unfold runs; by rewrite (bind_runs _ _ _ _ _ R1)|]. split; [done|]. by eapply merged_cons.
Qed.

(** C27: merging a local table into the global one. Every key of the local
    table that the global table has gets the aggregate of both values, every
    other one its local value, or, if there are four keys or more, possibly
    nothing; keys the local table does not have keep their values. *)
Theorem merge_table_merges fuel local nbL nL ML s nb n M :
  is_map local nbL nL ML -> is_map s nb n M -> Z.of_nat (size (dom M ∪ dom ML)) <= n -> (2 <= fuel)%nat -> 4 * nbL < Z.of_nat fuel ->
  exists s' M', runs (merge_table aggregate fuel local) s tt s' /\ is_map s' nb n M'
    /\ forall k, match ML !! k, M !! k with
                 | Some v, Some g => M' !! k = Some (aggregate g v)
                 | Some v, None => M' !! k = Some v \/ (M' !! k = None /\ (4 <= size M')%nat)
                 | None, g => M' !! k = g
                 end.
Proof.
  intros HL Hm Hsz Hf HfL. pose proof HL as (S & P & F & Hr & EL). destruct (range_for_runs local nbL nL S P F Hr fuel HfL) as (es & R & Hes).
  rewrite EL in Hes.
  assert (first <$> es ≡ₚ (map_to_list ML).*1) as Hkeys.
  { rewrite Hes, <- list_fmap_compose. apply Permutation_refl'. by apply list_fmap_ext. }
  assert (forall k v, mk_entry k v ∈ es <-> ML !! k = Some v) as Hin.
  { intros k v. rewrite Hes, list_elem_of_fmap, <- elem_of_map_to_list. split; [by intros ([] & [= -> ->] & ?)|by exists (k, v)]. }
  destruct (merge_list_runs fuel es s nb n M Hm) as (s' & M' & R' & Hm' & Hg); [|..|done|].
  { rewrite Hkeys. apply NoDup_fst_map_to_list. }
  { etrans; [|exact Hsz]. apply inj_le, subseteq_size. rewrite Hkeys. intros k [?|Hk]%elem_of_union; apply elem_of_union; [by left|right].
    apply elem_of_list_to_set in Hk. apply list_elem_of_fmap in Hk as ([k' v] & -> & Hk). apply elem_of_map_to_list in Hk. by eapply elem_of_dom_2. }
  exists s', M'. split; [unfold runs, merge_table; by rewrite R|]. split; [done|]. intros k. destruct (ML !! k) as [v|] eqn:Hk.
  - apply Hin in Hk. pose proof (mg_entry _ _ _ Hg _ Hk) as E. cbn in E. by destruct (M !! k).
  - apply (mg_other _ _ _ Hg). rewrite Hkeys. intros ([k' v] & -> & Hkv)%list_elem_of_fmap. apply elem_of_map_to_list in Hkv. cbn in Hk. congruence.
Qed.
End merging.

(** ** Examples *)

#[export] Instance time_Z : Time Z := { time0 := 0; time_lt := Z.ltb }.

Lemma empty_table {K V} `{Countable K, !CuckooTypes K V, !CuckooLaws K V} : exists s : CuckooMap K V, is_map s 2 8 ∅.
Proof.
  set (s := mk_cuckoo (K := K) (V := V) 0 0 0 0 0 0 0 0 0 0 0 (replicate 8 0) (replicate 8 (mk_entry key0 value0))
    (replicate 2 (mk_bucket [0; 0; 0; 0] [0; 0; 0; 0])) []).
  destruct (Create_runs 4096 (Size (K := K) (V := V) 8 2) 2 8 s) as (s1 & _ & Hr1); [by exists 1|done..|].
  exists s1, empty_slots, ∅, (rev (seqZ 0 8)). split; [done|]. apply omap_empty.
Qed.

Definition demo_packet : packet := mk_packet ETHER_TYPE_IPv4_be IPPROTO_TCP 1 2 1234 5678 1920.

Lemma monitor_packet_counts_witness :
  exists w w' : monitor_results (T := Z), is_map (conn_table w) 2 8 ∅ /\ runs (monitor_packet 2 demo_packet 7) w tt w'
    /\ got_packets (stat w') = 1 /\ tcp_recv (stat w') = 1 /\ udp_recv (stat w') = 0 /\ is_map (conn_table w') 2 8 {[flow_of demo_packet := mk_conn 1 2 1234 5678 7 7 1 1920 0 0]}.
Proof.
  destruct (empty_table (K := FlowId) (V := Connection Z)) as (tc & HC). destruct (empty_table (K := Z) (V := Asset Z)) as (ta & HA).
  set (w := mk_results (mk_stat 0 0 0 0 0 0 0 0 0 0 0 0 0 0 0 0 0 0 0 0 0 0 0) ta tc 42).
  destruct (monitor_packet_counts 2 w 2 8 ∅ 2 8 ∅ demo_packet 7) as [(w' & R & Hst & (c & Hc & HC') & _)|(_ & _ & H4)];
    [done|done|done|vm_compute; discriminate|lia| |].
  - exists w, w'. split; [done|]. split; [done|]. rewrite Hst. split_and!; [done..|].
    destruct Hc as [(E1 & E2 & Hp & _ & E3) _ E4 Hs _]; [done|]. destruct Hp as [E5 E6]; [done|]. destruct Hs as (E7 & E8 & E9 & E10); [done|].
    destruct c; cbn in E1, E2, E3, E4, E5, E6, E7, E8, E9, E10. subst. exact HC'.
  - destruct H4 as [H4|H4]; vm_compute in H4; lia.
Defined.

Definition demo_conn (pkts : Z) : Connection Z := mk_conn 1 2 1234 5678 7 7 pkts (1920 * pkts) 0 0.

Lemma demo_table : exists s : CuckooMap FlowId (Connection Z), is_map s 2 8 {[flow_of demo_packet := demo_conn 3]}.
Proof.
  destruct (empty_table (K := FlowId) (V := Connection Z)) as (s & Hm).
  destruct (insert_new_key 2 s 2 8 ∅ (flow_of demo_packet) (demo_conn 3) Hm) as [(x & s' & _ & Hm' & _)|(s' & _ & _ & H4)]; [done..| |].
  - by exists s'.
  - rewrite map_size_empty in H4. lia.
Qed.

(** The same local table a second time: its packets are counted again. *)
Lemma merge_table_merges_witness :
  exists (local s' : CuckooMap FlowId (Connection Z)) M', is_map local 2 8 {[flow_of demo_packet := demo_conn 3]}
    /\ runs (merge_table aggregate_connection 9 local) local tt s' /\ is_map s' 2 8 M' /\ M' !! flow_of demo_packet = Some (demo_conn 6).
Proof.
  destruct demo_table as (s & Hm).
  destruct (merge_table_merges aggregate_connection 9 s 2 8 _ s 2 8 _ Hm Hm) as (s' & M' & R & Hm' & HM'); [vm_compute; discriminate|lia|lia|].
  exists s, s', M'. split; [done|]. split; [done|]. split; [done|].
  specialize (HM' (flow_of demo_packet)). by rewrite !lookup_singleton_eq in HM'.
Defined.
