(* ===== verification/XxHash.v ===== *)
(** * XxHash: the hash of the load balancer (apps/cuckoo-lb/xxhash.c)

    XXH32 and XXH64 on a little-endian machine, at once over the whole input
    and in pieces through a state that buffers what does not fill a stripe. An
    input is the list of its bytes. [XXH64_streams] and [XXH32_streams] show
    that the pieces do not matter. *)
From stdpp Require Import base list numbers.
From Stdlib Require Import ZArith Lia.
From S2P Require Import Prelude.

(** ** Memory reads *)

(** The first [n] bytes as a little-endian number. *)
Fixpoint read_le (n : nat) (p : list Z) : Z :=
  match n, p with
  | O, _ | _, [] => 0
  | S n', b :: p' => b + 256 * read_le n' p'
  end.

Definition XXH_readLE32 (p : list Z) : Z := read_le 4 p.
Definition XXH_readLE64 (p : list Z) : Z := read_le 8 p.

Definition XXH_rotl32 (x r : Z) : Z := Z.lor (u32 (Z.shiftl x r)) (Z.shiftr x (32 - r)).
Definition XXH_rotl64 (x r : Z) : Z := Z.lor (u64 (Z.shiftl x r)) (Z.shiftr x (64 - r)).

(** ** Stripes *)

(** [v1] to [v4] *)
Record lanes := mk_lanes { l1 : Z; l2 : Z; l3 : Z; l4 : Z }.

(** What is the same in both hashes: a stripe is one word of [w] bytes for
    each lane. *)
Section stripes.
Context (w : nat) (round : Z -> Z -> Z) (get : list Z -> Z).

Definition stripe (v : lanes) (p : list Z) : lanes :=
  mk_lanes (round (l1 v) (get p)) (round (l2 v) (get (drop w p)))
    (round (l3 v) (get (drop (2 * w) p))) (round (l4 v) (get (drop (3 * w) p))).

(** [do ... while (p<=limit)], entered only if a stripe is left. *)
Fixpoint stripes (fuel : nat) (v : lanes) (p : list Z) : lanes * list Z :=
  match fuel with
  | O => (v, p)
  | S fuel' => if decide (4 * w <= length p)%nat then stripes fuel' (stripe v p) (drop (4 * w) p) else (v, p)
  end.

(** [memcpy] of [src] into the buffer. *)
Definition fill (mem : list Z) (at_ : nat) (src : list Z) : list Z := take at_ mem ++ src ++ drop (at_ + length src) mem.

(** The body of an update after the length has been counted. *)
Definition absorb (v : lanes) (mem : list Z) (memsize : nat) (input : list Z) : lanes * list Z * nat :=
  if decide (memsize + length input < 4 * w)%nat then (v, fill mem memsize input, (memsize + length input)%nat)
  else
    let '(v, mem, p) :=
      if decide (memsize = 0)%nat then (v, mem, input)
      else
        let mem := fill mem memsize (take (4 * w - memsize) input) in
        (stripe v mem, mem, drop (4 * w - memsize) input) in
    let '(v, p) := stripes (length p) v p in
    if decide (p = []) then (v, mem, 0%nat) else (v, fill mem 0 p, length p).
End stripes.

(** ** XXH64 *)

Definition PRIME64_1 : Z := 11400714785074694791.
Definition PRIME64_2 : Z := 14029467366897019727.
Definition PRIME64_3 : Z := 1609587929392839161.
Definition PRIME64_4 : Z := 9650029242287828579.
Definition PRIME64_5 : Z := 2870177450012600261.

Definition XXH64_round (acc input : Z) : Z :=
  let acc := u64 (acc + u64 (input * PRIME64_2)) in
  let acc := XXH_rotl64 acc 31 in
  u64 (acc * PRIME64_1).

Definition XXH64_mergeRound (acc val : Z) : Z :=
  let val := XXH64_round 0 val in
  let acc := Z.lxor acc val in
  u64 (acc * PRIME64_1 + PRIME64_4).

Definition XXH64_stripes (v : lanes) (p : list Z) : lanes * list Z := stripes 8 XXH64_round XXH_readLE64 (length p) v p.

Definition XXH64_init (seed : Z) : lanes :=
  mk_lanes (u64 (seed + PRIME64_1 + PRIME64_2)) (u64 (seed + PRIME64_2)) (u64 (seed + 0)) (u64 (seed - PRIME64_1)).

Definition XXH64_converge (v : lanes) : Z :=
  let h := u64 (XXH_rotl64 (l1 v) 1 + XXH_rotl64 (l2 v) 7 + XXH_rotl64 (l3 v) 12 + XXH_rotl64 (l4 v) 18) in
  let h := XXH64_mergeRound h (l1 v) in
  let h := XXH64_mergeRound h (l2 v) in
  let h := XXH64_mergeRound h (l3 v) in
  XXH64_mergeRound h (l4 v).

(** The rest of the input: words of 8 bytes, one of 4, single bytes. *)
Fixpoint XXH64_words (fuel : nat) (h : Z) (p : list Z) : Z * list Z :=
  match fuel with
  | O => (h, p)
  | S fuel' =>
      if decide (8 <= length p)%nat then
        let h := Z.lxor h (XXH64_round 0 (XXH_readLE64 p)) in
        XXH64_words fuel' (u64 (XXH_rotl64 h 27 * PRIME64_1 + PRIME64_4)) (drop 8 p)
      else (h, p)
  end.

Definition XXH64_half (h : Z) (p : list Z) : Z * list Z :=
  if decide (4 <= length p)%nat then
    let h := Z.lxor h (u64 (XXH_readLE32 p * PRIME64_1)) in
    (u64 (XXH_rotl64 h 23 * PRIME64_2 + PRIME64_3), drop 4 p)
  else (h, p).

Definition XXH64_bytes (h : Z) (p : list Z) : Z :=
  foldl (fun h b => let h := Z.lxor h (u64 (b * PRIME64_5)) in u64 (XXH_rotl64 h 11 * PRIME64_1)) h p.

Definition XXH64_avalanche (h : Z) : Z :=
  let h := Z.lxor h (Z.shiftr h 33) in
  let h := u64 (h * PRIME64_2) in
  let h := Z.lxor h (Z.shiftr h 29) in
  let h := u64 (h * PRIME64_3) in
  Z.lxor h (Z.shiftr h 32).

Definition XXH64_finish (h : Z) (p : list Z) : Z :=
  let '(h, p) := XXH64_words (length p) h p in
  let '(h, p) := XXH64_half h p in
  XXH64_avalanche (XXH64_bytes h p).

Definition XXH64 (input : list Z) (seed : Z) : Z :=
  let len := Z.of_nat (length input) in
  let '(h, p) :=
    if 32 <=? len then let '(v, p) := XXH64_stripes (XXH64_init seed) input in (XXH64_converge v, p)
    else (u64 (seed + PRIME64_5), input) in
  XXH64_finish (u64 (h + len)) p.

(** *** Streaming *)

Inductive XXH_errorcode := XXH_OK | XXH_ERROR.

Record XXH64_state := mk_xxh64 { total_len : Z; xv : lanes; mem64 : list Z; memsize : nat }.

Definition XXH64_reset (seed : Z) : XXH64_state := mk_xxh64 0 (XXH64_init seed) (replicate 32 0) 0.

(** [None] is the input NULL. *)
Definition XXH64_update (s : XXH64_state) (input : option (list Z)) : XXH_errorcode * XXH64_state :=
  match input with
  | None => (XXH_ERROR, s)
  | Some input =>
      let '(v, mem, size) := absorb 8 XXH64_round XXH_readLE64 (xv s) (mem64 s) (memsize s) input in
      (XXH_OK, mk_xxh64 (u64 (total_len s + Z.of_nat (length input))) v mem size)
  end.

Definition XXH64_digest (s : XXH64_state) : Z :=
  let h := if 32 <=? total_len s then XXH64_converge (xv s) else u64 (l3 (xv s) + PRIME64_5) in
  XXH64_finish (u64 (h + total_len s)) (take (memsize s) (mem64 s)).

(** ** XXH32 *)

Definition PRIME32_1 : Z := 2654435761.
Definition PRIME32_2 : Z := 2246822519.
Definition PRIME32_3 : Z := 3266489917.
Definition PRIME32_4 : Z := 668265263.
Definition PRIME32_5 : Z := 374761393.

Definition XXH32_round (seed input : Z) : Z :=
  let seed := u32 (seed + u32 (input * PRIME32_2)) in
  let seed := XXH_rotl32 seed 13 in
  u32 (seed * PRIME32_1).

Definition XXH32_stripes (v : lanes) (p : list Z) : lanes * list Z := stripes 4 XXH32_round XXH_readLE32 (length p) v p.

Definition XXH32_init (seed : Z) : lanes :=
  mk_lanes (u32 (seed + PRIME32_1 + PRIME32_2)) (u32 (seed + PRIME32_2)) (u32 (seed + 0)) (u32 (seed - PRIME32_1)).

Definition XXH32_converge (v : lanes) : Z :=
  u32 (XXH_rotl32 (l1 v) 1 + XXH_rotl32 (l2 v) 7 + XXH_rotl32 (l3 v) 12 + XXH_rotl32 (l4 v) 18).

Fixpoint XXH32_words (fuel : nat) (h : Z) (p : list Z) : Z * list Z :=
  match fuel with
  | O => (h, p)
  | S fuel' =>
      if decide (4 <= length p)%nat then
        let h := u32 (h + u32 (XXH_readLE32 p * PRIME32_3)) in
        XXH32_words fuel' (u32 (XXH_rotl32 h 17 * PRIME32_4)) (drop 4 p)
      else (h, p)
  end.

Definition XXH32_bytes (h : Z) (p : list Z) : Z :=
  foldl (fun h b => let h := u32 (h + u32 (b * PRIME32_5)) in u32 (XXH_rotl32 h 11 * PRIME32_1)) h p.

Definition XXH32_avalanche (h : Z) : Z :=
  let h := Z.lxor h (Z.shiftr h 15) in
  let h := u32 (h * PRIME32_2) in
  let h := Z.lxor h (Z.shiftr h 13) in
  let h := u32 (h * PRIME32_3) in
  Z.lxor h (Z.shiftr h 16).

Definition XXH32_finish (h : Z) (p : list Z) : Z :=
  let '(h, p) := XXH32_words (length p) h p in XXH32_avalanche (XXH32_bytes h p).

Definition XXH32 (input : list Z) (seed : Z) : Z :=
  let len := Z.of_nat (length input) in
  let '(h, p) :=
    if 16 <=? len then let '(v, p) := XXH32_stripes (XXH32_init seed) input in (XXH32_converge v, p)
    else (u32 (seed + PRIME32_5), input) in
  XXH32_finish (u32 (h + u32 len)) p.

Record XXH32_state := mk_xxh32 { total_len_32 : Z; large_len : bool; xv32 : lanes; mem32 : list Z; memsize32 : nat }.

Definition XXH32_reset (seed : Z) : XXH32_state := mk_xxh32 0 false (XXH32_init seed) (replicate 16 0) 0.

Definition XXH32_update (s : XXH32_state) (input : option (list Z)) : XXH_errorcode * XXH32_state :=
  match input with
  | None => (XXH_ERROR, s)
  | Some input =>
      let len := Z.of_nat (length input) in
      let total := u32 (total_len_32 s + u32 len) in
      let '(v, mem, size) := absorb 4 XXH32_round XXH_readLE32 (xv32 s) (mem32 s) (memsize32 s) input in
      (XXH_OK, mk_xxh32 total (large_len s || ((16 <=? len) || (16 <=? total))) v mem size)
  end.

Definition XXH32_digest (s : XXH32_state) : Z :=
  let h := if large_len s then XXH32_converge (xv32 s) else u32 (l3 (xv32 s) + PRIME32_5) in
  XXH32_finish (u32 (h + total_len_32 s)) (take (memsize32 s) (mem32 s)).

(** Published values of both functions. *)
Example XXH64_empty : XXH64 [] 0 = 0xEF46DB3751D8E999.
Proof. vm_compute. reflexivity. Qed.
Example XXH32_empty : XXH32 [] 0 = 0x02CC5D05.
Proof. vm_compute. reflexivity. Qed.
Example XXH64_abc : XXH64 [97; 98; 99] 0 = 0x44BC2CF5AD770999.
Proof. vm_compute. reflexivity. Qed.
Example XXH32_abc : XXH32 [97; 98; 99] 0 = 0x32D153FF.
Proof. vm_compute. reflexivity. Qed.
Definition spam : list Z := [78; 111; 98; 111; 100; 121; 32; 105; 110; 115; 112; 101; 99; 116; 115; 32; 116; 104; 101; 32; 115; 112; 97; 109; 109; 105;
  115; 104; 32; 114; 101; 112; 101; 116; 105; 116; 105; 111; 110].
Example XXH64_spam : XXH64 spam 0 = 0xFBCEA83C8A378BF1.
Proof. vm_compute. reflexivity. Qed.
Example XXH32_spam : XXH32 spam 0 = 0xE2293B2F.
Proof. vm_compute. reflexivity. Qed.

(** ** Stripes of an input in pieces *)

Section stripes_proofs.
Context (w : nat) (round : Z -> Z -> Z) (get : list Z -> Z).
Context (Hw : (0 < w)%nat) (Hget : forall p q, (w <= length p)%nat -> get (p ++ q) = get p).
Local Abbreviation stripe := (stripe w round get).
Local Abbreviation stripes := (stripes w round get).
Local Abbreviation absorb := (absorb w round get).

Lemma stripe_app v p q : (4 * w <= length p)%nat -> stripe v (p ++ q) = stripe v p.
Proof. intros Hl. unfold XxHash.stripe. rewrite !drop_app_le, !Hget by (rewrite ?length_drop; lia). done. Qed.

Lemma stripes_short f v p : (length p < 4 * w)%nat -> stripes f v p = (v, p).
Proof. intros Hl. destruct f; cbn; [done|]. by rewrite decide_False by lia. Qed.

Lemma stripes_step f v p : (4 * w <= length p)%nat -> stripes (S f) v p = stripes f (stripe v p) (drop (4 * w) p).
Proof. intros Hl. cbn. by rewrite decide_True. Qed.

Lemma stripes_fuel f v p : (length p <= f)%nat -> stripes f v p = stripes (length p) v p.
Proof.
  remember (length p) as k eqn:Ek. revert f v p Ek. induction k as [k IH] using lt_wf_ind. intros f v p -> Hf.
  destruct (decide (4 * w <= length p)%nat) as [Hl|Hl]; [|by rewrite !stripes_short by lia].
  destruct f as [|f], (length p) as [|k] eqn:Ek; try lia. rewrite !stripes_step by lia.
  pose proof (length_drop p (4 * w)) as Hd.
  rewrite (IH (length (drop (4 * w) p))) by lia. symmetry. apply (IH (length (drop (4 * w) p))); lia.
Qed.

Lemma stripes_more v p : (4 * w <= length p)%nat -> stripes (length p) v p = stripes (length (drop (4 * w) p)) (stripe v p) (drop (4 * w) p).
Proof.
  intros Hl. destruct (length p) as [|k] eqn:Ek; [lia|]. rewrite stripes_step by lia. apply stripes_fuel. rewrite length_drop. lia.
Qed.

(** A first part may be processed on its own. *)
Lemma stripes_app v p q :
  stripes (length (p ++ q)) v (p ++ q) = let '(v', r) := stripes (length p) v p in stripes (length (r ++ q)) v' (r ++ q).
Proof.
  remember (length p) as k eqn:Ek. revert v p Ek. induction k as [k IH] using lt_wf_ind. intros v p ->.
  destruct (decide (4 * w <= length p)%nat) as [Hl|Hl]; [|by rewrite (stripes_short (length p)) by lia].
  rewrite (stripes_more v p Hl), (stripes_more v (p ++ q)) by (rewrite length_app; lia). rewrite drop_app_le, stripe_app by done.
  apply IH; [|done]. rewrite length_drop. lia.
Qed.

Lemma stripes_rest v p v' r : stripes (length p) v p = (v', r) -> (length r < 4 * w)%nat.
Proof.
  remember (length p) as k eqn:Ek. revert v p Ek. induction k as [k IH] using lt_wf_ind. intros v p -> E.
  destruct (decide (4 * w <= length p)%nat) as [Hl|Hl]; [|rewrite stripes_short in E by lia; injection E as <- <-; lia].
  rewrite stripes_more in E by done. eapply (IH (length (drop (4 * w) p))); [|done|exact E]. rewrite length_drop. lia.
Qed.

(** The state after the bytes [D]: the lanes of its stripes, the rest in the
    buffer. *)
Record absorbed (v0 : lanes) (D : list Z) (v : lanes) (mem : list Z) (size : nat) : Prop := {
  ab_mem : length mem = (4 * w)%nat;
  ab_size : (size < 4 * w)%nat;
  ab_stripes : stripes (length D) v0 D = (v, take size mem);
}.

Lemma length_fill mem k src : (k + length src <= length mem)%nat -> length (fill mem k src) = length mem.
Proof. intros Hl. unfold fill. rewrite !length_app, length_take, length_drop. lia. Qed.

Lemma take_fill mem k src : (k <= length mem)%nat -> take (k + length src) (fill mem k src) = take k mem ++ src.
Proof. intros Hl. unfold fill. rewrite app_assoc, take_app_length'; [done|]. rewrite length_app, length_take. lia. Qed.

Lemma absorb_stripes v0 D v mem size input v' mem' size' :
  absorbed v0 D v mem size -> absorb v mem size input = (v', mem', size') -> absorbed v0 (D ++ input) v' mem' size'.
Proof.
  intros [Hm Hs Hst] E. unfold XxHash.absorb in E.
  assert (stripes (length (D ++ input)) v0 (D ++ input) = stripes (length (take size mem ++ input)) v (take size mem ++ input)) as Ea
    by by rewrite stripes_app, Hst.
  assert (length (take size mem) = size) as Hr by (rewrite length_take; lia).
  destruct (decide (size + length input < 4 * w)%nat) as [Hl|Hl].
  { injection E as <- <- <-. split; [rewrite length_fill; lia|done|]. rewrite Ea, stripes_short by (rewrite length_app; lia).
    by rewrite take_fill by lia. }
  assert (exists v1 mem1 p, (if decide (size = 0)%nat then (v, mem, input)
      else (stripe v (fill mem size (take (4 * w - size) input)), fill mem size (take (4 * w - size) input), drop (4 * w - size) input)) = (v1, mem1, p)
      /\ length mem1 = (4 * w)%nat
      /\ stripes (length (take size mem ++ input)) v (take size mem ++ input) = stripes (length p) v1 p) as (v1 & mem1 & p & E1 & Hm1 & Est).
  { destruct (decide (size = 0)%nat) as [->|Hne]; [by exists v, mem, input|].
    do 3 eexists. split; [done|]. assert (length (take (4 * w - size) input) = 4 * w - size)%nat as Ht by (rewrite length_take; lia).
    split; [rewrite length_fill; lia|].
    rewrite stripes_more by (rewrite length_app; lia). rewrite drop_app_ge, Hr by lia. f_equal.
    rewrite <- (take_drop (4 * w - size) input) at 1. rewrite app_assoc, stripe_app by (rewrite length_app; lia).
    unfold fill. rewrite drop_ge by lia. by rewrite app_nil_r. }
  rewrite E1 in E. destruct (stripes (length p) v1 p) as [v2 p2] eqn:E2. pose proof (stripes_rest _ _ _ _ E2) as Hp2.
  destruct (decide (p2 = [])) as [->|Hne]; injection E as <- <- <-.
  - split; [done|lia|]. by rewrite Ea, Est.
  - split; [rewrite length_fill; lia|done|]. rewrite Ea, Est. f_equal. change (length p2) with (0 + length p2)%nat. by rewrite take_fill by lia.
Qed.
End stripes_proofs.

Lemma read_le_app n p q : (n <= length p)%nat -> read_le n (p ++ q) = read_le n p.
Proof.
  revert p. induction n as [|n IH]; intros p Hl; [done|]. destruct p as [|b p]; [cbn in Hl; lia|]. cbn in *. by rewrite IH by lia.
Qed.

(** ** Streaming *)

Definition XXH64_updates (s : XXH64_state) (chunks : list (list Z)) : XXH64_state :=
  foldl (fun s c => (XXH64_update s (Some c)).2) s chunks.
Definition XXH32_updates (s : XXH32_state) (chunks : list (list Z)) : XXH32_state :=
  foldl (fun s c => (XXH32_update s (Some c)).2) s chunks.

Lemma updates64 chunks seed :
  let s := XXH64_updates (XXH64_reset seed) chunks in
  absorbed 8 XXH64_round XXH_readLE64 (XXH64_init seed) (concat chunks) (xv s) (mem64 s) (memsize s)
  /\ total_len s = u64 (Z.of_nat (length (concat chunks))).
Proof.
  induction chunks as [|c chunks IH] using rev_ind; [split; [split; [done|cbn; lia|done]|done]|]. cbn zeta in *. unfold XXH64_updates in *. rewrite foldl_app. cbn [foldl].
  set (s := foldl _ _ _) in *. destruct IH as [Ha Ht]. rewrite concat_app. cbn [concat]. rewrite app_nil_r. unfold XXH64_update.
  destruct (absorb 8 XXH64_round XXH_readLE64 (xv s) (mem64 s) (memsize s) c) as [[v mem] size] eqn:E. cbn [snd xv mem64 memsize total_len].
  split.
  - eapply absorb_stripes; [lia|intros; by apply read_le_app|exact Ha|exact E].
  - rewrite Ht, length_app. unfold u64, wrap. rewrite Zplus_mod_idemp_l. f_equal. lia.
Qed.

(** C34: XXH64 in pieces is XXH64. Resetting a state, updating it with any
    pieces whose lengths sum up to less than 2^64, empty ones included, and
    taking the digest gives the hash of their concatenation. *)
Theorem XXH64_streams chunks seed :
  Z.of_nat (length (concat chunks)) < 2 ^ 64 ->
  XXH64_digest (XXH64_updates (XXH64_reset seed) chunks) = XXH64 (concat chunks) seed.
Proof.
  intros Hlen. destruct (updates64 chunks seed) as [[Hm Hs Hst] Ht]. set (s := XXH64_updates _ _) in *. set (D := concat chunks) in *.
  rewrite u64_small in Ht by lia. unfold XXH64_digest, XXH64, XXH64_stripes. rewrite Ht.
  destruct (Z.leb_spec 32 (Z.of_nat (length D))) as [Hl|Hl]; [by rewrite Hst|].
  rewrite stripes_short in Hst by lia. injection Hst as Hv Hr. rewrite <- Hv, <- Hr. do 3 f_equal. cbn [l3 XXH64_init].
  unfold u64, wrap. by rewrite Zplus_mod_idemp_l, Z.add_0_r.
Qed.

Lemma updates32 chunks seed :
  let s := XXH32_updates (XXH32_reset seed) chunks in
  absorbed 4 XXH32_round XXH_readLE32 (XXH32_init seed) (concat chunks) (xv32 s) (mem32 s) (memsize32 s)
  /\ total_len_32 s = u32 (Z.of_nat (length (concat chunks))) /\ large_len s = (16 <=? Z.of_nat (length (concat chunks))).
Proof.
  induction chunks as [|c chunks IH] using rev_ind; [split; [split; [done|cbn; lia|done]|done]|]. cbn zeta in *. unfold XXH32_updates in *. rewrite foldl_app. cbn [foldl].
  set (s := foldl _ _ _) in *. destruct IH as (Ha & Ht & Hlarge). rewrite concat_app. cbn [concat]. rewrite app_nil_r. unfold XXH32_update.
  destruct (absorb 4 XXH32_round XXH_readLE32 (xv32 s) (mem32 s) (memsize32 s) c) as [[v mem] size] eqn:E.
  cbn [snd xv32 mem32 memsize32 total_len_32 large_len]. set (n := Z.of_nat (length (concat chunks))) in *. set (m := Z.of_nat (length c)).
  replace (Z.of_nat (length (concat chunks ++ c))) with (n + m) by (rewrite length_app; lia).
  assert (u32 (total_len_32 s + u32 m) = u32 (n + m)) as Etot by (rewrite Ht; unfold u32, wrap; by rewrite <- Zplus_mod).
  rewrite Etot. split; [|split; [done|]].
  - eapply absorb_stripes; [lia|intros; by apply read_le_app|exact Ha|exact E].
  - rewrite Hlarge. destruct (Z.leb_spec 16 n), (Z.leb_spec 16 m), (Z.leb_spec 16 (n + m)); try done; try lia; cbn.
    + rewrite u32_small by lia. apply Z.leb_le. lia.
    + rewrite u32_small by lia. apply Z.leb_gt. lia.
Qed.

(** XXH32 in pieces is XXH32, whatever the total length: the length is
    counted modulo 2^32 in both, and the flag [large_len] remembers whether
    there was a full stripe. *)
Theorem XXH32_streams chunks seed :
  XXH32_digest (XXH32_updates (XXH32_reset seed) chunks) = XXH32 (concat chunks) seed.
Proof.
  destruct (updates32 chunks seed) as ([Hm Hs Hst] & Ht & Hlarge). set (s := XXH32_updates _ _) in *. set (D := concat chunks) in *.
  unfold XXH32_digest, XXH32, XXH32_stripes. rewrite Ht, Hlarge.
  destruct (Z.leb_spec 16 (Z.of_nat (length D))) as [Hl|Hl]; [by rewrite Hst|].
  rewrite stripes_short in Hst by lia. injection Hst as Hv Hr. rewrite <- Hv, <- Hr. do 3 f_equal. cbn [l3 XXH32_init].
  unfold u32, wrap. by rewrite Zplus_mod_idemp_l, Z.add_0_r.
Qed.

Lemma XXH64_streams_witness : XXH64_digest (XXH64_updates (XXH64_reset 0) [take 5 spam; []; drop 5 spam]) = XXH64 spam 0.
Proof. apply (XXH64_streams [take 5 spam; []; drop 5 spam] 0). vm_compute. reflexivity. Defined.
