(* ===== verification/XxCanonical.v ===== *)
(** * XxCanonical: hash values in canonical form (apps/cuckoo-lb/xxhash.c)

    The byte swaps and the conversions between hash values and their big-endian
    form, on a little-endian machine. *)
From stdpp Require Import base list numbers.
From Stdlib Require Import ZArith Lia.
From S2P Require Import Prelude XxHash.

(** ** The program *)

Definition XXH_swap32 (x : Z) : Z :=
  Z.lor (Z.lor (Z.lor
    (Z.land (u32 (Z.shiftl x 24)) 0xff000000)
    (Z.land (u32 (Z.shiftl x 8)) 0x00ff0000))
    (Z.land (Z.shiftr x 8) 0x0000ff00))
    (Z.land (Z.shiftr x 24) 0x000000ff).

Definition XXH_swap64 (x : Z) : Z :=
  Z.lor (Z.lor (Z.lor (Z.lor (Z.lor (Z.lor (Z.lor
    (Z.land (u64 (Z.shiftl x 56)) 0xff00000000000000)
    (Z.land (u64 (Z.shiftl x 40)) 0x00ff000000000000))
    (Z.land (u64 (Z.shiftl x 24)) 0x0000ff0000000000))
    (Z.land (u64 (Z.shiftl x 8)) 0x000000ff00000000))
    (Z.land (Z.shiftr x 8) 0x00000000ff000000))
    (Z.land (Z.shiftr x 24) 0x0000000000ff0000))
    (Z.land (Z.shiftr x 40) 0x000000000000ff00))
    (Z.land (Z.shiftr x 56) 0x00000000000000ff).

Definition XXH_readBE32 (p : list Z) : Z := XXH_swap32 (XXH_readLE32 p).
Definition XXH_readBE64 (p : list Z) : Z := XXH_swap64 (XXH_readLE64 p).

(** The bytes of a number of [n] bytes in memory. *)
Fixpoint to_le (n : nat) (x : Z) : list Z :=
  match n with O => [] | S n' => Z.land x 255 :: to_le n' (Z.shiftr x 8) end.

Definition XXH32_canonicalFromHash (hash : Z) : list Z := to_le 4 (XXH_swap32 hash).
Definition XXH32_hashFromCanonical (src : list Z) : Z := XXH_readBE32 src.
Definition XXH64_canonicalFromHash (hash : Z) : list Z := to_le 8 (XXH_swap64 hash).
Definition XXH64_hashFromCanonical (src : list Z) : Z := XXH_readBE64 src.

(** ** Bits of the swaps *)

Lemma byte_mask m k i : 0 <= k -> m = Z.shiftl (Z.ones 8) k -> 0 <= i -> Z.testbit m i = ((k <=? i) && (i <? k + 8)).
Proof.
  intros Hk -> Hi. rewrite Z.shiftl_spec, Z.testbit_ones by lia.
  destruct (Z.leb_spec 0 (i - k)), (Z.leb_spec k i), (Z.ltb_spec (i - k) 8), (Z.ltb_spec i (k + 8)); try done; lia.
Qed.

(** Decides the comparisons of the goal by [lia]. *)
Ltac decide_cmps :=
  repeat match goal with
  | |- context [?a <=? ?b] => first [rewrite (proj2 (Z.leb_le a b)) by lia|rewrite (proj2 (Z.leb_gt a b)) by lia]
  | |- context [?a <? ?b] => first [rewrite (proj2 (Z.ltb_lt a b)) by lia|rewrite (proj2 (Z.ltb_ge a b)) by lia]
  end;
  cbn [andb]; rewrite ?andb_false_r, ?andb_true_r, ?orb_false_r, ?orb_false_l.

(** Bit [j] of byte [b] of the result is bit [j] of byte [7 - b]. *)
Lemma swap64_testbit x b j : 0 <= b < 8 -> 0 <= j < 8 -> Z.testbit (XXH_swap64 x) (8 * b + j) = Z.testbit x (8 * (7 - b) + j).
Proof.
  intros Hb Hj. unfold XXH_swap64. rewrite !Z.lor_spec, !Z.land_spec, !testbit_u64, !Z.shiftl_spec, !Z.shiftr_spec by lia.
  rewrite (byte_mask 0xff00000000000000 56), (byte_mask 0x00ff000000000000 48), (byte_mask 0x0000ff0000000000 40), (byte_mask 0x000000ff00000000 32),
    (byte_mask 0x00000000ff000000 24), (byte_mask 0x0000000000ff0000 16), (byte_mask 0x000000000000ff00 8), (byte_mask 0x00000000000000ff 0) by first [lia|done].
  assert (b = 0 \/ b = 1 \/ b = 2 \/ b = 3 \/ b = 4 \/ b = 5 \/ b = 6 \/ b = 7) as Hc by lia.
  destruct Hc as [->|[->|[->|[->|[->|[->|[->| ->]]]]]]]; decide_cmps; f_equal; lia.
Qed.

Lemma swap32_testbit x b j : 0 <= b < 4 -> 0 <= j < 8 -> Z.testbit (XXH_swap32 x) (8 * b + j) = Z.testbit x (8 * (3 - b) + j).
Proof.
  intros Hb Hj. unfold XXH_swap32, u32. rewrite !Z.lor_spec, !Z.land_spec, !testbit_wrap, !Z.shiftl_spec, !Z.shiftr_spec by lia.
  rewrite (byte_mask 0xff000000 24), (byte_mask 0x00ff0000 16), (byte_mask 0x0000ff00 8), (byte_mask 0x000000ff 0) by first [lia|done].
  assert (b = 0 \/ b = 1 \/ b = 2 \/ b = 3) as Hc by lia. destruct Hc as [->|[->|[->| ->]]]; decide_cmps; f_equal; lia.
Qed.

Lemma swap64_range x : 0 <= XXH_swap64 x < 2 ^ 64.
Proof. unfold XXH_swap64. repeat apply (lor_range 64); try lia; apply land_range_r; lia. Qed.

Lemma swap32_range x : 0 <= XXH_swap32 x < 2 ^ 32.
Proof. unfold XXH_swap32. repeat apply (lor_range 32); try lia; apply land_range_r; lia. Qed.

(** Numbers of [n] bytes are equal if their bytes are. *)
Lemma bytes_eq n x y :
  0 <= n -> 0 <= x < 2 ^ (8 * n) -> 0 <= y < 2 ^ (8 * n) ->
  (forall b j, 0 <= b < n -> 0 <= j < 8 -> Z.testbit x (8 * b + j) = Z.testbit y (8 * b + j)) -> x = y.
Proof.
  intros Hn Hx Hy H. apply Z.bits_inj'. intros i Hi. destruct (Z.lt_ge_cases i (8 * n)) as [Hlt|Hge].
  - rewrite (Z.div_mod i 8) by lia. apply H; [|apply Z.mod_pos_bound; lia]. split; [apply Z.div_pos; lia|apply Z.div_lt_upper_bound; lia].
  - rewrite <- (wrap_small (8 * n) x), <- (wrap_small (8 * n) y), !testbit_wrap by lia. decide_cmps. done.
Qed.

Lemma swap64_swap64 x : 0 <= x < 2 ^ 64 -> XXH_swap64 (XXH_swap64 x) = x.
Proof.
  intros Hx. apply (bytes_eq 8); [lia|apply swap64_range|done|]. intros b j Hb Hj. rewrite !swap64_testbit by lia. f_equal. lia.
Qed.

Lemma swap32_swap32 x : 0 <= x < 2 ^ 32 -> XXH_swap32 (XXH_swap32 x) = x.
Proof.
  intros Hx. apply (bytes_eq 4); [lia|apply swap32_range|done|]. intros b j Hb Hj. rewrite !swap32_testbit by lia. f_equal. lia.
Qed.

(** ** Bytes in memory *)

Lemma read_to_le n x : 0 <= x < 2 ^ (8 * Z.of_nat n) -> read_le n (to_le n x) = x.
Proof.
  revert x. induction n as [|n IH]; intros x Hx; [cbn in *; lia|]. cbn [read_le to_le].
  change 255 with (Z.ones 8). rewrite Z.land_ones, Z.shiftr_div_pow2 by lia. change (2 ^ 8) with 256. rewrite IH.
  - pose proof (Z.div_mod x 256 ltac:(lia)). lia.
  - replace (8 * Z.of_nat (S n)) with (8 + 8 * Z.of_nat n) in Hx by lia. rewrite Z.pow_add_r in Hx by lia.
    split; [apply Z.div_pos; lia|apply Z.div_lt_upper_bound; lia].
Qed.

Lemma to_le_lookup n x b : (b < n)%nat -> to_le n x !! b = Some (Z.land (Z.shiftr x (8 * Z.of_nat b)) 255).
Proof.
  revert x b. induction n as [|n IH]; intros x b Hb; [lia|]. destruct b as [|b]; [done|]. cbn [to_le lookup list_lookup].
  change (to_le n (Z.shiftr x 8) !! b = Some (Z.land (Z.shiftr x (8 * Z.of_nat (S b))) 255)).
  rewrite IH by lia. rewrite Z.shiftr_shiftr by lia. do 3 f_equal. lia.
Qed.

Lemma length_to_le n x : length (to_le n x) = n.
Proof. revert x. induction n as [|n IH]; intros x; [done|]. cbn. by rewrite IH. Qed.

(** If the bytes of [y] are those of [x] in the opposite order, so they are in
    memory. *)
Lemma to_le_reverse n x y :
  (forall b j, 0 <= b < Z.of_nat n -> 0 <= j < 8 -> Z.testbit y (8 * b + j) = Z.testbit x (8 * (Z.of_nat n - 1 - b) + j)) ->
  to_le n y = reverse (to_le n x).
Proof.
  intros H. apply list_eq. intros b. destruct (decide (b < n)%nat) as [Hb|Hb].
  2: { rewrite !lookup_ge_None_2; [done|rewrite length_reverse, length_to_le; lia|rewrite length_to_le; lia]. }
  rewrite reverse_lookup by by rewrite length_to_le. rewrite length_to_le, !to_le_lookup by lia. f_equal. apply Z.bits_inj'. intros j Hj.
  rewrite !Z.land_spec, !Z.shiftr_spec by lia. change 255 with (Z.ones 8). rewrite !Z.testbit_ones by lia.
  destruct (Z.leb_spec 0 j), (Z.ltb_spec j 8); cbn [andb]; rewrite ?andb_false_r, ?andb_true_r; try done.
  replace (j + 8 * Z.of_nat b) with (8 * Z.of_nat b + j) by lia. rewrite H by lia. f_equal. lia.
Qed.

(** The canonical form is the big-endian one, and hash values of both
    widths survive the conversion to it and back. *)
Theorem canonical_roundtrip h g :
  0 <= h < 2 ^ 64 -> 0 <= g < 2 ^ 32 ->
  XXH64_canonicalFromHash h = reverse (to_le 8 h) /\ XXH64_hashFromCanonical (XXH64_canonicalFromHash h) = h
  /\ XXH32_canonicalFromHash g = reverse (to_le 4 g) /\ XXH32_hashFromCanonical (XXH32_canonicalFromHash g) = g.
Proof.
  intros Hh Hg. unfold XXH64_hashFromCanonical, XXH32_hashFromCanonical, XXH_readBE64, XXH_readBE32, XXH64_canonicalFromHash, XXH32_canonicalFromHash, XXH_readLE64, XXH_readLE32.
  rewrite !read_to_le by first [apply swap64_range|apply swap32_range]. rewrite swap64_swap64, swap32_swap32 by done.
  split; [|split; [done|split; [|done]]]; apply to_le_reverse; intros b j Hb Hj; [rewrite swap64_testbit by lia|rewrite swap32_testbit by lia]; f_equal; lia.
Qed.

Lemma canonical_roundtrip_witness :
  XXH64_canonicalFromHash 0xEF46DB3751D8E999 = [0xEF; 0x46; 0xDB; 0x37; 0x51; 0xD8; 0xE9; 0x99]
  /\ XXH64_hashFromCanonical [0xEF; 0x46; 0xDB; 0x37; 0x51; 0xD8; 0xE9; 0x99] = 0xEF46DB3751D8E999.
Proof.
  destruct (canonical_roundtrip 0xEF46DB3751D8E999 0x02CC5D05) as (E1 & E2 & _); [lia|lia|]. assert (XXH64_canonicalFromHash 0xEF46DB3751D8E999 = [0xEF; 0x46; 0xDB; 0x37; 0x51; 0xD8; 0xE9; 0x99]) as E by (rewrite E1; reflexivity).
  split; [exact E|]. rewrite <- E. exact E2.
Defined.
