(* ===== verification/LbLut.v ===== *)
(** * LbLut: the look-up tables of the load balancer (apps/cuckoo-lb/generate_lut.h)

    Every backend has a sequence of slots it prefers, an arithmetic progression
    modulo the length of the table with start and step from a hash of its
    name; the backends take turns at claiming the next slot that is free. The
    buffer for a name is hashed as a whole, 64 bytes of which only the text is
    written: [stack] is what the rest of it holds.

    The length of the program's tables is a power of two: the table is filled
    if one step is odd, and the loop never ends if all steps are even and the
    starts have the same parity. *)
From stdpp Require Import base list numbers.
From Stdlib Require Import ZArith Znumtheory Zpow_facts Lia.
From S2P Require Import Prelude XxHash.

(** ** The program *)

(** Decimal digits, last first. *)
Fixpoint digits (fuel : nat) (i : Z) : list Z :=
  match fuel with
  | O => []
  | S fuel' => (48 + i mod 10) :: if i / 10 =? 0 then [] else digits fuel' (i / 10)
  end.

(** [snprintf(name, 64, "%s_%d", pfx, i)] on a buffer that holds [stack]. *)
Definition backend_name (pfx : list Z) (i : nat) (stack : list Z) : list Z :=
  let text := take 63 (pfx ++ [95] ++ rev (digits 20 (Z.of_nat i))) ++ [0] in
  text ++ drop (length text) stack.

Definition compute_offset_and_skip {W} (name : list Z) (lut_len : Z) : cmd W (Z * Z) :=
  let h0 := XXH64 name 0 in
  let h1 := XXH64 name 1 in
  if lut_len =? 0 then fail DivByZero
  else if u64 (lut_len - 1) =? 0 then fail DivByZero
  else mret (h1 mod lut_len, u64 (h0 mod u64 (lut_len - 1) + 1)).

Definition perm (offset skip lut_len j : Z) : Z := u64 (offset + u64 (skip * j)) mod lut_len.

(** The sentinel of an empty slot. *)
Definition EMPTY : Z := 0x8000.
Definition BREAK_COUNTER : Z := 1000.

(** [lut], [next] and [n] *)
Record lut_state := mk_lut { lut : list Z; next : list Z; filled : Z }.
#[export] Instance eta_lut_state : Eta lut_state := fun r => mk_lut (lut r) (next r) (filled r).

Definition get_lut (l : list Z) (c : Z) : Z := default 0 (l !! Z.to_nat c).

Section generate.
Context (lut_len : Z) (params : list (Z * Z)).

Definition offset (i : nat) : Z := (default (0, 0) (params !! i)).1.
Definition skip (i : nat) : Z := (default (0, 0) (params !! i)).2.

(** [while (lut[c] != 0x8000)], which takes 1001 steps at most. *)
Fixpoint probe (left : nat) (l : list Z) (i : nat) (nx counter : Z) : Z * Z :=
  match left with
  | O => (nx, counter)
  | S left' =>
      if get_lut l (perm (offset i) (skip i) lut_len nx) =? EMPTY then (nx, counter)
      else
        let nx := u64 (nx + 1) in
        let counter := counter + 1 in
        if BREAK_COUNTER <? counter then (nx, counter) else probe left' l i nx counter
  end.

(** The body of the loop over the backends: whether a slot was filled. *)
Definition turn (i : nat) : cmd lut_state bool :=
  s ← getw;
  let '(nx, counter) := probe 1001 (lut s) i (default 0 (next s !! i)) 0 in
  if BREAK_COUNTER <=? counter then modify (fun s => s <| next := <[i := nx]> (next s) |>);; mret false
  else
    let c := perm (offset i) (skip i) lut_len nx in
    if lut_len <=? c then fail Abort
    else
      modify (fun s => s <| lut := <[Z.to_nat c := Z.of_nat i]> (lut s) |> <| next := <[i := u64 (nx + 1)]> (next s) |>
                         <| filled := u64 (filled s + 1) |>);;
      mret true.

(** The loop over the backends, left when the table is full. A turn that does
    not fill a slot continues with the next backend. *)
Fixpoint pass (backends : list nat) : cmd lut_state unit :=
  match backends with
  | [] => mret tt
  | i :: rest =>
      claimed ← turn i;
      n ← gets filled;
      if claimed && (lut_len <=? n) then mret tt else pass rest
  end.

Fixpoint fill_loop (fuel : nat) (lbs : nat) : cmd lut_state unit :=
  match fuel with
  | O => fail NoFuel
  | S fuel' => n ← gets filled; if n <? lut_len then pass (seq 0 lbs);; fill_loop fuel' lbs else mret tt
  end.
End generate.

(** The loop that hashes the names. *)
Fixpoint backend_params {W} (pfx : list Z) (stack : nat -> list Z) (lut_len : Z) (backends : list nat) : cmd W (list (Z * Z)) :=
  match backends with
  | [] => mret []
  | i :: rest =>
      p ← compute_offset_and_skip (backend_name pfx i (stack i)) lut_len;
      ps ← backend_params pfx stack lut_len rest;
      mret (p :: ps)
  end.

Definition generate_lut (fuel : nat) (pfx : list Z) (stack : nat -> list Z) (lbs : nat) (lut_len : Z) : cmd lut_state unit :=
  modify (fun s => s <| lut := replicate (Z.to_nat lut_len) EMPTY |>);;
  modify (fun s => s <| filled := 0 |>);;
  params ← backend_params pfx stack lut_len (seq 0 lbs);
  modify (fun s => s <| next := replicate lbs 0 |>);;
  fill_loop lut_len params fuel lbs.

(** ** Slots *)

Lemma elem_of_insert_inv {A} (l : list A) i x y : y ∈ <[i := x]> l -> y = x \/ y ∈ l.
Proof.
  intros (j & Hj)%list_elem_of_lookup. apply list_lookup_insert_Some in Hj as [(_ & -> & _)|[_ Hj]]; [by left|right].
  by eapply list_elem_of_lookup_2.
Qed.

Section proofs.
Context (k : Z) (Hk : 0 <= k <= 63) (params : list (Z * Z)) (lbs : nat) (Hlbs : (Z.of_nat lbs <= EMPTY)).
Local Abbreviation L := (2 ^ k).
Local Abbreviation offset := (offset params).
Local Abbreviation skip := (skip params).

(** The slot backend [i] looks at in step [nx]. *)
Definition choice (i : nat) (nx : Z) : Z := perm (offset i) (skip i) L nx.

Lemma L_range : 0 < L < 2 ^ 64.
Proof. split; [apply Z.pow_pos_nonneg; lia|apply Z.pow_lt_mono_r; lia]. Qed.

Lemma mod_u64 x : u64 x mod L = x mod L.
Proof.
  unfold u64, wrap. replace 64 with (k + (64 - k)) by lia. rewrite Z.pow_add_r by lia. symmetry. apply Zmod_div_mod; [apply L_range| |].
  - apply Z.mul_pos_pos; apply Z.pow_pos_nonneg; lia.
  - apply Z.divide_factor_l.
Qed.

Lemma choice_eq i nx : choice i nx = (offset i + skip i * nx) mod L.
Proof. unfold choice, perm. rewrite mod_u64, Zplus_mod, mod_u64, <- Zplus_mod. done. Qed.

Lemma choice_u64 i nx : choice i (u64 nx) = choice i nx.
Proof. rewrite !choice_eq, Zplus_mod, Zmult_mod, mod_u64, <- Zmult_mod, <- Zplus_mod. done. Qed.

Lemma choice_range i nx : 0 <= choice i nx < L.
Proof. apply Z.mod_pos_bound, L_range. Qed.

Definition is_free (l : list Z) (c : Z) : bool := get_lut l c =? EMPTY.

(** The number of slots in use. *)
Definition used_slots (l : list Z) : Z := sum_of (fun x => if x =? EMPTY then 0 else 1) l.

(** The loop's invariant. *)
Record lut_inv (s : lut_state) : Prop := {
  lv_len : Z.of_nat (length (lut s)) = L;
  lv_next : length (next s) = lbs;
  lv_nx x : x ∈ next s -> 0 <= x < 2 ^ 64;
  lv_slot x : x ∈ lut s -> x = EMPTY \/ 0 <= x < Z.of_nat lbs;
  lv_filled : filled s = used_slots (lut s);
}.

Lemma used_range l : 0 <= used_slots l <= Z.of_nat (length l).
Proof. pose proof (sum_of_range (fun x => if x =? EMPTY then 0 else 1) l 1) as Hs. unfold used_slots. rewrite Z.mul_1_l in Hs. apply Hs. intros x _. destruct (x =? EMPTY); lia. Qed.

Lemma used_all l : Z.of_nat (length l) <= used_slots l -> forall x, x ∈ l -> x <> EMPTY.
Proof.
  intros Hl x Hx ->. apply list_elem_of_lookup in Hx as (i & Hi). pose proof (sum_of_insert (fun x => if x =? EMPTY then 0 else 1) l i _ 0 Hi) as Hs.
  pose proof (used_range (<[i := 0]> l)) as Hr. rewrite length_insert in Hr. unfold used_slots in *. rewrite Hs in Hr. cbn in Hr. lia.
Qed.

Lemma free_exists s : lut_inv s -> filled s < L -> exists c, 0 <= c < L /\ is_free (lut s) c = true.
Proof.
  intros Hi Hlt. rewrite (lv_filled _ Hi), <- (lv_len _ Hi) in Hlt.
  assert (exists i : nat, lut s !! i = Some EMPTY) as (i & E).
  { destruct (decide (EMPTY ∈ lut s)) as [Hin|Hout]; [by apply list_elem_of_lookup|]. exfalso.
    assert (used_slots (lut s) = Z.of_nat (length (lut s))) as Hu; [|lia]. clear -Hout. unfold used_slots.
    induction (lut s) as [|x l IH]; [done|]. apply not_elem_of_cons in Hout as [Hx Hl]. cbn. rewrite (IH Hl).
    destruct (Z.eqb_spec x EMPTY); [by subst|lia]. }
  pose proof (lookup_lt_Some _ _ _ E). exists (Z.of_nat i). rewrite <- (lv_len _ Hi). split; [lia|].
  unfold is_free, get_lut. by rewrite Nat2Z.id, E.
Qed.

(** ** Probing *)

Lemma choice_add i a e : choice i (u64 a + e) = choice i (a + e).
Proof. rewrite <- (choice_u64 i (u64 a + e)), <- (choice_u64 i (a + e)). f_equal. unfold u64, wrap. by rewrite Zplus_mod_idemp_l. Qed.

(** Free after [d] steps, and not before. *)
Definition first_free (l : list Z) (i : nat) (nx d : Z) : Prop :=
  0 <= d /\ is_free l (choice i (nx + d)) = true /\ forall e, 0 <= e < d -> is_free l (choice i (nx + e)) = false.

Lemma first_free_step l i nx d m : first_free l i nx d -> 0 <= m <= d -> first_free l i (u64 (nx + m)) (d - m).
Proof.
  intros (Hd & Hf & Hn) Hm. split; [lia|]. split.
  - rewrite choice_add. by replace (nx + m + (d - m)) with (nx + d) by lia.
  - intros e He. rewrite choice_add. rewrite <- Z.add_assoc. apply Hn. lia.
Qed.

(** What the loop finds: the free slot, or after 1001 steps nothing. *)
Lemma probe_first left l i nx counter d :
  first_free l i nx d -> 0 <= nx < 2 ^ 64 -> 0 <= counter -> counter + Z.of_nat left = 1001 ->
  probe L params left l i nx counter = if counter + d <=? BREAK_COUNTER then (u64 (nx + d), counter + d) else (u64 (nx + Z.of_nat left), 1001).
Proof.
  revert nx counter d. induction left as [|left IH]; intros nx counter d Hff Hnx Hc Hl; unfold BREAK_COUNTER in *.
  { destruct (Z.leb_spec (counter + d) 1000); [destruct Hff; lia|]. cbn. rewrite Z.add_0_r, u64_small by lia. f_equal. lia. }
  cbn [probe]. change (get_lut l (perm (offset i) (skip i) L nx) =? EMPTY) with (is_free l (choice i nx)). unfold BREAK_COUNTER.
  destruct (Z.eq_dec d 0) as [->|Hd].
  { destruct Hff as (_ & Hf & _). rewrite Z.add_0_r in Hf. rewrite Hf, !Z.add_0_r, u64_small by done. destruct (Z.leb_spec counter 1000); [done|lia]. }
  assert (0 < d) as Hd0 by (destruct Hff; lia). pose proof Hff as (_ & _ & Hn). specialize (Hn 0 ltac:(lia)). rewrite Z.add_0_r in Hn. rewrite Hn.
  destruct (Z.ltb_spec 1000 (counter + 1)) as [Hb|Hb].
  { destruct (Z.leb_spec (counter + d) 1000); [lia|]. replace (Z.of_nat (S left)) with 1 by lia. f_equal. lia. }
  rewrite (IH _ _ (d - 1)); [|by apply first_free_step; [|lia]|apply u64_range|lia|lia].
  assert (forall m, u64 (u64 (nx + 1) + m) = u64 (nx + 1 + m)) as Hu by (intros m; unfold u64, wrap; by rewrite Zplus_mod_idemp_l).
  replace (counter + 1 + (d - 1)) with (counter + d) by lia. rewrite !Hu.
  destruct (counter + d <=? 1000); f_equal; f_equal; lia.
Qed.

(** In any case a slot that is found is free. *)
Lemma probe_found left l i nx counter nx' counter' :
  probe L params left l i nx counter = (nx', counter') -> 0 <= nx < 2 ^ 64 -> counter + Z.of_nat left = 1001 ->
  0 <= nx' < 2 ^ 64 /\ (counter' < BREAK_COUNTER -> is_free l (choice i nx') = true).
Proof.
  revert nx counter. induction left as [|left IH]; intros nx counter E Hnx Hl; unfold BREAK_COUNTER in *; cbn [probe] in E.
  { injection E as <- <-. split; [done|lia]. }
  change (get_lut l (perm (offset i) (skip i) L nx) =? EMPTY) with (is_free l (choice i nx)) in E. unfold BREAK_COUNTER in E.
  destruct (is_free l (choice i nx)) eqn:Ef; [injection E as <- <-; by split|].
  destruct (Z.ltb_spec 1000 (counter + 1)); [injection E as <- <-; split; [apply u64_range|lia]|].
  apply IH in E; [done|apply u64_range|lia].
Qed.

(** ** A turn *)

Definition next_of (s : lut_state) (i : nat) : Z := default 0 (next s !! i).

Lemma next_range s i : lut_inv s -> 0 <= next_of s i < 2 ^ 64.
Proof. intros Hi. unfold next_of. destruct (next s !! i) eqn:E; cbn; [|lia]. apply (lv_nx _ Hi). by eapply list_elem_of_lookup_2. Qed.

(** A turn claims a slot, or only moves the backend on; with a slot in reach it
    claims it or gets closer. *)
Lemma turn_runs i s :
  lut_inv s -> (i < lbs)%nat ->
  exists b s', runs (turn L params i) s b s' /\ lut_inv s'
    /\ if (b : bool) then filled s' = filled s + 1 /\ exists nx, lut s' = <[Z.to_nat (choice i nx) := Z.of_nat i]> (lut s)
       else lut s' = lut s /\ filled s' = filled s /\ (forall j, j <> i -> next_of s' j = next_of s j)
         /\ forall d, first_free (lut s) i (next_of s i) d -> exists d', d' < d /\ first_free (lut s) i (next_of s' i) d'.
Proof.
  intros Hi Hlt. pose proof (next_range s i Hi) as Hnx. pose proof L_range as HL. unfold runs, turn. rewrite (bind_runs _ _ _ _ _ (runs_getw _)). fold (next_of s i).
  destruct (probe L params 1001 (lut s) i (next_of s i) 0) as [nx counter] eqn:Ep.
  destruct (probe_found _ _ _ _ _ _ _ Ep Hnx ltac:(lia)) as [Hnx' Hfree].
  destruct (Z.leb_spec BREAK_COUNTER counter) as [Hb|Hb].
  - exists false. eexists. rewrite (bind_runs _ _ _ _ _ (runs_modify _ _)). split; [done|].
    assert (next_of (s <| next := <[i := nx]> (next s) |>) i = nx) as Eni
      by (unfold next_of; cbn; rewrite list_lookup_insert_eq by (rewrite (lv_next _ Hi); done); done).
    split; [|split; [done|split; [done|split]]].
    + destruct Hi as [H1 H2 H3 H4 H5]. split; cbn; try done; [by rewrite length_insert|].
      intros x [->|Hx]%elem_of_insert_inv; [done|by apply H3].
    + intros j Hj. unfold next_of. cbn. by rewrite list_lookup_insert_ne.
    + intros d Hd. rewrite Eni. rewrite (probe_first _ _ _ _ _ d Hd Hnx) in Ep by lia. unfold BREAK_COUNTER in *.
      destruct (Z.leb_spec (0 + d) 1000); injection Ep as <- <-.
      * exists (d - d). split; [lia|]. apply first_free_step; [done|lia].
      * exists (d - 1001). split; [lia|]. apply (first_free_step _ _ _ _ 1001); [done|lia].
  - specialize (Hfree Hb). pose proof (choice_range i nx) as Hc. change (perm (offset i) (skip i) L nx) with (choice i nx).
    destruct (Z.leb_spec L (choice i nx)); [lia|]. exists true. eexists. rewrite (bind_runs _ _ _ _ _ (runs_modify _ _)). split; [done|].
    destruct Hi as [H1 H2 H3 H4 H5]. destruct (lookup_lt_is_Some_2 (lut s) (Z.to_nat (choice i nx))) as [x Hx]; [lia|].
    unfold is_free, get_lut in Hfree. rewrite Hx in Hfree. apply Z.eqb_eq in Hfree. cbn in Hfree. subst x.
    assert (used_slots (<[Z.to_nat (choice i nx) := Z.of_nat i]> (lut s)) = used_slots (lut s) + 1) as Hu.
    { unfold used_slots. rewrite (sum_of_insert _ _ _ _ _ Hx). destruct (Z.eqb_spec (Z.of_nat i) EMPTY); [unfold EMPTY in *; lia|]. cbn. lia. }
    pose proof (used_range (<[Z.to_nat (choice i nx) := Z.of_nat i]> (lut s))) as Hr. rewrite length_insert, Hu in Hr.
    pose proof (used_range (lut s)).
    assert (u64 (filled s + 1) = filled s + 1) as Ef by (apply u64_small; lia).
    split; [|split; [exact Ef|by exists nx]]. split; cbn.
    + by rewrite length_insert.
    + by rewrite length_insert.
    + intros y [->|Hy]%elem_of_insert_inv; [apply u64_range|by apply H3].
    + intros y [->|Hy]%elem_of_insert_inv; [right; lia|by apply H4].
    + etrans; [exact Ef|]. rewrite H5. symmetry. exact Hu.
Qed.

(** ** A pass over the backends *)

Lemma pass_runs todo s j :
  lut_inv s -> filled s < L -> NoDup todo -> (forall i, i ∈ todo -> (i < lbs)%nat) ->
  exists s', runs (pass L params todo) s tt s' /\ lut_inv s' /\ filled s <= filled s'
    /\ (filled s' = filled s -> lut s' = lut s /\ (j ∉ todo -> next_of s' j = next_of s j)
         /\ (j ∈ todo -> forall d, first_free (lut s) j (next_of s j) d -> exists d', d' < d /\ first_free (lut s) j (next_of s' j) d')).
Proof.
  revert s. induction todo as [|i todo IH]; intros s Hi Hlt Hnd Hin.
  { exists s. split; [done|]. split; [done|]. split; [lia|]. intros _. split; [done|]. split; [done|]. by intros ?%not_elem_of_nil. }
  apply list.NoDup_cons in Hnd as [Hni Hnd].
  destruct (turn_runs i s Hi (Hin i ltac:(by left))) as (b & s1 & R1 & Hi1 & Hb). cbn [pass]. unfold runs.
  rewrite (bind_runs _ _ _ _ _ R1), (bind_runs _ _ _ _ _ (runs_gets _ _)).
  destruct b; cbn [andb].
  - destruct Hb as [Hb _]. destruct (Z.leb_spec L (filled s1)); [exists s1; split; [done|]; split; [done|]; split; lia|].
    destruct (IH s1 Hi1) as (s2 & R2 & Hi2 & Hle & _); [done|done|intros; apply Hin; by right|].
    exists s2. split; [done|]. split; [done|]. split; lia.
  - destruct Hb as (El & Ef & Hother & Hd). destruct (IH s1 Hi1) as (s2 & R2 & Hi2 & Hle & Hsame); [lia|done|intros; apply Hin; by right|].
    exists s2. split; [done|]. split; [done|]. split; [lia|]. intros E2. destruct (Hsame ltac:(lia)) as (El2 & Hout & Hdd). rewrite El in *.
    split; [done|]. split.
    + intros [Hji Hjis]%not_elem_of_cons. by rewrite Hout, Hother.
    + intros [->|Hj]%elem_of_cons d Hf; [rewrite Hout by done; by apply Hd|].
      apply Hdd; [done|]. rewrite Hother; [done|]. by intros ->.
Qed.

(** ** Odd steps *)

Lemma odd_inverse a : Z.odd a = true -> exists t, (a * t) mod L = 1 mod L.
Proof.
  intros Ho. assert (rel_prime a L) as Hrp.
  { apply rel_prime_Zpower_r; [lia|]. apply Zgcd_1_rel_prime.
    apply Z.odd_spec in Ho as [m ->]. rewrite Z.gcd_comm, Z.add_comm, (Z.mul_comm 2 m), Z.gcd_add_mult_diag_r. done. }
  destruct (rel_prime_bezout _ _ Hrp) as [u v E]. exists u. replace (a * u) with (1 + (- v) * L) by lia. apply Z.mod_add. pose proof L_range. lia.
Qed.

(** A backend with an odd step reaches every slot within [L] steps. *)
Lemma choice_reaches i nx c : Z.odd (skip i) = true -> 0 <= c < L -> exists d, 0 <= d < L /\ choice i (nx + d) = c.
Proof.
  intros Ho Hc. pose proof L_range as HL. destruct (odd_inverse _ Ho) as (t & Ht). set (x := c - offset i - skip i * nx).
  exists ((t * x) mod L). split; [apply Z.mod_pos_bound; lia|]. rewrite choice_eq.
  rewrite Z.mul_add_distr_l, Z.add_assoc, Zplus_mod, Zmult_mod_idemp_r, Z.mul_assoc, Zmult_mod, Ht, <- Zmult_mod, <- Zplus_mod.
  rewrite Z.mul_1_l. unfold x. replace (offset i + skip i * nx + (c - offset i - skip i * nx)) with c by lia. by apply Z.mod_small.
Qed.

Lemma first_free_exists s i : lut_inv s -> filled s < L -> Z.odd (skip i) = true -> exists d, d < L /\ first_free (lut s) i (next_of s i) d.
Proof.
  intros Hi Hlt Ho. destruct (free_exists s Hi Hlt) as (c & Hc & Hf). destruct (choice_reaches i (next_of s i) c Ho Hc) as (d & Hd & Ec).
  rewrite <- Ec in Hf. clear c Hc Ec. revert Hd Hf. remember (Z.to_nat d) as m eqn:Em. revert d Em. induction m as [m IH] using lt_wf_ind. intros d -> Hd Hf.
  destruct (decide (Exists (fun e => is_free (lut s) (choice i (next_of s i + e)) = true) (seqZ 0 d))) as [Hex|Hno].
  - apply list.Exists_exists in Hex as (e & He & Hfe). apply elem_of_seqZ in He. apply (IH (Z.to_nat e)) with (d := e); [lia|done|lia|done].
  - exists d. split; [lia|]. split; [lia|]. split; [done|]. intros e He. apply not_true_is_false. intros Hfe. apply Hno, list.Exists_exists. exists e.
    split; [apply elem_of_seqZ; lia|done].
Qed.

(** ** The whole loop *)

Lemma fill_loop_runs j fuel s :
  lut_inv s -> (j < lbs)%nat -> Z.odd (skip j) = true -> (L - filled s) * (L + 1) < Z.of_nat fuel ->
  exists s', runs (fill_loop L params fuel lbs) s tt s' /\ lut_inv s' /\ L <= filled s'.
Proof.
  intros Hi Hj Ho Hf.
  assert (forall fuel s d, lut_inv s -> filled s < L -> first_free (lut s) j (next_of s j) d -> d < L ->
    (L - filled s) * (L + 1) + d < Z.of_nat fuel + L -> exists s', runs (fill_loop L params fuel lbs) s tt s' /\ lut_inv s' /\ L <= filled s') as Hloop.
  { clear -Hj Ho Hk Hlbs. induction fuel as [|fuel IH]; intros s d Hi Hlt Hd HdL Hf.
    { pose proof L_range. destruct Hd. nia. }
    unfold runs. cbn [fill_loop]. rewrite (bind_runs _ _ _ _ _ (runs_gets _ _)). destruct (Z.ltb_spec (filled s) L); [|lia].
    destruct (pass_runs (seq 0 lbs) s j Hi Hlt (NoDup_seq 0 lbs)) as (s1 & R1 & Hi1 & Hle & Hsame); [intros i ?%elem_of_seq; lia|].
    rewrite (bind_runs _ _ _ _ _ R1). destruct (Z.eq_dec (filled s1) (filled s)) as [E|Hne].
    - destruct (Hsame E) as (El & _ & Hdd). destruct (Hdd ltac:(apply elem_of_seq; lia) d Hd) as (d' & Hlt' & Hd'). rewrite <- El in Hd'.
      apply (IH s1 d' Hi1); [lia|done|lia|]. rewrite E. lia.
    - destruct (Z.lt_ge_cases (filled s1) L) as [Hlt1|Hge1].
      + destruct (first_free_exists s1 j Hi1 Hlt1 Ho) as (d' & HdL' & Hd'). apply (IH s1 d' Hi1); [done|done|done|]. destruct Hd. nia.
      + exists s1. split; [|done]. destruct fuel; [pose proof L_range; destruct Hd; nia|].
        cbn [fill_loop]. rewrite (bind_runs _ _ _ _ _ (runs_gets _ _)). by destruct (Z.ltb_spec (filled s1) L); [lia|]. }
  destruct (Z.lt_ge_cases (filled s) L) as [Hlt|Hge].
  - destruct (first_free_exists s j Hi Hlt Ho) as (d & HdL & Hd). apply (Hloop fuel s d); try done. lia.
  - exists s. split; [|done]. destruct fuel; [pose proof L_range; rewrite (lv_filled _ Hi) in *; pose proof (used_range (lut s)); rewrite (lv_len _ Hi) in *; nia|].
    unfold runs. cbn [fill_loop]. rewrite (bind_runs _ _ _ _ _ (runs_gets _ _)). by destruct (Z.ltb_spec (filled s) L); [lia|].
Qed.

(** ** Even steps *)

(** All slots of the other parity are free. *)
Definition half_free (b : bool) (l : list Z) : Prop := forall c, 0 <= c < L -> Z.odd c <> b -> is_free l c = true.

Lemma half_free_filled b s : 1 <= k -> lut_inv s -> half_free b (lut s) -> filled s < L.
Proof.
  intros Hk1 Hi Hf. rewrite (lv_filled _ Hi), <- (lv_len _ Hi). apply Z.nle_gt. intros Hall.
  set (c := if b then 0 else 1). assert (0 <= c < L) as Hc.
  { pose proof (Z.pow_le_mono_r 2 1 k ltac:(lia) Hk1). destruct b; cbn in *; lia. }
  specialize (Hf c Hc ltac:(by destruct b)). unfold is_free, get_lut in Hf. rewrite <- (lv_len _ Hi) in Hc.
  destruct (lookup_lt_is_Some_2 (lut s) (Z.to_nat c)) as [x Hx]; [lia|]. rewrite Hx in Hf. cbn in Hf. apply Z.eqb_eq in Hf. subst x.
  by apply (used_all _ Hall EMPTY); [by eapply list_elem_of_lookup_2|].
Qed.

Lemma choice_parity i nx : 1 <= k -> Z.odd (skip i) = false -> Z.odd (choice i nx) = Z.odd (offset i).
Proof.
  intros Hk1 Hs. rewrite choice_eq. replace k with (1 + (k - 1)) by lia. rewrite Z.pow_add_r, Z.pow_1_r by lia.
  set (y := offset i + skip i * nx). pose proof (Z.div_mod y (2 * 2 ^ (k - 1)) ltac:(pose proof (Z.pow_pos_nonneg 2 (k - 1)); lia)) as E.
  assert (Z.odd y = Z.odd (offset i)) as <- by (unfold y; rewrite Z.odd_add, Z.odd_mul, Hs; cbn; by rewrite xorb_false_r).
  rewrite E at 2. by rewrite Z.odd_add, <- !Z.mul_assoc, Z.odd_mul.
Qed.

Lemma pass_half_free b todo s :
  1 <= k -> (forall i, i ∈ todo -> (i < lbs)%nat /\ Z.odd (skip i) = false /\ Z.odd (offset i) = b) ->
  lut_inv s -> half_free b (lut s) ->
  exists s', runs (pass L params todo) s tt s' /\ lut_inv s' /\ half_free b (lut s').
Proof.
  intros Hk1. revert s. induction todo as [|i todo IH]; intros s Hall Hi Hf; [by exists s|].
  destruct (Hall i ltac:(by left)) as (Hlt & Hs & Ho). destruct (turn_runs i s Hi Hlt) as (c & s1 & R1 & Hi1 & Hc).
  assert (half_free b (lut s1)) as Hf1.
  { destruct c; [|by rewrite (proj1 Hc)]. destruct Hc as (_ & nx & ->). intros c Hc Hpar. unfold is_free, get_lut.
    rewrite list_lookup_insert_ne; [by apply Hf|]. pose proof (choice_range i nx). intros E. assert (choice i nx = c) as <- by lia.
    apply Hpar. by rewrite choice_parity. }
  unfold runs. cbn [pass]. rewrite (bind_runs _ _ _ _ _ R1), (bind_runs _ _ _ _ _ (runs_gets _ _)).
  destruct (c && (L <=? filled s1)); [by exists s1|]. apply IH; try done. intros i' Hi'. apply Hall. by right.
Qed.

Lemma fill_loop_stuck b fuel s :
  1 <= k -> (forall i, (i < lbs)%nat -> Z.odd (skip i) = false /\ Z.odd (offset i) = b) ->
  lut_inv s -> half_free b (lut s) -> fill_loop L params fuel lbs s = Fault NoFuel.
Proof.
  intros Hk1 Hall. revert s. induction fuel as [|fuel IH]; intros s Hi Hf; [done|]. cbn [fill_loop].
  rewrite (bind_runs _ _ _ _ _ (runs_gets _ _)). pose proof (half_free_filled b s Hk1 Hi Hf). destruct (Z.ltb_spec (filled s) L); [|lia].
  destruct (pass_half_free b (seq 0 lbs) s Hk1) as (s1 & R1 & Hi1 & Hf1); [|done|done|].
  { intros i [_ Hlt]%elem_of_seq. split; [lia|]. by apply Hall. }
  rewrite (bind_runs _ _ _ _ _ R1). by apply IH.
Qed.
End proofs.

(** ** The tables of the load balancer *)

Definition skip_of (pfx : list Z) (stack : nat -> list Z) (lut_len : Z) (i : nat) : Z :=
  XXH64 (backend_name pfx i (stack i)) 0 mod (lut_len - 1) + 1.
Definition offset_of (pfx : list Z) (stack : nat -> list Z) (lut_len : Z) (i : nat) : Z :=
  XXH64 (backend_name pfx i (stack i)) 1 mod lut_len.

Lemma params_run {W} pfx stack k todo (w : W) :
  1 <= k <= 63 ->
  runs (backend_params pfx stack (2 ^ k) todo) w ((fun i => (offset_of pfx stack (2 ^ k) i, skip_of pfx stack (2 ^ k) i)) <$> todo) w.
Proof.
  intros Hk. pose proof (Z.pow_le_mono_r 2 1 k ltac:(lia) ltac:(lia)) as H2. pose proof (Z.pow_lt_mono_r 2 k 64 ltac:(lia) ltac:(lia) ltac:(lia)).
  induction todo as [|i todo IH]; [done|]. unfold runs. cbn [backend_params]. unfold compute_offset_and_skip.
  rewrite (u64_small (2 ^ k - 1)) by lia. destruct (Z.eqb_spec (2 ^ k) 0); [lia|]. destruct (Z.eqb_spec (2 ^ k - 1) 0); [lia|].
  rewrite bind_ret, (bind_runs _ _ _ _ _ IH). unfold mret, cmd_ret. do 4 f_equal. unfold skip_of.
  pose proof (Z.mod_pos_bound (XXH64 (backend_name pfx i (stack i)) 0) (2 ^ k - 1) ltac:(lia)). by rewrite u64_small by lia.
Qed.

Definition new_lut (k : Z) (lbs : nat) : lut_state := mk_lut (replicate (Z.to_nat (2 ^ k)) EMPTY) (replicate lbs 0) 0.

Lemma generate_unfold fuel pfx stack lbs k s :
  1 <= k <= 63 ->
  generate_lut fuel pfx stack lbs (2 ^ k) s
  = fill_loop (2 ^ k) ((fun i => (offset_of pfx stack (2 ^ k) i, skip_of pfx stack (2 ^ k) i)) <$> seq 0 lbs) fuel lbs (new_lut k lbs).
Proof.
  intros Hk. unfold generate_lut. rewrite !(bind_runs _ _ _ _ _ (runs_modify _ _)), (bind_runs _ _ _ _ _ (params_run _ _ _ _ _ Hk)).
  by rewrite (bind_runs _ _ _ _ _ (runs_modify _ _)).
Qed.

Lemma new_lut_inv k lbs : 0 <= k <= 63 -> lut_inv k lbs (new_lut k lbs).
Proof.
  intros Hk. pose proof (Z.pow_pos_nonneg 2 k ltac:(lia) ltac:(lia)). split; cbn.
  - rewrite length_replicate. lia.
  - apply length_replicate.
  - intros x [-> _]%elem_of_replicate. lia.
  - intros x [-> _]%elem_of_replicate. by left.
  - unfold used_slots. induction (Z.to_nat (2 ^ k)) as [|m IH]; cbn; [done|]. by rewrite <- IH.
Qed.

Lemma new_lut_free k lbs c : 0 <= c < 2 ^ k -> is_free (lut (new_lut k lbs)) c = true.
Proof. intros Hc. unfold is_free, get_lut. cbn. by rewrite lookup_replicate_2 by lia. Qed.

Lemma params_lookup pfx stack L lbs i :
  (i < lbs)%nat ->
  let ps := (fun i => (offset_of pfx stack L i, skip_of pfx stack L i)) <$> seq 0 lbs in
  offset ps i = offset_of pfx stack L i /\ skip ps i = skip_of pfx stack L i.
Proof. intros Hi. unfold offset, skip. by rewrite list_lookup_fmap, lookup_seq_lt by done. Qed.

(** Filling the table takes [(lut_len + 1)^2] passes at most. *)
Lemma generate_lut_runs fuel pfx stack lbs k j s :
  1 <= k <= 63 -> Z.of_nat lbs <= EMPTY -> (j < lbs)%nat -> Z.odd (skip_of pfx stack (2 ^ k) j) = true ->
  (2 ^ k + 1) * (2 ^ k + 1) <= Z.of_nat fuel ->
  exists s', runs (generate_lut fuel pfx stack lbs (2 ^ k)) s tt s' /\ Z.of_nat (length (lut s')) = 2 ^ k
    /\ forall c, 0 <= c < 2 ^ k -> exists b, lut s' !! Z.to_nat c = Some b /\ 0 <= b < Z.of_nat lbs.
Proof.
  intros Hk Hlbs Hj Ho Hf. unfold runs. rewrite generate_unfold by done. set (ps := _ <$> seq 0 lbs).
  pose proof (new_lut_inv k lbs ltac:(lia)) as Hi.
  destruct (fill_loop_runs k ltac:(lia) ps lbs Hlbs j fuel (new_lut k lbs) Hi Hj) as (s' & R & Hi' & Hfull).
  { rewrite <- Ho. f_equal. by apply (params_lookup pfx stack (2 ^ k) lbs j). }
  { cbn. pose proof (Z.pow_pos_nonneg 2 k). nia. }
  exists s'. split; [exact R|]. split; [apply Hi'|]. intros c Hc. rewrite <- (lv_len _ _ _ Hi') in Hc, Hfull.
  destruct (lookup_lt_is_Some_2 (lut s') (Z.to_nat c)) as [b Hb]; [lia|]. exists b. split; [done|]. apply list_elem_of_lookup_2 in Hb.
  destruct (lv_slot _ _ _ Hi' b Hb) as [->|]; [|done]. rewrite (lv_filled _ _ _ Hi') in Hfull. by destruct (used_all lbs _ Hfull EMPTY Hb).
Qed.

(** C32: [generate_lut] ends and fills the table. For a table whose length is a
    power of two, as those of the program, at most 0x8000 backends, one of
    which has an odd step, every slot gets the number of a backend; the bytes
    behind the names may be anything. At most [(lut_len + 1)^2] passes over the
    backends are needed, although a backend gives up after 1001 steps. *)
Theorem generate_lut_fills fuel pfx stack lbs k j s :
  1 <= k <= 63 -> Z.of_nat lbs <= EMPTY -> (j < lbs)%nat -> Z.odd (skip_of pfx stack (2 ^ k) j) = true ->
  (2 ^ k + 1) * (2 ^ k + 1) <= Z.of_nat fuel ->
  exists s', runs (generate_lut fuel pfx stack lbs (2 ^ k)) s tt s' /\ Z.of_nat (length (lut s')) = 2 ^ k
    /\ forall c, 0 <= c < 2 ^ k -> exists b, lut s' !! Z.to_nat c = Some b /\ 0 <= b < Z.of_nat lbs.
Proof. apply generate_lut_runs. Qed.

(** C33: [generate_lut] may never end. If all steps are even and the starts
    have the same parity, in particular if there is one backend with an even
    step, half of the table stays free and the loop goes on for ever. *)
Theorem generate_lut_never_ends fuel pfx stack lbs k b s :
  1 <= k <= 63 -> Z.of_nat lbs <= EMPTY ->
  (forall i, (i < lbs)%nat -> Z.odd (skip_of pfx stack (2 ^ k) i) = false /\ Z.odd (offset_of pfx stack (2 ^ k) i) = b) ->
  generate_lut fuel pfx stack lbs (2 ^ k) s = Fault NoFuel.
Proof.
  intros Hk Hlbs Hall. rewrite generate_unfold by done. apply (fill_loop_stuck k ltac:(lia) _ lbs Hlbs b); [lia| |apply new_lut_inv; lia|].
  - intros i Hi. destruct (params_lookup pfx stack (2 ^ k) lbs i Hi) as [Eo Es], (Hall i Hi) as [H1 H2]. split; congruence.
  - intros c Hc _. by apply new_lut_free.
Qed.

(** Three load balancers, and one, with eight slots. *)
Definition lbs_prefix : list Z := [108; 98; 115].
Definition zero_stack (i : nat) : list Z := replicate 64 0.
Definition no_lut : lut_state := mk_lut [] [] 0.

Lemma generate_lut_fills_witness :
  exists s', runs (generate_lut 81 lbs_prefix zero_stack 3 (2 ^ 3)) no_lut tt s' /\ length (lut s') = 8%nat.
Proof.
  destruct (generate_lut_fills 81 lbs_prefix zero_stack 3 3 1 no_lut) as (s' & R & Hl & _);
    [lia|unfold EMPTY; lia|lia|vm_compute; reflexivity|lia|]. exists s'. split; [done|]. change (2 ^ 3) with 8 in Hl. lia.
Defined.

Lemma generate_lut_never_ends_witness : generate_lut 1000 lbs_prefix zero_stack 1 (2 ^ 3) no_lut = Fault NoFuel.
Proof.
  apply (generate_lut_never_ends 1000 lbs_prefix zero_stack 1 3 false); [lia|unfold EMPTY; lia|].
  intros i Hi. assert (i = 0%nat) as -> by lia. vm_compute. done.
Defined.
