(* ===== verification/Lb.v ===== *)
(** * Lb: the load balancer (apps/cuckoo-lb/main.cc and cuckoo_map.h)

    Each load balancer owns some partitions of the connections, one table of
    backends per partition, and has copies of the other tables. A packet of a
    connection that has no entry gets one if the table is the process's own;
    otherwise the owner is asked for it by a remote procedure call.

    [cuckoo_map.h] is the file of apps/cuckoo-map with another [Create], which
    does not clear the buckets, and a flag [ready_]; the flag does not move the
    other fields. What [tasvir_service] does to the process, incoming calls and
    new copies of tables, is a list of [event]s per call. The loop of [Insert] has
    a bound of its own, [insert_fuel]; two rounds are enough for a table with a
    free entry, which the tables here always have ([affine_room]). *)
From stdpp Require Import base gmap list numbers.
From Stdlib Require Import ZArith Lia.
From S2P Require Import Prelude Cuckoo CuckooSlots CuckooSpace CuckooProofs CuckooOps CuckooCreate CuckooTable CuckooCount MonitorProofs XxHash LbLut.

Definition BUCKETS : Z := Z.shiftl 1 18.
Definition ENTRIES : Z := BUCKETS * 4.
Definition FLOWS_IN_SYSTEM : Z := 1000000.
Definition REPLACEMENT_RATE : Z := 1000.
Definition LUT_SIZE : Z := 2048.
Definition MAX_LBS : Z := 1024.
Definition BATCH_SIZE : Z := 32.
Definition ADDR_RANGE : Z := 1000000.
Definition REPORT_SECS : Z := 1.
Definition RUN_SECS : Z := 30.
Definition CLOCKS_PER_SEC : Z := 1000000.

(** ** The table with a flag *)

Record ConnectionTable := mk_ct { ready_ : bool; cuckoo : CuckooMap Z Z }.
#[export] Instance eta_ConnectionTable : Eta ConnectionTable := fun r => mk_ct (ready_ r) (cuckoo r).

Definition IsReady (t : ConnectionTable) : bool := ready_ t.

Definition in_cuckoo {A} (c : cmd (CuckooMap Z Z) A) : cmd ConnectionTable A := fun t =>
  match c (cuckoo t) with Done (a, s) => Done (a, t <| cuckoo := s |>) | Fault f => Fault f end.

Definition ClearInit : cmd ConnectionTable unit :=
  in_cuckoo (
    Stack_Clear;;
    modify (fun s => s <| num_entries_ := 0 |> <| bucket_mask_ := u32 (alloc_num_buckets_ s - 1) |>);;
    s ← getw;
    for_each (rev (seqZ 0 (alloc_num_entries_ s))) (fun i => _ ← PushNoLog i; mret tt);;
    InvalidateStack);;
  modify (fun t => t <| ready_ := true |>);;
  in_cuckoo (s ← getw; mark (this s) sizeof_CuckooMap).

Definition LbClear : cmd ConnectionTable unit :=
  in_cuckoo (
    s ← getw;
    bs ← memset0 Bucket0 (alloc_num_buckets_ s) (bucket_mem s);
    modify (fun s => s <| bucket_mem := bs |>);;
    es ← memset0 Entry0 (alloc_num_entries_ s) (entry_mem s);
    modify (fun s => s <| entry_mem := es |> <| num_entries_ := 0 |> <| bucket_mask_ := u32 (alloc_num_buckets_ s - 1) |>));;
  ClearInit;;
  in_cuckoo (s ← getw; mark (this s) (Size (alloc_num_entries_ s) (alloc_num_buckets_ s))).

(** [Create] up to the call of [ClearInit], on the fields of the table. *)
Definition LbCreate (area area_size entries buckets : Z) : cmd ConnectionTable bool :=
  if area_size <? Size (K := Z) (V := Z) entries buckets then mret false
  else if (buckets =? 0) || (entries =? 0) || negb (Z.land buckets (buckets - 1) =? 0) || (entries <? buckets)
  then mret false
  else
    let estack := area + sizeof_CuckooMap in
    ok ← in_cuckoo (EntryStack_Create estack (area_size - sizeof_CuckooMap) entries);
    if negb ok then mret false
    else
      let entry_array := estack + BytesForEntries entries in
      in_cuckoo (modify (fun s =>
        s <| this := area |> <| free_entry_indices_ := estack |> <| entries_ := entry_array |>
          <| buckets_ := entry_array + sizeof_Entry (K := Z) (V := Z) * entries |>
          <| alloc_num_buckets_ := i32 buckets |> <| alloc_num_entries_ := i32 entries |>
          <| num_entries_ := 0 |> <| bucket_mask_ := u32 (buckets - 1) |>));;
      ClearInit;;
      mret true.

(** ** The state of a load balancer *)

(** The functions called remotely, with the table whose owner is called. *)
Inductive call := CallFind (tbl : nat) (address : Z) | CallRem (tbl : nat) (address : Z).

Inductive event :=
| EvFind (arg : Z)                          (** a call of [rpc_find_be] *)
| EvRem (arg : Z)                           (** a call of [rpc_rem] *)
| EvSync (tbl : nat) (t : ConnectionTable). (** a new copy of a table *)

(** The global and static variables, the two arrays of [test], the calls made,
    last first, and the lines printed. The inputs are what each call of
    [tasvir_service] and of [clock] brings. *)
Record lb := mk_lb {
  id : Z;
  init : bool;
  tables : list ConnectionTable;
  lut_backend : list Z;
  lut_lb : list Z;
  served : Z;
  writes : Z;
  removes : Z;
  fills : Z;
  rpc_calls : Z;
  lookup_rpcs : Z;
  rpc_recd : Z;
  seed : Z;
  seed1 : Z;
  flows : list Z;
  deleted : list Z;
  calls : list call;
  printed : list (list Z);
  arrivals : list (list event);
  clocks : list Z;
}.
#[export] Instance eta_lb : Eta lb := fun r =>
  mk_lb (id r) (init r) (tables r) (lut_backend r) (lut_lb r) (served r) (writes r) (removes r) (fills r) (rpc_calls r)
    (lookup_rpcs r) (rpc_recd r) (seed r) (seed1 r) (flows r) (deleted r) (calls r) (printed r) (arrivals r) (clocks r).

Definition lcg (seed : Z) : Z := u64 (seed * 1103515245 + 12345).

Definition fast_random : cmd lb Z :=
  modify (fun w => w <| seed := lcg (seed w) |>);; s ← gets seed; mret (u32 (Z.shiftr s 32)).

Definition fast_random1 : cmd lb Z :=
  modify (fun w => w <| seed1 := lcg (seed1 w) |>);; s ← gets seed1; mret (u32 (Z.shiftr s 32)).

(** [tables[tbl]->...] *)
Definition on_table {A} (tbl : nat) (c : cmd (CuckooMap Z Z) A) : cmd lb A := fun w =>
  match tables w !! tbl with
  | None => Fault Segv
  | Some t => match in_cuckoo c t with
              | Done (a, t') => Done (a, w <| tables := <[tbl := t']> (tables w) |>)
              | Fault f => Fault f
              end
  end.

Definition get_at (l : list Z) (i : Z) : cmd lb Z :=
  match l !! Z.to_nat i with Some x => mret x | None => fail OutOfBounds end.

Definition inc (x : Z) : Z := u64 (x + 1).

(** [tasvir_rpc]: the call is sent; the code does not use the result. *)
Definition tasvir_rpc (c : call) : cmd lb unit := modify (fun w => w <| calls := c :: calls w |>).

Section with_fuel.
(** Rounds of the loop in [Insert]. *)
Context (insert_fuel : nat).

Definition find_backend (owner : Z) (tbl : nat) (address : Z) : cmd lb Z :=
  entry ← on_table tbl (Find address);
  modify (fun w => w <| served := inc (served w) |>);;
  match entry with
  | None =>
      me ← gets id;
      if me =? owner then
        let idx := address mod LUT_SIZE in
        luts ← gets lut_backend;
        target ← get_at luts idx;
        insert ← on_table tbl (Insert insert_fuel address target);
        modify (fun w => w <| writes := inc (writes w) |>);;
        match insert with
        | None => modify (fun w => w <| fills := inc (fills w) |>);; mret target
        | Some _ => mret target
        end
      else
        tasvir_rpc (CallFind tbl address);;
        modify (fun w => w <| lookup_rpcs := inc (lookup_rpcs w) |> <| rpc_calls := inc (rpc_calls w) |>);;
        mret 0
  | Some idx => e ← on_table tbl (get_entry idx); mret (second e)
  end.

Definition remove_address (tbl : nat) (address : Z) : cmd lb unit :=
  entry ← on_table tbl (Find address);
  match entry with
  | None => mret tt
  | Some _ =>
      modify (fun w => w <| removes := inc (removes w) |>);;
      _ ← on_table tbl (Remove address); mret tt
  end.

(** [lut_lb[arg % LUT_SIZE]] *)
Definition partition_of (arg : Z) : cmd lb nat :=
  luts ← gets lut_lb; target ← get_at luts (arg mod LUT_SIZE); mret (Z.to_nat target).

Definition rpc_rem (arg : Z) : cmd lb Z :=
  target ← partition_of arg;
  modify (fun w => w <| rpc_recd := inc (rpc_recd w) |>);;
  ready ← gets init;
  if negb ready then mret 0 else remove_address target arg;; mret 0.

Definition rpc_find_be (arg : Z) : cmd lb Z :=
  target ← partition_of arg;
  modify (fun w => w <| rpc_recd := inc (rpc_recd w) |>);;
  ready ← gets init;
  if negb ready then mret 0 else me ← gets id; find_backend me target arg.

Definition handle (e : event) : cmd lb unit :=
  match e with
  | EvFind arg => _ ← rpc_find_be arg; mret tt
  | EvRem arg => _ ← rpc_rem arg; mret tt
  | EvSync tbl t => modify (fun w => w <| tables := <[tbl := t]> (tables w) |>)
  end.

Definition tasvir_service : cmd lb unit :=
  l ← gets arrivals;
  match l with
  | [] => mret tt
  | es :: rest => modify (fun w => w <| arrivals := rest |>);; for_each es handle
  end.

(** [clock()]; the run stops short when the readings end. *)
Definition clock : cmd lb Z :=
  l ← gets clocks;
  match l with [] => fail NoFuel | c :: rest => modify (fun w => w <| clocks := rest |>);; mret c end.

(** ** The test *)

Definition set_flow (i : Z) : cmd lb unit :=
  r ← fast_random1;
  l ← gets flows;
  _ ← get_at l i;
  modify (fun w => w <| flows := <[Z.to_nat i := r mod ADDR_RANGE]> l |>).

(** [generate_flows(&flows[start], deleted, change)] *)
Definition generate_flows (start change : Z) : cmd lb unit :=
  for_each (seqZ 0 change) (fun i =>
    l ← gets flows;
    old ← get_at l (start + i);
    d ← gets deleted;
    _ ← get_at d i;
    modify (fun w => w <| deleted := <[Z.to_nat i := old]> d |>);;
    set_flow (start + i)).

(** A packet of the batch. *)
Definition serve_packet (lbs : Z) : cmd lb unit :=
  r ← fast_random;
  l ← gets flows;
  val ← get_at l (r mod FLOWS_IN_SYSTEM);
  target ← partition_of val;
  if lbs =? 0 then fail DivByZero
  else _ ← find_backend (Z.of_nat target mod lbs) target val; mret tt.

(** A turn of the loop over [deleted]; returns [del_rpcs]. *)
Definition remove_flow (lbs rem del_rpcs : Z) : cmd lb Z :=
  d ← gets deleted;
  val ← get_at d rem;
  target ← partition_of val;
  me ← gets id;
  if lbs =? 0 then fail DivByZero
  else
    del_rpcs ← (if Z.of_nat target mod lbs =? me then remove_address target val;; mret del_rpcs
                else tasvir_rpc (CallRem target val);;
                     modify (fun w => w <| rpc_calls := inc (rpc_calls w) |>);;
                     mret (inc del_rpcs));
    (if negb (rem mod BATCH_SIZE =? 0) then tasvir_service else mret tt);;
    mret del_rpcs.

Fixpoint remove_flows (lbs : Z) (rems : list Z) (del_rpcs : Z) : cmd lb Z :=
  match rems with
  | [] => mret del_rpcs
  | rem :: rems' => del_rpcs ← remove_flow lbs rem del_rpcs; remove_flows lbs rems' del_rpcs
  end.

Definition report (secs del_rpcs : Z) : cmd lb unit :=
  modify (fun w => w <| printed :=
    [secs; served w; rpc_recd w; rpc_calls w; writes w; fills w; removes w; lookup_rpcs w; del_rpcs] :: printed w |>).

(** [while (true)], with the local variables that change. *)
Fixpoint test_loop (fuel : nat) (lbs now seconds_run replacement_index del_rpcs : Z) : cmd lb unit :=
  match fuel with
  | O => fail NoFuel
  | S fuel' =>
      for_each (seqZ 0 BATCH_SIZE) (fun _ => serve_packet lbs);;
      tasvir_service;;
      current ← clock;
      let secs := Z.quot (current - now) CLOCKS_PER_SEC in
      if REPORT_SECS <=? secs then
        report secs del_rpcs;;
        let seconds_run := i32 (seconds_run + 1) in
        if RUN_SECS <=? seconds_run then mret tt
        else
          generate_flows (replacement_index * REPLACEMENT_RATE) REPLACEMENT_RATE;;
          let replacement_index := (replacement_index + 1) mod (FLOWS_IN_SYSTEM / REPLACEMENT_RATE) in
          modify (fun w => w <| served := 0 |> <| rpc_calls := 0 |> <| rpc_recd := 0 |> <| writes := 0 |>
                             <| fills := 0 |> <| removes := 0 |> <| lookup_rpcs := 0 |>);;
          del_rpcs ← remove_flows lbs (seqZ 0 REPLACEMENT_RATE) 0;
          tasvir_service;;
          test_loop fuel' lbs current seconds_run replacement_index del_rpcs
      else test_loop fuel' lbs now seconds_run replacement_index del_rpcs
  end.

(** [test]; the memory [new] returns is what the two arrays hold before. *)
Definition test (fuel : nat) (lbs : Z) : cmd lb unit :=
  now ← clock;
  modify (fun w => w <| served := 0 |> <| rpc_calls := 0 |> <| rpc_recd := 0 |> <| writes := 0 |> <| lookup_rpcs := 0 |>);;
  for_each (seqZ 0 FLOWS_IN_SYSTEM) set_flow;;
  test_loop fuel lbs now 0 0 0.

(** The look-up tables the first process makes, on areas that hold anything. *)
Definition make_luts (fuel : nat) (stack1 stack2 : nat -> list Z) (lb_partitions backends : nat) : cmd lb unit := fun w =>
  match generate_lut fuel [108; 98; 115] stack1 lb_partitions LUT_SIZE (mk_lut (lut_lb w) [] 0) with
  | Fault f => Fault f
  | Done (_, s1) =>
      match generate_lut fuel [98; 97; 99; 107; 101; 110; 100] stack2 backends LUT_SIZE (mk_lut (lut_backend w) [] 0) with
      | Fault f => Fault f
      | Done (_, s2) => Done (tt, w <| lut_lb := lut s1 |> <| lut_backend := lut s2 |>)
      end
  end.

(** ** The start *)

(** [for (i = id; i < lb_partitions; i += lbs) allocate_table(i)]: the tables
    the process allocates. *)
Fixpoint allocated (fuel : nat) (i lb_partitions lbs : Z) : option (list Z) :=
  match fuel with
  | O => None
  | S fuel' => if i <? lb_partitions then cons i <$> allocated fuel' (u64 (i + lbs)) lb_partitions lbs else Some []
  end.

(** The tables it attaches to. *)
Definition attached (me lb_partitions lbs : Z) : list Z := filter (fun i => i mod lbs <> me) (seqZ 0 lb_partitions).

(** [tables[i] = ConnectionTable::Create(...)] on the data of area [i]. *)
Definition create_table (data : nat -> Z) (i : nat) : cmd lb unit := fun w =>
  match tables w !! i with
  | None => Fault Segv
  | Some t => match LbCreate (data i) (Size (K := Z) (V := Z) ENTRIES BUCKETS) ENTRIES BUCKETS t with
              | Done (_, t') => Done (tt, w <| tables := <[i := t']> (tables w) |>)
              | Fault f => Fault f
              end
  end.

(** [do tasvir_service(); while (!tables[i]->IsReady());] *)
Fixpoint wait_ready (fuel : nat) (i : nat) : cmd lb unit :=
  match fuel with
  | O => fail NoFuel
  | S fuel' =>
      tasvir_service;;
      ts ← gets tables;
      match ts !! i with
      | None => fail Segv
      | Some t => if negb (IsReady t) then wait_ready fuel' i else mret tt
      end
  end.

Definition make_tables (fuel : nat) (data : nat -> Z) (lb_partitions : nat) (lbs : Z) : cmd lb unit :=
  for_each (seq 0 lb_partitions) (fun i =>
    me ← gets id;
    (if Z.of_nat i mod lbs =? me then create_table data i else mret tt);;
    wait_ready fuel i).

(** The end of [main], after the first process has made the look-up tables. *)
Definition serve (fuel : nat) (data : nat -> Z) (lb_partitions : nat) (lbs : Z) : cmd lb unit :=
  make_tables fuel data lb_partitions lbs;;
  modify (fun w => w <| init := true |>);;
  test fuel lbs.
End with_fuel.
