(* ===== verification/LbProofs.v ===== *)
(** * LbProofs: every connection keeps its backend

    The tables of a load balancer hold, for every address in them, the backend
    the look-up table names, whatever calls and copies of tables arrive; the
    program runs to its end without a fault. *)
From stdpp Require Import base gmap list numbers.
From Stdlib Require Import ZArith Lia.
From S2P Require Import Prelude Cuckoo CuckooSlots CuckooSpace CuckooProofs CuckooOps CuckooCreate CuckooTable CuckooCount MonitorProofs XxHash LbLut Lb.

Local Arguments seqZ : simpl never.
Local Arguments Z.to_nat : simpl never.
Local Arguments Nat.leb : simpl never.

(** ** Tables *)

Lemma sizes_ok : pow2 BUCKETS /\ BUCKETS <= ENTRIES < 2 ^ 31 /\ ENTRIES = 1048576.
Proof. split; [by exists 18|]. by vm_compute. Qed.
#[local] Opaque BUCKETS ENTRIES.

Lemma range_size {V} (M : gmap Z V) n : 0 <= n -> (forall k v, M !! k = Some v -> 0 <= k < n) -> Z.of_nat (size M) <= n.
Proof.
  intros Hn HM. assert (size (dom M) <= size (list_to_set (seqZ 0 n) : gset Z))%nat as Hle.
  { apply subseteq_size. intros k [v Hk]%elem_of_dom. apply elem_of_list_to_set, elem_of_seqZ. specialize (HM k v Hk). lia. }
  rewrite size_dom, size_list_to_set, length_seqZ in Hle by apply NoDup_seqZ. lia.
Qed.

(** The backend of an address. *)
Definition backend_is (lutb : list Z) (a b : Z) : Prop := lutb !! Z.to_nat (a mod LUT_SIZE) = Some b.

(** The table holds addresses the program generates, each with its backend. *)
Definition affine (lutb : list Z) (M : gmap Z Z) : Prop :=
  forall a b, M !! a = Some b -> 0 <= a < ADDR_RANGE /\ backend_is lutb a b.

Definition table_ok (lutb : list Z) (t : ConnectionTable) : Prop :=
  ready_ t = true /\ exists M, is_map (cuckoo t) BUCKETS ENTRIES M /\ affine lutb M.

Definition event_ok (lutb : list Z) (e : event) : Prop :=
  match e with
  | EvFind arg => 0 <= arg < ADDR_RANGE
  | EvRem arg => 0 <= arg
  | EvSync _ t => table_ok lutb t
  end.

(** What holds while a load balancer runs. *)
Record lb_inv (w : lb) : Prop := {
  li_tables : Forall (table_ok (lut_backend w)) (tables w);
  li_backends : Z.of_nat (length (lut_backend w)) = LUT_SIZE;
  li_lut : Z.of_nat (length (lut_lb w)) = LUT_SIZE;
  li_targets x : x ∈ lut_lb w -> 0 <= x < Z.of_nat (length (tables w));
  li_arrivals : Forall (Forall (event_ok (lut_backend w))) (arrivals w);
}.

(** What the operations leave alone. *)
Record same_setup (w w' : lb) : Prop := {
  ss_id : id w' = id w;
  ss_init : init w' = init w;
  ss_backends : lut_backend w' = lut_backend w;
  ss_lut : lut_lb w' = lut_lb w;
  ss_flows : flows w' = flows w;
  ss_deleted : deleted w' = deleted w;
  ss_clocks : clocks w' = clocks w;
  ss_printed : printed w' = printed w;
}.

#[export] Instance same_setup_po : PreOrder same_setup.
Proof. split; [by intros w|]. intros w1 w2 w3 [] []. split; congruence. Qed.

Definition steps {A} (c : cmd lb A) (w : lb) : Prop := exists a w', runs c w a w' /\ lb_inv w' /\ same_setup w w'.

Lemma steps_ret {A} (a : A) w : lb_inv w -> steps (mret a) w.
Proof. intros Hi. by exists a, w. Qed.

Lemma steps_bind {A B} (c : cmd lb A) (f : A -> cmd lb B) w :
  steps c w -> (forall a w', runs c w a w' -> lb_inv w' -> same_setup w w' -> steps (f a) w') -> steps (c ≫= f) w.
Proof.
  intros (a & w1 & R1 & Hi1 & Hs1) Hf. destruct (Hf a w1 R1 Hi1 Hs1) as (b & w2 & R2 & Hi2 & Hs2). exists b, w2.
  split; [unfold runs; by rewrite (bind_runs _ _ _ _ _ R1)|]. split; [done|]. by etrans.
Qed.

Lemma steps_gets {A B} (g : lb -> A) (f : A -> cmd lb B) w : steps (f (g w)) w -> steps (gets g ≫= f) w.
Proof. intros (b & w' & R & H). by exists b, w'. Qed.

Lemma steps_modify {B} (g : lb -> lb) (f : unit -> cmd lb B) w :
  same_setup w (g w) -> steps (f tt) (g w) -> steps (modify g ≫= f) w.
Proof. intros Hs (b & w' & R & Hi & Hs'). exists b, w'. split; [done|]. split; [done|]. by etrans. Qed.

Lemma steps_get_at {B} (l : list Z) i (f : Z -> cmd lb B) w :
  0 <= i < Z.of_nat (length l) -> (forall x, l !! Z.to_nat i = Some x -> x ∈ l -> steps (f x) w) -> steps (get_at l i ≫= f) w.
Proof.
  intros Hi Hf. unfold get_at. destruct (lookup_lt_is_Some_2 l (Z.to_nat i)) as [x Hx]; [lia|]. rewrite Hx.
  apply Hf; [done|]. by eapply list_elem_of_lookup_2.
Qed.

Lemma for_each_steps {A} (body : A -> cmd lb unit) l w :
  lb_inv w -> (forall x w1, x ∈ l -> lb_inv w1 -> same_setup w w1 -> steps (body x) w1) -> steps (for_each l body) w.
Proof.
  intros Hi0 Hb. enough (forall w1, lb_inv w1 -> same_setup w w1 -> steps (for_each l body) w1) as H by by apply H.
  induction l as [|x l IH]; intros w1 Hi Hs; [by apply steps_ret|].
  cbn [for_each]. apply steps_bind; [apply Hb; [by left|done|done]|]. intros [] w2 _ Hi2 Hs2.
  apply IH; [|done|by etrans]. intros y w3 Hy. apply Hb. by right.
Qed.

Section with_fuel.
Context (insert_fuel : nat) (Hinsert : (2 <= insert_fuel)%nat).
#[local] Abbreviation find_backend := (Lb.find_backend insert_fuel).
#[local] Abbreviation rpc_find_be := (Lb.rpc_find_be insert_fuel).
#[local] Abbreviation handle := (Lb.handle insert_fuel).
#[local] Abbreviation tasvir_service := (Lb.tasvir_service insert_fuel).
#[local] Abbreviation serve_packet := (Lb.serve_packet insert_fuel).
#[local] Abbreviation remove_flow := (Lb.remove_flow insert_fuel).
#[local] Abbreviation remove_flows := (Lb.remove_flows insert_fuel).
#[local] Abbreviation test_loop := (Lb.test_loop insert_fuel).
#[local] Abbreviation test := (Lb.test insert_fuel).
#[local] Abbreviation wait_ready := (Lb.wait_ready insert_fuel).
#[local] Abbreviation make_tables := (Lb.make_tables insert_fuel).
#[local] Abbreviation serve := (Lb.serve insert_fuel).

(** ** Operations on a table *)

Lemma on_table_runs {A} tbl (c : cmd (CuckooMap Z Z) A) w t a s :
  tables w !! tbl = Some t -> runs c (cuckoo t) a s -> runs (on_table tbl c) w a (w <| tables := <[tbl := t <| cuckoo := s |>]> (tables w) |>).
Proof. unfold runs, on_table, in_cuckoo. by intros -> ->. Qed.

Lemma on_table_same {A} tbl (c : cmd (CuckooMap Z Z) A) w t a :
  tables w !! tbl = Some t -> runs c (cuckoo t) a (cuckoo t) -> runs (on_table tbl c) w a w.
Proof.
  intros Ht R. pose proof (on_table_runs tbl c w t a _ Ht R) as R'. replace (t <| cuckoo := cuckoo t |>) with t in R' by by destruct t.
  rewrite list_insert_id in R' by done. by replace (w <| tables := tables w |>) with w in R' by by destruct w.
Qed.

Lemma put_table w tbl t : lb_inv w -> table_ok (lut_backend w) t -> lb_inv (w <| tables := <[tbl := t]> (tables w) |>).
Proof.
  intros [H1 H2 H3 H4 H5] Ht. split; cbn; [by apply Forall_insert|done|done| |done]. by rewrite length_insert.
Qed.

Section find.
Context (w : lb) (Hi : lb_inv w) (tbl : nat) (t : ConnectionTable) (Ht : tables w !! tbl = Some t)
  (M : gmap Z Z) (Hm : is_map (cuckoo t) BUCKETS ENTRIES M) (Hready : ready_ t = true) (Ha : affine (lut_backend w) M).

Lemma affine_room : Z.of_nat (size M) < ENTRIES.
Proof.
  pose proof (range_size M ADDR_RANGE ltac:(unfold ADDR_RANGE; lia) (fun a b H => proj1 (Ha a b H))) as Hs.
  rewrite (proj2 (proj2 sizes_ok)). unfold ADDR_RANGE in Hs. lia.
Qed.

Lemma backend_exists a : exists b, backend_is (lut_backend w) a b.
Proof.
  pose proof (Z.mod_pos_bound a LUT_SIZE ltac:(unfold LUT_SIZE; lia)). pose proof (li_backends _ Hi). apply lookup_lt_is_Some_2. lia.
Qed.

(** What [find_backend] returns and does. *)
Definition found (owner a r : Z) (w' : lb) : Prop :=
  served w' = inc (served w)
  /\ match M !! a with
     | Some b => r = b /\ backend_is (lut_backend w) a r /\ w' = w <| served := inc (served w) |>
     | None =>
         if id w =? owner then
           backend_is (lut_backend w) a r /\ writes w' = inc (writes w) /\ calls w' = calls w
           /\ exists t', tables w' = <[tbl := t']> (tables w)
              /\ (is_map (cuckoo t') BUCKETS ENTRIES (<[a := r]> M) /\ fills w' = fills w
                  \/ is_map (cuckoo t') BUCKETS ENTRIES M /\ fills w' = inc (fills w) /\ (4 <= size M)%nat)
         else r = 0 /\ tables w' = tables w /\ calls w' = CallFind tbl a :: calls w
           /\ lookup_rpcs w' = inc (lookup_rpcs w) /\ rpc_calls w' = inc (rpc_calls w)
     end.

Lemma find_backend_runs owner a :
  0 <= a < ADDR_RANGE -> exists r w', runs (find_backend owner tbl a) w r w' /\ lb_inv w' /\ same_setup w w' /\ found owner a r w'.
Proof.
  intros Hr. unfold runs, Lb.find_backend, found. destruct (map_find _ _ _ M a Hm) as (e & R & He).
  setoid_rewrite (bind_runs _ _ _ _ _ (on_table_same tbl _ w t _ Ht R)).
  destruct (M !! a) as [b|] eqn:Ea.
  - destruct He as (x & -> & Ex). set (w1 := w <| served := inc (served w) |>). exists b, w1.
    assert (runs (get_entry x) (cuckoo t) (mk_entry a b) (cuckoo t)) as Rg by by apply get_entry_runs.
    split; [rewrite (bind_runs _ _ _ _ _ (runs_modify _ _)); by rewrite (bind_runs _ _ _ _ _ (on_table_same tbl _ w1 t _ Ht Rg))|].
    split; [by destruct Hi|]. split; [done|]. split; [done|]. split; [done|]. split; [by apply Ha|done].
  - subst e. set (w1 := w <| served := inc (served w) |>). setoid_rewrite (bind_runs _ _ _ _ _ (runs_modify _ _)).
    setoid_rewrite (bind_runs _ _ _ _ _ (runs_gets _ _)). change (id (set_field served _ w)) with (id w). fold w1.
    destruct (Z.eqb_spec (id w) owner) as [Eo|Eo].
    + destruct (backend_exists a) as (b & Hb). setoid_rewrite (bind_runs _ _ _ _ _ (runs_gets _ _)).
      assert (runs (get_at (lut_backend w1) (a mod LUT_SIZE)) w1 b w1) as R2 by (unfold runs, get_at; cbn; by rewrite Hb).
      setoid_rewrite (bind_runs _ _ _ _ _ R2).
      assert (lb_inv w1) as Hi1 by by destruct Hi.
      assert (affine (lut_backend w1) (<[a := b]> M)) as Ha'.
      { intros a' b' [[<- <-]|[_ H]]%lookup_insert_Some; [done|by apply Ha]. }
      destruct (insert_new_key insert_fuel (cuckoo t) BUCKETS ENTRIES M a b Hm Ea affine_room Hinsert) as [(x & s' & R3 & Hm' & _)|(s' & R3 & Hm' & H4)];
        pose proof (on_table_runs tbl _ w1 t _ _ Ht R3) as R4; setoid_rewrite (bind_runs _ _ _ _ _ R4);
        setoid_rewrite (bind_runs _ _ _ _ _ (runs_modify _ _)); do 2 eexists.
      * split; [reflexivity|]. assert (lb_inv (w1 <| tables := <[tbl := t <| cuckoo := s' |>]> (tables w1) |>)) as [] by
          (apply put_table; [done|]; split; [done|]; by exists (<[a := b]> M)).
        split; [by split|]. split; [done|]. split; [done|]. split; [done|]. split; [done|]. split; [done|]. eexists. split; [done|]. by left.
      * split; [reflexivity|]. assert (lb_inv (w1 <| tables := <[tbl := t <| cuckoo := s' |>]> (tables w1) |>)) as [] by
          (apply put_table; [done|]; split; [done|]; by exists M).
        split; [by split|]. split; [done|]. split; [done|]. split; [done|]. split; [done|]. split; [done|]. eexists. split; [done|]. by right.
    + do 2 eexists. split; [reflexivity|]. split; [by destruct Hi|]. by repeat split.
Qed.

(** [remove_address] *)
Lemma remove_address_runs a :
  exists w' t', runs (remove_address tbl a) w tt w' /\ lb_inv w' /\ same_setup w w'
    /\ tables w' = <[tbl := t']> (tables w) /\ is_map (cuckoo t') BUCKETS ENTRIES (delete a M).
Proof.
  unfold runs, remove_address. destruct (map_find _ _ _ M a Hm) as (e & R & He).
  setoid_rewrite (bind_runs _ _ _ _ _ (on_table_same tbl _ w t _ Ht R)).
  destruct (M !! a) as [b|] eqn:Ea.
  - destruct He as (x & -> & _). set (w1 := w <| removes := inc (removes w) |>). setoid_rewrite (bind_runs _ _ _ _ _ (runs_modify _ _)). fold w1.
    destruct (map_remove _ _ _ M a Hm) as (s' & R2 & Hm'). pose proof (on_table_runs tbl _ w1 t _ _ Ht R2) as R3.
    setoid_rewrite (bind_runs _ _ _ _ _ R3). exists (w1 <| tables := <[tbl := t <| cuckoo := s' |>]> (tables w1) |>), (t <| cuckoo := s' |>). split; [reflexivity|].
    split; [|done]. apply put_table; [by destruct Hi|]. split; [done|]. exists (delete a M). split; [done|].
    intros a' b' [_ H]%lookup_delete_Some. by apply Ha.
  - subst e. exists w, t. split; [done|]. split; [done|]. split; [done|]. rewrite list_insert_id by done. split; [done|]. by rewrite delete_id.
Qed.
End find.

(** ** Handlers *)

Lemma find_backend_steps w owner tbl a : lb_inv w -> (tbl < length (tables w))%nat -> 0 <= a < ADDR_RANGE -> steps (find_backend owner tbl a) w.
Proof.
  intros Hi Hlt Ha. destruct (lookup_lt_is_Some_2 _ _ Hlt) as [t Ht].
  destruct (Forall_lookup_1 _ _ _ _ (li_tables _ Hi) Ht) as (Hr & M & Hm & HM).
  destruct (find_backend_runs w Hi tbl t Ht M Hm Hr HM owner a Ha) as (r & w' & R & Hi' & Hs & _). by exists r, w'.
Qed.

Lemma remove_address_steps w tbl a : lb_inv w -> (tbl < length (tables w))%nat -> steps (remove_address tbl a) w.
Proof.
  intros Hi Hlt. destruct (lookup_lt_is_Some_2 _ _ Hlt) as [t Ht].
  destruct (Forall_lookup_1 _ _ _ _ (li_tables _ Hi) Ht) as (Hr & M & Hm & HM).
  destruct (remove_address_runs w Hi tbl t Ht M Hm Hr HM a) as (w' & t' & R & Hi' & Hs & _). by exists tt, w'.
Qed.

Lemma steps_partition {B} arg (f : nat -> cmd lb B) w :
  lb_inv w -> (forall n, (n < length (tables w))%nat -> steps (f n) w) -> steps (partition_of arg ≫= f) w.
Proof.
  intros Hi Hf. pose proof (Z.mod_pos_bound arg LUT_SIZE ltac:(unfold LUT_SIZE; lia)) as Hb. pose proof (li_lut _ Hi) as Hl.
  destruct (lookup_lt_is_Some_2 (lut_lb w) (Z.to_nat (arg mod LUT_SIZE))) as [x Hx]; [lia|].
  assert (runs (partition_of arg) w (Z.to_nat x) w) as R.
  { unfold runs, partition_of, get_at. rewrite (bind_runs _ _ _ _ _ (runs_gets _ _)). by rewrite Hx. }
  pose proof (li_targets _ Hi x (list_elem_of_lookup_2 _ _ _ Hx)).
  destruct (Hf (Z.to_nat x)) as (b & w' & R' & H'); [lia|]. exists b, w'. split; [|done]. unfold runs. by rewrite (bind_runs _ _ _ _ _ R).
Qed.

Lemma handle_steps w e : lb_inv w -> event_ok (lut_backend w) e -> steps (handle e) w.
Proof.
  intros Hi He. assert (lb_inv (w <| rpc_recd := inc (rpc_recd w) |>)) as Hi1 by by destruct Hi.
  destruct e as [arg|arg|tbl t]; cbn [Lb.handle event_ok] in *; unfold Lb.rpc_find_be, rpc_rem.
  - apply steps_bind; [|intros; by apply steps_ret]. apply steps_partition; [done|]. intros n Hn. apply steps_modify; [done|]. apply steps_gets.
    destruct (negb _); [by apply steps_ret|]. apply steps_gets. by apply find_backend_steps.
  - apply steps_bind; [|intros; by apply steps_ret]. apply steps_partition; [done|]. intros n Hn. apply steps_modify; [done|]. apply steps_gets.
    destruct (negb _); [by apply steps_ret|]. apply steps_bind; [by apply remove_address_steps|]. intros; by apply steps_ret.
  - exists tt. eexists. split; [reflexivity|]. split; [by apply put_table|done].
Qed.

Lemma service_steps w : lb_inv w -> steps tasvir_service w.
Proof.
  intros Hi. unfold Lb.tasvir_service. apply steps_gets. destruct (arrivals w) as [|es rest] eqn:E; [by apply steps_ret|].
  destruct Hi as [H1 H2 H3 H4 H5]. rewrite E in H5. apply list.Forall_cons in H5 as [He Hrest].
  assert (lb_inv (w <| arrivals := rest |>)) as Hi1 by by split. apply steps_modify; [done|]. apply for_each_steps; [done|].
  intros e w1 Hin Hi2 Hs. apply handle_steps; [done|]. rewrite (ss_backends _ _ Hs). rewrite list.Forall_forall in He. by apply He.
Qed.

(** ** The test *)

Record run_inv (w : lb) : Prop := {
  ri_lb : lb_inv w;
  ri_flows : Z.of_nat (length (flows w)) = FLOWS_IN_SYSTEM;
  ri_addresses : Forall (fun a => 0 <= a < ADDR_RANGE) (flows w);
  ri_deleted : Z.of_nat (length (deleted w)) = REPLACEMENT_RATE;
}.

Lemma run_inv_same w w' : run_inv w -> lb_inv w' -> same_setup w w' -> run_inv w'.
Proof. intros [H1 H2 H3 H4] Hi [? ? ? ? Ef Ed ? ?]. split; rewrite ?Ef, ?Ed; done. Qed.

(** The invariant is about these fields. *)
Lemma run_inv_ext w w' :
  run_inv w -> tables w' = tables w -> lut_backend w' = lut_backend w -> lut_lb w' = lut_lb w -> arrivals w' = arrivals w ->
  flows w' = flows w -> deleted w' = deleted w -> run_inv w'.
Proof. intros [[] ? ? ?] E1 E2 E3 E4 E5 E6. split; [split|..]; rewrite ?E1, ?E2, ?E3, ?E4, ?E5, ?E6; done. Qed.

(** A step that may also replace flows. *)
Definition runs_on {A} (c : cmd lb A) (w : lb) : Prop :=
  exists a w', runs c w a w' /\ run_inv w' /\ clocks w' = clocks w /\ printed w' = printed w.

Lemma steps_runs_on {A} (c : cmd lb A) w : run_inv w -> steps c w -> runs_on c w.
Proof. intros Hr (a & w' & R & Hi & Hs). exists a, w'. split; [done|]. split; [by eapply run_inv_same|]. by destruct Hs. Qed.

Lemma runs_on_bind {A B} (c : cmd lb A) (f : A -> cmd lb B) w :
  runs_on c w -> (forall a w', run_inv w' -> clocks w' = clocks w -> printed w' = printed w -> runs_on (f a) w') -> runs_on (c ≫= f) w.
Proof.
  intros (a & w1 & R1 & Hi1 & Hc1 & Hp1) Hf. destruct (Hf a w1 Hi1 Hc1 Hp1) as (b & w2 & R2 & Hi2 & Hc2 & Hp2). exists b, w2.
  split; [unfold runs; by rewrite (bind_runs _ _ _ _ _ R1)|]. split; [done|]. split; congruence.
Qed.

Lemma for_each_runs_on {A} (P : A -> Prop) (body : A -> cmd lb unit) l w :
  (forall x w1, P x -> run_inv w1 -> runs_on (body x) w1) -> Forall P l -> run_inv w -> runs_on (for_each l body) w.
Proof.
  intros Hb Hl. revert w. induction Hl as [|x l Hx Hl IH]; intros w Hi; [by exists tt, w|].
  cbn [for_each]. apply runs_on_bind; [by apply Hb|]. intros [] w' Hi' _ _. by apply IH.
Qed.

Lemma seqZ_range m n : Forall (fun i => m <= i < m + n) (seqZ m n).
Proof. apply list.Forall_forall. intros x Hx. by apply elem_of_seqZ in Hx. Qed.

Lemma serve_packet_steps lbs w : 0 < lbs -> run_inv w -> steps (serve_packet lbs) w.
Proof.
  intros Hl [Hi Hf Ha Hd]. unfold Lb.serve_packet, fast_random. apply steps_bind.
  { apply steps_modify; [done|]. apply steps_gets, steps_ret. by destruct Hi. }
  intros r w1 _ Hi1 Hs1. apply steps_gets. rewrite (ss_flows _ _ Hs1).
  pose proof (Z.mod_pos_bound r FLOWS_IN_SYSTEM ltac:(unfold FLOWS_IN_SYSTEM; lia)). apply steps_get_at; [lia|].
  intros val _ Hval. rewrite list.Forall_forall in Ha. specialize (Ha val Hval). apply steps_partition; [done|]. intros n Hn.
  destruct (Z.eqb_spec lbs 0); [lia|]. apply steps_bind; [by apply find_backend_steps|]. intros; by apply steps_ret.
Qed.

Lemma remove_flow_steps lbs rem del w : 0 < lbs -> 0 <= rem < REPLACEMENT_RATE -> run_inv w -> steps (remove_flow lbs rem del) w.
Proof.
  intros Hl Hr [Hi Hf Ha Hd]. unfold Lb.remove_flow. apply steps_gets. apply steps_get_at; [lia|]. intros val _ _.
  apply steps_partition; [done|]. intros n Hn. apply steps_gets. destruct (Z.eqb_spec lbs 0); [lia|]. apply steps_bind.
  - destruct (_ =? _).
    + apply steps_bind; [by apply remove_address_steps|]. intros; by apply steps_ret.
    + unfold tasvir_rpc. do 2 (apply steps_modify; [done|]). apply steps_ret. by destruct Hi.
  - intros del' w1 _ Hi1 _. apply steps_bind; [|intros; by apply steps_ret]. destruct (negb _); [by apply service_steps|by apply steps_ret].
Qed.

Lemma remove_flows_runs lbs rems del w : 0 < lbs -> Forall (fun i => 0 <= i < REPLACEMENT_RATE) rems -> run_inv w -> runs_on (remove_flows lbs rems del) w.
Proof.
  intros Hl Hr. revert del w. induction Hr as [|x rems Hx Hr IH]; intros del w Hi; [by exists del, w|].
  cbn [Lb.remove_flows]. apply runs_on_bind; [by apply steps_runs_on; [|apply remove_flow_steps]|]. intros d w' Hi' _ _. by apply IH.
Qed.

Lemma set_flow_runs w i :
  0 <= i < Z.of_nat (length (flows w)) ->
  exists x s, 0 <= x < ADDR_RANGE /\ runs (set_flow i) w tt (w <| seed1 := s |> <| flows := <[Z.to_nat i := x]> (flows w) |>).
Proof.
  intros Hi. destruct (lookup_lt_is_Some_2 (flows w) (Z.to_nat i)) as [y Hy]; [lia|].
  exists (u32 (Z.shiftr (lcg (seed1 w)) 32) mod ADDR_RANGE), (lcg (seed1 w)). split; [apply Z.mod_pos_bound; unfold ADDR_RANGE; lia|].
  unfold runs, set_flow, fast_random1. rewrite bind_assoc, (bind_runs _ _ _ _ _ (runs_modify _ _)), bind_assoc, (bind_runs _ _ _ _ _ (runs_gets _ _)), bind_ret.
  rewrite (bind_runs _ _ _ _ _ (runs_gets _ _)). cbn [seed1 flows]. change (flows (set_field seed1 _ w)) with (flows w).
  assert (forall w1, runs (get_at (flows w) i) w1 y w1) as Rg by (intros w1; unfold runs, get_at; by rewrite Hy).
  by rewrite (bind_runs _ _ _ _ _ (Rg _)).
Qed.

Lemma generate_flow_runs w start i :
  run_inv w -> 0 <= i < REPLACEMENT_RATE -> 0 <= start + i < FLOWS_IN_SYSTEM ->
  runs_on (l ← gets flows; old ← get_at l (start + i); d ← gets deleted; _ ← get_at d i;
           modify (fun w => w <| deleted := <[Z.to_nat i := old]> d |>);; set_flow (start + i)) w.
Proof.
  intros [Hi Hf Ha Hd] Hir Hsr. destruct (lookup_lt_is_Some_2 (flows w) (Z.to_nat (start + i))) as [old Ho]; [lia|].
  destruct (lookup_lt_is_Some_2 (deleted w) (Z.to_nat i)) as [d Hdi]; [lia|]. unfold runs_on, runs.
  assert (forall l x j, l !! Z.to_nat j = Some x -> runs (get_at l j) w x w) as Rg by (intros l x j E; unfold runs, get_at; by rewrite E).
  rewrite (bind_runs _ _ _ _ _ (runs_gets _ _)), (bind_runs _ _ _ _ _ (Rg _ _ _ Ho)), (bind_runs _ _ _ _ _ (runs_gets _ _)),
    (bind_runs _ _ _ _ _ (Rg _ _ _ Hdi)), (bind_runs _ _ _ _ _ (runs_modify _ _)).
  set (w1 := w <| deleted := _ |>). destruct (set_flow_runs w1 (start + i)) as (x & s & Hx & R); [cbn; lia|].
  exists tt. eexists. split; [exact R|]. split; [|done]. split; cbn; [by destruct Hi|by rewrite length_insert|by apply Forall_insert|by rewrite length_insert].
Qed.

Lemma generate_flows_runs w ri : run_inv w -> 0 <= ri < FLOWS_IN_SYSTEM / REPLACEMENT_RATE -> runs_on (generate_flows (ri * REPLACEMENT_RATE) REPLACEMENT_RATE) w.
Proof.
  intros Hw Hri. change (FLOWS_IN_SYSTEM / REPLACEMENT_RATE) with 1000 in Hri. unfold generate_flows.
  apply (for_each_runs_on (fun i => 0 <= i < 0 + REPLACEMENT_RATE)); [|apply seqZ_range|done].
  intros i w1 Hi Hw1. apply generate_flow_runs; [done|lia|]. unfold FLOWS_IN_SYSTEM, REPLACEMENT_RATE in *. lia.
Qed.

(** The reports that readings of the clock lead to, one for every second or
    more since the last. *)
Fixpoint reports (now : Z) (readings : list Z) : Z :=
  match readings with
  | [] => 0
  | c :: rest => if REPORT_SECS <=? Z.quot (c - now) CLOCKS_PER_SEC then 1 + reports c rest else reports now rest
  end.

(** The turn up to the reading of the clock. *)
Lemma batch_runs lbs w c cs :
  0 < lbs -> run_inv w -> clocks w = c :: cs ->
  exists w', (forall A (f : Z -> cmd lb A), (for_each (seqZ 0 BATCH_SIZE) (fun _ => serve_packet lbs);; tasvir_service;; clock ≫= f) w = f c w')
    /\ run_inv w' /\ clocks w' = cs /\ printed w' = printed w.
Proof.
  intros Hl Hw Hc.
  destruct (for_each_runs_on (fun _ => True) (fun _ : Z => serve_packet lbs) (seqZ 0 BATCH_SIZE) w) as ([] & w1 & R1 & Hw1 & Hc1 & Hp1); [|by apply Forall_true|done|].
  { intros _ w1 _ Hw1. by apply steps_runs_on; [|apply serve_packet_steps]. }
  destruct (steps_runs_on tasvir_service w1 Hw1 (service_steps _ (ri_lb _ Hw1))) as ([] & w2 & R2 & Hw2 & Hc2 & Hp2).
  exists (w2 <| clocks := cs |>). split; [|split; [by eapply run_inv_ext|split; [done|cbn; congruence]]].
  intros A f. rewrite (bind_runs _ _ _ _ _ R1), (bind_runs _ _ _ _ _ R2). unfold clock. rewrite bind_assoc, (bind_runs _ _ _ _ _ (runs_gets _ _)).
  rewrite Hc2, Hc1, Hc. rewrite bind_assoc, (bind_runs _ _ _ _ _ (runs_modify _ _)). done.
Qed.

Lemma test_loop_ends fuel lbs : 0 < lbs -> forall now sr ri del w,
  run_inv w -> 0 <= ri < FLOWS_IN_SYSTEM / REPLACEMENT_RATE -> 0 <= sr < RUN_SECS ->
  (length (clocks w) <= fuel)%nat -> RUN_SECS - sr <= reports now (clocks w) ->
  exists w', runs (test_loop fuel lbs now sr ri del) w tt w' /\ run_inv w' /\ Z.of_nat (length (printed w')) = Z.of_nat (length (printed w)) + (RUN_SECS - sr).
Proof.
  intros Hl. induction fuel as [|fuel IH]; intros now sr ri del w Hw Hri Hsr Hf Hrep;
    (destruct (clocks w) as [|c cs] eqn:Hc; [cbn in Hrep; lia|]); [cbn in Hf; lia|]. cbn [length] in Hf. cbn [reports] in Hrep.
  unfold runs. cbn [Lb.test_loop]. destruct (batch_runs lbs w c cs Hl Hw Hc) as (w1 & R1 & Hw1 & Hc1 & Hp1). rewrite R1.
  assert (1000 = FLOWS_IN_SYSTEM / REPLACEMENT_RATE) as Eg by reflexivity.
  destruct (Z.leb_spec REPORT_SECS (Z.quot (c - now) CLOCKS_PER_SEC)) as [Hs|Hs].
  2: { destruct (IH now sr ri del w1 Hw1 Hri Hsr) as (w2 & R2 & Hw2 & Hp2); [rewrite Hc1; lia|by rewrite Hc1|].
       exists w2. split; [exact R2|]. split; [done|]. by rewrite Hp2, Hp1. }
  unfold report. rewrite (bind_runs _ _ _ _ _ (runs_modify _ _)). set (w2 := w1 <| printed := _ |>).
  assert (run_inv w2) as Hw2 by by eapply run_inv_ext.
  rewrite i32_small by (unfold RUN_SECS in Hsr; lia). destruct (Z.leb_spec RUN_SECS (sr + 1)) as [Hend|Hend].
  { exists w2. split; [done|]. split; [done|]. cbn [w2 printed length]. change (printed w2) with (hd [] (printed w2) :: printed w1). cbn [length]. rewrite Hp1. lia. }
  destruct (generate_flows_runs w2 ri Hw2 Hri) as ([] & w3 & R3 & Hw3 & Hc3 & Hp3). rewrite (bind_runs _ _ _ _ _ R3), (bind_runs _ _ _ _ _ (runs_modify _ _)).
  match goal with |- exists _, (_ ≫= _) ?w = _ /\ _ => set (w4 := w) end.
  assert (run_inv w4) as Hw4 by by eapply run_inv_ext.
  destruct (remove_flows_runs lbs (seqZ 0 REPLACEMENT_RATE) 0 w4 Hl (seqZ_range 0 _) Hw4) as (d & w5 & R5 & Hw5 & Hc5 & Hp5). rewrite (bind_runs _ _ _ _ _ R5).
  destruct (steps_runs_on tasvir_service w5 Hw5 (service_steps _ (ri_lb _ Hw5))) as ([] & w6 & R6 & Hw6 & Hc6 & Hp6). rewrite (bind_runs _ _ _ _ _ R6).
  assert (clocks w6 = cs) as Hc7 by (rewrite Hc6, Hc5; cbn; rewrite Hc3; done).
  assert (length (printed w6) = S (length (printed w))) as Hp7 by (rewrite Hp6, Hp5; cbn; rewrite Hp3; cbn; by rewrite Hp1).
  destruct (IH c (sr + 1) ((ri + 1) mod (FLOWS_IN_SYSTEM / REPLACEMENT_RATE)) d w6 Hw6) as (w7 & R7 & Hw7 & Hp8);
    [apply Z.mod_pos_bound; lia|lia|rewrite Hc7; lia|rewrite Hc7; lia|].
  exists w7. split; [exact R7|]. split; [done|]. lia.
Qed.

Lemma fill_flows_runs w :
  lb_inv w -> Z.of_nat (length (flows w)) = FLOWS_IN_SYSTEM -> Z.of_nat (length (deleted w)) = REPLACEMENT_RATE ->
  runs_on (for_each (seqZ 0 FLOWS_IN_SYSTEM) set_flow) w.
Proof.
  intros Hi Hf Hd. remember FLOWS_IN_SYSTEM as n eqn:En. assert (0 <= n) as Hn by (subst n; unfold FLOWS_IN_SYSTEM; lia).
  destruct (for_each_inv (fun l w1 => exists m, 0 <= m <= n /\ l = seqZ m (n - m) /\ lb_inv w1 /\ same_setup w (w1 <| flows := flows w |>)
      /\ Z.of_nat (length (flows w1)) = n /\ Forall (fun a => 0 <= a < ADDR_RANGE) (take (Z.to_nat m) (flows w1)))
    set_flow (seqZ 0 n) w) as (w1 & R & m & Hm & E & Hi1 & Hs1 & Hf1 & Ha1).
  - exists 0. split; [lia|]. split; [by rewrite Z.sub_0_r|]. split; [done|]. split; [done|]. split; [done|]. rewrite take_0. constructor.
  - intros x l w1 (m & Hm & E & Hi1 & Hs1 & Hf1 & Ha1). destruct (Z.le_gt_cases n m) as [Hge|Hlt]; [by rewrite seqZ_nil in E by lia|].
    rewrite seqZ_cons in E by lia. injection E as -> ->. destruct (set_flow_runs w1 m) as (a & s & Ha & R); [lia|]. eexists. split; [exact R|].
    exists (m + 1). split; [lia|]. split; [f_equal; lia|]. split; [by destruct Hi1|]. split; [by destruct Hs1|]. cbn. split; [by rewrite length_insert|].
    replace (Z.to_nat (m + 1)) with (S (Z.to_nat m)) by lia. rewrite (take_S_r _ _ a) by (apply list_lookup_insert_eq; lia).
    rewrite take_insert_ge by lia. apply Forall_app. split; [done|]. by constructor.
  - assert (m = n) as -> by (destruct (Z.eq_dec m n); [done|]; by rewrite seqZ_cons in E by lia).
    exists tt, w1. split; [exact R|]. rewrite firstn_all2 in Ha1 by lia. destruct Hs1 as [? ? ? ? ? Ed ? ?].
    change (deleted w1 = deleted w) in Ed. split; [|done]. split; [done|by rewrite Hf1, En|done|by rewrite Ed].
Qed.

Lemma test_runs fuel lbs w c cs :
  lb_inv w -> 0 < lbs -> Z.of_nat (length (flows w)) = FLOWS_IN_SYSTEM -> Z.of_nat (length (deleted w)) = REPLACEMENT_RATE ->
  clocks w = c :: cs -> (length cs <= fuel)%nat -> RUN_SECS <= reports c cs ->
  exists w', runs (test fuel lbs) w tt w' /\ run_inv w' /\ Z.of_nat (length (printed w')) = Z.of_nat (length (printed w)) + RUN_SECS.
Proof.
  intros Hi Hl Hf Hd Hc Hfuel Hrep. unfold runs, Lb.test, clock. rewrite bind_assoc, (bind_runs _ _ _ _ _ (runs_gets _ _)), Hc.
  rewrite bind_assoc, (bind_runs _ _ _ _ _ (runs_modify _ _)), bind_ret, (bind_runs _ _ _ _ _ (runs_modify _ _)).
  match goal with |- exists _, (_ ≫= _) ?w = _ /\ _ => set (w1 := w) end.
  destruct (fill_flows_runs w1) as ([] & w2 & R2 & Hw2 & Hc2 & Hp2); [by destruct Hi|done|done|]. rewrite (bind_runs _ _ _ _ _ R2).
  destruct (test_loop_ends fuel lbs Hl c 0 0 0 w2 Hw2) as (w3 & R3 & Hw3 & Hp3); [by vm_compute|by vm_compute|by rewrite Hc2|by rewrite Hc2, Z.sub_0_r|].
  exists w3. split; [exact R3|]. split; [done|]. by rewrite Hp3, Hp2.
Qed.

(** ** Creation *)

Lemma in_cuckoo_runs {A} (c : cmd (CuckooMap Z Z) A) t a s : runs c (cuckoo t) a s -> runs (in_cuckoo c) t a (t <| cuckoo := s |>).
Proof. unfold runs, in_cuckoo. by intros ->. Qed.

Lemma ClearInit_runs nb n t :
  layout_ok (cuckoo t) nb n -> bucket_mem (cuckoo t) = replicate (Z.to_nat nb) Bucket0 ->
  exists t', runs ClearInit t tt t' /\ ready_ t' = true /\ is_map (cuckoo t') nb n ∅.
Proof.
  intros Hl Hb. pose proof (lo_n _ _ _ Hl) as Hn. pose proof (pow2_pos nb (lo_pow _ _ _ Hl)) as Hnb. set (s := cuckoo t) in *.
  assert (u32 (nb - 1) = nb - 1) as Hmask.
  { apply u32_small. destruct (lo_pow _ _ _ Hl) as (k & Hk & ->). pose proof (Z.pow_le_mono_r 2 k 30 ltac:(lia) ltac:(lia)). lia. }
  set (s1 := s <| head_ := 0 |> <| marks := (addr_head s, 8) :: marks s |> <| num_entries_ := 0 |> <| bucket_mask_ := nb - 1 |>).
  destruct (push_all nb n s1) as (s2 & R2 & Hp2 & _).
  { constructor; try done; [destruct Hl; by constructor|lia|cbn; lia|]. intros i x Hx. rewrite Z.sub_diag in Hx. done. }
  pose proof (pushed_rep nb n s2 Hp2) as Hr2. unfold runs, ClearInit.
  assert (exists s3, runs (Stack_Clear;; modify (fun s => s <| num_entries_ := 0 |> <| bucket_mask_ := u32 (alloc_num_buckets_ s - 1) |>);;
    s ← getw; for_each (rev (seqZ 0 (alloc_num_entries_ s))) (fun i => _ ← PushNoLog i; mret tt);; InvalidateStack) s tt s3
    /\ s3 = s2 <| marks := marks s3 |>) as (s3 & R3 & E3).
  { assert (runs Stack_Clear s tt (s <| head_ := 0 |> <| marks := (addr_head s, 8) :: marks s |>)) as R1 by reflexivity. unfold runs.
    rewrite (bind_runs _ _ _ _ _ R1), (bind_runs _ _ _ _ _ (runs_modify _ _)), (bind_runs _ _ _ _ _ (runs_getw _)). cbn [alloc_num_buckets_].
    change (alloc_num_buckets_ (set_field marks _ _)) with (alloc_num_buckets_ s). rewrite (lo_nb _ _ _ Hl), Hmask. fold s1.
    change (alloc_num_entries_ s1) with (alloc_num_entries_ s). rewrite (lo_ne _ _ _ Hl), (bind_runs _ _ _ _ _ R2). eexists. split; reflexivity. }
  rewrite (bind_runs _ _ _ _ _ (in_cuckoo_runs _ t _ _ R3)), (bind_runs _ _ _ _ _ (runs_modify _ _)). eexists. split; [reflexivity|]. split; [done|].
  rewrite E3. exists empty_slots, ∅, (rev (seqZ 0 n)). split; [|apply omap_empty]. destruct Hr2 as [[] ? ? ? ? ? ? ? ?]. constructor; try done.
Qed.

(** Memory of the right size whose buckets are zero: that of a new area. *)
Definition fresh (t : ConnectionTable) : Prop :=
  Z.of_nat (length (stack_mem (cuckoo t))) = ENTRIES /\ Z.of_nat (length (entry_mem (cuckoo t))) = ENTRIES
  /\ bucket_mem (cuckoo t) = replicate (Z.to_nat BUCKETS) Bucket0.

Lemma LbCreate_runs area area_size t :
  Size (K := Z) (V := Z) ENTRIES BUCKETS <= area_size -> fresh t ->
  exists t', runs (LbCreate area area_size ENTRIES BUCKETS) t true t' /\ ready_ t' = true /\ is_map (cuckoo t') BUCKETS ENTRIES ∅.
Proof.
  intros Hsize (Hst & Hen & Hbu). destruct sizes_ok as (Hpow & Hn & _).
  destruct (create_checks area_size BUCKETS ENTRIES Hpow Hn Hsize) as (E1 & E2 & Hbytes & E3 & E4 & E5 & E6).
  set (t1 := t <| cuckoo := laid_out area BUCKETS ENTRIES (cuckoo t) |>).
  destruct (ClearInit_runs BUCKETS ENTRIES t1 (laid_out_ok area BUCKETS ENTRIES (cuckoo t) Hpow Hn Hst Hen) Hbu) as (t2 & R2 & Hr2 & Hm2).
  exists t2. split; [|exact (conj Hr2 Hm2)]. unfold runs, LbCreate. rewrite E1, E2.
  rewrite (bind_runs _ _ _ _ _ (in_cuckoo_runs _ t _ _ (EntryStack_Create_runs area area_size ENTRIES (cuckoo t) Hbytes E3))). cbn [negb].
  rewrite (bind_runs _ _ _ _ _ (in_cuckoo_runs _ _ _ _ (runs_modify _ _))), Hbytes, E4, E5, E6.
  match goal with |- (_ ≫= _) ?t' = _ => change t' with t1 end. by rewrite (bind_runs _ _ _ _ _ R2).
Qed.

(** ** The start *)

Section start.
Context (lbs : Z) (Hlbs : 0 < lbs).

Definition own (me : Z) (i : nat) : bool := Z.of_nat i mod lbs =? me.

(** Copies arrive of the tables of other processes only. *)
Definition foreign (me : Z) (e : event) : Prop := match e with EvSync i _ => own me i = false | _ => True end.

(** A copy of table [j] is still to arrive, with the events [es] or later. *)
Definition due (es : list event) (later : list (list event)) (j : nat) : Prop :=
  exists t, EvSync j t ∈ es \/ exists es', es' ∈ later /\ EvSync j t ∈ es'.

(** The first [i] tables are made, if they are the process's own, and the
    first [k] are ready; [es] are events being handled. *)
Definition table_state (i k : nat) (es : list event) (w : lb) (j : nat) (t : ConnectionTable) : Prop :=
  if own (id w) j then if (i <=? j)%nat then fresh t else table_ok (lut_backend w) t
  else if (k <=? j)%nat then table_ok (lut_backend w) t \/ (ready_ t = false /\ due es (arrivals w) j)
  else table_ok (lut_backend w) t.

Record start_inv (i k : nat) (es : list event) (w : lb) : Prop := {
  st_init : init w = false;
  st_tables j t : tables w !! j = Some t -> table_state i k es w j t;
  st_backends : Z.of_nat (length (lut_backend w)) = LUT_SIZE;
  st_lut : Z.of_nat (length (lut_lb w)) = LUT_SIZE;
  st_targets x : x ∈ lut_lb w -> 0 <= x < Z.of_nat (length (tables w));
  st_arrivals : Forall (Forall (event_ok (lut_backend w))) (es :: arrivals w);
  st_foreign : Forall (Forall (foreign (id w))) (es :: arrivals w);
}.

Definition starts (i k : nat) (w w' : lb) : Prop :=
  start_inv i k [] w' /\ same_setup w w' /\ length (tables w') = length (tables w) /\ (length (arrivals w') <= length (arrivals w))%nat.

Lemma partition_total i k es w arg : start_inv i k es w -> exists n, runs (partition_of arg) w n w.
Proof.
  intros Hi. pose proof (Z.mod_pos_bound arg LUT_SIZE ltac:(unfold LUT_SIZE; lia)) as Hb. pose proof (st_lut _ _ _ _ Hi) as Hl.
  destruct (lookup_lt_is_Some_2 (lut_lb w) (Z.to_nat (arg mod LUT_SIZE))) as [x Hx]; [lia|]. exists (Z.to_nat x).
  unfold runs, partition_of, get_at. rewrite (bind_runs _ _ _ _ _ (runs_gets _ _)). by rewrite Hx.
Qed.

(** A call before the process is ready is counted and answered with 0. *)
Lemma early_calls i k es w arg :
  start_inv i k es w ->
  runs (rpc_find_be arg) w 0 (w <| rpc_recd := inc (rpc_recd w) |>) /\ runs (rpc_rem arg) w 0 (w <| rpc_recd := inc (rpc_recd w) |>).
Proof.
  intros Hi. destruct (partition_total i k es w arg Hi) as (n & R). unfold runs, Lb.rpc_find_be, rpc_rem. rewrite !(bind_runs _ _ _ _ _ R).
  rewrite !(bind_runs _ _ _ _ _ (runs_modify _ _)), !(bind_runs _ _ _ _ _ (runs_gets _ _)).
  change (init (set_field rpc_recd _ w)) with (init w). by rewrite (st_init _ _ _ _ Hi).
Qed.

(** An event that is not a copy of [j] leaves it due. *)
Lemma due_cons e es later j : due (e :: es) later j -> (forall t, e <> EvSync j t) -> due es later j.
Proof. intros (t & [[He|He]%elem_of_cons|He]) Hne; [by destruct (Hne t)|exists t; by left|exists t; by right]. Qed.

Lemma handle_early i k e es w :
  start_inv i k (e :: es) w ->
  exists w', runs (handle e) w tt w' /\ start_inv i k es w' /\ same_setup w w' /\ length (tables w') = length (tables w) /\ arrivals w' = arrivals w.
Proof.
  intros Hi. pose proof Hi as [H1 H2 H3 H4 H5 H6 H7]. apply list.Forall_cons in H6 as [[He Hes]%list.Forall_cons H6], H7 as [[Hf Hfs]%list.Forall_cons H7].
  assert (forall w', init w' = init w -> tables w' = tables w -> lut_backend w' = lut_backend w -> lut_lb w' = lut_lb w -> arrivals w' = arrivals w -> id w' = id w ->
    (forall j t, e <> EvSync j t) -> start_inv i k es w') as Hcall.
  { intros w' E1 E2 E3 E4 E5 E6 Hne. split; rewrite ?E1, ?E2, ?E3, ?E4, ?E5, ?E6; try done; [|by constructor|by constructor].
    intros j t Hj. specialize (H2 j t Hj). unfold table_state in *. rewrite E3, E5, E6. destruct (own (id w) j); [done|].
    destruct (k <=? j)%nat; [|done]. destruct H2 as [?|[Hr Hdue]]; [by left|right]. split; [done|]. by eapply due_cons. }
  destruct e as [arg|arg|tbl t]; cbn [Lb.handle event_ok foreign] in *.
  - eexists. split; [unfold runs; by rewrite (bind_runs _ _ _ _ _ (proj1 (early_calls i k _ w arg Hi)))|]. split; [by apply Hcall|done].
  - eexists. split; [unfold runs; by rewrite (bind_runs _ _ _ _ _ (proj2 (early_calls i k _ w arg Hi)))|]. split; [by apply Hcall|done].
  - eexists. split; [reflexivity|]. split; [|split; [done|]; split; [apply length_insert|done]].
    split; cbn; try done; [|by rewrite length_insert|by constructor|by constructor].
    intros j t' [(<- & <- & _)|[Hne Hj]]%list_lookup_insert_Some; unfold table_state; cbn.
    + rewrite Hf. destruct (k <=? tbl)%nat; [by left|done].
    + specialize (H2 j t' Hj). unfold table_state in H2. destruct (own (id w) j); [done|]. destruct (k <=? j)%nat; [|done].
      destruct H2 as [?|[Hr Hdue]]; [by left|right]. split; [done|]. eapply due_cons; [exact Hdue|]. by intros t0 [= ->].
Qed.

Lemma handle_all_early i k es w :
  start_inv i k es w ->
  exists w', runs (for_each es handle) w tt w' /\ start_inv i k [] w' /\ same_setup w w' /\ length (tables w') = length (tables w) /\ arrivals w' = arrivals w.
Proof.
  revert w. induction es as [|e es IH]; intros w Hi; [by exists w|].
  destruct (handle_early i k e es w Hi) as (w1 & R1 & Hi1 & Hs1 & Hl1 & Ha1). destruct (IH w1 Hi1) as (w2 & R2 & Hi2 & Hs2 & Hl2 & Ha2).
  exists w2. cbn [for_each]. split; [unfold runs; by rewrite (bind_runs _ _ _ _ _ R1)|]. split; [done|]. split; [by etrans|]. split; congruence.
Qed.

Lemma service_early i k w :
  start_inv i k [] w ->
  exists w', runs tasvir_service w tt w' /\ start_inv i k [] w' /\ same_setup w w' /\ length (tables w') = length (tables w) /\ arrivals w' = tail (arrivals w).
Proof.
  intros Hi. unfold runs, Lb.tasvir_service. rewrite (bind_runs _ _ _ _ _ (runs_gets _ _)). destruct (arrivals w) as [|es rest] eqn:E; [exists w; by rewrite E|].
  rewrite (bind_runs _ _ _ _ _ (runs_modify _ _)). destruct (handle_all_early i k es (w <| arrivals := rest |>)) as (w1 & R1 & Hi1 & Hs1 & Hl1 & Ha1).
  { destruct Hi as [H1 H2 H3 H4 H5 H6 H7]. rewrite E in H6, H7. apply list.Forall_cons in H6 as [_ H6], H7 as [_ H7]. split; cbn; try done.
    intros j t Hj. specialize (H2 j t Hj). unfold table_state in *. cbn. destruct (own (id w) j); [done|]. destruct (k <=? j)%nat; [|done].
    destruct H2 as [?|[Hr (t' & [[]%not_elem_of_nil|(es' & Hes & Hin)])]]; [by left|right]. split; [done|]. exists t'. rewrite E in Hes.
    apply elem_of_cons in Hes as [->|Hes]; [by left|right; by exists es']. }
  exists w1. split; [exact R1|]. split; [done|]. split; [by destruct Hs1|]. split; [done|]. exact Ha1.
Qed.

(** The process makes its own table. *)
Lemma create_table_runs data i w :
  start_inv i i [] w -> (i < length (tables w))%nat ->
  exists w', runs (if Z.of_nat i mod lbs =? id w then create_table data i else mret tt) w tt w' /\ starts (S i) i w w'.
Proof.
  intros Hi Hlt. destruct (lookup_lt_is_Some_2 _ _ Hlt) as [t Ht]. pose proof (st_tables _ _ _ _ Hi i t Ht) as Hti.
  unfold table_state in Hti. rewrite (proj2 (Nat.leb_le i i)) in Hti by lia. unfold own in Hti.
  destruct (Z.eqb_spec (Z.of_nat i mod lbs) (id w)) as [Eo|Eo].
  - destruct (LbCreate_runs (data i) _ t ltac:(reflexivity) Hti) as (t' & R & Hr & Hm). eexists. split; [unfold runs, create_table; by rewrite Ht, R|]. clear R.
    destruct Hi as [H1 H2 H3 H4 H5 H6 H7]. split; [|split; [done|split; [apply length_insert|done]]]. split; cbn; try done; [|by rewrite length_insert].
    intros j t1 [(<- & <- & _)|[Hne Hj]]%list_lookup_insert_Some; unfold table_state, own; cbn.
    + rewrite (proj2 (Z.eqb_eq _ _) Eo), (proj2 (Nat.leb_gt (S i) i)) by lia. split; [done|]. exists ∅. split; [done|]. by intros a b ?%lookup_empty_Some.
    + specialize (H2 j t1 Hj). unfold table_state, own in H2. destruct (_ =? _); [|done]. destruct (Nat.leb_spec i j), (Nat.leb_spec (S i) j); try done; lia.
  - exists w. split; [done|]. split; [|by repeat split]. destruct Hi as [H1 H2 H3 H4 H5 H6 H7]. split; try done. intros j t1 Hj. specialize (H2 j t1 Hj).
    unfold table_state, own in *. destruct (Z.eqb_spec (Z.of_nat j mod lbs) (id w)) as [Ej|]; [|done].
    destruct (decide (j = i)) as [->|Hne]; [done|]. destruct (Nat.leb_spec i j), (Nat.leb_spec (S i) j); try done; lia.
Qed.

(** A table that is ready is in order, and then one more is. *)
Lemma ready_ok i w t : start_inv (S i) i [] w -> tables w !! i = Some t -> ready_ t = true -> start_inv (S i) (S i) [] w.
Proof.
  intros [H1 H2 H3 H4 H5 H6 H7] Ht Hr. split; try done. intros j t1 Hj. pose proof (H2 j t1 Hj) as Hj1. unfold table_state in *.
  destruct (own (id w) j); [done|]. destruct (decide (j = i)) as [->|Hne]; [|destruct (Nat.leb_spec i j), (Nat.leb_spec (S i) j); try done; lia].
  rewrite (proj2 (Nat.leb_le i i)) in Hj1 by lia. rewrite (proj2 (Nat.leb_gt (S i) i)) by lia.
  assert (t1 = t) as -> by congruence. destruct Hj1 as [?|[E _]]; [done|congruence].
Qed.

(** A table that is not ready is another process's, and a copy of it is to
    come. *)
Lemma not_ready_due i w t : start_inv (S i) i [] w -> tables w !! i = Some t -> ready_ t = false -> arrivals w <> [].
Proof.
  intros Hi Ht Hr. pose proof (st_tables _ _ _ _ Hi i t Ht) as Hti. unfold table_state in Hti.
  rewrite (proj2 (Nat.leb_gt (S i) i)), (proj2 (Nat.leb_le i i)) in Hti by lia.
  assert (~ table_ok (lut_backend w) t) as Hno by (intros [E _]; congruence).
  destruct (own (id w) i); [done|]. destruct Hti as [?|[_ (t' & [[]%not_elem_of_nil|(es & Hes & _)])]]; [done|].
  intros E. rewrite E in Hes. by apply not_elem_of_nil in Hes.
Qed.

(** The wait for table [i] ends: each turn takes one of the arrivals, and a
    copy of the table is among them if it is not ready. *)
Lemma wait_ready_runs fuel i w :
  start_inv (S i) i [] w -> (i < length (tables w))%nat -> (length (arrivals w) < fuel)%nat ->
  exists w', runs (wait_ready fuel i) w tt w' /\ starts (S i) (S i) w w'.
Proof.
  revert w. induction fuel as [|fuel IH]; intros w Hi Hlt Hf; [lia|]. destruct (service_early (S i) i w Hi) as (w1 & R1 & Hi1 & Hs1 & Hl1 & Ha1).
  assert (length (arrivals w1) = pred (length (arrivals w))) as Hla by (rewrite Ha1; by destruct (arrivals w)).
  destruct (lookup_lt_is_Some_2 (tables w1) i) as [t Ht]; [lia|]. unfold runs. cbn [Lb.wait_ready].
  rewrite (bind_runs _ _ _ _ _ R1), (bind_runs _ _ _ _ _ (runs_gets _ _)), Ht. unfold IsReady. destruct (ready_ t) eqn:Hr; cbn [negb].
  - exists w1. split; [done|]. split; [by eapply ready_ok|]. split; [done|]. split; [done|]. rewrite Hla. lia.
  - pose proof (not_ready_due i w1 t Hi1 Ht Hr) as Hne. destruct (arrivals w1) as [|es rest] eqn:E; [done|]. cbn [length] in Hla.
    destruct (IH w1 Hi1) as (w2 & R2 & Hi2 & Hs2 & Hl2 & Ha2); [lia|rewrite E; cbn [length]; lia|].
    exists w2. split; [exact R2|]. split; [done|]. split; [by etrans|]. rewrite E in Ha2. cbn [length] in Ha2. split; lia.
Qed.

Lemma make_tables_runs fuel data w :
  start_inv 0 0 [] w -> (length (arrivals w) < fuel)%nat ->
  exists w', runs (make_tables fuel data (length (tables w)) lbs) w tt w' /\ starts (length (tables w)) (length (tables w)) w w'.
Proof.
  intros Hi Hf. set (n := length (tables w)).
  destruct (for_each_inv (fun l w1 => exists i, (i <= n)%nat /\ l = seq i (n - i) /\ starts i i w w1)
    (fun i => me ← gets id; (if Z.of_nat i mod lbs =? me then create_table data i else mret tt);; wait_ready fuel i) (seq 0 n) w) as (w1 & R & i & Hle & E & Hs).
  - exists 0%nat. split; [lia|]. rewrite Nat.sub_0_r. split; [done|]. split; [exact Hi|]. split; [done|]. split; [done|lia].
  - intros x l w1 (i & Hle & E & Hi1 & Hs1 & Hl1 & Ha1). destruct (n - i)%nat as [|m] eqn:Em; [done|]. injection E as -> ->.
    unfold runs. rewrite (bind_runs _ _ _ _ _ (runs_gets _ _)).
    destruct (create_table_runs data i w1 Hi1) as (w2 & R2 & Hi2 & Hs2 & Hl2 & Ha2); [lia|].
    destruct (wait_ready_runs fuel i w2 Hi2) as (w3 & R3 & Hi3 & Hs3 & Hl3 & Ha3); [lia|lia|].
    exists w3. split; [by rewrite (bind_runs _ _ _ _ _ R2)|]. exists (S i). split; [lia|]. split; [f_equal; lia|].
    split; [done|]. split; [by do 2 etrans|lia].
  - assert (i = n) as -> by (apply (f_equal length) in E; rewrite length_seq in E; cbn in E; lia). by exists w1.
Qed.

Lemma started w : start_inv (length (tables w)) (length (tables w)) [] w -> lb_inv (w <| init := true |>).
Proof.
  intros [H1 H2 H3 H4 H5 H6 H7]. apply list.Forall_cons in H6 as [_ H6]. split; cbn; try done. apply Forall_lookup. intros j t Hj. specialize (H2 j t Hj).
  pose proof (lookup_lt_Some _ _ _ Hj). unfold table_state in H2. rewrite !(proj2 (Nat.leb_gt (length (tables w)) j)) in H2 by lia. by destruct (own (id w) j).
Qed.
End start.

(** ** Who allocates which table *)

Lemma filter_none {A} (P : A -> Prop) `{!forall x, Decision (P x)} (l : list A) : (forall x, x ∈ l -> ~ P x) -> filter P l = [].
Proof.
  induction l as [|x l IH]; intros Hl; [done|]. rewrite filter_cons_False by (apply Hl; by left). apply IH. intros y Hy. apply Hl. by right.
Qed.

(** The loop of [main] allocates the tables whose number is the process's
    modulo the number of processes: with [attached], every table once. *)
Lemma allocated_own fuel me parts lbs i :
  0 <= me < lbs -> 0 <= i -> i mod lbs = me -> parts + lbs < 2 ^ 64 -> Z.max 0 (parts - i) < Z.of_nat fuel ->
  allocated fuel i parts lbs = Some (filter (fun j => j mod lbs = me) (seqZ i (parts - i))).
Proof.
  intros Hme. revert i. induction fuel as [|fuel IH]; intros i Hi Hmod Hb Hf; cbn [allocated]; [lia|].
  destruct (Z.ltb_spec i parts) as [Hlt|Hge]; [|by rewrite seqZ_nil by lia].
  assert ((i + lbs) mod lbs = me) as Hm by (replace (i + lbs) with (i + 1 * lbs) by lia; by rewrite Z.mod_add by lia).
  rewrite u64_small, IH by lia. rewrite (seqZ_cons i) by lia. rewrite filter_cons_True by done. cbn [fmap option_fmap option_map]. do 2 f_equal.
  rewrite (seqZ_split (Z.succ i) (Z.pred (parts - i)) (Z.min (lbs - 1) (parts - i - 1))) by lia. rewrite list.filter_app.
  rewrite (filter_none _ (seqZ (Z.succ i) _)).
  - cbn [app]. destruct (Z.le_gt_cases parts (i + lbs)); [by rewrite !seqZ_nil by lia|]. do 2 f_equal; lia.
  - intros x Hx%elem_of_seqZ Ex. pose proof (Z.div_mod i lbs ltac:(lia)). pose proof (Z.div_mod x lbs ltac:(lia)).
    assert (x - i = lbs * (x / lbs - i / lbs)) as E by (rewrite Z.mul_sub_distr_l; lia). assert (0 < x / lbs - i / lbs < 1) by nia. lia.
Qed.

Lemma every_table fuel me parts lbs :
  0 <= me < lbs -> parts + lbs < 2 ^ 64 -> 0 <= parts < Z.of_nat fuel ->
  exists l, allocated fuel me parts lbs = Some l /\ l ++ attached me parts lbs ≡ₚ seqZ 0 parts.
Proof.
  intros Hme Hb Hf. exists (filter (fun j => j mod lbs = me) (seqZ 0 parts)). split; [|apply filter_app_complement].
  assert (me mod lbs = me) as Em by by apply Z.mod_small.
  assert (forall n, n <= me -> filter (fun j => j mod lbs = me) (seqZ 0 n) = []) as Hnone.
  { intros n Hn. apply filter_none. intros x Hx%elem_of_seqZ. rewrite Z.mod_small by lia. lia. }
  rewrite (allocated_own fuel me parts lbs me) by lia. destruct (Z.le_gt_cases parts me) as [Hle|Hgt].
  - by rewrite Hnone, seqZ_nil by lia.
  - rewrite (seqZ_split 0 parts me) by lia. by rewrite list.filter_app, Hnone by lia.
Qed.

(** ** The program *)

Lemma serve_runs fuel data lbs w c cs :
  0 < lbs -> start_inv lbs 0 0 [] w -> (length (arrivals w) < fuel)%nat -> Z.of_nat (length (flows w)) = FLOWS_IN_SYSTEM -> Z.of_nat (length (deleted w)) = REPLACEMENT_RATE ->
  clocks w = c :: cs -> (length cs < fuel)%nat -> RUN_SECS <= reports c cs ->
  exists w', runs (serve fuel data (length (tables w)) lbs) w tt w' /\ run_inv w' /\ Z.of_nat (length (printed w')) = Z.of_nat (length (printed w)) + RUN_SECS.
Proof.
  intros Hl Hi Har Hf Hd Hc Hfuel Hrep. destruct (make_tables_runs lbs fuel data w Hi) as (w1 & R1 & Hi1 & Hs1 & Hl1 & _); [lia|].
  rewrite <- Hl1 in Hi1. pose proof (started lbs w1 Hi1) as Hi2. unfold runs, Lb.serve. rewrite (bind_runs _ _ _ _ _ R1), (bind_runs _ _ _ _ _ (runs_modify _ _)).
  destruct Hs1 as [_ _ _ _ E5 E6 E7 E8].
  destruct (test_runs fuel lbs (w1 <| init := true |>) c cs Hi2 Hl) as (w2 & R2 & Hw2 & Hp2);
    [by cbn; rewrite E5|by cbn; rewrite E6|by cbn; rewrite E7|lia|done|]. exists w2. split; [exact R2|]. split; [done|]. rewrite Hp2. cbn. by rewrite E8.
Qed.

Lemma make_luts_runs fuel stack1 stack2 parts backends i j w :
  Z.of_nat parts <= EMPTY -> Z.of_nat backends <= EMPTY -> (i < parts)%nat -> (j < backends)%nat ->
  Z.odd (skip_of [108; 98; 115] stack1 LUT_SIZE i) = true -> Z.odd (skip_of [98; 97; 99; 107; 101; 110; 100] stack2 LUT_SIZE j) = true ->
  (LUT_SIZE + 1) * (LUT_SIZE + 1) <= Z.of_nat fuel ->
  exists l1 l2, runs (make_luts fuel stack1 stack2 parts backends) w tt (w <| lut_lb := l1 |> <| lut_backend := l2 |>)
    /\ Z.of_nat (length l1) = LUT_SIZE /\ Z.of_nat (length l2) = LUT_SIZE
    /\ (forall x, x ∈ l1 -> 0 <= x < Z.of_nat parts) /\ (forall x, x ∈ l2 -> 0 <= x < Z.of_nat backends).
Proof.
  intros Hp Hb Hi Hj Oi Oj Hf. change LUT_SIZE with (2 ^ 11) in *.
  assert (forall pfx stack n k s, Z.of_nat n <= EMPTY -> (k < n)%nat -> Z.odd (skip_of pfx stack (2 ^ 11) k) = true ->
    exists s', runs (generate_lut fuel pfx stack n (2 ^ 11)) s tt s' /\ Z.of_nat (length (lut s')) = 2 ^ 11 /\ forall x, x ∈ lut s' -> 0 <= x < Z.of_nat n) as H.
  { intros pfx stack n k s Hn Hk Ho. destruct (generate_lut_runs fuel pfx stack n 11 k s) as (s' & R & Hl & Hx); [lia|done|done|done|done|].
    exists s'. split; [done|]. split; [done|]. intros x (m & Hm)%list_elem_of_lookup. pose proof (lookup_lt_Some _ _ _ Hm).
    destruct (Hx (Z.of_nat m) ltac:(lia)) as (b & E & Hr). rewrite Nat2Z.id, Hm in E. by injection E as ->. }
  destruct (H _ stack1 parts i (mk_lut (lut_lb w) [] 0) Hp Hi Oi) as (s1 & R1 & L1 & X1).
  destruct (H _ stack2 backends j (mk_lut (lut_backend w) [] 0) Hb Hj Oj) as (s2 & R2 & L2 & X2).
  exists (lut s1), (lut s2). split; [|done]. unfold runs, make_luts. change LUT_SIZE with (2 ^ 11). by rewrite R1, R2.
Qed.

(** C31: a connection keeps its backend. While a load balancer runs,
    [find_backend] gives every packet the backend that the look-up table names
    for its address, be the connection known or new; if a new one does not fit,
    only the counter of failures tells. A packet for a new connection of another
    process's table is the exception: it is answered with 0, which is also the
    number of a backend, the owner is called, and no table changes. *)
Theorem find_backend_affine w tbl t owner a :
  lb_inv w -> tables w !! tbl = Some t -> 0 <= a < ADDR_RANGE ->
  exists M r w', is_map (cuckoo t) BUCKETS ENTRIES M /\ runs (find_backend owner tbl a) w r w' /\ lb_inv w'
    /\ found w tbl M owner a r w' /\ (is_Some (M !! a) \/ id w = owner -> backend_is (lut_backend w) a r).
Proof.
  intros Hi Ht Ha. destruct (Forall_lookup_1 _ _ _ _ (li_tables _ Hi) Ht) as (Hr & M & Hm & HM).
  destruct (find_backend_runs w Hi tbl t Ht M Hm Hr HM owner a Ha) as (r & w' & R & Hi' & _ & Hf). exists M, r, w'.
  split; [done|]. split; [done|]. split; [done|]. split; [done|]. destruct Hf as [_ Hf]. intros Hor. destruct (M !! a) as [b|]; [apply Hf|].
  destruct Hor as [[]|Eo]; [done|]. rewrite <- Eo, Z.eqb_refl in Hf. apply Hf.
Qed.

(** At the start the process's own tables are memory of new areas; those of the
    other processes are ready and empty, or not ready and a copy will arrive. *)
Definition own_fresh_others_come (lbs : Z) (w : lb) (i : nat) (t : ConnectionTable) : Prop :=
  if own lbs (id w) i then fresh t
  else (ready_ t = true /\ is_map (cuckoo t) BUCKETS ENTRIES ∅) \/ (ready_ t = false /\ due [] (arrivals w) i).

(** C30: a load balancer runs to its end. The first process fills the two
    look-up tables, makes its tables, waits until the tables of the other
    processes, of which copies arrive while it waits, are ready, and serves
    packets, calls of other processes and further copies, whichever arrive,
    until its 30th report: no array is left, no table runs out of entries, and
    at the end every address in a table has its backend. There are at most 1024
    partitions; each look-up table has a step that is odd (otherwise it may not be
    filled, [generate_lut_never_ends]); calls are about addresses the programs
    generate, copies are of tables of other processes and name the backends
    the look-up table names; the readings of the clock lead to 30 reports; and
    the turns are bounded by the arrivals and the readings. *)
Theorem load_balancer_serves fuel stack1 stack2 backends data lbs i j w c cs :
  let parts := length (tables w) in
  Z.of_nat parts <= MAX_LBS -> Z.of_nat backends <= EMPTY -> (i < parts)%nat -> (j < backends)%nat ->
  Z.odd (skip_of [108; 98; 115] stack1 LUT_SIZE i) = true -> Z.odd (skip_of [98; 97; 99; 107; 101; 110; 100] stack2 LUT_SIZE j) = true ->
  0 < lbs -> init w = false -> (forall k t, tables w !! k = Some t -> own_fresh_others_come lbs w k t) ->
  (forall l1 l2, runs (make_luts fuel stack1 stack2 parts backends) w tt (w <| lut_lb := l1 |> <| lut_backend := l2 |>) ->
     Forall (Forall (event_ok l2)) (arrivals w)) ->
  Forall (Forall (foreign lbs (id w))) (arrivals w) ->
  Z.of_nat (length (flows w)) = FLOWS_IN_SYSTEM -> Z.of_nat (length (deleted w)) = REPLACEMENT_RATE ->
  clocks w = c :: cs -> RUN_SECS <= reports c cs ->
  (length (arrivals w) < fuel)%nat -> (length cs < fuel)%nat -> (LUT_SIZE + 1) * (LUT_SIZE + 1) <= Z.of_nat fuel ->
  exists w', runs (make_luts fuel stack1 stack2 parts backends;; serve fuel data parts lbs) w tt w' /\ run_inv w'
    /\ Z.of_nat (length (printed w')) = Z.of_nat (length (printed w)) + RUN_SECS.
Proof.
  intros parts Hp Hb Hi Hj Oi Oj Hl Hini Ht Har Hfor Hf Hd Hc Hrep Hfu0 Hfu1 Hfu2.
  destruct (make_luts_runs fuel stack1 stack2 parts backends i j w) as (l1 & l2 & R & L1 & L2 & X1 & _);
    [unfold MAX_LBS, EMPTY in *; lia|done..|]. specialize (Har l1 l2 R). unfold runs. rewrite (bind_runs _ _ _ _ _ R).
  set (w1 := w <| lut_lb := l1 |> <| lut_backend := l2 |>). apply (serve_runs fuel data lbs w1 c cs); try done.
  split; try done; cbn; [|by constructor|by constructor].
  intros k t Hk. specialize (Ht k t Hk). unfold own_fresh_others_come in Ht. unfold table_state. cbn. destruct (own lbs (id w) k); [done|].
  destruct Ht as [[Hr Hm]|?]; [left|by right]. split; [done|]. exists ∅. split; [done|]. by intros a b ?%lookup_empty_Some.
Qed.
End with_fuel.

(** Three partitions and two processes; the table of the other one is not ready
    at first and arrives with the third call of [tasvir_service]. *)
Definition demo_fresh : ConnectionTable :=
  mk_ct false (mk_cuckoo 0 0 0 0 0 0 0 0 0 0 0 (replicate (Z.to_nat ENTRIES) 0) (replicate (Z.to_nat ENTRIES) Entry0) (replicate (Z.to_nat BUCKETS) Bucket0) []).

Lemma demo_fresh_ok : fresh demo_fresh.
Proof. destruct sizes_ok as (_ & Hn & E). split; cbn; [|split; [|done]]; rewrite length_replicate; lia. Qed.

Definition demo_lb (ts : list ConnectionTable) (lut1 lut2 : list Z) (copies : list event) : lb :=
  mk_lb 0 false ts lut1 lut2 0 0 0 0 0 0 0 42 31 (replicate (Z.to_nat FLOWS_IN_SYSTEM) 0) (replicate (Z.to_nat REPLACEMENT_RATE) 0) [] []
    [[EvFind 7; EvRem 7]; []; EvFind 123456 :: copies] ((fun s => s * 1000000) <$> seqZ 5 31).

(** A new table is in order, whatever the backends. *)
Lemma empty_table_ok luts t : ready_ t = true -> is_map (cuckoo t) BUCKETS ENTRIES ∅ -> table_ok luts t.
Proof. intros Hr Hm. split; [done|]. exists ∅. split; [done|]. by intros a b ?%lookup_empty_Some. Qed.

Lemma find_backend_affine_witness :
  exists t w', runs (find_backend 2 0 1 5000) (demo_lb [t; t] (seqZ 0 2048) (replicate 2048 1) []) 904 w' /\ served w' = 1.
Proof.
  destruct (LbCreate_runs 2 ltac:(lia) 4096 _ demo_fresh ltac:(reflexivity) demo_fresh_ok) as (t & _ & Hr & Hm).
  pose proof (empty_table_ok (seqZ 0 2048) t Hr Hm) as Ht.
  destruct (find_backend_affine 2 ltac:(lia) (demo_lb [t; t] (seqZ 0 2048) (replicate 2048 1) []) 1 t 0 5000) as (M & r & w' & _ & R & _ & [Hs _] & Hb).
  - split; cbn [demo_lb tables lut_backend lut_lb arrivals]; [do 2 (constructor; [done|]); constructor|by rewrite length_seqZ|by rewrite length_replicate| |].
    + intros x [-> _]%elem_of_replicate. cbn. lia.
    + unfold ADDR_RANGE. repeat constructor; cbn; unfold ADDR_RANGE; lia.
  - done.
  - unfold ADDR_RANGE. lia.
  - specialize (Hb (or_intror eq_refl)). vm_compute in Hb. injection Hb as <-. by exists t, w'.
Defined.

Lemma load_balancer_serves_witness :
  exists t w', runs (make_luts (Z.to_nat 4200000) zero_stack zero_stack 3 3;; serve 2 (Z.to_nat 4200000) (fun _ => 4096) 3 2)
    (demo_lb [demo_fresh; demo_fresh; demo_fresh] [] [] [EvSync 1 t]) tt w' /\ length (printed w') = 30%nat.
Proof.
  destruct (LbCreate_runs 2 ltac:(lia) 4096 _ demo_fresh ltac:(reflexivity) demo_fresh_ok) as (t & _ & Hr & Hm). exists t.
  destruct (load_balancer_serves 2 ltac:(lia) (Z.to_nat 4200000) zero_stack zero_stack 3 (fun _ => 4096) 2 0 0 (demo_lb [demo_fresh; demo_fresh; demo_fresh] [] [] [EvSync 1 t])
    5000000 ((fun s => s * 1000000) <$> seqZ 6 30)) as (w' & R & _ & Hp).
  - unfold MAX_LBS. cbn. lia.
  - unfold EMPTY. lia.
  - cbn. lia.
  - lia.
  - vm_compute. reflexivity.
  - vm_compute. reflexivity.
  - lia.
  - reflexivity.
  - intros k t1 Hk. unfold own_fresh_others_come, own. cbn [demo_lb tables id arrivals] in *. destruct k as [|[|[|k]]]; [| | |done]; injection Hk as <-.
    + exact demo_fresh_ok.
    + right. split; [done|]. exists t. right. eexists. split; [right; right; left; reflexivity|right; left; reflexivity].
    + exact demo_fresh_ok.
  - intros l1 l2 _. cbn [demo_lb arrivals]. repeat constructor; cbn [event_ok]; try by apply empty_table_ok. all: unfold ADDR_RANGE; lia.
  - cbn [demo_lb arrivals id]. repeat constructor.
  - cbn [demo_lb flows]. rewrite length_replicate, Z2Nat.id; [reflexivity|unfold FLOWS_IN_SYSTEM; lia].
  - cbn [demo_lb deleted]. rewrite length_replicate, Z2Nat.id; [reflexivity|unfold REPLACEMENT_RATE; lia].
  - vm_compute. reflexivity.
  - vm_compute. discriminate.
  - cbn [demo_lb arrivals length]. lia.
  - rewrite length_fmap, length_seqZ. lia.
  - rewrite Z2Nat.id; unfold LUT_SIZE; lia.
  - exists w'. split; [exact R|]. cbn [demo_lb printed length] in Hp. unfold RUN_SECS in Hp. lia.
Defined.
